(** * xv6 file system (fs.c / fs.h): a shallow embedding and its properties

    The embedding follows [fs.c] function by function.  Machine integers are
    mathematical integers with their conversions written out, disk blocks are
    lists of bytes, the buffer cache is a store of blocks addressed by block
    number together with the set of buffers that are currently locked, and
    the inode cache is an array of slots addressed by index (a
    [struct inode *] is the index of its slot). *)

From Stdlib Require Import ZArith Lia String.
From stdpp Require Import base numbers list.

Local Open Scope string_scope.
Local Open Scope list_scope.
Local Open Scope Z_scope.

(** ** Constants of fs.h *)

Definition ROOTINO : Z := 1.
Definition BSIZE : Z := 512.
Definition NDIRECT : Z := 11.
(** [sizeof(uint)] is 4. *)
Definition NINDIRECT : Z := BSIZE / 4.
Definition MAXFILE : Z := NDIRECT + NINDIRECT + NINDIRECT * NINDIRECT.
(** [sizeof(struct dinode)]: four shorts, one uint, NDIRECT+2 uints. *)
Definition DINODE_SIZE : Z := 4 * 2 + 4 + (NDIRECT + 1 + 1) * 4.
Definition IPB : Z := BSIZE / DINODE_SIZE.
Definition BPB : Z := BSIZE * 8.
Definition DIRSIZ : Z := 14.
(** [sizeof(struct dirent)]: a ushort and DIRSIZ chars. *)
Definition DIRENT_SIZE : Z := 2 + DIRSIZ.

(** ** Machine integers *)

(** Conversion to [uint] (32 bits, wraps). *)
Definition to_uint (x : Z) : Z := x mod 2 ^ 32.
(** Conversion to [int] (32 bits, two's complement). *)
Definition to_int (x : Z) : Z := (x + 2 ^ 31) mod 2 ^ 32 - 2 ^ 31.
(** Conversion to [ushort] and [short]. *)
Definition to_ushort (x : Z) : Z := x mod 2 ^ 16.
Definition to_short (x : Z) : Z := (x + 2 ^ 15) mod 2 ^ 16 - 2 ^ 15.
(** Conversion to [uchar]. *)
Definition to_uchar (x : Z) : Z := x mod 256.

Definition INT_MAX : Z := 2 ^ 31 - 1.
Definition UINT_MAX : Z := 2 ^ 32 - 1.

(** ** Blocks and their fields *)

(** A block is [uchar data[BSIZE]]. *)
Abbreviation block := (list Z).

Definition zero_block : block := replicate (Z.to_nat BSIZE) 0.

(** [data[i]] *)
Definition byte_at (d : list Z) (i : Z) : Z :=
  to_uchar (default 0 (d !! Z.to_nat i)).

(** [data[i] = v] *)
Definition set_byte (d : list Z) (i : Z) (v : Z) : list Z :=
  <[Z.to_nat i := to_uchar v]> d.

(** [((ushort* )(data + pos))[0]], little endian. *)
Definition ushort_at (d : list Z) (pos : Z) : Z :=
  byte_at d pos + 2 ^ 8 * byte_at d (pos + 1).

Definition set_ushort (d : list Z) (pos : Z) (v : Z) : list Z :=
  set_byte (set_byte d pos v) (pos + 1) (v / 2 ^ 8).

(** The uint stored at byte offset [pos], little endian. *)
Definition uint_at_pos (d : list Z) (pos : Z) : Z :=
  byte_at d pos + 2 ^ 8 * byte_at d (pos + 1)
  + 2 ^ 16 * byte_at d (pos + 2) + 2 ^ 24 * byte_at d (pos + 3).

Definition set_uint_pos (d : list Z) (pos : Z) (v : Z) : list Z :=
  set_byte (set_byte (set_byte (set_byte d pos v) (pos + 1) (v / 2 ^ 8))
                     (pos + 2) (v / 2 ^ 16)) (pos + 3) (v / 2 ^ 24).

(** [((uint* )data)[j]] *)
Definition uint_at (d : list Z) (j : Z) : Z := uint_at_pos d (4 * j).
Definition set_uint (d : list Z) (j : Z) (v : Z) : list Z := set_uint_pos d (4 * j) v.

(** The [m] bytes at [p + pos], as [memmove] reads them. *)
Definition sub_bytes (d : list Z) (pos : Z) (m : Z) : list Z :=
  (fun i => byte_at d (pos + Z.of_nat i)) <$> seq 0 (Z.to_nat m).

(** [memmove(p + pos, src, length src)] *)
Definition put_bytes (d : list Z) (pos : Z) (src : list Z) : list Z :=
  list_inserts (Z.to_nat pos) src d.

(** ** Superblock, inodes *)

Record superblock := {
  sb_size : Z;
  sb_nblocks : Z;
  sb_ninodes : Z;
  sb_nlog : Z;
  sb_logstart : Z;
  sb_inodestart : Z;
  sb_bmapstart : Z
}.

(** [memmove(sb, bp->data, sizeof( *sb))] *)
Definition decode_sb (d : block) : superblock :=
  {| sb_size := uint_at d 0; sb_nblocks := uint_at d 1; sb_ninodes := uint_at d 2;
     sb_nlog := uint_at d 3; sb_logstart := uint_at d 4; sb_inodestart := uint_at d 5;
     sb_bmapstart := uint_at d 6 |}.

(** Block containing inode [i]: [((i) / IPB + sb.inodestart)], unsigned. *)
Definition IBLOCK (i : Z) (s : superblock) : Z := to_uint (i / IPB + sb_inodestart s).

(** Block of the free map containing the bit for block [b]:
    [(b/BPB + sb.bmapstart)].  The quotient is C's, which truncates; the sum
    is unsigned. *)
Definition BBLOCK (b : Z) (s : superblock) : Z := to_uint (Z.quot b BPB + sb_bmapstart s).

(** Modelled from the spec: the in-memory inode handle of file.h, which is not
    among the sources: "device id, inode number, reference count, validity
    flag, a lock, and a cached copy of the on-disk fields".  The reference
    count and the validity flag are [int]s, the copy has the types of
    [struct dinode]; [i_locked] is the state of the handle's sleep-lock. *)
Record inode := {
  i_dev : Z;
  i_inum : Z;
  i_ref : Z;
  i_locked : bool;
  i_valid : Z;
  i_type : Z;
  i_major : Z;
  i_minor : Z;
  i_nlink : Z;
  i_size : Z;
  i_addrs : list Z
}.

Definition blank_inode : inode :=
  {| i_dev := 0; i_inum := 0; i_ref := 0; i_locked := false; i_valid := 0;
     i_type := 0; i_major := 0; i_minor := 0; i_nlink := 0; i_size := 0;
     i_addrs := replicate (Z.to_nat (NDIRECT + 2)) 0 |}.

(** [ip->addrs[k]] *)
Definition addr_at (i : inode) (k : Z) : Z := default 0 (i_addrs i !! Z.to_nat k).

Definition with_addr (i : inode) (k : Z) (a : Z) : inode :=
  {| i_dev := i_dev i; i_inum := i_inum i; i_ref := i_ref i; i_locked := i_locked i;
     i_valid := i_valid i; i_type := i_type i; i_major := i_major i;
     i_minor := i_minor i; i_nlink := i_nlink i; i_size := i_size i;
     i_addrs := <[Z.to_nat k := a]> (i_addrs i) |}.

Definition with_size (i : inode) (s : Z) : inode :=
  {| i_dev := i_dev i; i_inum := i_inum i; i_ref := i_ref i; i_locked := i_locked i;
     i_valid := i_valid i; i_type := i_type i; i_major := i_major i;
     i_minor := i_minor i; i_nlink := i_nlink i; i_size := s;
     i_addrs := i_addrs i |}.

Definition with_type (i : inode) (t : Z) : inode :=
  {| i_dev := i_dev i; i_inum := i_inum i; i_ref := i_ref i; i_locked := i_locked i;
     i_valid := i_valid i; i_type := t; i_major := i_major i;
     i_minor := i_minor i; i_nlink := i_nlink i; i_size := i_size i;
     i_addrs := i_addrs i |}.

Definition with_ref (i : inode) (r : Z) : inode :=
  {| i_dev := i_dev i; i_inum := i_inum i; i_ref := r; i_locked := i_locked i;
     i_valid := i_valid i; i_type := i_type i; i_major := i_major i;
     i_minor := i_minor i; i_nlink := i_nlink i; i_size := i_size i;
     i_addrs := i_addrs i |}.

Definition with_valid (i : inode) (v : Z) : inode :=
  {| i_dev := i_dev i; i_inum := i_inum i; i_ref := i_ref i; i_locked := i_locked i;
     i_valid := v; i_type := i_type i; i_major := i_major i;
     i_minor := i_minor i; i_nlink := i_nlink i; i_size := i_size i;
     i_addrs := i_addrs i |}.

Definition with_locked (i : inode) (l : bool) : inode :=
  {| i_dev := i_dev i; i_inum := i_inum i; i_ref := i_ref i; i_locked := l;
     i_valid := i_valid i; i_type := i_type i; i_major := i_major i;
     i_minor := i_minor i; i_nlink := i_nlink i; i_size := i_size i;
     i_addrs := i_addrs i |}.

(** [struct dinode] at byte offset [pos] of an inode block. *)
Definition dinode_type (d : block) (pos : Z) : Z := to_short (ushort_at d pos).
Definition dinode_major (d : block) (pos : Z) : Z := to_short (ushort_at d (pos + 2)).
Definition dinode_minor (d : block) (pos : Z) : Z := to_short (ushort_at d (pos + 4)).
Definition dinode_nlink (d : block) (pos : Z) : Z := to_short (ushort_at d (pos + 6)).
Definition dinode_size (d : block) (pos : Z) : Z := uint_at_pos d (pos + 8).
Definition dinode_addrs (d : block) (pos : Z) : list Z :=
  (fun k => uint_at_pos d (pos + 12 + 4 * Z.of_nat k)) <$> seq 0 (Z.to_nat (NDIRECT + 2)).

(** [memmove(dip->addrs, addrs, sizeof(ip->addrs))] *)
Fixpoint put_addrs (d : block) (pos : Z) (l : list Z) : block :=
  match l with
  | [] => d
  | a :: l' => put_addrs (set_uint_pos d pos a) (pos + 4) l'
  end.

(** The assignments of [iupdate] to [*dip]. *)
Definition put_dinode (d : block) (pos : Z) (i : inode) : block :=
  let d := set_ushort d pos (i_type i) in
  let d := set_ushort d (pos + 2) (i_major i) in
  let d := set_ushort d (pos + 4) (i_minor i) in
  let d := set_ushort d (pos + 6) (i_nlink i) in
  let d := set_uint_pos d (pos + 8) (i_size i) in
  put_addrs d (pos + 12) (take (Z.to_nat (NDIRECT + 2)) (i_addrs i)).

(** ** The state of the file system layer *)

(** Modelled from the spec: the buffer cache, the log and the process table
    are external collaborators (bio.c, log.c, proc.c are not among the
    sources).  [disk] is what [bread] returns for each block number ("a flat
    array of fixed-size disk blocks"; the sources run with one device only);
    [held] lists the buffers that were fetched and not yet released
    ("synchronized, must be released after use"); [logged] lists the blocks
    handed to [log_write], most recent first ("queues a buffer's content for
    atomic commit"); [sb] is the global [struct superblock sb]; [icache] is
    [icache.inode[NINODE]]; [cwd] is [myproc()->cwd]. *)
Record state := {
  disk : list block;
  held : list Z;
  logged : list Z;
  sb : superblock;
  icache : list inode;
  cwd : nat
}.

Definition with_disk (st : state) (d : list block) : state :=
  {| disk := d; held := held st; logged := logged st; sb := sb st;
     icache := icache st; cwd := cwd st |}.
Definition with_held (st : state) (h : list Z) : state :=
  {| disk := disk st; held := h; logged := logged st; sb := sb st;
     icache := icache st; cwd := cwd st |}.
Definition with_logged (st : state) (l : list Z) : state :=
  {| disk := disk st; held := held st; logged := l; sb := sb st;
     icache := icache st; cwd := cwd st |}.
Definition with_sb (st : state) (s : superblock) : state :=
  {| disk := disk st; held := held st; logged := logged st; sb := s;
     icache := icache st; cwd := cwd st |}.
Definition with_icache (st : state) (c : list inode) : state :=
  {| disk := disk st; held := held st; logged := logged st; sb := sb st;
     icache := c; cwd := cwd st |}.

(** The content of block [b]. *)
Definition block_data (st : state) (b : Z) : block := default [] (disk st !! Z.to_nat b).

(** The slot behind a [struct inode *]. *)
Definition inode_of (st : state) (ip : nat) : inode := default blank_inode (icache st !! ip).

(** ** Outcomes: return, panic, or wait for ever *)

(** A routine returns a value in a new state, or it calls [panic], which
    does not return, or it blocks for ever on a lock that its own caller
    holds. *)
Inductive outcome (A : Type) : Type :=
| Ret (a : A) (st : state)
| Panic (msg : string)
| Hang.
Arguments Ret {A} a st.
Arguments Panic {A} msg.
Arguments Hang {A}.

Definition M (A : Type) : Type := state -> outcome A.

Definition ret {A} (a : A) : M A := fun st => Ret a st.
Definition bind {A B} (m : M A) (k : A -> M B) : M B :=
  fun st => match m st with
            | Ret a st' => k a st'
            | Panic msg => Panic msg
            | Hang => Hang
            end.
Definition panic {A} (msg : string) : M A := fun _ => Panic msg.
Definition hang {A} : M A := fun _ => Hang.
Definition get : M state := fun st => Ret st st.
Definition gets {A} (f : state -> A) : M A := fun st => Ret (f st) st.
Definition modify (f : state -> state) : M unit := fun st => Ret tt (f st).

Declare Scope fs_scope.
Delimit Scope fs_scope with fs.
Notation "'let*' x := c1 'in' c2" := (bind c1 (fun x => c2))
  (at level 10, x name, c1 at level 100, c2 at level 200) : fs_scope.
Notation "c1 ;; c2" := (bind c1 (fun _ => c2))
  (at level 100, c2 at level 200, right associativity) : fs_scope.
Local Open Scope fs_scope.

(** [ip->f] and [ip->f = v] on a slot of the inode cache. *)
Definition iread {A} (ip : nat) (f : inode -> A) : M A := gets (fun st => f (inode_of st ip)).
Definition set_inode (st : state) (ip : nat) (i : inode) : state :=
  with_icache st (<[ip := i]> (icache st)).
Definition iwrite (ip : nat) (f : inode -> inode) : M unit :=
  modify (fun st => set_inode st ip (f (inode_of st ip))).

(** ** The buffer cache and the log, as this layer uses them *)

(** Modelled from the spec: [bread] ("fetch(device, block_number) -> buffer,
    synchronized") locks the buffer of the block and returns it; a buffer is
    identified by its block number.  Fetching a buffer that the caller
    itself still holds never returns.  A block number outside the disk is
    refused by the driver with a panic. *)
Definition bread (dev : Z) (b : Z) : M Z := fun st =>
  if bool_decide (b ∈ held st) then Hang
  else match disk st !! Z.to_nat b with
       | None => Panic "incorrect blockno"
       | Some _ => Ret b (with_held st (b :: held st))
       end.

(** Remove the first occurrence of [b]. *)
Fixpoint remove_first (b : Z) (l : list Z) : list Z :=
  match l with
  | [] => []
  | x :: l' => if bool_decide (x = b) then l' else x :: remove_first b l'
  end.

(** Modelled from the spec: [brelse] ("release(buffer)") unlocks the buffer;
    releasing a buffer that is not held is a panic. *)
Definition brelse (bp : Z) : M unit := fun st =>
  if bool_decide (bp ∈ held st) then Ret tt (with_held st (remove_first bp (held st)))
  else Panic "brelse".

(** Modelled from the spec: [log_write] ("mark_dirty(buffer)") records the
    block for the commit of the transaction. *)
Definition log_write (bp : Z) : M unit :=
  modify (fun st => with_logged st (bp :: logged st)).

(** [bp->data] *)
Definition buf_data (bp : Z) : M block := gets (fun st => block_data st bp).
(** A store through [bp->data]. *)
Definition set_block (st : state) (b : Z) (d : block) : state :=
  with_disk st (<[Z.to_nat b := d]> (disk st)).
Definition buf_update (bp : Z) (f : block -> block) : M unit :=
  modify (fun st => set_block st bp (f (block_data st bp))).

(** ** Parameters: constants and tables of headers that are not among the sources *)

(** [T_DIR] and [T_DEV] (stat.h), [NDEV] and [ROOTDEV] (param.h) and the
    device switch [devsw] (file.h): [devsw_read major] is
    [devsw[major].read], [None] when the pointer is null.  [NINODE] is the
    length of [icache]. *)
Class Params := {
  T_DIR : Z;
  T_DEV : Z;
  NDEV : Z;
  ROOTDEV : Z;
  devsw_read : Z -> option (nat -> list Z -> Z -> M (Z * list Z));
  devsw_write : Z -> option (nat -> list Z -> Z -> M Z)
}.

Section FS.
Context `{Params}.

(** ** Blocks *)

(** Read the super block. *)
Definition readsb (dev : Z) : M unit :=
  let* bp := bread dev 1 in
  let* d := buf_data bp in
  modify (fun st => with_sb st (decode_sb d));;
  brelse bp.

(** Zero a block. *)
Definition bzero (dev : Z) (bno : Z) : M unit :=
  let* bp := bread dev (to_uint bno) in
  buf_update bp (fun _ => zero_block);;
  log_write bp;;
  brelse bp.

(** The inner loop of [balloc]:
    [for(bi = 0; bi < BPB && b + bi < sb.size; bi++)], entered with [bi] and
    [n] iterations left before [bi] reaches [BPB].  [Some a] is the
    [return b + bi] of the loop body, [None] the end of the loop. *)
Fixpoint balloc_bits (dev bp b : Z) (n : nat) (bi : Z) : M (option Z) :=
  match n with
  | O => ret None
  | S n' =>
    let* s := gets sb in
    if (bi <? BPB) && (to_uint (b + bi) <? sb_size s) then
      let m := Z.shiftl 1 (bi mod 8) in
      let* d := buf_data bp in
      if Z.land (byte_at d (bi / 8)) m =? 0 then
        buf_update bp (fun d => set_byte d (bi / 8) (Z.lor (byte_at d (bi / 8)) m));;
        log_write bp;;
        brelse bp;;
        bzero dev (to_int (b + bi));;
        ret (Some (to_uint (b + bi)))
      else balloc_bits dev bp b n' (bi + 1)
    else ret None
  end.

(** The outer loop of [balloc]: [for(b = 0; b < sb.size; b += BPB)].  [b] is
    an [int] that steps through the multiples of [BPB], and an iteration
    that finds nothing leaves the state as it was.  [n] bounds the number of
    tests of [b < sb.size]: the loop ends within [sb.size / BPB + 2] tests,
    or [b] has wrapped around to 0 by then and the loop never ends. *)
Fixpoint balloc_blocks (dev : Z) (n : nat) (b : Z) : M Z :=
  match n with
  | O => hang
  | S n' =>
    let* s := gets sb in
    if to_uint b <? sb_size s then
      let* bp := bread dev (BBLOCK b s) in
      let* r := balloc_bits dev bp b (Z.to_nat BPB) 0 in
      match r with
      | Some a => ret a
      | None => brelse bp;; balloc_blocks dev n' (to_int (b + BPB))
      end
    else panic "balloc: out of blocks"
  end.

(** Allocate a zeroed disk block. *)
Definition balloc (dev : Z) : M Z :=
  let* s := gets sb in
  balloc_blocks dev (Z.to_nat (sb_size s / BPB + 2)) 0.

(** Free a disk block. *)
Definition bfree (dev : Z) (b : Z) : M unit :=
  readsb dev;;
  let* s := gets sb in
  let* bp := bread dev (BBLOCK b s) in
  let bi := to_int (b mod BPB) in
  let m := Z.shiftl 1 (bi mod 8) in
  let* d := buf_data bp in
  if Z.land (byte_at d (bi / 8)) m =? 0 then panic "freeing free block"
  else
    buf_update bp (fun d => set_byte d (bi / 8) (Z.land (byte_at d (bi / 8)) (Z.lnot m)));;
    log_write bp;;
    brelse bp.

(** ** Inodes *)

(** Byte offset of inode [inum] in its block:
    [(struct dinode* )bp->data + inum%IPB]. *)
Definition dinode_pos (inum : Z) : Z := DINODE_SIZE * (inum mod IPB).

(** Copy a modified in-memory inode to disk. *)
Definition iupdate (ip : nat) : M unit :=
  let* i := iread ip id in
  let* s := gets sb in
  let* bp := bread (i_dev i) (IBLOCK (i_inum i) s) in
  let* i := iread ip id in
  buf_update bp (fun d => put_dinode d (dinode_pos (i_inum i)) i);;
  log_write bp;;
  brelse bp.

(** The loop of [iget] over the slots [l] of the cache, the first of which
    is slot [ip]: [inl] is the slot that is already cached (the [return]
    inside the loop), [inr] is [empty] at the end of the loop. *)
Fixpoint iget_scan (dev inum : Z) (l : list inode) (ip : nat) (empty : option nat)
  : nat + option nat :=
  match l with
  | [] => inr empty
  | i :: l' =>
    if (0 <? i_ref i) && (i_dev i =? dev) && (i_inum i =? inum) then inl ip
    else iget_scan dev inum l' (S ip)
           (match empty with
            | None => if i_ref i =? 0 then Some ip else None
            | Some e => Some e
            end)
  end.

Definition claim_slot (dev inum : Z) (i : inode) : inode :=
  {| i_dev := dev; i_inum := inum; i_ref := 1; i_locked := i_locked i;
     i_valid := 0; i_type := i_type i; i_major := i_major i;
     i_minor := i_minor i; i_nlink := i_nlink i; i_size := i_size i;
     i_addrs := i_addrs i |}.

(** Find the inode with number [inum] on device [dev] and return the
    in-memory copy.  ([icache.lock] is taken and released inside each
    routine that uses it and never held across a call; it does not appear in
    the state.) *)
Definition iget (dev inum : Z) : M nat :=
  let* c := gets icache in
  match iget_scan dev inum c 0 None with
  | inl ip => iwrite ip (fun i => with_ref i (to_int (i_ref i + 1)));; ret ip
  | inr None => panic "iget: no inodes"
  | inr (Some ip) => iwrite ip (claim_slot dev inum);; ret ip
  end.

(** Increment reference count for [ip]. *)
Definition idup (ip : nat) : M nat :=
  iwrite ip (fun i => with_ref i (to_int (i_ref i + 1)));; ret ip.

(** Modelled from the spec: the sleep-lock of a handle (sleeplock.c is not
    among the sources): "at most one context holds a given handle's lock at
    a time", "a blocked caller resumes only when the awaited resource
    becomes available".  Acquiring a lock that the caller holds never
    returns. *)
Definition acquiresleep (ip : nat) : M unit :=
  let* l := iread ip i_locked in
  if l then hang else iwrite ip (fun i => with_locked i true).
Definition releasesleep (ip : nat) : M unit := iwrite ip (fun i => with_locked i false).

(** The assignments of [ilock] from [*dip]. *)
Definition load_dinode (d : block) (pos : Z) (i : inode) : inode :=
  {| i_dev := i_dev i; i_inum := i_inum i; i_ref := i_ref i; i_locked := i_locked i;
     i_valid := i_valid i; i_type := dinode_type d pos; i_major := dinode_major d pos;
     i_minor := dinode_minor d pos; i_nlink := dinode_nlink d pos;
     i_size := dinode_size d pos; i_addrs := dinode_addrs d pos |}.

(** Lock the given inode.  Reads the inode from disk if necessary.  (A
    handle is the index of a slot, so the null pointer is not a handle.) *)
Definition ilock (ip : nat) : M unit :=
  let* r := iread ip i_ref in
  if r <? 1 then panic "ilock"
  else
    acquiresleep ip;;
    let* i := iread ip id in
    if i_valid i =? 0 then
      let* s := gets sb in
      let* bp := bread (i_dev i) (IBLOCK (i_inum i) s) in
      let* d := buf_data bp in
      iwrite ip (load_dinode d (dinode_pos (i_inum i)));;
      brelse bp;;
      iwrite ip (fun i => with_valid i 1);;
      let* t := iread ip i_type in
      if t =? 0 then panic "ilock: no type" else ret tt
    else ret tt.

(** Unlock the given inode. *)
Definition iunlock (ip : nat) : M unit :=
  let* i := iread ip id in
  if negb (i_locked i) || (i_ref i <? 1) then panic "iunlock"
  else releasesleep ip.

(** ** Inode content *)

(** [for(i = lo; i < lo + n; i++) body(i)] *)
Fixpoint for_range (n : nat) (i : Z) (body : Z -> M unit) : M unit :=
  match n with
  | O => ret tt
  | S n' => body i;; for_range n' (i + 1) body
  end.

(** Return the disk block address of the nth block in inode [ip].  If there
    is no such block, [bmap] allocates one. *)
Definition bmap (ip : nat) (bn : Z) : M Z :=
  if bn <? NDIRECT then
    let* addr := iread ip (fun i => addr_at i bn) in
    if addr =? 0 then
      let* dev := iread ip i_dev in
      let* addr := balloc dev in
      iwrite ip (fun i => with_addr i bn addr);;
      ret addr
    else ret addr
  else
    let bn := to_uint (bn - NDIRECT) in
    if bn <? NINDIRECT then
      let* addr := iread ip (fun i => addr_at i NDIRECT) in
      let* addr :=
        (if addr =? 0 then
           let* dev := iread ip i_dev in
           let* addr := balloc dev in
           iwrite ip (fun i => with_addr i NDIRECT addr);;
           ret addr
         else ret addr) in
      let* dev := iread ip i_dev in
      let* bp := bread dev addr in
      let* a := buf_data bp in
      let* addr :=
        (if uint_at a bn =? 0 then
           let* dev := iread ip i_dev in
           let* addr := balloc dev in
           buf_update bp (fun a => set_uint a bn addr);;
           log_write bp;;
           ret addr
         else ret (uint_at a bn)) in
      brelse bp;;
      ret addr
    else
      let bn := to_uint (bn - NINDIRECT) in
      if bn <? NINDIRECT * NINDIRECT then
        let* addr := iread ip (fun i => addr_at i (NDIRECT + 1)) in
        let* addr :=
          (if addr =? 0 then
             let* dev := iread ip i_dev in
             let* addr := balloc dev in
             iwrite ip (fun i => with_addr i (NDIRECT + 1) addr);;
             ret addr
           else ret addr) in
        let posBSI := to_int (bn mod NINDIRECT) in
        let bn := bn / NINDIRECT in
        let* dev := iread ip i_dev in
        let* bp := bread dev addr in
        let* a := buf_data bp in
        let* addr :=
          (if uint_at a bn =? 0 then
             let* dev := iread ip i_dev in
             let* addr := balloc dev in
             buf_update bp (fun a => set_uint a bn addr);;
             log_write bp;;
             ret addr
           else ret (uint_at a bn)) in
        brelse bp;;
        let* dev := iread ip i_dev in
        let* bp := bread dev addr in
        let* a := buf_data bp in
        let* addr :=
          (if uint_at a posBSI =? 0 then
             let* dev := iread ip i_dev in
             let* addr := balloc dev in
             buf_update bp (fun a => set_uint a posBSI addr);;
             log_write bp;;
             ret addr
           else ret (uint_at a posBSI)) in
        brelse bp;;
        ret addr
      else panic "bmap: out of range".

(** [if(a[j]) bfree(ip->dev, a[j]);] for an index block held in [bp]. *)
Definition free_entry (ip : nat) (bp : Z) (j : Z) : M unit :=
  let* a := buf_data bp in
  if uint_at a j =? 0 then ret tt
  else
    let* dev := iread ip i_dev in
    bfree dev (uint_at a j).

(** Truncate inode (discard contents). *)
Definition itrunc (ip : nat) : M unit :=
  for_range (Z.to_nat NDIRECT) 0 (fun i =>
    let* addr := iread ip (fun x => addr_at x i) in
    if addr =? 0 then ret tt
    else
      let* dev := iread ip i_dev in
      bfree dev addr;;
      iwrite ip (fun x => with_addr x i 0));;
  let* addr := iread ip (fun x => addr_at x NDIRECT) in
  (if addr =? 0 then ret tt
   else
     let* dev := iread ip i_dev in
     let* bp := bread dev addr in
     for_range (Z.to_nat NINDIRECT) 0 (free_entry ip bp);;
     brelse bp;;
     let* dev := iread ip i_dev in
     let* addr := iread ip (fun x => addr_at x NDIRECT) in
     bfree dev addr;;
     iwrite ip (fun x => with_addr x NDIRECT 0));;
  let* addr := iread ip (fun x => addr_at x (NDIRECT + 1)) in
  (if addr =? 0 then ret tt
   else
     let* dev := iread ip i_dev in
     let* bp := bread dev addr in
     for_range (Z.to_nat NINDIRECT) 0 (fun i =>
       let* a := buf_data bp in
       if uint_at a i =? 0 then ret tt
       else
         let* dev := iread ip i_dev in
         let* bp2 := bread dev (uint_at a i) in
         for_range (Z.to_nat NINDIRECT) 0 (free_entry ip bp2);;
         let* dev := iread ip i_dev in
         let* a := buf_data bp in
         bfree dev (uint_at a i);;
         brelse bp2);;
     brelse bp;;
     let* dev := iread ip i_dev in
     let* addr := iread ip (fun x => addr_at x (NDIRECT + 1)) in
     bfree dev addr;;
     iwrite ip (fun x => with_addr x (NDIRECT + 1) 0));;
  iwrite ip (fun x => with_size x 0);;
  iupdate ip.

(** Drop a reference to an in-memory inode. *)
Definition iput (ip : nat) : M unit :=
  acquiresleep ip;;
  let* i := iread ip id in
  (if negb (i_valid i =? 0) && (i_nlink i =? 0) then
     let* r := iread ip i_ref in
     if r =? 1 then
       itrunc ip;;
       iwrite ip (fun x => with_type x 0);;
       iupdate ip;;
       iwrite ip (fun x => with_valid x 0)
     else ret tt
   else ret tt);;
  releasesleep ip;;
  iwrite ip (fun x => with_ref x (to_int (i_ref x - 1))).

(** Common idiom: unlock, then put. *)
Definition iunlockput (ip : nat) : M unit := iunlock ip;; iput ip.

(** The loop of [readi]: [for(tot=0; tot<n; tot+=m, off+=m, dst+=m)].  [dst]
    is the content of the destination buffer; [fuel] bounds the number of
    tests of [tot<n]. *)
Fixpoint readi_loop (ip : nat) (n : Z) (fuel : nat) (tot off : Z) (dst : list Z)
  : M (list Z) :=
  match fuel with
  | O => hang
  | S fuel' =>
    if tot <? n then
      let* dev := iread ip i_dev in
      let* addr := bmap ip (off / BSIZE) in
      let* bp := bread dev addr in
      let m := Z.min (to_uint (n - tot)) (to_uint (BSIZE - off mod BSIZE)) in
      let* d := buf_data bp in
      let dst := put_bytes dst tot (sub_bytes d (off mod BSIZE) m) in
      brelse bp;;
      readi_loop ip n fuel' (to_uint (tot + m)) (to_uint (off + m)) dst
    else ret dst
  end.

(** Every iteration but the first starts at a block boundary, so the loop
    tests [tot<n] at most [n / BSIZE + 3] times. *)
Definition io_fuel (n : Z) : nat := Z.to_nat (n / BSIZE + 3).

(** Read data from inode.  The result is the returned [int] and the content
    of the destination buffer. *)
Definition readi (ip : nat) (dst : list Z) (off n : Z) : M (Z * list Z) :=
  let* i := iread ip id in
  if i_type i =? T_DEV then
    if (i_major i <? 0) || (NDEV <=? i_major i) then ret (-1, dst)
    else match devsw_read (i_major i) with
         | None => ret (-1, dst)
         | Some f => f ip dst (to_int n)
         end
  else if (i_size i <? off) || (to_uint (off + n) <? off) then ret (-1, dst)
  else
    let n := if i_size i <? to_uint (off + n) then to_uint (i_size i - off) else n in
    let* dst := readi_loop ip n (io_fuel n) 0 off dst in
    ret (to_int n, dst).

(** The loop of [writei]; it returns the final value of [off]. *)
Fixpoint writei_loop (ip : nat) (src : list Z) (n : Z) (fuel : nat) (tot off : Z) : M Z :=
  match fuel with
  | O => hang
  | S fuel' =>
    if tot <? n then
      let* dev := iread ip i_dev in
      let* addr := bmap ip (off / BSIZE) in
      let* bp := bread dev addr in
      let m := Z.min (to_uint (n - tot)) (to_uint (BSIZE - off mod BSIZE)) in
      buf_update bp (fun d => put_bytes d (off mod BSIZE) (sub_bytes src tot m));;
      log_write bp;;
      brelse bp;;
      writei_loop ip src n fuel' (to_uint (tot + m)) (to_uint (off + m))
    else ret off
  end.

(** Write data to inode. *)
Definition writei (ip : nat) (src : list Z) (off n : Z) : M Z :=
  let* i := iread ip id in
  if i_type i =? T_DEV then
    if (i_major i <? 0) || (NDEV <=? i_major i) then ret (-1)
    else match devsw_write (i_major i) with
         | None => ret (-1)
         | Some f => f ip src (to_int n)
         end
  else if (i_size i <? off) || (to_uint (off + n) <? off) then ret (-1)
  else if to_uint (MAXFILE * BSIZE) <? to_uint (off + n) then ret (-1)
  else
    let* off := writei_loop ip src n (io_fuel n) 0 off in
    let* sz := iread ip i_size in
    (if (0 <? n) && (sz <? off) then
       iwrite ip (fun x => with_size x off);;
       iupdate ip
     else ret tt);;
    ret (to_int n).

(** ** Directories *)

(** Modelled from the spec: [strncmp] of string.c, which is not among the
    sources ("names compare only up to the fixed name width"): compare at
    most [n] characters from index [i] on, stopping at the end of [p]; the
    result is zero when no difference was found.  A character string is the
    list of its characters; what follows the list is its terminator. *)
Fixpoint strncmp (p q : list Z) (n : nat) (i : Z) : Z :=
  match n with
  | O => 0
  | S n' =>
    if (byte_at p i =? 0) || negb (byte_at p i =? byte_at q i)
    then byte_at p i - byte_at q i
    else strncmp p q n' (i + 1)
  end.

Definition namecmp (s t : list Z) : Z := strncmp s t (Z.to_nat DIRSIZ) 0.

(** Modelled from the spec: [strncpy] of string.c ("fixed-width,
    truncated/padded"): the first [n] characters of [t], cut at its
    terminator and padded with zeros to [n] characters. *)
Fixpoint strncpy (t : list Z) (n : nat) (i : Z) : list Z :=
  match n with
  | O => []
  | S n' =>
    if byte_at t i =? 0 then replicate n 0
    else byte_at t i :: strncpy t n' (i + 1)
  end.

(** [de.inum] and [de.name] of a [struct dirent] held as its bytes. *)
Definition de_inum (de : list Z) : Z := ushort_at de 0.
Definition de_name (de : list Z) : list Z := sub_bytes de 2 DIRSIZ.

(** The records of a directory of [sz] bytes are met after at most
    [sz / sizeof(de) + 2] tests of [off < dp->size]. *)
Definition dir_fuel (sz : Z) : nat := Z.to_nat (sz / DIRENT_SIZE + 2).

(** The loop of [dirlookup]; [de] is the local [struct dirent]. *)
Fixpoint dirlookup_loop (dp : nat) (name : list Z) (fuel : nat) (off : Z) (de : list Z)
  : M (option (nat * Z)) :=
  match fuel with
  | O => hang
  | S fuel' =>
    let* sz := iread dp i_size in
    if off <? sz then
      let* r := readi dp de off DIRENT_SIZE in
      let de := snd r in
      if negb (fst r =? DIRENT_SIZE) then panic "dirlookup read"
      else if de_inum de =? 0 then
        dirlookup_loop dp name fuel' (to_uint (off + DIRENT_SIZE)) de
      else if namecmp name (de_name de) =? 0 then
        let* dev := iread dp i_dev in
        let* ip := iget dev (de_inum de) in
        ret (Some (ip, off))
      else dirlookup_loop dp name fuel' (to_uint (off + DIRENT_SIZE)) de
    else ret None
  end.

(** Look for a directory entry in a directory.  The result is the handle of
    the entry's inode and the byte offset of the entry (what [*poff] is set
    to), or [None] for the null pointer. *)
Definition dirlookup (dp : nat) (name : list Z) : M (option (nat * Z)) :=
  let* t := iread dp i_type in
  if negb (t =? T_DIR) then panic "dirlookup not DIR"
  else
    let* sz := iread dp i_size in
    dirlookup_loop dp name (dir_fuel sz) 0 (replicate (Z.to_nat DIRENT_SIZE) 0).

(** The loop of [dirlink] that looks for an empty dirent; it returns [off]
    and [de] as the loop leaves them.  Here [off] is an [int]: it is
    converted for the comparison with [dp->size] and for [readi], and the
    sum [off + sizeof(de)] is converted back. *)
Fixpoint dirlink_loop (dp : nat) (fuel : nat) (off : Z) (de : list Z) : M (Z * list Z) :=
  match fuel with
  | O => hang
  | S fuel' =>
    let* sz := iread dp i_size in
    if to_uint off <? sz then
      let* r := readi dp de (to_uint off) DIRENT_SIZE in
      let de := snd r in
      if negb (fst r =? DIRENT_SIZE) then panic "dirlink read"
      else if de_inum de =? 0 then ret (off, de)
      else dirlink_loop dp fuel' (to_int (off + DIRENT_SIZE)) de
    else ret (off, de)
  end.

(** [strncpy(de.name, name, DIRSIZ); de.inum = inum;] *)
Definition make_dirent (de : list Z) (name : list Z) (inum : Z) : list Z :=
  set_ushort (put_bytes de 2 (strncpy name (Z.to_nat DIRSIZ) 0)) 0 inum.

(** Write a new directory entry (name, inum) into the directory [dp]. *)
Definition dirlink (dp : nat) (name : list Z) (inum : Z) : M Z :=
  let* r := dirlookup dp name in
  match r with
  | Some (ip, _) => iput ip;; ret (-1)
  | None =>
    let* sz := iread dp i_size in
    let* r := dirlink_loop dp (dir_fuel sz) 0 (replicate (Z.to_nat DIRENT_SIZE) 0) in
    let off := fst r in
    let de := make_dirent (snd r) name inum in
    let* w := writei dp de (to_uint off) DIRENT_SIZE in
    if negb (w =? DIRENT_SIZE) then panic "dirlink" else ret 0
  end.

(** ** Paths *)

(** A path is the list of its characters; ['/'] is 47. *)
Definition SLASH : Z := 47.

(** [while( *path == '/') path++;] *)
Fixpoint skip_slashes (path : list Z) : list Z :=
  match path with
  | [] => []
  | c :: p => if to_uchar c =? SLASH then skip_slashes p else path
  end.

(** [while( *path != '/' && *path != 0) path++;] *)
Fixpoint skip_name (path : list Z) : list Z :=
  match path with
  | [] => []
  | c :: p => if negb (to_uchar c =? SLASH) && negb (to_uchar c =? 0) then skip_name p else path
  end.

(** Copy the next path element from [path] into [name].  The result is the
    rest of the path and the content of [name], or [None] for the null
    pointer. *)
Definition skipelem (path name : list Z) : option (list Z * list Z) :=
  let path := skip_slashes path in
  if byte_at path 0 =? 0 then None
  else
    let s := path in
    let path := skip_name path in
    let len := Z.of_nat (length s) - Z.of_nat (length path) in
    let name :=
      if DIRSIZ <=? len then put_bytes name 0 (sub_bytes s 0 DIRSIZ)
      else set_byte (put_bytes name 0 (sub_bytes s 0 len)) len 0 in
    Some (skip_slashes path, name).

(** The loop of [namex] and what follows it; every iteration consumes at
    least one character of the path. *)
Fixpoint namex_loop (nameiparent : Z) (fuel : nat) (ip : nat) (path name : list Z)
  : M (option nat * list Z) :=
  match fuel with
  | O => hang
  | S fuel' =>
    match skipelem path name with
    | None =>
      if negb (nameiparent =? 0) then iput ip;; ret (None, name)
      else ret (Some ip, name)
    | Some (path, name) =>
      ilock ip;;
      let* t := iread ip i_type in
      if negb (t =? T_DIR) then iunlockput ip;; ret (None, name)
      else if negb (nameiparent =? 0) && (byte_at path 0 =? 0) then
        iunlock ip;; ret (Some ip, name)
      else
        let* next := dirlookup ip name in
        match next with
        | None => iunlockput ip;; ret (None, name)
        | Some (next, _) => iunlockput ip;; namex_loop nameiparent fuel' next path name
        end
    end
  end.

(** Look up and return the inode for a path name.  The result is the handle
    ([None] for the null pointer) and the content of [name]. *)
Definition namex (path : list Z) (nameiparent : Z) (name : list Z)
  : M (option nat * list Z) :=
  let* ip :=
    (if byte_at path 0 =? SLASH then iget ROOTDEV ROOTINO
     else let* c := gets cwd in idup c) in
  namex_loop nameiparent (S (length path)) ip path name.

Definition namei (path : list Z) : M (option nat) :=
  let* r := namex path 0 (replicate (Z.to_nat DIRSIZ) 0) in
  ret (fst r).

Definition nameiparent (path : list Z) (name : list Z) : M (option nat * list Z) :=
  namex path 1 name.

End FS.

(** ** Specification-side definitions *)

(** The value a routine returned, if it returned. *)
Definition returned {A} (o : outcome A) : option A :=
  match o with Ret a _ => Some a | _ => None end.

(** The state a routine returned in, if it returned. *)
Definition final_state {A} (o : outcome A) : option state :=
  match o with Ret _ st => Some st | _ => None end.

(** The characters of a string literal. *)
Definition cstr (s : string) : list Z :=
  (fun a => Z.of_N (Ascii.N_of_ascii a)) <$> list_ascii_of_string s.

(** A slot of the inode cache holds inode [inum] of device [dev]. *)
Definition cached (dev inum : Z) (i : inode) : Prop :=
  0 < i_ref i /\ i_dev i = dev /\ i_inum i = inum.

(** [ip] is the first slot of the cache that satisfies [P]. *)
Definition first_slot (st : state) (P : inode -> Prop) (ip : nat) (i : inode) : Prop :=
  icache st !! ip = Some i /\ P i /\
  forall j i', (j < ip)%nat -> icache st !! j = Some i' -> ~ P i'.

(** No slot of the cache satisfies [P]. *)
Definition no_slot (st : state) (P : inode -> Prop) : Prop :=
  forall j i', icache st !! j = Some i' -> ~ P i'.

(** ** An example image: the values of xv6's headers and a small disk *)

Definition xv6 : Params :=
  {| T_DIR := 1; T_DEV := 3; NDEV := 10; ROOTDEV := 1;
     devsw_read := fun _ => None; devsw_write := fun _ => None |}.

Definition sb0 : superblock :=
  {| sb_size := 64; sb_nblocks := 57; sb_ninodes := 16; sb_nlog := 2;
     sb_logstart := 2; sb_inodestart := 4; sb_bmapstart := 6 |}.

Definition sb0_block : block :=
  put_addrs zero_block 0 [64; 57; 16; 2; 2; 4; 6].

(** The root directory, cached and referenced once. *)
Definition root0 : inode :=
  {| i_dev := 1; i_inum := 1; i_ref := 1; i_locked := false; i_valid := 1;
     i_type := 1; i_major := 0; i_minor := 0; i_nlink := 1; i_size := 0;
     i_addrs := replicate 13 0 |}.

(** Boot block, super block, two log blocks, two inode blocks, one bitmap
    block with the first seven blocks in use, and 57 free data blocks. *)
Definition st0 : state :=
  {| disk := [zero_block; sb0_block; zero_block; zero_block;
              put_dinode zero_block (dinode_pos 1) root0; zero_block;
              set_byte zero_block 0 127] ++ replicate 57 zero_block;
     held := []; logged := []; sb := sb0;
     icache := root0 :: replicate 4 blank_inode; cwd := 0 |}.

(** The test of [iget] for "already cached". *)
Definition cachedb (dev inum : Z) (i : inode) : bool :=
  (0 <? i_ref i) && (i_dev i =? dev) && (i_inum i =? inum).

(** ** The block address translator as the specification words it *)

(** "Physical address stored directly in the inode's address table at that
    index; if zero, allocate a block and store its address there." *)
Definition table_entry (ip : nat) (k : Z) : M Z :=
  let* addr := iread ip (fun i => addr_at i k) in
  if addr =? 0 then
    let* dev := iread ip i_dev in
    let* addr := balloc dev in
    iwrite ip (fun i => with_addr i k addr);;
    ret addr
  else ret addr.

(** "The index block's entry at [j] holds the target address (allocated if
    absent, with the index block re-persisted through the log after the
    write)." *)
Definition index_entry (ip : nat) (blk : Z) (j : Z) : M Z :=
  let* dev := iread ip i_dev in
  let* bp := bread dev blk in
  let* a := buf_data bp in
  let* addr :=
    (if uint_at a j =? 0 then
       let* dev := iread ip i_dev in
       let* addr := balloc dev in
       buf_update bp (fun a => set_uint a j addr);;
       log_write bp;;
       ret addr
     else ret (uint_at a j)) in
  brelse bp;;
  ret addr.

(** "Three tiers, selected by range on [logical_block]", and the fatal
    fourth case. *)
Definition translate (ip : nat) (logical_block : Z) : M Z :=
  if logical_block <? NDIRECT then table_entry ip logical_block
  else if logical_block <? NDIRECT + NINDIRECT then
    let* single := table_entry ip NDIRECT in
    index_entry ip single (logical_block - NDIRECT)
  else if logical_block <? MAXFILE then
    let r := logical_block - NDIRECT - NINDIRECT in
    let* outer := table_entry ip (NDIRECT + 1) in
    let* inner := index_entry ip outer (r / NINDIRECT) in
    index_entry ip inner (r mod NINDIRECT)
  else panic "bmap: out of range".

(** Entry [j] of index block [blk]; an absent index block has no entries. *)
Definition index_lookup (st : state) (blk j : Z) : Z :=
  if blk =? 0 then 0 else uint_at (block_data st blk) j.

(** The physical block of logical block [bn] of inode [i], 0 when none is
    mapped. *)
Definition lookup_addr (st : state) (i : inode) (bn : Z) : Z :=
  if bn <? NDIRECT then addr_at i bn
  else if bn <? NDIRECT + NINDIRECT then
    index_lookup st (addr_at i NDIRECT) (bn - NDIRECT)
  else
    let r := bn - NDIRECT - NINDIRECT in
    index_lookup st (index_lookup st (addr_at i (NDIRECT + 1)) (r / NINDIRECT))
                 (r mod NINDIRECT).

(** The index blocks on the way to logical block [bn]. *)
Definition index_path (st : state) (i : inode) (bn : Z) : list Z :=
  if bn <? NDIRECT then []
  else if bn <? NDIRECT + NINDIRECT then [addr_at i NDIRECT]
  else
    let r := bn - NDIRECT - NINDIRECT in
    [addr_at i (NDIRECT + 1);
     index_lookup st (addr_at i (NDIRECT + 1)) (r / NINDIRECT)].

(** Block [b] is on the disk and its buffer is not held. *)
Definition readable (st : state) (b : Z) : Prop :=
  (b ∉ held st) /\ is_Some (disk st !! Z.to_nat b).

(** The state of the example image after 20 bytes were written to the root
    directory's content and logical blocks [NDIRECT + 5] and
    [NDIRECT + NINDIRECT + 5] were mapped. *)
Definition st1 : state :=
  default st0
    (final_state
       ((writei (H:=xv6) 0 (replicate 20 65) 0 20;;
         bmap 0 (NDIRECT + 5);;
         bmap 0 (NDIRECT + NINDIRECT + 5)) st0)).

(** [readable], as a test. *)
Definition readableb (st : state) (b : Z) : bool :=
  negb (bool_decide (b ∈ held st)) &&
  match disk st !! Z.to_nat b with Some _ => true | None => false end.

(** ** The free bitmap *)

(** Bit [bi] of a bitmap block. *)
Definition bit_at (d : block) (bi : Z) : bool :=
  Z.testbit (byte_at d (bi / 8)) (bi mod 8).

(** Block [b] is marked in use in the bitmap. *)
Definition in_use (st : state) (b : Z) : bool :=
  bit_at (block_data st (BBLOCK b (sb st))) (b mod BPB).

(** The bitmap block with bit [bi] set. *)
Definition set_bit (d : block) (bi : Z) : block :=
  set_byte d (bi / 8) (Z.lor (byte_at d (bi / 8)) (Z.shiftl 1 (bi mod 8))).

(** The bitmap block with bit [bi] cleared. *)
Definition clear_bit (d : block) (bi : Z) : block :=
  set_byte d (bi / 8) (Z.land (byte_at d (bi / 8)) (Z.lnot (Z.shiftl 1 (bi mod 8)))).

(** The state after block [r] was allocated: its bit is set, the bitmap
    block is logged, block [r] is zeroed and logged. *)
Definition alloc_state (st : state) (r : Z) : state :=
  let bb := BBLOCK r (sb st) in
  let st1 := set_block st bb (set_bit (block_data st bb) (r mod BPB)) in
  with_logged (set_block st1 r zero_block) (r :: bb :: logged st).

(** The state after block [b] was freed (the superblock was read again, the
    bit is cleared and the bitmap block is logged). *)
Definition free_state (st : state) (b : Z) : state :=
  let s := decode_sb (block_data st 1) in
  let bb := BBLOCK b s in
  with_logged (set_block (with_sb st s) bb (clear_bit (block_data st bb) (b mod BPB)))
              (bb :: logged st).

(** The inner loop of [balloc] as a search: the first [bi] from [bi] on, with
    [n] candidates left, that ends the loop with a free bit. *)
Fixpoint scan_bits (d : block) (b size : Z) (n : nat) (bi : Z) : option Z :=
  match n with
  | O => None
  | S n' =>
    if (bi <? BPB) && (to_uint (b + bi) <? size) then
      if bit_at d bi then scan_bits d b size n' (bi + 1) else Some bi
    else None
  end.

(** Every block of the disk has [BSIZE] bytes. *)
Definition blocks_ok (st : state) : Prop :=
  forall b d, disk st !! b = Some d -> length d = Z.to_nat BSIZE.

(** The loop counter [b] of [balloc] is an [int]: the size of the file
    system must leave room for its last increment. *)
Definition size_ok (s : superblock) : Prop := 0 <= sb_size s <= 2 ^ 31 - BPB.

(** The example image with a file system of seven blocks, all in use. *)
Definition st_full : state :=
  with_sb st0 {| sb_size := 7; sb_nblocks := 0; sb_ninodes := 16; sb_nlog := 2;
                 sb_logstart := 2; sb_inodestart := 4; sb_bmapstart := 6 |}.

(** [blocks_ok], as a test. *)
Definition blocks_okb (st : state) : bool :=
  forallb (fun d => (length d =? Z.to_nat BSIZE)%nat) (disk st).

(** ** What a routine leaves alone *)

(** An inode without its address table. *)
Definition strip_addrs (i : inode) : inode :=
  {| i_dev := i_dev i; i_inum := i_inum i; i_ref := i_ref i; i_locked := i_locked i;
     i_valid := i_valid i; i_type := i_type i; i_major := i_major i;
     i_minor := i_minor i; i_nlink := i_nlink i; i_size := i_size i;
     i_addrs := [] |}.

(** From [st] to [st'] only blocks, the log and address tables changed. *)
Definition frame (st st' : state) : Prop :=
  sb st' = sb st /\ held st' = held st /\ cwd st' = cwd st
  /\ length (disk st') = length (disk st)
  /\ strip_addrs <$> icache st' = strip_addrs <$> icache st.

(** ** Well-formed files *)

(** Follow the entries [js] of successive index blocks from block [a]. *)
Definition walk (st : state) (a : Z) (js : list Z) : Z :=
  fold_left (index_lookup st) js a.

(** The address held by a slot of the inode: entry [k] of the address table
    of the inode, then the entries [js] of the index blocks below it. *)
Definition slot_val (st : state) (ip : nat) (p : list Z) : Z :=
  match p with
  | [] => 0
  | k :: js => walk st (addr_at (inode_of st ip) k) js
  end.

Definition entry_ok (j : Z) : Prop := 0 <= j < NINDIRECT.

(** The slots of an inode: the direct entries, the single-indirect entry and
    the entries of its block, the double-indirect entry, the entries of the
    outer block and the entries of the inner blocks. *)
Inductive slot_path : list Z -> Prop :=
| sp_direct k : 0 <= k < NDIRECT -> slot_path [k]
| sp_single : slot_path [NDIRECT]
| sp_single_entry j : entry_ok j -> slot_path [NDIRECT; j]
| sp_double : slot_path [NDIRECT + 1]
| sp_outer o : entry_ok o -> slot_path [NDIRECT + 1; o]
| sp_inner o j : entry_ok o -> entry_ok j -> slot_path [NDIRECT + 1; o; j].

(** The slots that hold the address of a data block. *)
Inductive data_path : list Z -> Prop :=
| dp_direct k : 0 <= k < NDIRECT -> data_path [k]
| dp_single_entry j : entry_ok j -> data_path [NDIRECT; j]
| dp_inner o j : entry_ok o -> entry_ok j -> data_path [NDIRECT + 1; o; j].

(** The slot of logical block [bn]. *)
Definition data_path_of (bn : Z) : list Z :=
  if bn <? NDIRECT then [bn]
  else if bn <? NDIRECT + NINDIRECT then [NDIRECT; bn - NDIRECT]
  else [NDIRECT + 1; (bn - NDIRECT - NINDIRECT) / NINDIRECT;
        (bn - NDIRECT - NINDIRECT) mod NINDIRECT].

(** The first block after the bitmap. *)
Definition data_start (s : superblock) : Z := sb_bmapstart s + sb_size s / BPB + 1.

Definition is_data (s : superblock) (b : Z) : Prop := data_start s <= b < sb_size s.

(** Byte [p] of the content of the inode; a hole reads as zero. *)
Definition file_byte (st : state) (ip : nat) (p : Z) : Z :=
  let a := lookup_addr st (inode_of st ip) (p / BSIZE) in
  if a =? 0 then 0 else byte_at (block_data st a) (p mod BSIZE).

(** The [n] bytes of the content from [off] on. *)
Definition file_bytes (st : state) (ip : nat) (off n : Z) : list Z :=
  (fun k => file_byte st ip (off + Z.of_nat k)) <$> seq 0 (Z.to_nat n).

(** A well-formed file system around the inode in slot [ip]: the layout of
    the superblock puts the inode blocks before the bitmap and the data
    blocks after it, every block before the data blocks is in use, and the
    nonzero slots of the inode hold the addresses of distinct data blocks
    that are in use. *)
Record fs_ok (st : state) (ip : nat) : Prop := {
  ok_size : size_ok (sb st);
  ok_bmapstart : 1 < sb_bmapstart (sb st);
  ok_data : data_start (sb st) <= sb_size (sb st);
  ok_blocks : blocks_ok st;
  ok_meta : forall b, 0 <= b < data_start (sb st) -> in_use st b = true;
  ok_handle : (ip < length (icache st))%nat;
  ok_addrs : length (i_addrs (inode_of st ip)) = Z.to_nat (NDIRECT + 2);
  ok_inum : 0 <= i_inum (inode_of st ip) /\ 0 <= sb_inodestart (sb st)
            /\ i_inum (inode_of st ip) / IPB + sb_inodestart (sb st)
               < sb_bmapstart (sb st);
  ok_slots : forall p, slot_path p -> slot_val st ip p <> 0 ->
             is_data (sb st) (slot_val st ip p) /\ in_use st (slot_val st ip p) = true;
  ok_inj : forall p q, slot_path p -> slot_path q ->
           slot_val st ip p = slot_val st ip q -> slot_val st ip p <> 0 -> p = q
}.

(** From [st] to [st'] the file only grew: mapped slots and the data they
    point to are as they were, and what became mapped is zero-filled. *)
Record extends (st st' : state) (ip : nat) : Prop := {
  ext_frame : frame st st';
  ext_slots : forall p, slot_path p -> slot_val st ip p <> 0 ->
              slot_val st' ip p = slot_val st ip p;
  ext_data : forall p, data_path p -> slot_val st ip p <> 0 ->
             block_data st' (slot_val st ip p) = block_data st (slot_val st ip p);
  ext_new : forall p, data_path p -> slot_val st ip p = 0 ->
            slot_val st' ip p = 0 \/ block_data st' (slot_val st' ip p) = zero_block
}.

(** ** Calls that complete *)

(** Every block of the file system is on the disk. *)
Definition disk_ok (st : state) : Prop :=
  sb_size (sb st) <= Z.of_nat (length (disk st)).

(** The only buffers that are locked are data blocks in use. *)
Definition held_ok (st : state) : Prop :=
  forall b, b ∈ held st -> is_data (sb st) b /\ in_use st b = true.

(** The call returns, unless [balloc] found no free block: it neither waits
    for a lock nor fails another check. *)
Definition completes {A} (o : outcome A) : Prop :=
  match o with
  | Ret _ _ => True
  | Panic msg => msg = "balloc: out of blocks"
  | Hang => False
  end.

(** ** Truncation *)

(** The position of a slot in the order in which [itrunc] frees the blocks:
    the direct blocks, the blocks of the single-indirect block and that
    block, then for each inner index block its blocks and the inner block,
    and the outer block last. *)
Definition rank (p : list Z) : Z :=
  match p with
  | [k] =>
    if k <? NDIRECT then k
    else if k =? NDIRECT then NDIRECT + NINDIRECT
    else NDIRECT + NINDIRECT + 1 + NINDIRECT * (NINDIRECT + 1)
  | [k; j] =>
    if k =? NDIRECT then NDIRECT + j
    else NDIRECT + NINDIRECT + 1 + j * (NINDIRECT + 1) + NINDIRECT
  | [_; o; j] => NDIRECT + NINDIRECT + 1 + o * (NINDIRECT + 1) + j
  | _ => 0
  end.

(** The number of slots. *)
Definition slots : Z := NDIRECT + NINDIRECT + 2 + NINDIRECT * (NINDIRECT + 1).

(** The state [s] of a truncation of inode [ip] that began in [s0], when the
    blocks of the slots before position [n] are freed and the entries of the
    address table before position [m] are cleared: nothing but the bitmap
    and the address table has changed. *)
Record trunc_inv (s0 : state) (ip : nat) (n m : Z) (s : state) : Prop := {
  ti_sb : sb s = sb s0;
  ti_data : forall b, 0 <= b ->
            b < sb_bmapstart (sb s0) \/ data_start (sb s0) <= b ->
            block_data s b = block_data s0 b;
  ti_length : length (disk s) = length (disk s0);
  ti_blocks : blocks_ok s;
  ti_meta : forall b, 0 <= b < data_start (sb s0) -> in_use s b = true;
  ti_used : forall p, slot_path p -> slot_val s0 ip p <> 0 ->
            in_use s (slot_val s0 ip p) = negb (rank p <? n);
  ti_handle : length (icache s) = length (icache s0);
  ti_inode : strip_addrs (inode_of s ip) = strip_addrs (inode_of s0 ip);
  ti_addrs_length : length (i_addrs (inode_of s ip)) = Z.to_nat (NDIRECT + 2);
  ti_addrs : forall k, 0 <= k < NDIRECT + 2 ->
             addr_at (inode_of s ip) k
             = if rank [k] <? m then 0 else addr_at (inode_of s0 ip) k
}.

(** The locked buffers are data blocks. *)
Definition held_data (s0 s : state) : Prop :=
  forall b, b ∈ held s -> data_start (sb s0) <= b.

(** ** Directories as sequences of records *)

(** Record [k] of directory [dp]: the [sizeof(struct dirent)] bytes of its
    content at offset [k * sizeof(struct dirent)]. *)
Definition dir_record (st : state) (dp : nat) (k : Z) : list Z :=
  file_bytes st dp (DIRENT_SIZE * k) DIRENT_SIZE.

(** The test of [dirlookup] on a record. *)
Definition rec_matches (name de : list Z) : bool :=
  negb (de_inum de =? 0) && (namecmp name (de_name de) =? 0).

(** The test of [dirlink] for an empty record. *)
Definition rec_empty (de : list Z) : bool := de_inum de =? 0.

(** The first of the [n] records from record [k] on that passes [test]. *)
Fixpoint first_record (test : list Z -> bool) (st : state) (dp : nat) (n : nat) (k : Z)
  : option Z :=
  match n with
  | O => None
  | S n' =>
    if test (dir_record st dp k) then Some k else first_record test st dp n' (k + 1)
  end.

(** The number of records of the directory. *)
Definition dir_records (st : state) (dp : nat) : nat :=
  Z.to_nat (i_size (inode_of st dp) / DIRENT_SIZE).

(** The record that [dirlookup] finds for [name]. *)
Definition dir_find (st : state) (dp : nat) (name : list Z) : option Z :=
  first_record (rec_matches name) st dp (dir_records st dp) 0.

(** The byte offset of the first record whose inode number is zero, or the
    size of the directory when there is none. *)
Definition dir_hole (st : state) (dp : nat) : Z :=
  match first_record rec_empty st dp (dir_records st dp) 0 with
  | Some k => DIRENT_SIZE * k
  | None => i_size (inode_of st dp)
  end.

(** The bytes of the record (inum, name): [de.inum], a [ushort] stored low
    byte first, then [de.name]. *)
Definition dirent_bytes (name : list Z) (inum : Z) : list Z :=
  [to_uchar inum; to_uchar (inum / 2 ^ 8)] ++ strncpy name (Z.to_nat DIRSIZ) 0.

(** A well-formed directory: a directory inode in a well-formed file system
    with every block on the disk and no buffer locked, whose size is a whole
    number of records within the largest file and whose blocks below the
    size are all mapped. *)
Record dir_ok `{Params} (st : state) (dp : nat) : Prop := {
  dir_fs : fs_ok st dp;
  dir_disk : disk_ok st;
  dir_held : held st = [];
  dir_type : i_type (inode_of st dp) = T_DIR;
  dir_size : 0 <= i_size (inode_of st dp) <= MAXFILE * BSIZE;
  dir_whole : i_size (inode_of st dp) mod DIRENT_SIZE = 0;
  dir_mapped : forall p, 0 <= p < i_size (inode_of st dp) ->
               lookup_addr st (inode_of st dp) (p / BSIZE) <> 0
}.

(** ** Example directories *)

(** The root directory of [st0] after [dirlink(root, ".", 1)], and the same
    with the root locked, as the caller of [dirlink] holds it. *)
Definition st_dot : state :=
  default st0 (final_state (dirlink (H:=xv6) 0 [46] 1 st0)).

Definition st_dot_locked : state :=
  set_inode st_dot 0 (with_locked (inode_of st_dot 0) true).

(** [st0] after [dirlink(root, "a", 65536)]. *)
Definition st_wide : state :=
  default st0 (final_state (dirlink (H:=xv6) 0 [97] 65536 st0)).

(** ** The layout of the disk *)

(** A well-formed layout: the bitmap lies after the superblock and before
    the data blocks, every block before the data blocks is marked in use,
    every block has [BSIZE] bytes and is on the disk, and the global [sb] is
    the superblock of block 1. *)
Record layout_ok (st : state) : Prop := {
  lo_size : size_ok (sb st);
  lo_bmapstart : 1 < sb_bmapstart (sb st);
  lo_data : data_start (sb st) <= sb_size (sb st);
  lo_blocks : blocks_ok st;
  lo_meta : forall b, 0 <= b < data_start (sb st) -> in_use st b = true;
  lo_disk : disk_ok st;
  lo_sb : sb st = decode_sb (block_data st 1)
}.

(** ** Inodes on disk *)

(** The cached copy of the on-disk fields holds values of their C types:
    four [short]s, a [uint] size and [NDIRECT + 2] [uint] addresses. *)
Record typed_inode (i : inode) : Prop := {
  ty_type : - 2 ^ 15 <= i_type i < 2 ^ 15;
  ty_major : - 2 ^ 15 <= i_major i < 2 ^ 15;
  ty_minor : - 2 ^ 15 <= i_minor i < 2 ^ 15;
  ty_nlink : - 2 ^ 15 <= i_nlink i < 2 ^ 15;
  ty_size : 0 <= i_size i < 2 ^ 32;
  ty_length : length (i_addrs i) = Z.to_nat (NDIRECT + 2);
  ty_addrs : forall a, a ∈ i_addrs i -> 0 <= a < 2 ^ 32
}.

(** The on-disk fields of a handle. *)
Definition disk_fields (i : inode) : Z * Z * Z * Z * Z * list Z :=
  (i_type i, i_major i, i_minor i, i_nlink i, i_size i, i_addrs i).

(** ** Further routines of fs.c *)

(** [memset(dip, 0, sizeof( *dip)); dip->type = type;] on the inode at byte
    offset [pos] of its block. *)
Definition init_dinode (d : block) (pos type : Z) : block :=
  set_ushort (put_bytes d pos (replicate (Z.to_nat DINODE_SIZE) 0)) pos type.

(** The loop of [ialloc]: [for(inum = 1; inum < sb.ninodes; inum++)].  The
    counter is an [int]; it is converted for the comparison with
    [sb.ninodes], for [IBLOCK] and [inum%IPB] (where [IPB] is unsigned) and
    for [iget].  [fuel] bounds the number of tests of [inum < sb.ninodes]. *)
Fixpoint ialloc_scan (dev type : Z) (fuel : nat) (inum : Z) : M nat :=
  match fuel with
  | O => hang
  | S fuel' =>
    let* s := gets sb in
    if to_uint inum <? sb_ninodes s then
      let* bp := bread dev (IBLOCK (to_uint inum) s) in
      let pos := dinode_pos (to_uint inum) in
      let* d := buf_data bp in
      if dinode_type d pos =? 0 then
        buf_update bp (fun d => init_dinode d pos type);;
        log_write bp;;
        brelse bp;;
        iget dev (to_uint inum)
      else brelse bp;; ialloc_scan dev type fuel' (to_int (inum + 1))
    else panic "ialloc: no inodes"
  end.

(** Allocate an inode on device [dev] and mark it as allocated by giving it
    type [type].  The counter reaches [sb.ninodes] within [sb.ninodes]
    tests. *)
Definition ialloc (dev type : Z) : M nat :=
  let* s := gets sb in
  ialloc_scan dev type (Z.to_nat (sb_ninodes s) + 1) 1.

(** ** Free inodes on disk *)

(** The type of inode [inum] on the disk. *)
Definition disk_type (st : state) (inum : Z) : Z :=
  dinode_type (block_data st (IBLOCK inum (sb st))) (dinode_pos inum).

(** The state after inode [r] was initialised on disk with type [type] and
    its block handed to the log. *)
Definition ialloc_state (st : state) (r type : Z) : state :=
  let b := IBLOCK r (sb st) in
  with_logged (set_block st b (init_dinode (block_data st b) (dinode_pos r) type))
              (b :: logged st).

(** ** Paths *)

(** The characters of a path element: neither the separator nor the
    terminator. *)
Definition elem_char (c : Z) : Prop := to_uchar c <> SLASH /\ to_uchar c <> 0.

(** Two values of a cache slot that stand for the same file: the same
    inode of the same device with the same type, size and blocks. *)
Definition same_file (i x : inode) : Prop :=
  i_addrs x = i_addrs i /\ i_size x = i_size i /\ i_type x = i_type i
  /\ i_inum x = i_inum i /\ i_dev x = i_dev i.

(** [st0] after [dirlink(root, "a", 2)]. *)
Definition st_a : state :=
  default st0 (final_state (dirlink (H:=xv6) 0 [97] 2 st0)).

(** The same slot value without links. *)
Definition unlinked (i : inode) : inode :=
  {| i_dev := i_dev i; i_inum := i_inum i; i_ref := i_ref i; i_locked := i_locked i;
     i_valid := i_valid i; i_type := i_type i; i_major := i_major i;
     i_minor := i_minor i; i_nlink := 0; i_size := i_size i;
     i_addrs := i_addrs i |}.

(** [st1] with the last link to the root directory's inode removed. *)
Definition st_unlinked : state := set_inode st1 0 (unlinked (inode_of st1 0)).

(** ** The inode cache *)


(** A cache of two slots, both free. *)
Definition st_two : state :=
  {| disk := []; held := []; logged := []; sb := sb0;
     icache := [blank_inode; blank_inode]; cwd := 0 |}.

(** ** Free blocks *)

(** The number of blocks of the file system whose bit in the bitmap is
    clear. *)
Definition free_count (st : state) : nat :=
  length (List.filter (fun b => negb (in_use st b)) (seqZ 0 (sb_size (sb st)))).

(** The number of blocks that hold the bytes from [off] to [off + n], for
    [0 < n]: one pass of the loop of [writei] each. *)
Definition chunks (off n : Z) : Z := (off mod BSIZE + n + BSIZE - 1) / BSIZE.

(** ** Slots for [iget] *)

(** The cache has a slot that [iget] can return for (dev, inum): one that
    holds that inode, or one whose reference count is zero. *)
Definition has_slot (st : state) (dev inum : Z) : Prop :=
  exists j x, icache st !! j = Some x /\ (cached dev inum x \/ i_ref x = 0).

(** [st_a] with every other slot of the cache in use for another inode. *)
Definition st_busy : state :=
  with_icache st_a (inode_of st_a 0 :: replicate 4 (claim_slot 1 9 blank_inode)).

(** * Properties *)

(** ** The monad *)

Lemma bind_Ret_inv {A B} (m : M A) (k : A -> M B) st b st' :
  bind m k st = Ret b st' ->
  exists a st1, m st = Ret a st1 /\ k a st1 = Ret b st'.
Proof.
  unfold bind. destruct (m st) as [a st1| |]; try discriminate.
  intros Hk. exists a, st1. split; [reflexivity | exact Hk].
Qed.

Lemma bind_Ret {A B} (m : M A) (k : A -> M B) st a st1 :
  m st = Ret a st1 -> bind m k st = k a st1.
Proof. unfold bind. intros ->. reflexivity. Qed.

Lemma bind_Panic {A B} (m : M A) (k : A -> M B) st msg :
  m st = Panic msg -> bind m k st = Panic msg.
Proof. unfold bind. intros ->. reflexivity. Qed.

Lemma bind_assoc {A B C} (m : M A) (k : A -> M B) (h : B -> M C) st :
  bind (bind m k) h st = bind m (fun a => bind (k a) h) st.
Proof. unfold bind. destruct (m st); reflexivity. Qed.

Lemma state_eta st :
  {| disk := disk st; held := held st; logged := logged st; sb := sb st;
     icache := icache st; cwd := cwd st |} = st.
Proof. destruct st; reflexivity. Qed.

Lemma inode_eta i :
  {| i_dev := i_dev i; i_inum := i_inum i; i_ref := i_ref i; i_locked := i_locked i;
     i_valid := i_valid i; i_type := i_type i; i_major := i_major i;
     i_minor := i_minor i; i_nlink := i_nlink i; i_size := i_size i;
     i_addrs := i_addrs i |} = i.
Proof. destruct i; reflexivity. Qed.

Lemma inode_of_lookup st ip i : icache st !! ip = Some i -> inode_of st ip = i.
Proof. unfold inode_of. intros ->. reflexivity. Qed.

(** ** Machine integers *)

Lemma to_uint_range x : 0 <= to_uint x < 2 ^ 32.
Proof. unfold to_uint. apply Z.mod_pos_bound. lia. Qed.

Lemma to_uint_small x : 0 <= x < 2 ^ 32 -> to_uint x = x.
Proof. unfold to_uint. intros. apply Z.mod_small. lia. Qed.

Lemma to_int_small x : - 2 ^ 31 <= x < 2 ^ 31 -> to_int x = x.
Proof. unfold to_int. intros. rewrite Z.mod_small; lia. Qed.

Lemma to_uchar_range x : 0 <= to_uchar x < 256.
Proof. unfold to_uchar. apply Z.mod_pos_bound. lia. Qed.

Lemma to_uchar_small x : 0 <= x < 256 -> to_uchar x = x.
Proof. unfold to_uchar. intros. apply Z.mod_small. lia. Qed.

(** ** The inode cache: [iget] *)

Section IGET.
Variables dev inum : Z.

Lemma cachedb_true i : cachedb dev inum i = true <-> cached dev inum i.
Proof.
  unfold cachedb, cached. rewrite !andb_true_iff, Z.ltb_lt, !Z.eqb_eq. tauto.
Qed.

Lemma cachedb_false i : cachedb dev inum i = false <-> ~ cached dev inum i.
Proof. rewrite <- cachedb_true. destruct (cachedb dev inum i); intuition congruence. Qed.

Lemma iget_scan_found l : forall ip0 empty k i,
  l !! k = Some i -> cached dev inum i ->
  (forall j i', (j < k)%nat -> l !! j = Some i' -> ~ cached dev inum i') ->
  iget_scan dev inum l ip0 empty = inl (ip0 + k)%nat.
Proof.
  induction l as [|x l IH]; intros ip0 empty k i Hk Hc Hfirst; [discriminate|].
  simpl. fold (cachedb dev inum x). destruct k as [|k].
  - simpl in Hk. injection Hk as ->. apply cachedb_true in Hc. rewrite Hc.
    f_equal. lia.
  - assert (Hx : cachedb dev inum x = false).
    { apply cachedb_false. apply (Hfirst 0%nat); [lia | reflexivity]. }
    rewrite Hx. rewrite (IH (S ip0) _ k i); [f_equal; lia | exact Hk | exact Hc |].
    intros j i' Hj Hl. apply (Hfirst (S j)); [lia | exact Hl].
Qed.

Lemma iget_scan_claim l : forall ip0 k i,
  (forall j i', l !! j = Some i' -> ~ cached dev inum i') ->
  l !! k = Some i -> i_ref i = 0 ->
  (forall j i', (j < k)%nat -> l !! j = Some i' -> i_ref i' <> 0) ->
  iget_scan dev inum l ip0 None = inr (Some (ip0 + k)%nat).
Proof.
  assert (Hkeep : forall l ip0 e,
    (forall j i', l !! j = Some i' -> ~ cached dev inum i') ->
    iget_scan dev inum l ip0 (Some e) = inr (Some e)).
  { clear. induction l as [|x l IH]; intros ip0 e Hno; [reflexivity|].
    simpl. fold (cachedb dev inum x).
    assert (Hx : cachedb dev inum x = false) by (apply cachedb_false, (Hno 0%nat); reflexivity).
    rewrite Hx. apply IH. intros j i' Hl. apply (Hno (S j)). exact Hl. }
  induction l as [|x l IH]; intros ip0 k i Hno Hk Hz Hfirst; [discriminate|].
  simpl. fold (cachedb dev inum x).
  assert (Hx : cachedb dev inum x = false) by (apply cachedb_false, (Hno 0%nat); reflexivity).
  rewrite Hx.
  assert (Hno' : forall j i', l !! j = Some i' -> ~ cached dev inum i').
  { intros j i' Hl. apply (Hno (S j)). exact Hl. }
  destruct k as [|k].
  - simpl in Hk. injection Hk as ->. rewrite Hz. simpl.
    rewrite Hkeep by exact Hno'. do 2 f_equal. lia.
  - assert (Hr : i_ref x <> 0) by (apply (Hfirst 0%nat); [lia | reflexivity]).
    apply Z.eqb_neq in Hr. rewrite Hr.
    rewrite (IH (S ip0) k i); [do 2 f_equal; lia | exact Hno' | exact Hk | exact Hz |].
    intros j i' Hj Hl. apply (Hfirst (S j)); [lia | exact Hl].
Qed.

Lemma iget_scan_full l : forall ip0,
  (forall j i', l !! j = Some i' -> ~ cached dev inum i') ->
  (forall j i', l !! j = Some i' -> i_ref i' <> 0) ->
  iget_scan dev inum l ip0 None = inr None.
Proof.
  induction l as [|x l IH]; intros ip0 Hno Hpos; [reflexivity|].
  simpl. fold (cachedb dev inum x).
  assert (Hx : cachedb dev inum x = false) by (apply cachedb_false, (Hno 0%nat); reflexivity).
  rewrite Hx.
  assert (Hr : i_ref x <> 0) by (apply (Hpos 0%nat); reflexivity).
  apply Z.eqb_neq in Hr. rewrite Hr. apply IH.
  - intros j i' Hl. apply (Hno (S j)). exact Hl.
  - intros j i' Hl. apply (Hpos (S j)). exact Hl.
Qed.

End IGET.

(** C7.  [iget] returns the slot that already caches (dev, inum), with its
    reference count incremented by one; when no slot caches it, [iget]
    claims the first slot whose reference count is zero, sets [ref] to 1 and
    [valid] to 0 and touches neither the disk nor the log; when no slot
    caches it and every slot has a positive reference count, [iget]
    panics. *)
Theorem iget_lookup (st : state) (dev inum : Z) :
  (forall ip i,
      first_slot st (cached dev inum) ip i -> i_ref i < INT_MAX ->
      iget dev inum st
      = Ret ip (set_inode st ip (with_ref i (i_ref i + 1))))
  /\ (forall ip i,
      no_slot st (cached dev inum) ->
      first_slot st (fun i => i_ref i = 0) ip i ->
      iget dev inum st
      = Ret ip (set_inode st ip (claim_slot dev inum i))
      /\ i_ref (claim_slot dev inum i) = 1 /\ i_valid (claim_slot dev inum i) = 0
      /\ i_dev (claim_slot dev inum i) = dev /\ i_inum (claim_slot dev inum i) = inum)
  /\ (no_slot st (cached dev inum) ->
      (forall j i', icache st !! j = Some i' -> 0 < i_ref i') ->
      iget dev inum st = Panic "iget: no inodes").
Proof.
  split; [|split].
  - intros ip i (Hl & Hc & Hfirst) Hmax.
    unfold iget, bind, gets.
    rewrite (iget_scan_found dev inum (icache st) 0 None ip i Hl Hc Hfirst).
    simpl. unfold iwrite, modify, ret. rewrite (inode_of_lookup st ip i Hl).
    destruct Hc as (Hpos & _). rewrite to_int_small; [reflexivity|].
    unfold INT_MAX in Hmax. lia.
  - intros ip i Hno (Hl & Hz & Hfirst).
    split; [|repeat split; reflexivity].
    unfold iget, bind, gets.
    rewrite (iget_scan_claim dev inum (icache st) 0 ip i Hno Hl Hz Hfirst).
    simpl. unfold iwrite, modify, ret. rewrite (inode_of_lookup st ip i Hl).
    reflexivity.
  - intros Hno Hpos. unfold iget, bind, gets.
    rewrite (iget_scan_full dev inum (icache st) 0 Hno); [reflexivity|].
    intros j i' Hl. specialize (Hpos j i' Hl). lia.
Qed.

Lemma iget_lookup_witness :
  iget 1 1 st0
  = Ret 0%nat (set_inode st0 0 (with_ref root0 2))
  /\ iget 1 5 st0
     = Ret 1%nat (set_inode st0 1 (claim_slot 1 5 blank_inode))
  /\ iget 1 5 (with_icache st0 [root0]) = Panic "iget: no inodes".
Proof.
  split; [|split].
  - apply (proj1 (iget_lookup st0 1 1) 0%nat root0).
    + split; [reflexivity|]. split; [repeat split; (reflexivity || lia)|].
      intros j i' Hj. lia.
    + vm_compute. reflexivity.
  - apply (proj1 (proj2 (iget_lookup st0 1 5)) 1%nat blank_inode).
    + intros j i' Hl (Hr & Hd & Hi).
      destruct j as [|[|[|[|[|j]]]]]; simpl in Hl; try discriminate;
        injection Hl as <-; simpl in *; lia.
    + split; [reflexivity|]. split; [reflexivity|].
      intros j i' Hj Hl. destruct j as [|j]; [|lia].
      injection Hl as <-. simpl. lia.
  - apply (proj2 (proj2 (iget_lookup (with_icache st0 [root0]) 1 5))).
    + intros j i' Hl (Hr & Hd & Hi).
      destruct j as [|j]; simpl in Hl; try discriminate.
      injection Hl as <-. simpl in *. lia.
    + intros j i' Hl. destruct j as [|j]; simpl in Hl; try discriminate.
      injection Hl as <-. simpl. lia.
Defined.

(** ** The three outcomes of [iget] *)

Lemma iget_hit st dev inum ip i :
  first_slot st (cached dev inum) ip i ->
  iget dev inum st = Ret ip (set_inode st ip (with_ref i (to_int (i_ref i + 1)))).
Proof.
  intros (Hl & Hc & Hfirst). unfold iget, bind, gets.
  rewrite (iget_scan_found dev inum (icache st) 0 None ip i Hl Hc Hfirst).
  simpl. unfold iwrite, modify, ret. rewrite (inode_of_lookup st ip i Hl).
  reflexivity.
Qed.

Lemma iget_miss st dev inum ip i :
  no_slot st (cached dev inum) -> first_slot st (fun i => i_ref i = 0) ip i ->
  iget dev inum st = Ret ip (set_inode st ip (claim_slot dev inum i)).
Proof.
  intros Hno (Hl & Hz & Hfirst). unfold iget, bind, gets.
  rewrite (iget_scan_claim dev inum (icache st) 0 ip i Hno Hl Hz Hfirst).
  simpl. unfold iwrite, modify, ret. rewrite (inode_of_lookup st ip i Hl).
  reflexivity.
Qed.

Lemma iget_none st dev inum :
  no_slot st (cached dev inum) ->
  (forall j i', icache st !! j = Some i' -> i_ref i' <> 0) ->
  iget dev inum st = Panic "iget: no inodes".
Proof.
  intros Hno Hpos. unfold iget, bind, gets.
  rewrite (iget_scan_full dev inum (icache st) 0 Hno Hpos). reflexivity.
Qed.

(** Once a free slot is remembered the loop does not forget it. *)
Lemma iget_scan_keeps dev inum l : forall ip0 e,
  iget_scan dev inum l ip0 (Some e) <> inr None.
Proof.
  induction l as [|x l IH]; intros ip0 e; simpl; [discriminate|].
  destruct ((0 <? i_ref x) && (i_dev x =? dev) && (i_inum x =? inum));
    [discriminate | apply IH].
Qed.

(** The loop ends without a slot only when no slot holds the inode and none
    is free. *)
Lemma iget_scan_nothing dev inum l : forall ip0,
  iget_scan dev inum l ip0 None = inr None ->
  forall j x, l !! j = Some x -> ~ cached dev inum x /\ i_ref x <> 0.
Proof.
  induction l as [|x l IH]; intros ip0 Hs j y Hj; [discriminate|].
  simpl in Hs. fold (cachedb dev inum x) in Hs.
  destruct (cachedb dev inum x) eqn:Ec; [discriminate|].
  destruct (i_ref x =? 0) eqn:Er.
  - exfalso. exact (iget_scan_keeps dev inum l _ _ Hs).
  - destruct j as [|j].
    + injection Hj as <-. split; [apply cachedb_false; exact Ec|].
      apply Z.eqb_neq. exact Er.
    + apply (IH _ Hs j y Hj).
Qed.

(** [iget] returns exactly when the cache has a slot for the inode. *)
Lemma iget_total st dev inum :
  (has_slot st dev inum -> exists ip st', iget dev inum st = Ret ip st')
  /\ (~ has_slot st dev inum -> iget dev inum st = Panic "iget: no inodes").
Proof.
  split.
  - intros (j & x & Hj & Hx). unfold iget, bind, gets.
    destruct (iget_scan dev inum (icache st) 0 None) as [ip|[ip|]] eqn:Es.
    + eexists; eexists; reflexivity.
    + eexists; eexists; reflexivity.
    + exfalso. destruct (iget_scan_nothing dev inum _ _ Es j x Hj) as [Hc Hr].
      destruct Hx as [Hx|Hx]; [exact (Hc Hx) | exact (Hr Hx)].
  - intros Hno. apply iget_none.
    + intros j x Hj Hc. apply Hno. exists j, x. split; [exact Hj | left; exact Hc].
    + intros j x Hj Hz. apply Hno. exists j, x. split; [exact Hj | right; exact Hz].
Qed.

(** A change of a slot that keeps its device, its number and whether it is
    referenced keeps what [iget] can return. *)
Lemma has_slot_set st rp x x' dev inum :
  icache st !! rp = Some x ->
  i_dev x' = i_dev x -> i_inum x' = i_inum x -> 0 < i_ref x -> 0 < i_ref x' ->
  has_slot (set_inode st rp x') dev inum <-> has_slot st dev inum.
Proof.
  intros Hl Hd Hi Hp Hp'.
  assert (Hlt : (rp < length (icache st))%nat) by (eapply lookup_lt_Some; exact Hl).
  split; intros (j & y & Hj & Hy).
  - destruct (decide (j = rp)) as [->|Hne].
    + unfold set_inode in Hj. simpl in Hj.
      rewrite list_lookup_insert_eq in Hj by exact Hlt. injection Hj as <-.
      exists rp, x. split; [exact Hl|]. destruct Hy as [(_ & D & I)|Hz]; [|lia].
      left. repeat split; congruence.
    + unfold set_inode in Hj. simpl in Hj.
      rewrite list_lookup_insert_ne in Hj by congruence.
      exists j, y. split; assumption.
  - destruct (decide (j = rp)) as [->|Hne].
    + rewrite Hl in Hj. injection Hj as <-.
      exists rp, x'. split; [unfold set_inode; simpl; apply list_lookup_insert_eq; exact Hlt|].
      destruct Hy as [(_ & D & I)|Hz]; [|lia].
      left. repeat split; congruence.
    + exists j, y. split; [|exact Hy].
      unfold set_inode. simpl. rewrite list_lookup_insert_ne by congruence. exact Hj.
Qed.

(** ** The buffer cache *)

Lemma bread_readable st dev b :
  readable st b -> bread dev b st = Ret b (with_held st (b :: held st)).
Proof.
  intros [Hh [x Hx]]. unfold bread.
  rewrite bool_decide_eq_false_2 by exact Hh. rewrite Hx. reflexivity.
Qed.

Lemma bread_Ret_inv st dev b bp st' :
  bread dev b st = Ret bp st' ->
  bp = b /\ st' = with_held st (b :: held st) /\ readable st b.
Proof.
  unfold bread, readable. case_bool_decide as Hh; [discriminate|].
  destruct (disk st !! Z.to_nat b) eqn:Hd; [|discriminate].
  intros [= <- <-]. eauto.
Qed.

Lemma brelse_head st b h :
  held st = b :: h -> brelse b st = Ret tt (with_held st h).
Proof.
  intros Hh. unfold brelse. rewrite Hh.
  rewrite bool_decide_eq_true_2 by (apply list_elem_of_here).
  simpl. rewrite bool_decide_eq_true_2 by reflexivity. reflexivity.
Qed.

Lemma with_held_id st : with_held st (held st) = st.
Proof. destruct st; reflexivity. Qed.

(** Fetching and releasing a readable block leaves the state as it was. *)
Lemma bread_brelse st dev b :
  readable st b ->
  (let* bp := bread dev b in brelse bp) st = Ret tt st.
Proof.
  intros Hr. rewrite (bind_Ret _ _ _ _ _ (bread_readable st dev b Hr)).
  rewrite (brelse_head _ b (held st)) by reflexivity.
  destruct st; reflexivity.
Qed.

(** ** The block address translator: [bmap] *)

Lemma bind_ext {A B} (m : M A) (k k' : A -> M B) st :
  (forall a st', k a st' = k' a st') -> bind m k st = bind m k' st.
Proof. intros Hk. unfold bind. destruct (m st); auto. Qed.

Lemma NINDIRECT_val : NINDIRECT = 128.
Proof. reflexivity. Qed.
Lemma NDIRECT_val : NDIRECT = 11.
Proof. reflexivity. Qed.
Lemma MAXFILE_val : MAXFILE = 16523.
Proof. reflexivity. Qed.
Lemma BSIZE_val : BSIZE = 512.
Proof. reflexivity. Qed.
Lemma BPB_val : BPB = 4096.
Proof. reflexivity. Qed.

(** Case analysis on the outcomes of the calls in a goal, in the order in
    which they are made. *)
Ltac run_calls :=
  repeat (cbv beta iota;
    match goal with
    | |- context [balloc ?d ?s] => destruct (balloc d s) as [? ?| |] eqn:?
    | |- context [bread ?d ?b ?s] => destruct (bread d b s) as [? ?| |] eqn:?
    | |- context [brelse ?b ?s] => destruct (brelse b s) as [? ?| |] eqn:?
    | |- context [Z.eqb ?a 0] => destruct (Z.eqb a 0) eqn:?
    end).

Ltac unfold_prims :=
  cbv beta iota delta [bind ret gets modify iread iwrite log_write buf_data buf_update panic hang].

(** The code of [bmap] is the translator of the specification. *)
Lemma bmap_translate ip bn st :
  0 <= bn < 2 ^ 32 -> bmap ip bn st = translate ip bn st.
Proof.
  intros Hbn. unfold bmap, translate.
  destruct (bn <? NDIRECT) eqn:H1; [reflexivity|].
  apply Z.ltb_ge in H1.
  assert (E1 : to_uint (bn - NDIRECT) = bn - NDIRECT).
  { apply to_uint_small. rewrite NDIRECT_val in *. lia. }
  rewrite E1.
  destruct (bn <? NDIRECT + NINDIRECT) eqn:H2.
  - apply Z.ltb_lt in H2.
    assert (E : (bn - NDIRECT <? NINDIRECT) = true) by (apply Z.ltb_lt; lia).
    rewrite E. unfold table_entry, index_entry. unfold_prims.
    run_calls; reflexivity.
  - apply Z.ltb_ge in H2.
    assert (E : (bn - NDIRECT <? NINDIRECT) = false) by (apply Z.ltb_ge; lia).
    rewrite E.
    assert (E2 : to_uint (bn - NDIRECT - NINDIRECT) = bn - NDIRECT - NINDIRECT).
    { apply to_uint_small. rewrite NDIRECT_val, NINDIRECT_val in *. lia. }
    rewrite E2.
    destruct (bn <? MAXFILE) eqn:H3.
    + apply Z.ltb_lt in H3.
      assert (E3 : (bn - NDIRECT - NINDIRECT <? NINDIRECT * NINDIRECT) = true).
      { apply Z.ltb_lt. unfold MAXFILE in H3. lia. }
      rewrite E3.
      assert (E4 : to_int ((bn - NDIRECT - NINDIRECT) mod NINDIRECT)
                   = (bn - NDIRECT - NINDIRECT) mod NINDIRECT).
      { apply to_int_small. rewrite NINDIRECT_val.
        pose proof (Z.mod_pos_bound (bn - NDIRECT - 128) 128). lia. }
      rewrite E4. unfold table_entry, index_entry. unfold_prims.
      run_calls; reflexivity.
    + apply Z.ltb_ge in H3.
      assert (E3 : (bn - NDIRECT - NINDIRECT <? NINDIRECT * NINDIRECT) = false).
      { apply Z.ltb_ge. unfold MAXFILE in H3. lia. }
      rewrite E3. reflexivity.
Qed.

Lemma table_entry_mapped ip k st :
  addr_at (inode_of st ip) k <> 0 ->
  table_entry ip k st = Ret (addr_at (inode_of st ip) k) st.
Proof.
  intros Hnz. unfold table_entry. unfold_prims.
  apply Z.eqb_neq in Hnz. rewrite Hnz. reflexivity.
Qed.

Lemma index_entry_mapped ip blk j st :
  readable st blk -> uint_at (block_data st blk) j <> 0 ->
  index_entry ip blk j st = Ret (uint_at (block_data st blk) j) st.
Proof.
  intros Hr Hnz. unfold index_entry. unfold_prims.
  rewrite (bread_readable st _ blk Hr). cbv beta iota.
  change (block_data (with_held st (blk :: held st)) blk) with (block_data st blk).
  apply Z.eqb_neq in Hnz. rewrite Hnz.
  rewrite (brelse_head _ blk (held st)) by reflexivity.
  destruct st; reflexivity.
Qed.

Lemma index_lookup_nonzero st blk j :
  index_lookup st blk j <> 0 ->
  blk <> 0 /\ index_lookup st blk j = uint_at (block_data st blk) j.
Proof.
  unfold index_lookup. destruct (blk =? 0) eqn:E; [congruence|].
  apply Z.eqb_neq in E. auto.
Qed.

(** C1.  [bmap] selects its tier by the range of [bn]: it is the translator
    that the specification describes (direct table below [NDIRECT], entry
    [bn - NDIRECT] of the single-indirect block below [NDIRECT + NINDIRECT],
    outer entry [r / NINDIRECT] and inner entry [r mod NINDIRECT] with
    [r = bn - NDIRECT - NINDIRECT] below [MAXFILE]); where the block is
    already mapped it returns the address found in that tier and changes
    nothing; from [MAXFILE] on it panics. *)
Theorem bmap_tiers (st : state) (ip : nat) (bn : Z) :
  0 <= bn < 2 ^ 32 ->
  bmap ip bn st = translate ip bn st
  /\ (bn < MAXFILE ->
      lookup_addr st (inode_of st ip) bn <> 0 ->
      Forall (readable st) (index_path st (inode_of st ip) bn) ->
      bmap ip bn st = Ret (lookup_addr st (inode_of st ip) bn) st)
  /\ (MAXFILE <= bn -> bmap ip bn st = Panic "bmap: out of range").
Proof.
  intros Hbn. split; [apply bmap_translate; exact Hbn|]. split.
  - intros Hlt Hnz Hread. rewrite bmap_translate by exact Hbn.
    unfold translate, lookup_addr, index_path in *.
    destruct (bn <? NDIRECT) eqn:H1.
    { apply table_entry_mapped. exact Hnz. }
    destruct (bn <? NDIRECT + NINDIRECT) eqn:H2.
    { destruct (index_lookup_nonzero _ _ _ Hnz) as [Hb E].
      rewrite (bind_Ret _ _ _ _ _ (table_entry_mapped ip NDIRECT st Hb)).
      apply Forall_cons in Hread as [Hr _].
      rewrite E in *. apply index_entry_mapped; assumption. }
    apply Z.ltb_lt in Hlt. rewrite Hlt.
    destruct (index_lookup_nonzero _ _ _ Hnz) as [Hi E].
    destruct (index_lookup_nonzero _ _ _ Hi) as [Ho E'].
    rewrite (bind_Ret _ _ _ _ _ (table_entry_mapped ip (NDIRECT + 1) st Ho)).
    apply Forall_cons in Hread as [Hro Hread].
    apply Forall_cons in Hread as [Hri _].
    rewrite E' in Hi. cbv zeta.
    rewrite (bind_Ret _ _ _ _ _ (index_entry_mapped ip _ _ st Hro Hi)).
    rewrite E. rewrite E' in *. rewrite E in Hnz.
    apply index_entry_mapped; assumption.
  - intros Hge. rewrite bmap_translate by exact Hbn. unfold translate.
    rewrite NDIRECT_val, NINDIRECT_val in *. rewrite MAXFILE_val in *.
    destruct (bn <? 11) eqn:H1; [apply Z.ltb_lt in H1; lia|].
    destruct (bn <? 11 + 128) eqn:H2; [apply Z.ltb_lt in H2; lia|].
    destruct (bn <? 16523) eqn:H3; [apply Z.ltb_lt in H3; lia|].
    reflexivity.
Qed.

Lemma readableb_true st b : readableb st b = true -> readable st b.
Proof.
  unfold readableb, readable. rewrite andb_true_iff, negb_true_iff.
  intros [Hh Hd]. split.
  - apply bool_decide_eq_false in Hh. exact Hh.
  - destruct (disk st !! Z.to_nat b); [eauto | discriminate].
Qed.

Lemma Forall_readableb st l :
  forallb (readableb st) l = true -> Forall (readable st) l.
Proof.
  induction l as [|b l IH]; simpl; [constructor|].
  rewrite andb_true_iff. intros [Hb Hl].
  constructor; [apply readableb_true; exact Hb | apply IH; exact Hl].
Qed.

Lemma bmap_tiers_witness :
  bmap 0 (NDIRECT + NINDIRECT + 5) st1 = Ret 12 st1
  /\ bmap 0 MAXFILE st1 = Panic "bmap: out of range".
Proof.
  split.
  - assert (Hr : 0 <= NDIRECT + NINDIRECT + 5 < 2 ^ 32) by (vm_compute; split; congruence).
    destruct (bmap_tiers st1 0 (NDIRECT + NINDIRECT + 5) Hr) as (_ & Hmapped & _).
    assert (E : lookup_addr st1 (inode_of st1 0) (NDIRECT + NINDIRECT + 5) = 12)
      by (vm_compute; reflexivity).
    rewrite E in Hmapped. apply Hmapped.
    + vm_compute; reflexivity.
    + discriminate.
    + apply Forall_readableb. vm_compute. reflexivity.
  - assert (Hr : 0 <= MAXFILE < 2 ^ 32) by (vm_compute; split; congruence).
    destruct (bmap_tiers st1 0 MAXFILE Hr) as (_ & _ & Hpanic).
    apply Hpanic. lia.
Defined.

(** ** Slots of the inode cache *)

Lemma inode_of_set_eq st ip x :
  (ip < length (icache st))%nat -> inode_of (set_inode st ip x) ip = x.
Proof.
  intros Hlt. unfold inode_of, set_inode. simpl.
  rewrite list_lookup_insert_eq by exact Hlt. reflexivity.
Qed.

Lemma inode_of_set_ne st ip jp x :
  ip <> jp -> inode_of (set_inode st ip x) jp = inode_of st jp.
Proof.
  intros Hne. unfold inode_of, set_inode. simpl.
  rewrite list_lookup_insert_ne by exact Hne. reflexivity.
Qed.

Lemma set_inode_twice st ip x y :
  set_inode (set_inode st ip x) ip y = set_inode st ip y.
Proof. unfold set_inode. simpl. rewrite list_insert_insert_eq. reflexivity. Qed.

Lemma set_inode_id st ip i : icache st !! ip = Some i -> set_inode st ip i = st.
Proof.
  intros Hl. unfold set_inode. rewrite list_insert_id by exact Hl.
  destruct st; reflexivity.
Qed.

Lemma length_icache_set st ip x : length (icache (set_inode st ip x)) = length (icache st).
Proof. unfold set_inode. simpl. apply length_insert. Qed.

Lemma acquiresleep_free st ip i :
  icache st !! ip = Some i -> i_locked i = false ->
  acquiresleep ip st = Ret tt (set_inode st ip (with_locked i true)).
Proof.
  intros Hl Hlock. unfold acquiresleep. unfold_prims.
  rewrite (inode_of_lookup st ip i Hl), Hlock. cbv beta iota.
  rewrite (inode_of_lookup st ip i Hl). reflexivity.
Qed.

(** [iput] on a slot that is not the last reference, or that still has
    links, only drops the reference. *)
Lemma iput_drop st ip i :
  icache st !! ip = Some i -> i_locked i = false ->
  i_valid i = 0 \/ i_nlink i <> 0 \/ i_ref i <> 1 ->
  iput ip st = Ret tt (set_inode st ip (with_ref i (to_int (i_ref i - 1)))).
Proof.
  intros Hl Hlock Hkeep.
  assert (Hlt : (ip < length (icache st))%nat) by (eapply lookup_lt_Some; exact Hl).
  unfold iput.
  rewrite (bind_Ret _ _ _ _ _ (acquiresleep_free st ip i Hl Hlock)).
  set (st1 := set_inode st ip (with_locked i true)).
  assert (H1 : inode_of st1 ip = with_locked i true)
    by (apply inode_of_set_eq; exact Hlt).
  unfold bind at 1. unfold iread at 1, gets, id. rewrite H1.
  assert (Hmid :
    (if negb (i_valid (with_locked i true) =? 0) && (i_nlink (with_locked i true) =? 0)
     then let* r := iread ip i_ref in
          if r =? 1
          then itrunc ip;; iwrite ip (fun x => with_type x 0);; iupdate ip;;
               iwrite ip (fun x => with_valid x 0)
          else ret ()
     else ret ()) st1 = Ret tt st1).
  { destruct (negb (i_valid (with_locked i true) =? 0)
              && (i_nlink (with_locked i true) =? 0)) eqn:Hc; [|reflexivity].
    unfold bind at 1. unfold iread at 1, gets. rewrite H1.
    assert (Hr : (i_ref (with_locked i true) =? 1) = false).
    { simpl in *. apply andb_true_iff in Hc as [Hv Hn].
      apply negb_true_iff, Z.eqb_neq in Hv. apply Z.eqb_eq in Hn.
      apply Z.eqb_neq. destruct Hkeep as [?|[?|?]]; congruence. }
    rewrite Hr. reflexivity. }
  rewrite (bind_Ret _ _ _ _ _ Hmid).
  unfold releasesleep. unfold_prims. rewrite H1.
  rewrite inode_of_set_eq by (unfold st1; rewrite length_icache_set; exact Hlt).
  unfold st1. rewrite !set_inode_twice. do 2 f_equal.
  unfold with_ref, with_locked. simpl. rewrite <- Hlock. reflexivity.
Qed.

(** ** Paths without an element: [namex] *)

Section NAMEX.
Context `{Params}.

Lemma namex_loop_no_element np fuel ip path name st :
  skipelem path name = None ->
  namex_loop np (S fuel) ip path name st
  = if np =? 0 then Ret (Some ip, name) st
    else (iput ip;; ret (None, name)) st.
Proof.
  intros Hs. simpl. rewrite Hs. destruct (np =? 0); reflexivity.
Qed.

Lemma idup_ref st ip i :
  icache st !! ip = Some i -> 0 <= i_ref i < INT_MAX ->
  idup ip st = Ret ip (set_inode st ip (with_ref i (i_ref i + 1))).
Proof.
  intros Hl Hr. unfold idup. unfold_prims.
  rewrite (inode_of_lookup st ip i Hl).
  rewrite to_int_small; [reflexivity|]. unfold INT_MAX in Hr. lia.
Qed.

Lemma skip_slashes_only k : skip_slashes (replicate k SLASH) = [].
Proof. induction k as [|k IH]; [reflexivity | exact IH]. Qed.

Lemma skipelem_slashes k name : skipelem (replicate k SLASH) name = None.
Proof. unfold skipelem. rewrite skip_slashes_only. reflexivity. Qed.


(** [namex] on a path without an element, after the start handle was
    taken. *)
Lemma namex_slashes k np name st :
  namex (replicate k SLASH) np name st
  = (let* ip := (if (0 <? Z.of_nat k) then iget ROOTDEV ROOTINO
                 else let* c := gets cwd in idup c) in
     if np =? 0 then ret (Some ip, name) else iput ip;; ret (None, name)) st.
Proof.
  unfold namex.
  assert (E : (byte_at (replicate k SLASH) 0 =? SLASH) = (0 <? Z.of_nat k)).
  { destruct k; reflexivity. }
  rewrite E. apply bind_ext. intros ip st1.
  rewrite namex_loop_no_element by apply skipelem_slashes.
  destruct (np =? 0); reflexivity.
Qed.

(** Dropping the reference that was just taken on a referenced, unlocked
    handle gives the state back. *)
Lemma iput_taken st ip i :
  icache st !! ip = Some i -> i_locked i = false -> 0 < i_ref i < INT_MAX ->
  iput ip (set_inode st ip (with_ref i (i_ref i + 1))) = Ret tt st.
Proof.
  intros Hl Hlock Hr.
  assert (Hlt : (ip < length (icache st))%nat) by (eapply lookup_lt_Some; exact Hl).
  assert (Hl' : icache (set_inode st ip (with_ref i (i_ref i + 1))) !! ip
                = Some (with_ref i (i_ref i + 1))).
  { unfold set_inode. simpl. apply list_lookup_insert_eq. exact Hlt. }
  assert (Hne : i_ref (with_ref i (i_ref i + 1)) <> 1) by (simpl; lia).
  rewrite (iput_drop _ ip _ Hl' Hlock (or_intror (or_intror Hne))).
  simpl i_ref. rewrite set_inode_twice.
  replace (i_ref i + 1 - 1) with (i_ref i) by lia.
  rewrite to_int_small by (unfold INT_MAX in Hr; lia).
  f_equal.
  transitivity (set_inode st ip i);
    [f_equal; destruct i; reflexivity | apply set_inode_id; exact Hl].
Qed.

(** C9, as amended.  A path without an element is the empty path or any
    number of slashes.  [namex] starts at the current directory for the
    empty path and at the root inode, through [iget], otherwise.  With the
    reference count of the start handle below [INT_MAX] (and positive for
    the current directory):
    - with [nameiparent] clear, [namex] returns the start handle with one
      more reference: the current directory, the cached root, or the first
      free slot of the cache, which [iget] takes for the root when no slot
      holds it;
    - with [nameiparent] set and the start handle not locked, [namex]
      returns the null pointer and drops the reference: the state is as it
      was when the start inode was in the cache, and when the root was not,
      the slot taken for it stays assigned to the root, not valid, with
      reference count 0;
    - when no slot holds the root and none is free, [namex] of a path of
      slashes panics in [iget], whatever [nameiparent] is. *)
Theorem namex_without_element (st : state) (np : Z) (k : nat) (name : list Z) :
  let path := replicate k SLASH in
  (k = 0%nat ->
   forall i, icache st !! cwd st = Some i -> 0 < i_ref i < INT_MAX ->
     (np = 0 ->
      namex path np name st
      = Ret (Some (cwd st), name) (set_inode st (cwd st) (with_ref i (i_ref i + 1))))
     /\ (np <> 0 -> i_locked i = false ->
         namex path np name st = Ret (None, name) st))
  /\ ((0 < k)%nat ->
      forall ip i, first_slot st (cached ROOTDEV ROOTINO) ip i -> i_ref i < INT_MAX ->
        (np = 0 ->
         namex path np name st
         = Ret (Some ip, name) (set_inode st ip (with_ref i (i_ref i + 1))))
        /\ (np <> 0 -> i_locked i = false ->
            namex path np name st = Ret (None, name) st))
  /\ ((0 < k)%nat -> no_slot st (cached ROOTDEV ROOTINO) ->
      forall ip i, first_slot st (fun x => i_ref x = 0) ip i ->
        (np = 0 ->
         namex path np name st
         = Ret (Some ip, name) (set_inode st ip (claim_slot ROOTDEV ROOTINO i)))
        /\ (np <> 0 -> i_locked i = false ->
            namex path np name st
            = Ret (None, name)
                  (set_inode st ip (with_ref (claim_slot ROOTDEV ROOTINO i) 0))))
  /\ ((0 < k)%nat -> no_slot st (cached ROOTDEV ROOTINO) ->
      (forall j x, icache st !! j = Some x -> i_ref x <> 0) ->
      namex path np name st = Panic "iget: no inodes").
Proof.
  intros path. unfold path.
  assert (Ek : (0 < k)%nat -> (0 <? Z.of_nat k) = true) by (intros; apply Z.ltb_lt; lia).
  split; [|split; [|split]].
  - intros -> i Hl Hr.
    assert (Hstart : (let* c := gets cwd in idup c) st
                     = Ret (cwd st) (set_inode st (cwd st) (with_ref i (i_ref i + 1)))).
    { unfold bind, gets. apply idup_ref; [exact Hl | lia]. }
    split.
    + intros ->. rewrite namex_slashes.
      change (0 <? Z.of_nat 0) with false. cbv iota.
      rewrite (bind_Ret _ _ _ _ _ Hstart). reflexivity.
    + intros Hnp Hlock. apply Z.eqb_neq in Hnp. rewrite namex_slashes.
      change (0 <? Z.of_nat 0) with false. cbv iota.
      rewrite (bind_Ret _ _ _ _ _ Hstart). rewrite Hnp.
      rewrite (bind_Ret _ _ _ _ _ (iput_taken st _ i Hl Hlock Hr)). reflexivity.
  - intros Hk ip i Hfirst Hr.
    pose proof (iget_hit st _ _ ip i Hfirst) as Hstart.
    destruct Hfirst as (Hl & (Hpos & _) & _).
    rewrite to_int_small in Hstart by (unfold INT_MAX in Hr; lia).
    split.
    + intros ->. rewrite namex_slashes, (Ek Hk).
      rewrite (bind_Ret _ _ _ _ _ Hstart). reflexivity.
    + intros Hnp Hlock. apply Z.eqb_neq in Hnp. rewrite namex_slashes, (Ek Hk).
      rewrite (bind_Ret _ _ _ _ _ Hstart). rewrite Hnp.
      rewrite (bind_Ret _ _ _ _ _ (iput_taken st _ i Hl Hlock ltac:(lia))). reflexivity.
  - intros Hk Hno ip i Hfree.
    pose proof (iget_miss st _ _ ip i Hno Hfree) as Hstart.
    destruct Hfree as (Hl & Hz & _).
    assert (Hlt : (ip < length (icache st))%nat) by (eapply lookup_lt_Some; exact Hl).
    split.
    + intros ->. rewrite namex_slashes, (Ek Hk).
      rewrite (bind_Ret _ _ _ _ _ Hstart). reflexivity.
    + intros Hnp Hlock. apply Z.eqb_neq in Hnp. rewrite namex_slashes, (Ek Hk).
      rewrite (bind_Ret _ _ _ _ _ Hstart). rewrite Hnp.
      assert (Hl' : icache (set_inode st ip (claim_slot ROOTDEV ROOTINO i)) !! ip
                    = Some (claim_slot ROOTDEV ROOTINO i)).
      { unfold set_inode. simpl. apply list_lookup_insert_eq. exact Hlt. }
      rewrite (bind_Ret _ _ _ _ _
                 (iput_drop _ ip _ Hl' Hlock (or_introl eq_refl))).
      rewrite set_inode_twice. reflexivity.
  - intros Hk Hno Hfull. rewrite namex_slashes, (Ek Hk).
    apply bind_Panic. apply iget_none; assumption.
Qed.

End NAMEX.

(** C9, as stated, fails: with [nameiparent] clear, ["////"] resolves to the
    root inode. *)
Lemma namex_slashes_returns_root :
  returned (namex (H:=xv6) (cstr "////") 0 (replicate 14 0) st0)
  = Some (Some 0%nat, replicate 14 0).
Proof. vm_compute. reflexivity. Qed.

Lemma namex_without_element_witness :
  namex (H:=xv6) (cstr "") 1 (replicate 14 0) st0 = Ret (None, replicate 14 0) st0
  /\ namex (H:=xv6) (cstr "////") 1 (replicate 14 0) st0 = Ret (None, replicate 14 0) st0
  /\ namex (H:=xv6) (cstr "////") 0 (replicate 14 0) st0
     = Ret (Some 0%nat, replicate 14 0) (set_inode st0 0 (with_ref root0 2))
  /\ namex (H:=xv6) (cstr "////") 1 (replicate 14 0) st_two
     = Ret (None, replicate 14 0)
           (set_inode st_two 0 (with_ref (claim_slot 1 1 blank_inode) 0))
  /\ namex (H:=xv6) (cstr "////") 1 (replicate 14 0) (with_icache st0 [claim_slot 1 5 blank_inode])
     = Panic "iget: no inodes".
Proof.
  assert (Hroot : first_slot st0 (cached (ROOTDEV (Params:=xv6)) ROOTINO) 0 root0).
  { split; [reflexivity|]. split; [repeat split; (reflexivity || lia)|].
    intros j i' Hj. lia. }
  destruct (namex_without_element (H:=xv6) st0 1 0 (replicate 14 0))
    as (Hcwd & _).
  destruct (namex_without_element (H:=xv6) st0 1 4 (replicate 14 0))
    as (_ & Hset & _).
  destruct (namex_without_element (H:=xv6) st0 0 4 (replicate 14 0))
    as (_ & Hclear & _).
  destruct (namex_without_element (H:=xv6) st_two 1 4 (replicate 14 0))
    as (_ & _ & Hnew & _).
  destruct (namex_without_element (H:=xv6) (with_icache st0 [claim_slot 1 5 blank_inode]) 1 4
              (replicate 14 0)) as (_ & _ & _ & Hfull).
  split; [|split; [|split; [|split]]].
  - apply (Hcwd eq_refl root0 eq_refl ltac:(vm_compute; split; reflexivity));
      [lia | reflexivity].
  - apply (Hset ltac:(lia) 0%nat root0 Hroot ltac:(vm_compute; reflexivity));
      [lia | reflexivity].
  - apply (Hclear ltac:(lia) 0%nat root0 Hroot ltac:(vm_compute; reflexivity)).
    reflexivity.
  - apply (Hnew ltac:(lia)); [| |lia|reflexivity].
    + intros j x Hj (Hp & _).
      destruct j as [|[|j]]; simpl in Hj; try discriminate;
        injection Hj as <-; simpl in Hp; lia.
    + split; [reflexivity|]. split; [reflexivity|]. intros j x Hj. lia.
  - apply (Hfull ltac:(lia)).
    + intros j x Hj (_ & _ & Hi).
      destruct j as [|j]; simpl in Hj; try discriminate.
      injection Hj as <-. simpl in Hi. discriminate.
    + intros j x Hj. destruct j as [|j]; simpl in Hj; try discriminate.
      injection Hj as <-. simpl. lia.
Defined.

(** ** Bytes and bits of a block *)

Lemma byte_at_range d i : 0 <= byte_at d i < 256.
Proof. apply to_uchar_range. Qed.

Lemma byte_at_set_eq d i v :
  0 <= i -> (Z.to_nat i < length d)%nat -> byte_at (set_byte d i v) i = to_uchar v.
Proof.
  intros Hi Hlt. unfold byte_at, set_byte.
  rewrite list_lookup_insert_eq by exact Hlt. simpl.
  unfold to_uchar. apply Z.mod_mod. lia.
Qed.

Lemma byte_at_set_ne d i j v :
  0 <= i -> 0 <= j -> i <> j -> byte_at (set_byte d i v) j = byte_at d j.
Proof.
  intros Hi Hj Hne. unfold byte_at, set_byte.
  rewrite list_lookup_insert_ne by lia. reflexivity.
Qed.

Lemma length_set_byte d i v : length (set_byte d i v) = length d.
Proof. apply length_insert. Qed.

Lemma testbit_to_uchar x k : 0 <= k < 8 -> Z.testbit (to_uchar x) k = Z.testbit x k.
Proof.
  intros Hk. unfold to_uchar. change 256 with (2 ^ 8).
  apply Z.mod_pow2_bits_low. lia.
Qed.

(** The test [(data[bi/8] & m) == 0] of the sources. *)
Lemma bit_test x k :
  0 <= k -> (Z.land x (Z.shiftl 1 k) =? 0) = negb (Z.testbit x k).
Proof.
  intros Hk. rewrite Z.shiftl_1_l.
  destruct (Z.testbit x k) eqn:Hb; simpl.
  - apply Z.eqb_neq. intros E.
    assert (Hc : Z.testbit (Z.land x (2 ^ k)) k = true).
    { rewrite Z.land_spec, Hb, Z.pow2_bits_true by lia. reflexivity. }
    rewrite E, Z.bits_0 in Hc. discriminate.
  - apply Z.eqb_eq. apply Z.bits_inj'. intros n Hn.
    rewrite Z.land_spec, Z.bits_0.
    destruct (Z.eq_dec n k) as [->|Hne].
    + rewrite Hb. reflexivity.
    + rewrite Z.pow2_bits_false by lia. apply andb_false_r.
Qed.

Lemma mod8_range bi : 0 <= bi mod 8 < 8.
Proof. apply Z.mod_pos_bound. lia. Qed.

Lemma bit_at_set_eq d bi :
  0 <= bi -> (Z.to_nat (bi / 8) < length d)%nat -> bit_at (set_bit d bi) bi = true.
Proof.
  intros Hbi Hlt. unfold bit_at, set_bit.
  rewrite byte_at_set_eq by (try apply Z.div_pos; lia).
  pose proof (mod8_range bi).
  rewrite testbit_to_uchar, Z.lor_spec, Z.shiftl_1_l, Z.pow2_bits_true by lia.
  apply orb_true_r.
Qed.

Lemma bit_at_set_ne d bi bj :
  0 <= bi -> 0 <= bj -> bi <> bj -> bit_at (set_bit d bi) bj = bit_at d bj.
Proof.
  intros Hbi Hbj Hne. unfold bit_at, set_bit.
  pose proof (mod8_range bi). pose proof (mod8_range bj).
  destruct (Z.eq_dec (bi / 8) (bj / 8)) as [E|E].
  - destruct (decide (Z.to_nat (bi / 8) < length d)%nat) as [Hlt|Hge].
    + rewrite <- E. rewrite byte_at_set_eq by (try apply Z.div_pos; lia).
      rewrite testbit_to_uchar, Z.lor_spec, Z.shiftl_1_l by lia.
      rewrite Z.pow2_bits_false; [apply orb_false_r|].
      intros E'. apply Hne.
      rewrite (Z.div_mod bi 8), (Z.div_mod bj 8) by lia. congruence.
    + unfold set_byte. rewrite list_insert_ge by lia. reflexivity.
  - rewrite byte_at_set_ne; [reflexivity | apply Z.div_pos; lia.. | exact E].
Qed.

Lemma bit_at_clear_eq d bi :
  0 <= bi -> (Z.to_nat (bi / 8) < length d)%nat -> bit_at (clear_bit d bi) bi = false.
Proof.
  intros Hbi Hlt. unfold bit_at, clear_bit.
  rewrite byte_at_set_eq by (try apply Z.div_pos; lia).
  pose proof (mod8_range bi).
  rewrite testbit_to_uchar, Z.land_spec, Z.lnot_spec, Z.shiftl_1_l,
    Z.pow2_bits_true by lia.
  apply andb_false_r.
Qed.

Lemma bit_at_clear_ne d bi bj :
  0 <= bi -> 0 <= bj -> bi <> bj -> bit_at (clear_bit d bi) bj = bit_at d bj.
Proof.
  intros Hbi Hbj Hne. unfold bit_at, clear_bit.
  pose proof (mod8_range bi). pose proof (mod8_range bj).
  destruct (Z.eq_dec (bi / 8) (bj / 8)) as [E|E].
  - destruct (decide (Z.to_nat (bi / 8) < length d)%nat) as [Hlt|Hge].
    + rewrite <- E. rewrite byte_at_set_eq by (try apply Z.div_pos; lia).
      rewrite testbit_to_uchar, Z.land_spec, Z.lnot_spec, Z.shiftl_1_l by lia.
      rewrite Z.pow2_bits_false; [apply andb_true_r|].
      intros E'. apply Hne.
      rewrite (Z.div_mod bi 8), (Z.div_mod bj 8) by lia. congruence.
    + unfold set_byte. rewrite list_insert_ge by lia. reflexivity.
  - rewrite byte_at_set_ne; [reflexivity | apply Z.div_pos; lia.. | exact E].
Qed.

(** A cleared bit never sets another one. *)
Lemma bit_at_clear_false d bi bj :
  0 <= bi -> 0 <= bj -> bit_at d bj = false -> bit_at (clear_bit d bi) bj = false.
Proof.
  intros Hbi Hbj Hf. destruct (Z.eq_dec bi bj) as [->|Hne].
  - destruct (decide (Z.to_nat (bj / 8) < length d)%nat) as [Hlt|Hge].
    + apply bit_at_clear_eq; assumption.
    + unfold clear_bit, set_byte. rewrite list_insert_ge by lia. exact Hf.
  - rewrite bit_at_clear_ne by assumption. exact Hf.
Qed.

(** ** The block allocator: [balloc] *)

Lemma balloc_bits_scan dev bp b n : forall bi st,
  balloc_bits dev bp b n bi st
  = match scan_bits (block_data st bp) b (sb_size (sb st)) n bi with
    | Some j =>
      (buf_update bp (fun d => set_bit d j);;
       log_write bp;;
       brelse bp;;
       bzero dev (to_int (b + j));;
       ret (Some (to_uint (b + j)))) st
    | None => Ret None st
    end.
Proof.
  induction n as [|n IH]; intros bi st; [reflexivity|].
  simpl. unfold bind at 1, gets.
  destruct ((bi <? BPB) && (to_uint (b + bi) <? sb_size (sb st))); [|reflexivity].
  unfold bind at 1, buf_data, gets.
  rewrite bit_test by apply mod8_range.
  fold (bit_at (block_data st bp) bi).
  destruct (bit_at (block_data st bp) bi); simpl; [apply IH | reflexivity].
Qed.

Lemma scan_bits_Some d b size n : forall bi j,
  scan_bits d b size n bi = Some j ->
  bi <= j < bi + Z.of_nat n /\ j < BPB /\ to_uint (b + j) < size
  /\ bit_at d j = false
  /\ forall j', bi <= j' < j -> bit_at d j' = true.
Proof.
  induction n as [|n IH]; intros bi j; [discriminate|].
  simpl. destruct ((bi <? BPB) && (to_uint (b + bi) <? size)) eqn:Hc; [|discriminate].
  apply andb_true_iff in Hc as [H1 H2]. apply Z.ltb_lt in H1, H2.
  destruct (bit_at d bi) eqn:Hb.
  - intros Hs. apply IH in Hs as (Hr & Hlt & Hsz & Hf & Hbefore).
    repeat split; try assumption; try lia.
    intros j' Hj'. destruct (Z.eq_dec j' bi) as [->|Hne]; [exact Hb|].
    apply Hbefore. lia.
  - intros [= <-]. repeat split; try assumption; try lia.
Qed.

Lemma scan_bits_None d b size n : forall bi,
  scan_bits d b size n bi = None ->
  forall j, bi <= j < bi + Z.of_nat n -> j < BPB ->
  (forall j', bi <= j' <= j -> to_uint (b + j') < size) ->
  bit_at d j = true.
Proof.
  induction n as [|n IH]; intros bi Hs j Hj Hlt Hsz; [lia|].
  simpl in Hs.
  assert (Hc : (bi <? BPB) && (to_uint (b + bi) <? size) = true).
  { apply andb_true_iff. split; apply Z.ltb_lt; [lia | apply Hsz; lia]. }
  rewrite Hc in Hs. destruct (bit_at d bi) eqn:Hb; [|discriminate].
  destruct (Z.eq_dec j bi) as [->|Hne]; [exact Hb|].
  apply (IH (bi + 1) Hs); [lia | exact Hlt |].
  intros j' Hj'. apply Hsz. lia.
Qed.

Lemma scan_bits_found d b size n : forall bi j,
  bi <= j < bi + Z.of_nat n -> j < BPB ->
  (forall j', bi <= j' <= j -> to_uint (b + j') < size) ->
  bit_at d j = false ->
  (forall j', bi <= j' < j -> bit_at d j' = true) ->
  scan_bits d b size n bi = Some j.
Proof.
  induction n as [|n IH]; intros bi j Hj Hlt Hsz Hf Hbefore; [lia|].
  simpl.
  assert (Hc : (bi <? BPB) && (to_uint (b + bi) <? size) = true).
  { apply andb_true_iff. split; apply Z.ltb_lt; [lia | apply Hsz; lia]. }
  rewrite Hc. destruct (Z.eq_dec j bi) as [->|Hne].
  - rewrite Hf. reflexivity.
  - rewrite (Hbefore bi) by lia. apply IH; try assumption; try lia.
    + intros j' Hj'. apply Hsz. lia.
    + intros j' Hj'. apply Hbefore. lia.
Qed.

Lemma scan_bits_none d b size n : forall bi,
  (forall j, bi <= j < bi + Z.of_nat n -> j < BPB -> to_uint (b + j) < size ->
             bit_at d j = true) ->
  scan_bits d b size n bi = None.
Proof.
  induction n as [|n IH]; intros bi Hall; [reflexivity|].
  simpl. destruct ((bi <? BPB) && (to_uint (b + bi) <? size)) eqn:Hc; [|reflexivity].
  apply andb_true_iff in Hc as [H1 H2]. apply Z.ltb_lt in H1, H2.
  rewrite (Hall bi) by (try assumption; lia).
  apply IH. intros j Hj. apply Hall. lia.
Qed.

(** Components of updated states. *)
Lemma block_data_with_held st h b : block_data (with_held st h) b = block_data st b.
Proof. reflexivity. Qed.
Lemma block_data_with_logged st l b : block_data (with_logged st l) b = block_data st b.
Proof. reflexivity. Qed.
Lemma block_data_with_sb st s b : block_data (with_sb st s) b = block_data st b.
Proof. reflexivity. Qed.
Lemma block_data_set_inode st ip i b : block_data (set_inode st ip i) b = block_data st b.
Proof. reflexivity. Qed.
Lemma inode_of_with_held st h ip : inode_of (with_held st h) ip = inode_of st ip.
Proof. reflexivity. Qed.
Lemma inode_of_with_logged st l ip : inode_of (with_logged st l) ip = inode_of st ip.
Proof. reflexivity. Qed.
Lemma inode_of_with_sb st s ip : inode_of (with_sb st s) ip = inode_of st ip.
Proof. reflexivity. Qed.
Lemma inode_of_set_block st b d ip : inode_of (set_block st b d) ip = inode_of st ip.
Proof. reflexivity. Qed.

Lemma block_data_set_eq st b d :
  0 <= b -> (Z.to_nat b < length (disk st))%nat -> block_data (set_block st b d) b = d.
Proof.
  intros Hb Hlt. unfold block_data, set_block. simpl.
  rewrite list_lookup_insert_eq by exact Hlt. reflexivity.
Qed.

Lemma block_data_set_ne st b b' d :
  0 <= b -> 0 <= b' -> b <> b' -> block_data (set_block st b d) b' = block_data st b'.
Proof.
  intros Hb Hb' Hne. unfold block_data, set_block. simpl.
  rewrite list_lookup_insert_ne by lia. reflexivity.
Qed.

Lemma length_disk_set st b d : length (disk (set_block st b d)) = length (disk st).
Proof. unfold set_block. simpl. apply length_insert. Qed.

Create Rewrite HintDb fs.
#[global] Hint Rewrite block_data_with_held block_data_with_logged block_data_with_sb
  block_data_set_inode inode_of_with_held inode_of_with_logged inode_of_with_sb
  inode_of_set_block length_disk_set length_icache_set : fs.

Ltac st_simpl :=
  simpl disk; simpl held; simpl logged; simpl sb; simpl icache; simpl cwd;
  autorewrite with fs.

(** What [balloc] does once it has found bit [j] of the bitmap block [bp],
    which it holds. *)
Lemma balloc_take st dev bp r j :
  0 <= r < 2 ^ 31 ->
  (buf_update bp (fun d => set_bit d j);;
   log_write bp;;
   brelse bp;;
   bzero dev (to_int r);;
   ret (Some (to_uint r))) (with_held st (bp :: held st))
  = if bool_decide (r ∈ held st) then Hang
    else if decide (Z.to_nat r < length (disk st))%nat
         then Ret (Some r)
                (with_logged
                   (set_block (set_block st bp (set_bit (block_data st bp) j)) r zero_block)
                   (r :: bp :: logged st))
         else Panic "incorrect blockno".
Proof.
  intros Hr. unfold bzero. unfold_prims.
  rewrite (brelse_head _ bp (held st)) by reflexivity. cbv beta iota.
  rewrite to_int_small, to_uint_small by lia.
  unfold bread. st_simpl.
  destruct (bool_decide (r ∈ held st)) eqn:Hh; [reflexivity|].
  destruct (decide (Z.to_nat r < length (disk st))%nat) as [Hlt|Hge].
  - destruct (lookup_lt_is_Some_2 (<[Z.to_nat bp := set_bit (block_data st bp) j]> (disk st))
                (Z.to_nat r)) as [x Hx]; [rewrite length_insert; exact Hlt|].
    rewrite Hx. cbv beta iota.
    rewrite (brelse_head _ r (held st)) by reflexivity.
    destruct st; reflexivity.
  - rewrite (lookup_ge_None_2 _ (Z.to_nat r)) by (rewrite length_insert; lia).
    reflexivity.
Qed.

Lemma with_held_id_2 st h : with_held (with_held st h) (held st) = st.
Proof. destruct st; reflexivity. Qed.

Lemma BPB_pos : 0 < BPB.
Proof. reflexivity. Qed.

Lemma block_split b j :
  0 <= b -> b mod BPB = 0 -> 0 <= j < BPB ->
  Z.quot (b + j) BPB = Z.quot b BPB /\ (b + j) mod BPB = j.
Proof.
  intros Hb Hm Hj. pose proof BPB_pos.
  rewrite !Z.quot_div_nonneg by lia.
  assert (E : b = BPB * (b / BPB)).
  { rewrite (Z.div_mod b BPB) at 1 by lia. lia. }
  split.
  - rewrite E at 1. rewrite Z.add_comm, Z.mul_comm, Z.div_add by lia.
    rewrite Z.div_small by lia. lia.
  - rewrite E. rewrite Z.add_comm, Z.mul_comm, Z.mod_add by lia.
    apply Z.mod_small. lia.
Qed.

Lemma BBLOCK_same_block s b j :
  0 <= b -> b mod BPB = 0 -> 0 <= j < BPB -> BBLOCK (b + j) s = BBLOCK b s.
Proof.
  intros Hb Hm Hj. unfold BBLOCK.
  destruct (block_split b j Hb Hm Hj) as [-> _]. reflexivity.
Qed.

Lemma in_use_split st b j :
  0 <= b -> b mod BPB = 0 -> 0 <= j < BPB ->
  in_use st (b + j) = bit_at (block_data st (BBLOCK b (sb st))) j.
Proof.
  intros Hb Hm Hj. unfold in_use.
  rewrite BBLOCK_same_block by assumption.
  destruct (block_split b j Hb Hm Hj) as [_ ->]. reflexivity.
Qed.

Lemma readable_held st b : readable st b -> bool_decide (b ∈ held st) = false.
Proof. intros [Hh _]. apply bool_decide_eq_false_2. exact Hh. Qed.

Lemma readable_lt st b : readable st b -> (Z.to_nat b < length (disk st))%nat.
Proof. intros [_ Hd]. apply lookup_lt_is_Some_1. exact Hd. Qed.

Lemma next_block_mod b : b mod BPB = 0 -> (b + BPB) mod BPB = 0.
Proof.
  intros Hm. pose proof BPB_pos.
  rewrite <- (Z.mul_1_l BPB) at 1. rewrite Z.mod_add by lia. exact Hm.
Qed.

Lemma balloc_blocks_S dev n b :
  balloc_blocks dev (S n) b
  = (let* s := gets sb in
     if to_uint b <? sb_size s then
       let* bp := bread dev (BBLOCK b s) in
       let* r := balloc_bits dev bp b (Z.to_nat BPB) 0 in
       match r with
       | Some a => ret a
       | None => brelse bp;; balloc_blocks dev n (to_int (b + BPB))
       end
     else panic "balloc: out of blocks").
Proof. reflexivity. Qed.

(** [balloc] reaches the lowest free block. *)
Lemma balloc_blocks_alloc dev st r :
  size_ok (sb st) -> 0 <= r < sb_size (sb st) ->
  in_use st r = false -> readable st r ->
  forall n b,
    0 <= b <= r -> b mod BPB = 0 ->
    (forall x, b <= x < r -> in_use st x = true) ->
    (forall x, b <= x <= r -> readable st (BBLOCK x (sb st))) ->
    (r - b) / BPB < Z.of_nat n ->
    balloc_blocks dev n b st = Ret r (alloc_state st r).
Proof.
  intros Hsz Hr Hfree Hrd. pose proof BPB_pos as HB. unfold size_ok in Hsz.
  induction n as [|n IH]; intros b Hb Hm Hused Hbm Hfuel.
  { assert (0 <= (r - b) / BPB) by (apply Z.div_pos; lia). lia. }
  rewrite balloc_blocks_S. unfold bind at 1, gets.
  rewrite to_uint_small by lia.
  assert (Hlt : (b <? sb_size (sb st)) = true) by (apply Z.ltb_lt; lia).
  rewrite Hlt.
  rewrite (bind_Ret _ _ _ _ _ (bread_readable st dev _ (Hbm b ltac:(lia)))).
  unfold bind at 1. rewrite balloc_bits_scan. st_simpl.
  destruct (Z_lt_dec r (b + BPB)) as [Hin|Hout].
  - assert (Hj : 0 <= r - b < BPB) by lia.
    rewrite (scan_bits_found _ b _ _ 0 (r - b)).
    + replace (b + (r - b)) with r by lia.
      rewrite balloc_take by lia.
      rewrite (readable_held st r Hrd).
      destruct (decide (Z.to_nat r < length (disk st))%nat) as [_|Hge];
        [|exfalso; apply Hge, readable_lt; exact Hrd].
      assert (EB : BBLOCK r (sb st) = BBLOCK b (sb st)).
      { replace r with (b + (r - b)) by lia.
        apply BBLOCK_same_block; (assumption || lia). }
      assert (EM : r mod BPB = r - b).
      { replace r with (b + (r - b)) at 1 by lia.
        apply (block_split b (r - b)); (assumption || lia). }
      unfold alloc_state. rewrite EB, EM. reflexivity.
    + rewrite Z2Nat.id by lia. lia.
    + lia.
    + intros j' Hj'. rewrite to_uint_small by lia. lia.
    + rewrite <- in_use_split by (try assumption; lia).
      replace (b + (r - b)) with r by lia. exact Hfree.
    + intros j' Hj'. rewrite <- in_use_split by (try assumption; lia).
      apply Hused. lia.
  - rewrite scan_bits_none.
    + cbv beta iota. unfold bind at 1.
      rewrite (brelse_head _ (BBLOCK b (sb st)) (held st)) by reflexivity.
      rewrite with_held_id_2. rewrite to_int_small by lia.
      apply IH; try lia.
      * apply next_block_mod. exact Hm.
      * intros x Hx. apply Hused. lia.
      * intros x Hx. apply Hbm. lia.
      * replace (r - (b + BPB)) with (r - b + (-1) * BPB) by lia.
        rewrite Z.div_add by lia. lia.
    + intros j Hj Hlt' _. rewrite Z2Nat.id in Hj by lia.
      rewrite <- in_use_split by (try assumption; lia).
      apply Hused. lia.
Qed.

(** Whatever [balloc] returns is the lowest free block, and the state is
    [alloc_state]. *)
Lemma balloc_blocks_inv dev st :
  size_ok (sb st) ->
  forall n b r st',
    0 <= b < 2 ^ 31 -> b mod BPB = 0 ->
    balloc_blocks dev n b st = Ret r st' ->
    b <= r < sb_size (sb st) /\ in_use st r = false
    /\ (forall x, b <= x < r -> in_use st x = true)
    /\ readable st r /\ readable st (BBLOCK r (sb st))
    /\ st' = alloc_state st r.
Proof.
  intros Hsz. pose proof BPB_pos as HB. unfold size_ok in Hsz.
  induction n as [|n IH]; intros b r st' Hb Hm Hret; [discriminate|].
  rewrite balloc_blocks_S in Hret. unfold bind at 1, gets in Hret.
  rewrite to_uint_small in Hret by lia.
  destruct (b <? sb_size (sb st)) eqn:Hlt; [|discriminate].
  apply Z.ltb_lt in Hlt.
  apply bind_Ret_inv in Hret as (bp & st1 & Hbread & Hret).
  apply bread_Ret_inv in Hbread as (-> & -> & Hrbb).
  apply bind_Ret_inv in Hret as (o & st2 & Hbits & Hret).
  rewrite balloc_bits_scan in Hbits.
  rewrite block_data_with_held in Hbits.
  change (sb (with_held st (BBLOCK b (sb st) :: held st))) with (sb st) in Hbits.
  destruct (scan_bits (block_data st (BBLOCK b (sb st))) b (sb_size (sb st))
              (Z.to_nat BPB) 0) as [j|] eqn:Hscan.
  - apply scan_bits_Some in Hscan as (Hj & HjB & Hjs & Hf & Hbefore).
    rewrite to_uint_small in Hjs by lia.
    rewrite balloc_take in Hbits by lia.
    destruct (bool_decide (b + j ∈ held st)) eqn:Hh; [discriminate|].
    destruct (decide (Z.to_nat (b + j) < length (disk st))%nat) as [Hd|Hd];
      [|discriminate].
    injection Hbits as <- <-. injection Hret as <- <-.
    assert (EB : BBLOCK (b + j) (sb st) = BBLOCK b (sb st))
      by (apply BBLOCK_same_block; (assumption || lia)).
    assert (EM : (b + j) mod BPB = j)
      by (apply (block_split b j); (assumption || lia)).
    split; [lia|]. split.
    { rewrite in_use_split by (assumption || lia). exact Hf. }
    split.
    { intros x Hx. replace x with (b + (x - b)) by lia.
      rewrite in_use_split by (assumption || lia). apply Hbefore. lia. }
    split.
    { split; [apply bool_decide_eq_false in Hh; exact Hh|].
      apply lookup_lt_is_Some_2. exact Hd. }
    split; [rewrite EB; exact Hrbb|].
    unfold alloc_state. rewrite EB, EM. reflexivity.
  - injection Hbits as <- <-.
    apply bind_Ret_inv in Hret as (u & st3 & Hrel & Hret).
    rewrite (brelse_head _ (BBLOCK b (sb st)) (held st)) in Hrel by reflexivity.
    injection Hrel as _ <-.
    rewrite with_held_id_2 in Hret. rewrite to_int_small in Hret by lia.
    apply IH in Hret; [|lia | apply next_block_mod; exact Hm].
    destruct Hret as (Hr & Hfree & Hused & Hrest).
    split; [lia|]. split; [exact Hfree|]. split; [|exact Hrest].
    intros x Hx. destruct (Z_lt_dec x (b + BPB)) as [Hin|Hout].
    + replace x with (b + (x - b)) by lia.
      rewrite in_use_split by (assumption || lia).
      apply (scan_bits_None _ _ _ _ _ Hscan).
      * rewrite Z2Nat.id by lia. lia.
      * lia.
      * intros j' Hj'. rewrite to_uint_small by lia. lia.
    + apply Hused. lia.
Qed.

Lemma in_use_on_disk st x :
  in_use st x = true -> is_Some (disk st !! Z.to_nat (BBLOCK x (sb st))).
Proof.
  unfold in_use, bit_at, block_data, byte_at.
  destruct (disk st !! Z.to_nat (BBLOCK x (sb st))); [eauto|].
  simpl. destruct (Z.to_nat (x `mod` BPB / 8)); simpl;
    rewrite Z.bits_0; discriminate.
Qed.

(** With every bit set, [balloc] panics. *)
Lemma balloc_blocks_full dev st :
  size_ok (sb st) ->
  (forall x, 0 <= x < sb_size (sb st) -> in_use st x = true) ->
  (forall x, 0 <= x < sb_size (sb st) -> BBLOCK x (sb st) ∉ held st) ->
  forall n b,
    0 <= b < sb_size (sb st) + BPB -> b mod BPB = 0 ->
    (sb_size (sb st) + BPB - 1 - b) / BPB < Z.of_nat n ->
    balloc_blocks dev n b st = Panic "balloc: out of blocks".
Proof.
  intros Hsz Hused Hheld. pose proof BPB_pos as HB. unfold size_ok in Hsz.
  induction n as [|n IH]; intros b Hb Hm Hfuel.
  { assert (0 <= (sb_size (sb st) + BPB - 1 - b) / BPB) by (apply Z.div_pos; lia). lia. }
  rewrite balloc_blocks_S. unfold bind at 1, gets.
  rewrite to_uint_small by lia.
  destruct (b <? sb_size (sb st)) eqn:Hlt; [|reflexivity].
  apply Z.ltb_lt in Hlt.
  assert (Hrd : readable st (BBLOCK b (sb st))).
  { split; [apply Hheld; lia | apply in_use_on_disk, Hused; lia]. }
  rewrite (bind_Ret _ _ _ _ _ (bread_readable st dev _ Hrd)).
  unfold bind at 1. rewrite balloc_bits_scan. st_simpl.
  rewrite scan_bits_none.
  - cbv beta iota. unfold bind at 1.
    rewrite (brelse_head _ (BBLOCK b (sb st)) (held st)) by reflexivity.
    rewrite with_held_id_2. rewrite to_int_small by lia.
    apply IH; [lia | apply next_block_mod; exact Hm |].
    replace (sb_size (sb st) + BPB - 1 - (b + BPB))
      with (sb_size (sb st) + BPB - 1 - b + (-1) * BPB) by lia.
    rewrite Z.div_add by lia. lia.
  - intros j Hj HjB Hjs. rewrite Z2Nat.id in Hj by lia.
    rewrite to_uint_small in Hjs by lia.
    rewrite <- in_use_split by (assumption || lia).
    apply Hused. lia.
Qed.

Lemma balloc_Ret_inv dev st r st' :
  size_ok (sb st) -> balloc dev st = Ret r st' ->
  0 <= r < sb_size (sb st) /\ in_use st r = false
  /\ (forall x, 0 <= x < r -> in_use st x = true)
  /\ readable st r /\ readable st (BBLOCK r (sb st))
  /\ st' = alloc_state st r.
Proof.
  intros Hsz Hret. unfold balloc, bind, gets in Hret.
  apply (balloc_blocks_inv dev st Hsz) in Hret; [exact Hret | lia | reflexivity].
Qed.

Lemma blocks_ok_length st b :
  blocks_ok st -> is_Some (disk st !! Z.to_nat b) ->
  length (block_data st b) = Z.to_nat BSIZE.
Proof.
  intros Hok [d Hd]. unfold block_data. rewrite Hd. simpl. eapply Hok. exact Hd.
Qed.

Lemma sb_alloc_state st r : sb (alloc_state st r) = sb st.
Proof. reflexivity. Qed.
Lemma held_alloc_state st r : held (alloc_state st r) = held st.
Proof. reflexivity. Qed.
Lemma icache_alloc_state st r : icache (alloc_state st r) = icache st.
Proof. reflexivity. Qed.
Lemma inode_of_alloc_state st r ip : inode_of (alloc_state st r) ip = inode_of st ip.
Proof. reflexivity. Qed.
Lemma length_disk_alloc_state st r : length (disk (alloc_state st r)) = length (disk st).
Proof. unfold alloc_state. simpl. rewrite !length_insert. reflexivity. Qed.

Lemma block_data_alloc_self st r :
  0 <= r -> readable st r -> block_data (alloc_state st r) r = zero_block.
Proof.
  intros Hr Hrd. unfold alloc_state. cbv zeta. rewrite block_data_with_logged.
  apply block_data_set_eq; [exact Hr|].
  rewrite length_disk_set. apply readable_lt. exact Hrd.
Qed.

Lemma block_data_alloc_bitmap st r :
  0 <= r -> BBLOCK r (sb st) <> r -> readable st (BBLOCK r (sb st)) ->
  block_data (alloc_state st r) (BBLOCK r (sb st))
  = set_bit (block_data st (BBLOCK r (sb st))) (r mod BPB).
Proof.
  intros Hr Hne Hrd. unfold alloc_state. cbv zeta. rewrite block_data_with_logged.
  assert (0 <= BBLOCK r (sb st)) by apply to_uint_range.
  rewrite block_data_set_ne by (lia || congruence).
  apply block_data_set_eq; [lia | apply readable_lt; exact Hrd].
Qed.

Lemma block_data_alloc_other st r b :
  0 <= r -> 0 <= b -> b <> r -> b <> BBLOCK r (sb st) ->
  block_data (alloc_state st r) b = block_data st b.
Proof.
  intros Hr Hb Hne Hne'. unfold alloc_state. cbv zeta. rewrite block_data_with_logged.
  assert (0 <= BBLOCK r (sb st)) by apply to_uint_range.
  rewrite !block_data_set_ne by (lia || congruence). reflexivity.
Qed.

Lemma bit_index_bound st r (Hok : blocks_ok st) :
  readable st (BBLOCK r (sb st)) ->
  (Z.to_nat (r mod BPB / 8) < length (block_data st (BBLOCK r (sb st))))%nat.
Proof.
  intros [_ Hd]. rewrite (blocks_ok_length st _ Hok Hd).
  pose proof (Z.mod_pos_bound r BPB BPB_pos).
  assert (0 <= r mod BPB / 8 < 512); [|rewrite BSIZE_val; lia].
  split; [apply Z.div_pos; lia|].
  apply Z.div_lt_upper_bound; [lia|]. rewrite BPB_val in *. lia.
Qed.

(** C6.  [balloc] returns the lowest-numbered free block, with its bit set
    and the bitmap block logged, and the block zero-filled; what it returns
    is always that block; with every bit set it panics. *)
Theorem balloc_lowest_free (st : state) (dev : Z) :
  size_ok (sb st) -> blocks_ok st ->
  (forall r,
      0 <= r < sb_size (sb st) -> in_use st r = false ->
      (forall x, 0 <= x < r -> in_use st x = true) ->
      (forall x, 0 <= x <= r -> readable st (BBLOCK x (sb st))) ->
      readable st r -> BBLOCK r (sb st) <> r ->
      balloc dev st = Ret r (alloc_state st r)
      /\ in_use (alloc_state st r) r = true
      /\ block_data (alloc_state st r) r = zero_block
      /\ logged (alloc_state st r) = r :: BBLOCK r (sb st) :: logged st)
  /\ (forall r st',
      balloc dev st = Ret r st' ->
      0 <= r < sb_size (sb st) /\ in_use st r = false
      /\ (forall x, 0 <= x < r -> in_use st x = true)
      /\ st' = alloc_state st r)
  /\ ((forall x, 0 <= x < sb_size (sb st) -> in_use st x = true) ->
      (forall x, 0 <= x < sb_size (sb st) -> BBLOCK x (sb st) ∉ held st) ->
      balloc dev st = Panic "balloc: out of blocks").
Proof.
  intros Hsz Hok. pose proof BPB_pos as HB. split; [|split].
  - intros r Hr Hfree Hused Hbm Hrd Hne.
    assert (Hsz' := Hsz). unfold size_ok in Hsz'.
    split.
    { unfold balloc, bind, gets.
      apply (balloc_blocks_alloc dev st r Hsz Hr Hfree Hrd).
      - lia.
      - reflexivity.
      - intros x Hx. apply Hused. lia.
      - intros x Hx. apply Hbm. lia.
      - assert (0 <= sb_size (sb st) / BPB) by (apply Z.div_pos; lia).
        rewrite Z2Nat.id, Z.sub_0_r by lia.
        assert (r / BPB <= sb_size (sb st) / BPB) by (apply Z.div_le_mono; lia).
        lia. }
    assert (Hbb : readable st (BBLOCK r (sb st))) by (apply Hbm; lia).
    split; [|split; [|reflexivity]].
    + unfold in_use. rewrite sb_alloc_state.
      rewrite block_data_alloc_bitmap by (assumption || lia).
      apply bit_at_set_eq; [apply Z.mod_pos_bound; lia|].
      apply bit_index_bound; assumption.
    + apply block_data_alloc_self; [lia | exact Hrd].
  - intros r st' Hret.
    apply (balloc_Ret_inv dev st r st' Hsz) in Hret.
    destruct Hret as (H1 & H2 & H3 & _ & _ & H4). auto.
  - intros Hused Hheld. unfold balloc, bind, gets.
    assert (Hsz' := Hsz). unfold size_ok in Hsz'.
    apply (balloc_blocks_full dev st Hsz Hused Hheld).
    + lia.
    + reflexivity.
    + assert (0 <= sb_size (sb st) / BPB) by (apply Z.div_pos; lia).
      rewrite Z2Nat.id, Z.sub_0_r by lia.
      apply Z.div_lt_upper_bound; [lia|].
      pose proof (Z.mul_div_le (sb_size (sb st)) BPB HB).
      pose proof (Z.mod_pos_bound (sb_size (sb st)) BPB HB).
      pose proof (Z.div_mod (sb_size (sb st)) BPB ltac:(lia)).
      lia.
Qed.

(** ** Checking finite ranges and example states by computation *)

Lemma range_check (f : Z -> bool) lo n :
  forallb f ((fun i => lo + Z.of_nat i) <$> seq 0 n) = true ->
  forall x, lo <= x < lo + Z.of_nat n -> f x = true.
Proof.
  intros Hall x Hx. rewrite forallb_forall in Hall. apply Hall.
  apply list_elem_of_In. apply list_elem_of_fmap.
  exists (Z.to_nat (x - lo)). split; [lia|].
  apply list_elem_of_In, in_seq. lia.
Qed.

Lemma blocks_okb_true st : blocks_okb st = true -> blocks_ok st.
Proof.
  unfold blocks_okb, blocks_ok. rewrite forallb_forall. intros Hall b d Hd.
  apply Nat.eqb_eq. apply Hall. apply list_elem_of_In.
  eapply list_elem_of_lookup_2. exact Hd.
Qed.

Lemma balloc_lowest_free_witness :
  balloc 1 st0 = Ret 7 (alloc_state st0 7)
  /\ in_use (alloc_state st0 7) 7 = true
  /\ block_data (alloc_state st0 7) 7 = zero_block
  /\ balloc 1 st_full = Panic "balloc: out of blocks".
Proof.
  assert (Hsz : size_ok (sb st0)) by (vm_compute; split; congruence).
  assert (Hok : blocks_ok st0) by (apply blocks_okb_true; vm_compute; reflexivity).
  assert (Hszf : size_ok (sb st_full)) by (vm_compute; split; congruence).
  assert (Hokf : blocks_ok st_full) by (apply blocks_okb_true; vm_compute; reflexivity).
  destruct (balloc_lowest_free st0 1 Hsz Hok) as (Halloc & _ & _).
  destruct (balloc_lowest_free st_full 1 Hszf Hokf) as (_ & _ & Hfull).
  destruct (Halloc 7) as (H1 & H2 & H3 & _).
  - vm_compute. split; congruence.
  - vm_compute. reflexivity.
  - intros x Hx. apply (range_check (in_use st0) 0 7); [vm_compute; reflexivity | lia].
  - intros x Hx. apply readableb_true.
    apply (range_check (fun x => readableb st0 (BBLOCK x (sb st0))) 0 8);
      [vm_compute; reflexivity | lia].
  - apply readableb_true. vm_compute. reflexivity.
  - vm_compute. congruence.
  - split; [exact H1|]. split; [exact H2|]. split; [exact H3|]. apply Hfull.
    + intros x Hx. apply (range_check (in_use st_full) 0 7);
        [vm_compute; reflexivity | exact Hx].
    + intros x _. apply not_elem_of_nil.
Defined.

(** ** What [balloc] and [bmap] leave alone *)

Lemma to_uint_to_int x : to_uint (to_int x) = to_uint x.
Proof.
  unfold to_uint, to_int.
  rewrite Zminus_mod, Z.mod_mod, <- Zminus_mod by lia.
  f_equal. lia.
Qed.

Lemma frame_refl st : frame st st.
Proof. repeat split. Qed.

Lemma frame_trans st1 st2 st3 : frame st1 st2 -> frame st2 st3 -> frame st1 st3.
Proof.
  intros (A1 & A2 & A3 & A4 & A5) (B1 & B2 & B3 & B4 & B5).
  repeat split; congruence.
Qed.

Lemma frame_set_block st b d : frame st (set_block st b d).
Proof. repeat split. apply length_disk_set. Qed.

Lemma frame_with_logged st l : frame st (with_logged st l).
Proof. repeat split. Qed.

Lemma frame_set_addr st ip k a :
  frame st (set_inode st ip (with_addr (inode_of st ip) k a)).
Proof.
  repeat split. unfold set_inode. simpl.
  rewrite list_fmap_insert.
  apply list_insert_id'. intros Hlt.
  rewrite length_fmap in Hlt.
  destruct (lookup_lt_is_Some_2 _ _ Hlt) as [i Hi].
  rewrite list_lookup_fmap, Hi. unfold inode_of. rewrite Hi. reflexivity.
Qed.

Lemma balloc_take_gen st dev bp x j :
  (buf_update bp (fun d => set_bit d j);;
   log_write bp;;
   brelse bp;;
   bzero dev (to_int x);;
   ret (Some (to_uint x))) (with_held st (bp :: held st))
  = if bool_decide (to_uint x ∈ held st) then Hang
    else if decide (Z.to_nat (to_uint x) < length (disk st))%nat
         then Ret (Some (to_uint x))
                (with_logged
                   (set_block (set_block st bp (set_bit (block_data st bp) j))
                              (to_uint x) zero_block)
                   (to_uint x :: bp :: logged st))
         else Panic "incorrect blockno".
Proof.
  unfold bzero. unfold_prims.
  rewrite (brelse_head _ bp (held st)) by reflexivity. cbv beta iota.
  rewrite to_uint_to_int.
  unfold bread. st_simpl.
  destruct (bool_decide (to_uint x ∈ held st)) eqn:Hh; [reflexivity|].
  destruct (decide (Z.to_nat (to_uint x) < length (disk st))%nat) as [Hlt|Hge].
  - destruct (lookup_lt_is_Some_2 (<[Z.to_nat bp := set_bit (block_data st bp) j]> (disk st))
                (Z.to_nat (to_uint x))) as [y Hy]; [rewrite length_insert; exact Hlt|].
    rewrite Hy. cbv beta iota.
    rewrite (brelse_head _ (to_uint x) (held st)) by reflexivity.
    destruct st; reflexivity.
  - rewrite (lookup_ge_None_2 _ (Z.to_nat (to_uint x))) by (rewrite length_insert; lia).
    reflexivity.
Qed.

(** The shape of every state that [balloc] returns in. *)
Lemma balloc_blocks_shape dev st n : forall b r st',
  balloc_blocks dev n b st = Ret r st' ->
  exists bb j,
    st' = with_logged (set_block (set_block st bb (set_bit (block_data st bb) j))
                                 r zero_block) (r :: bb :: logged st)
    /\ 0 <= r < 2 ^ 32 /\ readable st r /\ readable st bb.
Proof.
  induction n as [|n IH]; intros b r st' Hret; [discriminate|].
  rewrite balloc_blocks_S in Hret. unfold bind at 1, gets in Hret.
  destruct (to_uint b <? sb_size (sb st)); [|discriminate].
  apply bind_Ret_inv in Hret as (bp & st1 & Hbread & Hret).
  apply bread_Ret_inv in Hbread as (-> & -> & Hrbb).
  apply bind_Ret_inv in Hret as (o & st2 & Hbits & Hret).
  rewrite balloc_bits_scan in Hbits.
  rewrite block_data_with_held in Hbits.
  change (sb (with_held st (BBLOCK b (sb st) :: held st))) with (sb st) in Hbits.
  destruct (scan_bits (block_data st (BBLOCK b (sb st))) b (sb_size (sb st))
              (Z.to_nat BPB) 0) as [j|] eqn:Hscan.
  - rewrite balloc_take_gen in Hbits.
    destruct (bool_decide (to_uint (b + j) ∈ held st)) eqn:Hh; [discriminate|].
    destruct (decide (Z.to_nat (to_uint (b + j)) < length (disk st))%nat) as [Hd|Hd];
      [|discriminate].
    injection Hbits as <- <-. injection Hret as <- <-.
    exists (BBLOCK b (sb st)), j.
    split; [reflexivity|]. split; [apply to_uint_range|]. split; [|exact Hrbb].
    split; [apply bool_decide_eq_false in Hh; exact Hh|].
    apply lookup_lt_is_Some_2. exact Hd.
  - injection Hbits as <- <-.
    apply bind_Ret_inv in Hret as (u & st3 & Hrel & Hret).
    rewrite (brelse_head _ (BBLOCK b (sb st)) (held st)) in Hrel by reflexivity.
    injection Hrel as _ <-.
    rewrite with_held_id_2 in Hret. apply IH in Hret. exact Hret.
Qed.

Lemma balloc_shape dev st r st' :
  balloc dev st = Ret r st' ->
  exists bb j,
    st' = with_logged (set_block (set_block st bb (set_bit (block_data st bb) j))
                                 r zero_block) (r :: bb :: logged st)
    /\ 0 <= r < 2 ^ 32 /\ readable st r /\ readable st bb.
Proof. unfold balloc, bind, gets. apply balloc_blocks_shape. Qed.

Lemma balloc_frame dev st r st' :
  balloc dev st = Ret r st' ->
  frame st st' /\ icache st' = icache st /\ 0 <= r < 2 ^ 32.
Proof.
  intros Hret. apply balloc_shape in Hret as (bb & j & -> & Hr & _).
  split; [|split; [reflexivity | exact Hr]].
  repeat split. simpl. rewrite !length_insert. reflexivity.
Qed.

Lemma table_entry_frame ip k st a st' :
  table_entry ip k st = Ret a st' -> frame st st'.
Proof.
  unfold table_entry. unfold bind at 1, iread at 1, gets.
  destruct (addr_at (inode_of st ip) k =? 0).
  - unfold bind at 1, iread at 1, gets. intros Hret.
    apply bind_Ret_inv in Hret as (r & st1 & Hb & Hret).
    apply balloc_frame in Hb as (Hf & _ & _).
    revert Hret. unfold_prims. intros [= <- <-].
    eapply frame_trans; [exact Hf | apply frame_set_addr].
  - intros [= <- <-]. apply frame_refl.
Qed.

Lemma index_entry_frame ip blk j st a st' :
  index_entry ip blk j st = Ret a st' -> frame st st'.
Proof.
  unfold index_entry. unfold bind at 1, iread at 1, gets. intros Hret.
  apply bind_Ret_inv in Hret as (bp & st1 & Hbread & Hret).
  apply bread_Ret_inv in Hbread as (-> & -> & Hrd).
  revert Hret. unfold bind at 1, buf_data, gets. st_simpl.
  destruct (uint_at (block_data st blk) j =? 0).
  - rewrite bind_assoc. unfold bind at 1, iread at 1, gets. st_simpl.
    rewrite bind_assoc. intros Hret.
    apply bind_Ret_inv in Hret as (r & st1 & Hb & Hret).
    apply balloc_shape in Hb as (bb & jb & -> & Hr & _ & _).
    revert Hret. unfold_prims. st_simpl.
    rewrite (brelse_head _ blk (held st)) by reflexivity.
    intros [= <- <-]. repeat split. simpl. rewrite !length_insert. reflexivity.
  - unfold bind at 1, ret at 1.
    rewrite (bind_Ret _ _ _ _ _
               (brelse_head (with_held st (blk :: held st)) blk (held st) eq_refl)).
    intros [= <- <-]. rewrite with_held_id_2. apply frame_refl.
Qed.

Lemma translate_frame ip bn st a st' :
  translate ip bn st = Ret a st' -> frame st st' /\ bn < MAXFILE.
Proof.
  unfold translate.
  destruct (bn <? NDIRECT) eqn:H1.
  { intros Hret. apply Z.ltb_lt in H1. split; [eapply table_entry_frame; exact Hret|].
    rewrite NDIRECT_val in H1. rewrite MAXFILE_val. lia. }
  destruct (bn <? NDIRECT + NINDIRECT) eqn:H2.
  { intros Hret. apply Z.ltb_lt in H2.
    apply bind_Ret_inv in Hret as (x & st1 & Ht & Hi).
    apply table_entry_frame in Ht. apply index_entry_frame in Hi.
    split; [eapply frame_trans; eassumption|].
    rewrite NDIRECT_val, NINDIRECT_val in H2. rewrite MAXFILE_val. lia. }
  destruct (bn <? MAXFILE) eqn:H3; [|discriminate].
  intros Hret. apply Z.ltb_lt in H3. split; [|exact H3].
  cbv zeta in Hret.
  apply bind_Ret_inv in Hret as (x & st1 & Ht & Hret).
  apply bind_Ret_inv in Hret as (y & st2 & Hi & Hi').
  apply table_entry_frame in Ht. apply index_entry_frame in Hi, Hi'.
  eapply frame_trans; [exact Ht|]. eapply frame_trans; eassumption.
Qed.

Lemma bmap_frame ip bn st a st' :
  0 <= bn < 2 ^ 32 -> bmap ip bn st = Ret a st' -> frame st st' /\ bn < MAXFILE.
Proof. intros Hbn. rewrite bmap_translate by exact Hbn. apply translate_frame. Qed.

(** ** The loops of [readi] and [writei] *)

Lemma frame_inode st st' ip :
  frame st st' -> strip_addrs (inode_of st' ip) = strip_addrs (inode_of st ip).
Proof.
  intros (_ & _ & _ & _ & Hc). unfold inode_of.
  assert (E : (strip_addrs <$> icache st') !! ip = (strip_addrs <$> icache st) !! ip)
    by (rewrite Hc; reflexivity).
  rewrite !list_lookup_fmap in E.
  destruct (icache st' !! ip), (icache st !! ip); simpl in *; congruence.
Qed.

Lemma frame_size st st' ip :
  frame st st' -> i_size (inode_of st' ip) = i_size (inode_of st ip).
Proof.
  intros Hf. apply (frame_inode _ _ ip) in Hf.
  change (i_size (strip_addrs (inode_of st' ip)) = i_size (strip_addrs (inode_of st ip))).
  rewrite Hf. reflexivity.
Qed.

Lemma frame_type st st' ip :
  frame st st' -> i_type (inode_of st' ip) = i_type (inode_of st ip).
Proof.
  intros Hf. apply (frame_inode _ _ ip) in Hf.
  change (i_type (strip_addrs (inode_of st' ip)) = i_type (strip_addrs (inode_of st ip))).
  rewrite Hf. reflexivity.
Qed.

Lemma frame_length_icache st st' :
  frame st st' -> length (icache st') = length (icache st).
Proof.
  intros (_ & _ & _ & _ & Hc).
  rewrite <- (length_fmap strip_addrs (icache st')), Hc. apply length_fmap.
Qed.

Lemma BSIZE_pos : 0 < BSIZE.
Proof. reflexivity. Qed.

(** The number of bytes moved by one iteration. *)
Lemma chunk_bounds n tot off :
  0 <= tot < n -> n < 2 ^ 32 -> 0 <= off ->
  let m := Z.min (to_uint (n - tot)) (to_uint (BSIZE - off mod BSIZE)) in
  1 <= m /\ m <= n - tot /\ m <= BSIZE - off mod BSIZE.
Proof.
  intros Ht Hn Hoff. pose proof (Z.mod_pos_bound off BSIZE BSIZE_pos).
  rewrite BSIZE_val in *. cbv zeta.
  rewrite !to_uint_small by lia. lia.
Qed.

Lemma block_end off m :
  0 <= off -> m <= BSIZE - off mod BSIZE -> off + m <= (off / BSIZE + 1) * BSIZE.
Proof.
  intros Hoff Hm. pose proof BSIZE_pos.
  pose proof (Z.div_mod off BSIZE ltac:(lia)). lia.
Qed.

(** One iteration of the loop of [writei] after its block was fetched. *)
Lemma write_chunk bp st f h :
  held st = bp :: h ->
  (buf_update bp f;; log_write bp;; brelse bp) st
  = Ret tt (with_held (with_logged (set_block st bp (f (block_data st bp)))
                                   (bp :: logged st)) h).
Proof.
  intros Hh. unfold_prims. rewrite (brelse_head _ bp h) by exact Hh. reflexivity.
Qed.

Lemma writei_loop_Ret ip src n : forall fuel tot off st off' st',
  0 <= tot <= n -> n < 2 ^ 32 -> 0 <= off -> off + (n - tot) < 2 ^ 32 ->
  writei_loop ip src n fuel tot off st = Ret off' st' ->
  off' = off + (n - tot) /\ frame st st'
  /\ (tot < n -> off + (n - tot) <= MAXFILE * BSIZE).
Proof.
  induction fuel as [|fuel IH]; intros tot off st off' st' Ht Hn Hoff Hno Hret;
    [discriminate|].
  simpl in Hret. destruct (tot <? n) eqn:Hlt.
  - apply Z.ltb_lt in Hlt.
    unfold bind at 1, iread at 1, gets in Hret.
    apply bind_Ret_inv in Hret as (a & st1 & Hb & Hret).
    pose proof BSIZE_pos as HB.
    assert (Hbn : 0 <= off / BSIZE < 2 ^ 32).
    { split; [apply Z.div_pos; lia|]. apply Z.div_lt_upper_bound; lia. }
    apply (bmap_frame _ _ _ _ _ Hbn) in Hb as (Hf1 & Hmax).
    apply bind_Ret_inv in Hret as (bp & st2 & Hbread & Hret).
    apply bread_Ret_inv in Hbread as (-> & -> & Hrd).
    destruct (chunk_bounds n tot off ltac:(lia) Hn Hoff) as (Hm1 & Hm2 & Hm3).
    set (m := Z.min (to_uint (n - tot)) (to_uint (BSIZE - off mod BSIZE))) in *.
    rewrite <- !bind_assoc in Hret.
    apply bind_Ret_inv in Hret as (u & st3 & Hw & Hret).
    rewrite !bind_assoc in Hw.
    rewrite (write_chunk a _ _ (held st1)) in Hw by reflexivity.
    injection Hw as _ <-.
    rewrite !to_uint_small in Hret by lia.
    apply IH in Hret; try lia.
    destruct Hret as (-> & Hf2 & Hbound).
    split; [lia|]. split.
    + eapply frame_trans; [exact Hf1|]. eapply frame_trans; [|exact Hf2].
      repeat split. simpl. apply length_insert.
    + intros _. destruct (Z_lt_dec (tot + m) n) as [Hmore|Hlast].
      * specialize (Hbound Hmore). lia.
      * pose proof (block_end off m Hoff Hm3).
        assert (off / BSIZE + 1 <= MAXFILE) by lia.
        assert ((off / BSIZE + 1) * BSIZE <= MAXFILE * BSIZE)
          by (apply Z.mul_le_mono_nonneg_r; lia).
        lia.
  - apply Z.ltb_ge in Hlt. injection Hret as <- <-.
    split; [lia|]. split; [apply frame_refl | lia].
Qed.

Lemma length_put_bytes d pos src : length (put_bytes d pos src) = length d.
Proof. unfold put_bytes. apply length_inserts. Qed.

Lemma readi_loop_Ret ip n : forall fuel tot off dst st dst' st',
  0 <= tot <= n -> n < 2 ^ 32 -> 0 <= off -> off + (n - tot) < 2 ^ 32 ->
  readi_loop ip n fuel tot off dst st = Ret dst' st' ->
  frame st st' /\ length dst' = length dst
  /\ (tot < n -> off + (n - tot) <= MAXFILE * BSIZE).
Proof.
  induction fuel as [|fuel IH]; intros tot off dst st dst' st' Ht Hn Hoff Hno Hret;
    [discriminate|].
  simpl in Hret. destruct (tot <? n) eqn:Hlt.
  - apply Z.ltb_lt in Hlt.
    unfold bind at 1, iread at 1, gets in Hret.
    apply bind_Ret_inv in Hret as (a & st1 & Hb & Hret).
    pose proof BSIZE_pos as HB.
    assert (Hbn : 0 <= off / BSIZE < 2 ^ 32).
    { split; [apply Z.div_pos; lia|]. apply Z.div_lt_upper_bound; lia. }
    apply (bmap_frame _ _ _ _ _ Hbn) in Hb as (Hf1 & Hmax).
    apply bind_Ret_inv in Hret as (bp & st2 & Hbread & Hret).
    apply bread_Ret_inv in Hbread as (-> & -> & Hrd).
    destruct (chunk_bounds n tot off ltac:(lia) Hn Hoff) as (Hm1 & Hm2 & Hm3).
    set (m := Z.min (to_uint (n - tot)) (to_uint (BSIZE - off mod BSIZE))) in *.
    unfold bind at 1, buf_data, gets in Hret. unfold bind at 1 in Hret.
    rewrite (brelse_head _ a (held st1)) in Hret by reflexivity.
    rewrite with_held_id_2 in Hret.
    rewrite !to_uint_small in Hret by lia.
    apply IH in Hret; try lia.
    destruct Hret as (Hf2 & Hlen & Hbound).
    split; [eapply frame_trans; eassumption|].
    split; [rewrite Hlen; apply length_put_bytes|].
    intros _. destruct (Z_lt_dec (tot + m) n) as [Hmore|Hlast].
    + specialize (Hbound Hmore). lia.
    + pose proof (block_end off m Hoff Hm3).
      assert (off / BSIZE + 1 <= MAXFILE) by lia.
      assert ((off / BSIZE + 1) * BSIZE <= MAXFILE * BSIZE)
        by (apply Z.mul_le_mono_nonneg_r; lia).
      lia.
  - injection Hret as <- <-. split; [apply frame_refl|]. split; [reflexivity | lia].
Qed.

(** ** [writei]: the requests it refuses *)

Section IO.
Context `{Params}.

Lemma iupdate_frame ip st st' :
  iupdate ip st = Ret tt st' -> frame st st' /\ icache st' = icache st.
Proof.
  unfold iupdate. unfold bind at 1, iread at 1, gets.
  unfold bind at 1, gets. intros Hret.
  apply bind_Ret_inv in Hret as (bp & st1 & Hbread & Hret).
  apply bread_Ret_inv in Hbread as (-> & -> & Hrd).
  revert Hret. unfold bind at 1, iread at 1, gets.
  rewrite write_chunk with (h := held st) by reflexivity.
  intros [= <-]. split; [|reflexivity].
  repeat split. simpl. apply length_insert.
Qed.

(** C3.  [writei] on an inode that is not a device returns -1 and leaves the
    state as it was when [off] exceeds the size, when [off + n] overflows,
    or when [off + n] exceeds [MAXFILE * BSIZE]; and whenever it returns,
    the size is what it was or at most [MAXFILE * BSIZE]. *)
Theorem writei_rejects (st : state) (ip : nat) (src : list Z) (off n : Z) :
  0 <= off < 2 ^ 32 -> 0 <= n < 2 ^ 32 ->
  (ip < length (icache st))%nat ->
  i_type (inode_of st ip) <> T_DEV ->
  (i_size (inode_of st ip) < off \/ 2 ^ 32 <= off + n \/ MAXFILE * BSIZE < off + n ->
   writei ip src off n st = Ret (-1) st)
  /\ (forall r st',
      writei ip src off n st = Ret r st' ->
      i_size (inode_of st' ip) = i_size (inode_of st ip)
      \/ i_size (inode_of st' ip) <= MAXFILE * BSIZE).
Proof.
  intros Hoff Hn Hip Hty. apply Z.eqb_neq in Hty.
  assert (Hmax : to_uint (MAXFILE * BSIZE) = MAXFILE * BSIZE) by reflexivity.
  assert (HM : MAXFILE * BSIZE = 8459776) by reflexivity.
  split.
  - intros Hbad. unfold writei. unfold bind at 1, iread at 1, gets, id.
    rewrite Hty.
    destruct ((i_size (inode_of st ip) <? off) || (to_uint (off + n) <? off)) eqn:Hc;
      [reflexivity|].
    apply orb_false_iff in Hc as [Hc1 Hc2].
    apply Z.ltb_ge in Hc1, Hc2.
    assert (Hsum : off + n < 2 ^ 32).
    { destruct (Z_lt_dec (off + n) (2 ^ 32)) as [|Hge]; [assumption|].
      unfold to_uint in Hc2.
      assert (E : (off + n) mod 2 ^ 32 = off + n - 2 ^ 32).
      { symmetry. apply (Z.mod_unique (off + n) (2 ^ 32) 1); lia. }
      lia. }
    rewrite (to_uint_small (off + n)), Hmax by lia.
    assert (Hc3 : (MAXFILE * BSIZE <? off + n) = true) by (apply Z.ltb_lt; lia).
    rewrite Hc3. reflexivity.
  - intros r st'. unfold writei. unfold bind at 1, iread at 1, gets, id.
    rewrite Hty.
    destruct ((i_size (inode_of st ip) <? off) || (to_uint (off + n) <? off)) eqn:Hc.
    { intros [= <- <-]. left. reflexivity. }
    apply orb_false_iff in Hc as [Hc1 Hc2].
    apply Z.ltb_ge in Hc1, Hc2.
    assert (Hsum : off + n < 2 ^ 32).
    { destruct (Z_lt_dec (off + n) (2 ^ 32)) as [|Hge]; [assumption|].
      unfold to_uint in Hc2.
      assert (E : (off + n) mod 2 ^ 32 = off + n - 2 ^ 32).
      { symmetry. apply (Z.mod_unique (off + n) (2 ^ 32) 1); lia. }
      lia. }
    rewrite (to_uint_small (off + n)), Hmax by lia.
    destruct (MAXFILE * BSIZE <? off + n) eqn:Hc3.
    { intros [= <- <-]. left. reflexivity. }
    apply Z.ltb_ge in Hc3. intros Hret.
    apply bind_Ret_inv in Hret as (off' & st1 & Hloop & Hret).
    apply writei_loop_Ret in Hloop as (-> & Hf & _); try lia.
    revert Hret. unfold bind at 1, iread at 1, gets.
    destruct ((0 <? n) && (i_size (inode_of st1 ip) <? off + (n - 0))) eqn:Hgrow.
    + rewrite bind_assoc. unfold bind at 1, iwrite at 1, modify.
      intros Hret. apply bind_Ret_inv in Hret as ([] & st2 & Hupd & Hret).
      apply iupdate_frame in Hupd as (_ & Hc).
      injection Hret as _ <-. right.
      unfold inode_of. rewrite Hc. fold (inode_of (set_inode st1 ip
        (with_size (inode_of st1 ip) (off + (n - 0)))) ip).
      rewrite inode_of_set_eq by (rewrite (frame_length_icache _ _ Hf); exact Hip).
      simpl. lia.
    + unfold_prims. intros [= <- <-]. left. apply frame_size. exact Hf.
Qed.

Lemma no_overflow off n :
  0 <= off < 2 ^ 32 -> 0 <= n < 2 ^ 32 ->
  (to_uint (off + n) <? off) = false -> off + n < 2 ^ 32.
Proof.
  intros Hoff Hn Hc. apply Z.ltb_ge in Hc.
  destruct (Z_lt_dec (off + n) (2 ^ 32)) as [|Hge]; [assumption|].
  unfold to_uint in Hc.
  assert (E : (off + n) mod 2 ^ 32 = off + n - 2 ^ 32).
  { symmetry. apply (Z.mod_unique (off + n) (2 ^ 32) 1); lia. }
  lia.
Qed.

Lemma overflow off n :
  0 <= off < 2 ^ 32 -> 0 <= n < 2 ^ 32 ->
  2 ^ 32 <= off + n -> (to_uint (off + n) <? off) = true.
Proof.
  intros Hoff Hn Hge. apply Z.ltb_lt. unfold to_uint.
  assert (E : (off + n) mod 2 ^ 32 = off + n - 2 ^ 32).
  { symmetry. apply (Z.mod_unique (off + n) (2 ^ 32) 1); lia. }
  lia.
Qed.

(** The length that [readi] reads after clamping. *)
Lemma readi_unfold st ip dst off n :
  i_type (inode_of st ip) <> T_DEV ->
  readi ip dst off n st
  = if (i_size (inode_of st ip) <? off) || (to_uint (off + n) <? off)
    then Ret (-1, dst) st
    else
      let n' := if i_size (inode_of st ip) <? to_uint (off + n)
                then to_uint (i_size (inode_of st ip) - off) else n in
      (let* dst' := readi_loop ip n' (io_fuel n') 0 off dst in
       ret (to_int n', dst')) st.
Proof.
  intros Hty. apply Z.eqb_neq in Hty.
  unfold readi. unfold bind at 1, iread at 1, gets, id. rewrite Hty.
  destruct ((i_size (inode_of st ip) <? off) || (to_uint (off + n) <? off));
    reflexivity.
Qed.

Lemma readi_loop_nothing ip off dst st :
  readi_loop ip 0 (io_fuel 0) 0 off dst st = Ret dst st.
Proof. reflexivity. Qed.

(** C10, as amended.  [readi] on an inode that is not a device, at an offset
    equal to the size with [off + n] not overflowing, or with length zero at
    an offset not beyond the size, returns 0 and leaves the destination and
    the state as they were; an offset beyond the size and an [off + n] that
    overflows are reported as failures, and nothing else is. *)
Theorem readi_at_end (st : state) (ip : nat) (dst : list Z) (off n : Z) :
  0 <= off < 2 ^ 32 -> 0 <= n < 2 ^ 32 ->
  0 <= i_size (inode_of st ip) < 2 ^ 32 ->
  i_type (inode_of st ip) <> T_DEV ->
  (off = i_size (inode_of st ip) -> off + n < 2 ^ 32 ->
   readi ip dst off n st = Ret (0, dst) st)
  /\ (n = 0 -> off <= i_size (inode_of st ip) ->
      readi ip dst off n st = Ret (0, dst) st)
  /\ (i_size (inode_of st ip) < off \/ 2 ^ 32 <= off + n ->
      readi ip dst off n st = Ret (-1, dst) st)
  /\ (off <= i_size (inode_of st ip) -> off + n < 2 ^ 32 ->
      forall r dst' st', readi ip dst off n st = Ret (r, dst') st' -> 0 <= r).
Proof.
  intros Hoff Hn Hsz Hty. rewrite (readi_unfold st ip dst off n Hty).
  split; [|split; [|split]].
  - intros E Hsum.
    assert (Hc : (i_size (inode_of st ip) <? off) || (to_uint (off + n) <? off) = false).
    { apply orb_false_iff. split; apply Z.ltb_ge; [lia|].
      rewrite to_uint_small by lia. lia. }
    rewrite Hc. cbv zeta. rewrite to_uint_small by lia.
    assert (En : (if i_size (inode_of st ip) <? off + n
                  then to_uint (i_size (inode_of st ip) - off) else n) = 0).
    { destruct (i_size (inode_of st ip) <? off + n) eqn:E1.
      - rewrite <- E, Z.sub_diag. reflexivity.
      - apply Z.ltb_ge in E1. lia. }
    rewrite En. reflexivity.
  - intros -> Hle.
    assert (Hc : (i_size (inode_of st ip) <? off) || (to_uint (off + 0) <? off) = false).
    { apply orb_false_iff. split; apply Z.ltb_ge; [lia|].
      rewrite to_uint_small by lia. lia. }
    rewrite Hc. cbv zeta. rewrite to_uint_small by lia.
    assert (E1 : (i_size (inode_of st ip) <? off + 0) = false) by (apply Z.ltb_ge; lia).
    rewrite E1. reflexivity.
  - intros Hbad.
    assert (Hc : (i_size (inode_of st ip) <? off) || (to_uint (off + n) <? off) = true).
    { apply orb_true_iff. destruct Hbad as [Hb|Hb].
      - left. apply Z.ltb_lt. exact Hb.
      - right. apply overflow; assumption. }
    rewrite Hc. reflexivity.
  - intros Hle Hsum r dst' st'.
    assert (Hc : (i_size (inode_of st ip) <? off) || (to_uint (off + n) <? off) = false).
    { apply orb_false_iff. split; apply Z.ltb_ge; [lia|].
      rewrite to_uint_small by lia. lia. }
    rewrite Hc. cbv zeta. rewrite to_uint_small by lia.
    set (n' := if i_size (inode_of st ip) <? off + n
               then to_uint (i_size (inode_of st ip) - off) else n).
    assert (Hn' : 0 <= n' <= n).
    { unfold n'. destruct (i_size (inode_of st ip) <? off + n) eqn:E1.
      - apply Z.ltb_lt in E1. rewrite to_uint_small by lia. lia.
      - lia. }
    intros Hret. apply bind_Ret_inv in Hret as (d & st1 & Hloop & Hret).
    injection Hret as <- _ _.
    apply readi_loop_Ret in Hloop as (_ & _ & Hbound); try lia.
    assert (HM : MAXFILE * BSIZE = 8459776) by reflexivity.
    destruct (Z.eq_dec n' 0) as [->|Hnz]; [reflexivity|].
    rewrite to_int_small; lia.
Qed.

End IO.

Lemma writei_rejects_witness :
  writei (H:=xv6) 0 [1; 2] 5 2 st0 = Ret (-1) st0.
Proof.
  apply (proj1 (writei_rejects (H:=xv6) st0 0 [1; 2] 5 2
                  ltac:(lia) ltac:(lia) ltac:(simpl; lia) ltac:(discriminate))).
  left. simpl. lia.
Defined.

(** C10, as stated, fails: a read at an offset equal to the size whose
    [off + n] overflows is reported as a failure. *)
Lemma readi_at_size_overflow :
  i_size (inode_of st1 0) = 20
  /\ readi (H:=xv6) 0 [] 20 (2 ^ 32 - 1) st1 = Ret (-1, []) st1.
Proof. split; [vm_compute; reflexivity | reflexivity]. Qed.

Lemma readi_at_end_witness :
  readi (H:=xv6) 0 [7; 7] 20 2 st1 = Ret (0, [7; 7]) st1
  /\ readi (H:=xv6) 0 [7; 7] 21 2 st1 = Ret (-1, [7; 7]) st1.
Proof.
  assert (Hsz : i_size (inode_of st1 0) = 20) by (vm_compute; reflexivity).
  assert (Hty : i_type (inode_of st1 0) <> T_DEV (Params:=xv6)) by (vm_compute; discriminate).
  split.
  - apply (proj1 (readi_at_end (H:=xv6) st1 0 [7; 7] 20 2
                    ltac:(lia) ltac:(lia) ltac:(rewrite Hsz; lia) Hty)).
    + rewrite Hsz. reflexivity.
    + lia.
  - apply (proj1 (proj2 (proj2 (readi_at_end (H:=xv6) st1 0 [7; 7] 21 2
                    ltac:(lia) ltac:(lia) ltac:(rewrite Hsz; lia) Hty)))).
    left. rewrite Hsz. lia.
Defined.

(** ** Integers stored in blocks *)

Lemma to_uchar_idem x : to_uchar (to_uchar x) = to_uchar x.
Proof. unfold to_uchar. apply Z.mod_mod. lia. Qed.

Lemma length_set_uint_pos d pos v : length (set_uint_pos d pos v) = length d.
Proof. unfold set_uint_pos. rewrite !length_set_byte. reflexivity. Qed.

Lemma length_set_uint d j v : length (set_uint d j v) = length d.
Proof. apply length_set_uint_pos. Qed.

Lemma byte_at_set_uint_pos_ne d pos v i :
  0 <= pos -> 0 <= i -> (i < pos \/ pos + 4 <= i) ->
  byte_at (set_uint_pos d pos v) i = byte_at d i.
Proof.
  intros Hpos Hi Hout. unfold set_uint_pos.
  rewrite !byte_at_set_ne by lia. reflexivity.
Qed.

Lemma uint_at_pos_set_eq d pos v :
  0 <= pos -> (Z.to_nat (pos + 3) < length d)%nat ->
  uint_at_pos (set_uint_pos d pos v) pos = to_uint v.
Proof.
  intros Hpos Hlen. unfold uint_at_pos, set_uint_pos.
  rewrite (byte_at_set_eq _ (pos + 3)) by (rewrite ?length_set_byte; lia).
  rewrite (byte_at_set_ne _ (pos + 3) (pos + 2)) by lia.
  rewrite (byte_at_set_eq _ (pos + 2)) by (rewrite ?length_set_byte; lia).
  rewrite !(byte_at_set_ne _ _ (pos + 1)) by lia.
  rewrite (byte_at_set_eq _ (pos + 1)) by (rewrite ?length_set_byte; lia).
  rewrite !(byte_at_set_ne _ _ pos) by lia.
  rewrite (byte_at_set_eq _ pos) by lia.
  unfold to_uchar, to_uint. change (2 ^ 8) with 256. change (2 ^ 16) with 65536.
  change (2 ^ 24) with 16777216. change (2 ^ 32) with 4294967296.
  Z.to_euclidean_division_equations. lia.
Qed.

Lemma uint_at_pos_set_ne d pos pos' v :
  0 <= pos -> 0 <= pos' -> (pos' + 4 <= pos \/ pos + 4 <= pos') ->
  uint_at_pos (set_uint_pos d pos v) pos' = uint_at_pos d pos'.
Proof.
  intros Hpos Hpos' Hout. unfold uint_at_pos.
  rewrite !byte_at_set_uint_pos_ne by lia. reflexivity.
Qed.

Lemma uint_at_pos_range d pos : 0 <= uint_at_pos d pos < 2 ^ 32.
Proof.
  unfold uint_at_pos.
  pose proof (byte_at_range d pos). pose proof (byte_at_range d (pos + 1)).
  pose proof (byte_at_range d (pos + 2)). pose proof (byte_at_range d (pos + 3)).
  change (2 ^ 8) with 256. change (2 ^ 16) with 65536.
  change (2 ^ 24) with 16777216. change (2 ^ 32) with 4294967296. lia.
Qed.

Lemma uint_at_range d j : 0 <= uint_at d j < 2 ^ 32.
Proof. apply uint_at_pos_range. Qed.

Lemma uint_at_set_eq d j v :
  0 <= j -> (Z.to_nat (4 * j + 3) < length d)%nat ->
  uint_at (set_uint d j v) j = to_uint v.
Proof. intros. apply uint_at_pos_set_eq; lia. Qed.

Lemma uint_at_set_ne d j j' v :
  0 <= j -> 0 <= j' -> j <> j' -> uint_at (set_uint d j v) j' = uint_at d j'.
Proof. intros. apply uint_at_pos_set_ne; lia. Qed.

Lemma byte_at_zero_block i : byte_at zero_block i = 0.
Proof.
  unfold byte_at, zero_block.
  destruct (replicate (Z.to_nat BSIZE) 0 !! Z.to_nat i) eqn:E; [|reflexivity].
  apply lookup_replicate in E as [-> _]. reflexivity.
Qed.

Lemma uint_at_zero_block j : uint_at zero_block j = 0.
Proof. unfold uint_at, uint_at_pos. rewrite !byte_at_zero_block. reflexivity. Qed.

Lemma length_zero_block : length zero_block = Z.to_nat BSIZE.
Proof. apply length_replicate. Qed.

Lemma byte_at_nil i : byte_at [] i = 0.
Proof. unfold byte_at. rewrite lookup_nil. reflexivity. Qed.

(** ** Slots of an inode *)

Lemma index_lookup_zero st j : index_lookup st 0 j = 0.
Proof. reflexivity. Qed.

Lemma index_lookup_range st blk j : 0 <= index_lookup st blk j < 2 ^ 32.
Proof.
  unfold index_lookup. destruct (blk =? 0); [lia | apply uint_at_range].
Qed.

Lemma slot_path_data p : data_path p -> slot_path p.
Proof. intros []; constructor; assumption. Qed.

Lemma data_path_of_ok bn : 0 <= bn < MAXFILE -> data_path (data_path_of bn).
Proof.
  intros Hbn. unfold data_path_of. rewrite MAXFILE_val in Hbn.
  destruct (bn <? NDIRECT) eqn:H1.
  { apply Z.ltb_lt in H1. constructor. lia. }
  apply Z.ltb_ge in H1.
  destruct (bn <? NDIRECT + NINDIRECT) eqn:H2.
  { apply Z.ltb_lt in H2. constructor. unfold entry_ok. lia. }
  apply Z.ltb_ge in H2. rewrite NDIRECT_val, NINDIRECT_val in *.
  constructor; unfold entry_ok; rewrite NINDIRECT_val.
  - split; [apply Z.div_pos; lia | apply Z.div_lt_upper_bound; lia].
  - apply Z.mod_pos_bound. lia.
Qed.

Lemma data_path_of_inj bn bn' :
  0 <= bn < MAXFILE -> 0 <= bn' < MAXFILE ->
  data_path_of bn = data_path_of bn' -> bn = bn'.
Proof.
  intros Hbn Hbn'. unfold data_path_of.
  rewrite NDIRECT_val, NINDIRECT_val, MAXFILE_val in *.
  destruct (bn <? 11) eqn:H1, (bn' <? 11) eqn:H1';
    destruct (bn <? 11 + 128) eqn:H2, (bn' <? 11 + 128) eqn:H2';
    rewrite ?Z.ltb_lt, ?Z.ltb_ge in *; intros E; injection E; intros; try lia.
  pose proof (Z.div_mod (bn - 11 - 128) 128 ltac:(lia)).
  pose proof (Z.div_mod (bn' - 11 - 128) 128 ltac:(lia)).
  lia.
Qed.

Lemma lookup_addr_slot st ip bn :
  lookup_addr st (inode_of st ip) bn = slot_val st ip (data_path_of bn).
Proof.
  unfold lookup_addr, data_path_of.
  destruct (bn <? NDIRECT); [reflexivity|].
  destruct (bn <? NDIRECT + NINDIRECT); reflexivity.
Qed.

(** Slots read the same when the address table and the entries of the
    mapped index blocks are the same. *)
Lemma slot_val_same st st' ip :
  (forall k, addr_at (inode_of st' ip) k = addr_at (inode_of st ip) k) ->
  (forall p j, slot_path (p ++ [j]) -> slot_path p -> slot_val st ip p <> 0 ->
     uint_at (block_data st' (slot_val st ip p)) j
     = uint_at (block_data st (slot_val st ip p)) j) ->
  forall q, slot_path q -> slot_val st' ip q = slot_val st ip q.
Proof.
  intros Haddr Hent q Hq.
  assert (Hstep : forall p j, slot_path (p ++ [j]) -> slot_path p ->
            slot_val st' ip p = slot_val st ip p ->
            index_lookup st' (slot_val st' ip p) j = index_lookup st (slot_val st ip p) j).
  { intros p j Hpj Hp E. rewrite E. unfold index_lookup.
    destruct (slot_val st ip p =? 0) eqn:Ez; [reflexivity|].
    apply Z.eqb_neq in Ez. apply Hent; assumption. }
  destruct Hq as [k Hk| |j Hj| |o Ho|o j Ho Hj].
  - apply Haddr.
  - apply Haddr.
  - apply (Hstep [NDIRECT] j); [apply sp_single_entry; exact Hj | apply sp_single |].
    apply Haddr.
  - apply Haddr.
  - apply (Hstep [NDIRECT + 1] o); [apply sp_outer; exact Ho | apply sp_double |].
    apply Haddr.
  - apply (Hstep [NDIRECT + 1; o] j);
      [apply sp_inner; assumption | apply sp_outer; exact Ho |].
    apply (Hstep [NDIRECT + 1] o); [apply sp_outer; exact Ho | apply sp_double |].
    apply Haddr.
Qed.

Lemma slot_val_snoc st ip p j :
  p <> [] -> slot_val st ip (p ++ [j]) = index_lookup st (slot_val st ip p) j.
Proof.
  destruct p as [|k js]; [congruence|]. intros _. simpl.
  unfold walk. apply fold_left_app.
Qed.

Lemma slot_path_nonempty p : slot_path p -> p <> [].
Proof. intros []; discriminate. Qed.

(** Every slot is a table entry or an entry of the block of another slot. *)
Lemma slot_path_cases q :
  slot_path q ->
  (exists k, q = [k]) \/ (exists p j, q = p ++ [j] /\ slot_path p).
Proof.
  intros [k Hk| |j Hj| |o Ho|o j Ho Hj].
  - left. eauto.
  - left. eauto.
  - right. exists [NDIRECT], j. split; [reflexivity | apply sp_single].
  - left. eauto.
  - right. exists [NDIRECT + 1], o. split; [reflexivity | apply sp_double].
  - right. exists [NDIRECT + 1; o], j. split; [reflexivity | apply sp_outer; exact Ho].
Qed.

(** The slots after slot [t], which was empty, received the zero-filled
    block [r]. *)
Lemma slot_val_new st st' ip t r :
  slot_path t -> slot_val st ip t = 0 ->
  (forall k, 0 <= k -> [k] <> t ->
     addr_at (inode_of st' ip) k = addr_at (inode_of st ip) k) ->
  (forall k, [k] = t -> addr_at (inode_of st' ip) k = r) ->
  (forall p j, slot_path (p ++ [j]) -> slot_path p -> slot_val st ip p <> 0 ->
     p ++ [j] <> t ->
     uint_at (block_data st' (slot_val st ip p)) j
     = uint_at (block_data st (slot_val st ip p)) j) ->
  (forall p j, slot_path p -> p ++ [j] = t ->
     slot_val st ip p <> 0 /\ uint_at (block_data st' (slot_val st ip p)) j = r) ->
  (forall j, uint_at (block_data st' r) j = 0) ->
  forall q, slot_path q ->
    slot_val st' ip q = if decide (q = t) then r else slot_val st ip q.
Proof.
  intros Ht Hold Haddr Haddr' Hent Hhit Hzero.
  assert (Hsnoc : forall p j, slot_path (p ++ [j]) -> slot_path p ->
            slot_val st' ip p = (if decide (p = t) then r else slot_val st ip p) ->
            slot_val st' ip (p ++ [j])
            = if decide (p ++ [j] = t) then r else slot_val st ip (p ++ [j])).
  { intros p j Hpj Hp Cp.
    rewrite !slot_val_snoc by (apply slot_path_nonempty; exact Hp).
    rewrite Cp. destruct (decide (p = t)) as [->|Hne].
    - rewrite Hold. rewrite index_lookup_zero.
      destruct (decide (t ++ [j] = t)) as [E|_].
      + apply (f_equal length) in E. rewrite length_app in E. simpl in E. lia.
      + unfold index_lookup. destruct (r =? 0); [reflexivity | apply Hzero].
    - destruct (decide (p ++ [j] = t)) as [E|Hne'].
      + destruct (Hhit p j Hp E) as [Hnz Hr]. unfold index_lookup.
        apply Z.eqb_neq in Hnz. rewrite Hnz. exact Hr.
      + unfold index_lookup. destruct (slot_val st ip p =? 0) eqn:Ez; [reflexivity|].
        apply Z.eqb_neq in Ez. apply Hent; assumption. }
  assert (Hbase : forall k, 0 <= k ->
            slot_val st' ip [k] = if decide ([k] = t) then r else slot_val st ip [k]).
  { intros k Hk. simpl. destruct (decide ([k] = t)) as [E|Hne];
      [apply Haddr'; exact E | apply Haddr; assumption]. }
  assert (H11 : 0 <= NDIRECT) by (rewrite NDIRECT_val; lia).
  assert (H12 : 0 <= NDIRECT + 1) by (rewrite NDIRECT_val; lia).
  intros q [k Hk| |j Hj| |o Ho|o j Ho Hj].
  - apply Hbase. lia.
  - apply Hbase. exact H11.
  - apply (Hsnoc [NDIRECT] j); [apply sp_single_entry; exact Hj | apply sp_single |].
    apply Hbase. exact H11.
  - apply Hbase. exact H12.
  - apply (Hsnoc [NDIRECT + 1] o); [apply sp_outer; exact Ho | apply sp_double |].
    apply Hbase. exact H12.
  - apply (Hsnoc [NDIRECT + 1; o] j);
      [apply sp_inner; assumption | apply sp_outer; exact Ho |].
    apply (Hsnoc [NDIRECT + 1] o); [apply sp_outer; exact Ho | apply sp_double |].
    apply Hbase. exact H12.
Qed.

Lemma frame_inum st st' ip :
  frame st st' -> i_inum (inode_of st' ip) = i_inum (inode_of st ip).
Proof.
  intros Hf. apply (frame_inode _ _ ip) in Hf.
  change (i_inum (strip_addrs (inode_of st' ip)) = i_inum (strip_addrs (inode_of st ip))).
  rewrite Hf. reflexivity.
Qed.

Lemma extends_refl st ip : extends st st ip.
Proof.
  split; [apply frame_refl | reflexivity | reflexivity |].
  intros p _ Hz. left. exact Hz.
Qed.

Lemma extends_trans st1 st2 st3 ip :
  extends st1 st2 ip -> extends st2 st3 ip -> extends st1 st3 ip.
Proof.
  intros [F1 S1 D1 N1] [F2 S2 D2 N2]. split.
  - eapply frame_trans; eassumption.
  - intros p Hp Hnz.
    assert (E : slot_val st2 ip p = slot_val st1 ip p) by (apply S1; assumption).
    rewrite <- E. apply S2; [exact Hp | congruence].
  - intros p Hp Hnz.
    assert (E : slot_val st2 ip p = slot_val st1 ip p)
      by (apply S1; [apply slot_path_data; exact Hp | exact Hnz]).
    rewrite <- E. rewrite D2 by (try assumption; congruence).
    rewrite E. apply D1; assumption.
  - intros p Hp Hz. destruct (Z.eq_dec (slot_val st2 ip p) 0) as [Hz2|Hnz2].
    + apply N2; assumption.
    + right. rewrite (S2 p (slot_path_data p Hp) Hnz2).
      rewrite (D2 p Hp Hnz2).
      destruct (N1 p Hp Hz) as [Hz2|Hzero]; [congruence | exact Hzero].
Qed.

Lemma data_start_pos s : size_ok s -> 1 < sb_bmapstart s -> 2 < data_start s.
Proof.
  intros Hsz Hbm. unfold data_start, size_ok in *.
  assert (0 <= sb_size s / BPB) by (apply Z.div_pos; [lia | apply BPB_pos]). lia.
Qed.

(** The file system after the free data block [r] was allocated, zeroed and
    stored in the empty slot [t]. *)
Lemma alloc_step_ok st st' ip t r :
  fs_ok st ip -> slot_path t -> slot_val st ip t = 0 ->
  (forall q, slot_path q ->
     slot_val st' ip q = if decide (q = t) then r else slot_val st ip q) ->
  is_data (sb st) r -> in_use st r = false ->
  frame st st' ->
  length (i_addrs (inode_of st' ip)) = Z.to_nat (NDIRECT + 2) ->
  blocks_ok st' ->
  (forall x, 0 <= x < sb_size (sb st) -> in_use st x = true -> in_use st' x = true) ->
  in_use st' r = true ->
  (forall q, data_path q -> slot_val st ip q <> 0 ->
     block_data st' (slot_val st ip q) = block_data st (slot_val st ip q)) ->
  (data_path t -> block_data st' r = zero_block) ->
  fs_ok st' ip /\ extends st st' ip.
Proof.
  intros Hok Ht Hold Hslots Hdata Hfree Hf Hlen Hblocks Hmono Hr Hkeep Hzero.
  assert (Hsb : sb st' = sb st) by apply Hf.
  destruct Hok as [Ksz Kbm Kd Kbl Kmeta Kh Kaddrs Kinum Kslots Kinj].
  split.
  - split; rewrite ?Hsb; try assumption.
    + intros b Hb. apply Hmono; [lia | apply Kmeta; exact Hb].
    + rewrite (frame_length_icache _ _ Hf). exact Kh.
    + rewrite (frame_inum _ _ ip Hf). exact Kinum.
    + intros p Hp. rewrite (Hslots p Hp).
      destruct (decide (p = t)) as [_|_].
      * intros _. split; assumption.
      * intros Hnz. destruct (Kslots p Hp Hnz) as [Hd Hu].
        pose proof (data_start_pos _ Ksz Kbm).
        split; [exact Hd | apply Hmono; [unfold is_data in Hd; lia | exact Hu]].
    + intros p q Hp Hq. rewrite (Hslots p Hp), (Hslots q Hq).
      destruct (decide (p = t)) as [->|Hpt], (decide (q = t)) as [->|Hqt].
      * reflexivity.
      * intros E Hnz. exfalso.
        assert (Hu : in_use st (slot_val st ip q) = true)
          by (apply Kslots; [exact Hq | congruence]).
        congruence.
      * intros E Hnz. exfalso.
        assert (Hu : in_use st (slot_val st ip p) = true) by (apply Kslots; assumption).
        congruence.
      * apply Kinj; assumption.
  - split.
    + exact Hf.
    + intros p Hp Hnz. rewrite (Hslots p Hp).
      destruct (decide (p = t)) as [->|_]; [congruence | reflexivity].
    + exact Hkeep.
    + intros p Hp Hz. rewrite (Hslots p (slot_path_data p Hp)).
      destruct (decide (p = t)) as [->|_]; [right; apply Hzero; exact Hp | left; exact Hz].
Qed.

(** ** Allocation in a well-formed file system *)

Lemma bitmap_block_meta st ip x :
  fs_ok st ip -> 0 <= x < sb_size (sb st) ->
  BBLOCK x (sb st) = x / BPB + sb_bmapstart (sb st)
  /\ 1 < BBLOCK x (sb st) < data_start (sb st).
Proof.
  intros Hok Hx. pose proof BPB_pos as HB.
  pose proof (ok_size _ _ Hok) as Hsz. pose proof (ok_bmapstart _ _ Hok) as Hbm.
  pose proof (ok_data _ _ Hok) as Hd. unfold size_ok in Hsz. unfold data_start in *.
  assert (0 <= x / BPB <= sb_size (sb st) / BPB).
  { split; [apply Z.div_pos; lia | apply Z.div_le_mono; lia]. }
  unfold BBLOCK. rewrite Z.quot_div_nonneg by lia.
  rewrite to_uint_small by lia. lia.
Qed.

Lemma is_data_not_bitmap st ip b x :
  fs_ok st ip -> is_data (sb st) b -> 0 <= x < sb_size (sb st) ->
  b <> BBLOCK x (sb st).
Proof.
  intros Hok Hb Hx. destruct (bitmap_block_meta st ip x Hok Hx) as [_ Hlt].
  unfold is_data in Hb. lia.
Qed.

Lemma blocks_ok_set st b d :
  blocks_ok st -> length d = Z.to_nat BSIZE -> blocks_ok (set_block st b d).
Proof.
  intros Hok Hd b' d' Hl. unfold set_block in Hl. simpl in Hl.
  destruct (decide (Z.to_nat b = b')) as [<-|Hne].
  - destruct (decide (Z.to_nat b < length (disk st))%nat) as [Hlt|Hge].
    + rewrite list_lookup_insert_eq in Hl by exact Hlt. congruence.
    + rewrite list_insert_ge in Hl by lia. eapply Hok. exact Hl.
  - rewrite list_lookup_insert_ne in Hl by exact Hne. eapply Hok. exact Hl.
Qed.

Lemma block_data_length st b :
  blocks_ok st -> length (block_data st b) = Z.to_nat BSIZE \/ block_data st b = [].
Proof.
  intros Hok. unfold block_data.
  destruct (disk st !! Z.to_nat b) eqn:E; simpl; [left; eapply Hok; exact E | right; reflexivity].
Qed.

Lemma length_set_bit d bi : length (set_bit d bi) = length d.
Proof. apply length_set_byte. Qed.

Lemma blocks_ok_alloc st r : blocks_ok st -> blocks_ok (alloc_state st r).
Proof.
  intros Hok. unfold alloc_state. cbv zeta.
  assert (Hok1 : blocks_ok (set_block st (BBLOCK r (sb st))
                    (set_bit (block_data st (BBLOCK r (sb st))) (r mod BPB)))).
  { intros b' d' Hl. unfold set_block in Hl. simpl in Hl.
    destruct (decide (Z.to_nat (BBLOCK r (sb st)) = b')) as [<-|Hne].
    - destruct (disk st !! Z.to_nat (BBLOCK r (sb st))) eqn:E.
      + rewrite list_lookup_insert_eq in Hl by (eapply lookup_lt_Some; exact E).
        injection Hl as <-. rewrite length_set_bit. unfold block_data. rewrite E.
        simpl. eapply Hok. exact E.
      + rewrite list_insert_ge in Hl by (apply lookup_ge_None; exact E). congruence.
    - rewrite list_lookup_insert_ne in Hl by exact Hne. eapply Hok. exact Hl. }
  intros b' d' Hl. apply (blocks_ok_set _ r zero_block Hok1 length_zero_block b' d').
  exact Hl.
Qed.

(** What an allocation changes in a well-formed file system. *)
Lemma alloc_state_facts st ip r :
  fs_ok st ip -> 0 <= r < sb_size (sb st) -> in_use st r = false ->
  readable st r -> readable st (BBLOCK r (sb st)) ->
  is_data (sb st) r
  /\ blocks_ok (alloc_state st r)
  /\ (forall x, 0 <= x < sb_size (sb st) -> in_use st x = true ->
                in_use (alloc_state st r) x = true)
  /\ in_use (alloc_state st r) r = true
  /\ (forall b, is_data (sb st) b -> b <> r ->
                block_data (alloc_state st r) b = block_data st b)
  /\ block_data (alloc_state st r) r = zero_block.
Proof.
  intros Hok Hr Hfree Hrd Hrbb.
  pose proof (ok_size _ _ Hok) as Hsz. pose proof (ok_bmapstart _ _ Hok) as Hbm.
  pose proof (data_start_pos _ Hsz Hbm) as Hds.
  destruct (bitmap_block_meta st ip r Hok Hr) as [Ebb Hbb].
  assert (Hdata : is_data (sb st) r).
  { split; [|lia]. destruct (Z_lt_dec r (data_start (sb st))) as [Hlt|]; [|lia].
    rewrite (ok_meta _ _ Hok r) in Hfree by lia. discriminate. }
  assert (Hne : BBLOCK r (sb st) <> r) by (unfold is_data in Hdata; lia).
  split; [exact Hdata|]. split; [apply blocks_ok_alloc, Hok|].
  split; [|split; [|split]].
  - intros x Hx Hu. unfold in_use. rewrite sb_alloc_state.
    destruct (bitmap_block_meta st ip x Hok Hx) as [Exb Hxb].
    destruct (Z.eq_dec (BBLOCK x (sb st)) (BBLOCK r (sb st))) as [E|E].
    + rewrite E, block_data_alloc_bitmap by (assumption || lia).
      destruct (Z.eq_dec (x mod BPB) (r mod BPB)) as [Em|Em].
      * rewrite Em. apply bit_at_set_eq; [apply Z.mod_pos_bound, BPB_pos|].
        apply bit_index_bound; [apply Hok | exact Hrbb].
      * rewrite bit_at_set_ne; try (apply Z.mod_pos_bound, BPB_pos); try congruence.
        rewrite <- E. exact Hu.
    + rewrite block_data_alloc_other by (unfold is_data in Hdata; lia). exact Hu.
  - unfold in_use. rewrite sb_alloc_state.
    rewrite block_data_alloc_bitmap by (assumption || lia).
    apply bit_at_set_eq; [apply Z.mod_pos_bound, BPB_pos|].
    apply bit_index_bound; [apply Hok | exact Hrbb].
  - intros b Hb Hbr. apply block_data_alloc_other; try lia.
    + unfold is_data in Hb. lia.
    + unfold is_data in Hb. lia.
  - apply block_data_alloc_self; [lia | exact Hrd].
Qed.

Lemma fs_ok_with_held st ip h : fs_ok st ip -> fs_ok (with_held st h) ip.
Proof. intros [? ? ? ? ? ? ? ? ? ?]. split; assumption. Qed.

Lemma fs_ok_with_logged st ip l : fs_ok st ip -> fs_ok (with_logged st l) ip.
Proof. intros [? ? ? ? ? ? ? ? ? ?]. split; assumption. Qed.

(** ** The two steps of the translator in a well-formed file system *)

Lemma addr_at_with_addr_eq i k a :
  0 <= k -> (Z.to_nat k < length (i_addrs i))%nat -> addr_at (with_addr i k a) k = a.
Proof.
  intros Hk Hlt. unfold addr_at, with_addr. simpl.
  rewrite list_lookup_insert_eq by exact Hlt. reflexivity.
Qed.

Lemma addr_at_with_addr_ne i k k' a :
  0 <= k -> 0 <= k' -> k <> k' -> addr_at (with_addr i k a) k' = addr_at i k'.
Proof.
  intros Hk Hk' Hne. unfold addr_at, with_addr. simpl.
  rewrite list_lookup_insert_ne by lia. reflexivity.
Qed.

Lemma slot_path_table_range k : slot_path [k] -> 0 <= k < NDIRECT + 2.
Proof. intros Hk. inversion Hk; subst; rewrite NDIRECT_val in *; lia. Qed.

Lemma slot_path_entry p j : slot_path (p ++ [j]) -> p <> [] -> entry_ok j.
Proof.
  intros Hp Hne. inversion Hp as [k Hk E| E |j' Hj E| E |o Ho E|o j' Ho Hj E];
    destruct p as [|a [|b [|c p]]]; simpl in E; try congruence;
    injection E; intros; subst; try assumption;
    try (destruct p; discriminate).
Qed.

Lemma data_path_leaf q j : data_path q -> ~ slot_path (q ++ [j]).
Proof.
  intros Hq Hs. inversion Hq; subst; simpl in Hs; inversion Hs; subst;
    rewrite NDIRECT_val in *; lia.
Qed.

Lemma slot_not_free st ip p r :
  fs_ok st ip -> slot_path p -> slot_val st ip p <> 0 -> in_use st r = false ->
  slot_val st ip p <> r.
Proof.
  intros Hok Hp Hnz Hfree E. destruct (ok_slots _ _ Hok p Hp Hnz) as [_ Hu]. congruence.
Qed.

Lemma table_entry_ok st ip k a st' :
  fs_ok st ip -> slot_path [k] ->
  table_entry ip k st = Ret a st' ->
  fs_ok st' ip /\ extends st st' ip /\ slot_val st' ip [k] = a /\ a <> 0.
Proof.
  intros Hok Hk Hret. pose proof (table_entry_frame _ _ _ _ _ Hret) as Hframe.
  revert Hret. unfold table_entry. unfold bind at 1, iread at 1, gets.
  destruct (addr_at (inode_of st ip) k =? 0) eqn:Ez.
  - apply Z.eqb_eq in Ez. unfold bind at 1, iread at 1, gets. intros Hret.
    apply bind_Ret_inv in Hret as (r & st1 & Hb & Hret).
    apply (balloc_Ret_inv _ _ _ _ (ok_size _ _ Hok)) in Hb
      as (Hr & Hfree & _ & Hrd & Hrbb & ->).
    revert Hret. unfold_prims. rewrite inode_of_alloc_state. intros [= <- <-].
    destruct (alloc_state_facts st ip r Hok Hr Hfree Hrd Hrbb)
      as (Hdata & Hblocks & Hmono & Hused & Hkeep & Hzero).
    pose proof (slot_path_table_range k Hk) as Hkr.
    pose proof (ok_addrs _ _ Hok) as Haddrs.
    pose proof (ok_handle _ _ Hok) as Hh.
    set (st' := set_inode (alloc_state st r) ip (with_addr (inode_of st ip) k r)) in *.
    assert (Hino : inode_of st' ip = with_addr (inode_of st ip) k r).
    { apply inode_of_set_eq. rewrite icache_alloc_state. exact Hh. }
    assert (Hslots : forall q, slot_path q ->
              slot_val st' ip q = if decide (q = [k]) then r else slot_val st ip q).
    { apply slot_val_new.
      - exact Hk.
      - exact Ez.
      - intros k' Hk' Hne. rewrite Hino. apply addr_at_with_addr_ne; [lia | lia | congruence].
      - intros k' [= ->]. rewrite Hino. apply addr_at_with_addr_eq; lia.
      - intros p j Hpj Hp Hnz _.
        change (block_data st' (slot_val st ip p))
          with (block_data (alloc_state st r) (slot_val st ip p)).
        rewrite Hkeep; [reflexivity | apply Hok; assumption |].
        apply (slot_not_free st ip p r Hok Hp Hnz Hfree).
      - intros p j Hp E. apply (f_equal length) in E. rewrite length_app in E.
        pose proof (slot_path_nonempty p Hp). destruct p; [congruence | simpl in E; lia].
      - intros j. change (block_data st' r) with (block_data (alloc_state st r) r).
        rewrite Hzero. apply uint_at_zero_block. }
    destruct (alloc_step_ok st st' ip [k] r Hok Hk Ez Hslots Hdata Hfree Hframe)
      as [Hok' Hext].
    + rewrite Hino. unfold with_addr. simpl. rewrite length_insert. exact Haddrs.
    + exact Hblocks.
    + exact Hmono.
    + exact Hused.
    + intros q Hq Hnz. change (block_data st' (slot_val st ip q))
        with (block_data (alloc_state st r) (slot_val st ip q)).
      apply Hkeep; [apply Hok; [apply slot_path_data; exact Hq | exact Hnz]|].
      apply (slot_not_free st ip q r Hok (slot_path_data q Hq) Hnz Hfree).
    + intros _. exact Hzero.
    + split; [exact Hok'|]. split; [exact Hext|]. split.
      * rewrite (Hslots [k] Hk). rewrite decide_True by reflexivity. reflexivity.
      * pose proof (data_start_pos _ (ok_size _ _ Hok) (ok_bmapstart _ _ Hok)).
        unfold is_data in Hdata. lia.
  - apply Z.eqb_neq in Ez. intros [= <- <-].
    split; [exact Hok|]. split; [apply extends_refl|]. split; [reflexivity | exact Ez].
Qed.

Lemma slot_block_length st ip p :
  fs_ok st ip -> readable st (slot_val st ip p) ->
  length (block_data st (slot_val st ip p)) = Z.to_nat BSIZE.
Proof. intros Hok [_ Hd]. apply blocks_ok_length; [apply Hok | exact Hd]. Qed.

Lemma index_entry_ok st ip p0 j a st' :
  fs_ok st ip -> slot_path (p0 ++ [j]) -> slot_path p0 -> slot_val st ip p0 <> 0 ->
  index_entry ip (slot_val st ip p0) j st = Ret a st' ->
  fs_ok st' ip /\ extends st st' ip /\ slot_val st' ip (p0 ++ [j]) = a /\ a <> 0.
Proof.
  intros Hok Hpj Hp0 Hnz0 Hret.
  pose proof (index_entry_frame _ _ _ _ _ _ Hret) as Hframe.
  pose proof (slot_path_nonempty p0 Hp0) as Hne0.
  pose proof (slot_path_entry p0 j Hpj Hne0) as Hj.
  set (blk := slot_val st ip p0) in *.
  destruct (ok_slots _ _ Hok p0 Hp0 Hnz0) as [Hblk_data Hblk_used].
  pose proof (data_start_pos _ (ok_size _ _ Hok) (ok_bmapstart _ _ Hok)) as Hds.
  assert (Hblk0 : 0 <= blk) by (unfold is_data in Hblk_data; lia).
  revert Hret. unfold index_entry. unfold bind at 1, iread at 1, gets. intros Hret.
  apply bind_Ret_inv in Hret as (bp & sth & Hbread & Hret).
  apply bread_Ret_inv in Hbread as (-> & -> & Hrd).
  revert Hret. unfold bind at 1, buf_data, gets. rewrite block_data_with_held.
  assert (Eold : slot_val st ip (p0 ++ [j]) = uint_at (block_data st blk) j).
  { rewrite slot_val_snoc by exact Hne0. unfold index_lookup. fold blk.
    apply Z.eqb_neq in Hnz0. rewrite Hnz0. reflexivity. }
  destruct (uint_at (block_data st blk) j =? 0) eqn:Ez.
  - apply Z.eqb_eq in Ez.
    rewrite bind_assoc. unfold bind at 1, iread at 1, gets.
    rewrite bind_assoc. intros Hret.
    apply bind_Ret_inv in Hret as (r & st1 & Hb & Hret).
    apply (balloc_Ret_inv _ (with_held st (blk :: held st)) _ _ (ok_size _ _ Hok)) in Hb
      as (Hr & Hfree & _ & Hrdh & Hrbbh & ->).
    change (in_use (with_held st (blk :: held st)) r) with (in_use st r) in Hfree.
    change (sb (with_held st (blk :: held st))) with (sb st) in *.
    assert (Hrd_r : readable st r).
    { destruct Hrdh as [Hh Hd]. split; [|exact Hd].
      intros Hin. apply Hh. simpl. apply list_elem_of_further. exact Hin. }
    assert (Hrbb : readable st (BBLOCK r (sb st))).
    { destruct Hrbbh as [Hh Hd]. split; [|exact Hd].
      intros Hin. apply Hh. simpl. apply list_elem_of_further. exact Hin. }
    destruct (alloc_state_facts st ip r Hok Hr Hfree Hrd_r Hrbb)
      as (Hdata & Hblocks & Hmono & Hused & Hkeep & Hzero).
    assert (Hrblk : blk <> r).
    { intros E. unfold blk in E. rewrite E in Hblk_used. congruence. }
    revert Hret. unfold_prims.
    rewrite (brelse_head _ blk (held st)) by reflexivity.
    intros [= <- <-].
    set (st1 := alloc_state st r) in *.
    set (st' := with_held _ _).
    assert (Hlen1 : length (block_data st1 blk) = Z.to_nat BSIZE).
    { unfold st1. rewrite Hkeep by assumption. apply slot_block_length; assumption. }
    assert (Hblk_lt : (Z.to_nat blk < length (disk st1))%nat).
    { unfold st1. rewrite length_disk_alloc_state. apply readable_lt. exact Hrd. }
    assert (Hins : block_data st' blk = set_uint (block_data st1 blk) j r).
    { apply (block_data_set_eq st1 blk _ Hblk0 Hblk_lt). }
    assert (Hother : forall b, 0 <= b -> b <> blk -> block_data st' b = block_data st1 b).
    { intros b Hb Hbne. apply (block_data_set_ne st1 blk b _ Hblk0 Hb). congruence. }
    assert (Hj4 : (Z.to_nat (4 * j + 3) < length (block_data st1 blk))%nat).
    { rewrite Hlen1. unfold entry_ok in Hj. rewrite NINDIRECT_val in Hj.
      rewrite BSIZE_val. lia. }
    assert (Hslots : forall q, slot_path q ->
              slot_val st' ip q = if decide (q = p0 ++ [j]) then r else slot_val st ip q).
    { apply slot_val_new.
      - exact Hpj.
      - rewrite Eold. exact Ez.
      - intros k' _ _. reflexivity.
      - intros k' E. apply (f_equal length) in E. rewrite length_app in E.
        destruct p0; [congruence | simpl in E; lia].
      - intros p j' Hpj' Hp Hnz Hnt.
        destruct (ok_slots _ _ Hok p Hp Hnz) as [Hpd Hpu].
        destruct (Z.eq_dec (slot_val st ip p) blk) as [E|E].
        + assert (p = p0) by (apply (ok_inj _ _ Hok); assumption). subst p.
          assert (j' <> j) by congruence.
          fold blk. rewrite Hins.
          rewrite uint_at_set_ne;
            [| apply Hj | apply (slot_path_entry p0 j' Hpj' Hne0) | congruence].
          unfold st1. rewrite Hkeep by assumption. reflexivity.
        + rewrite Hother by (unfold is_data in Hpd; lia || assumption).
          unfold st1. rewrite Hkeep; [reflexivity | exact Hpd |].
          apply (slot_not_free st ip p r Hok Hp Hnz Hfree).
      - intros p j' Hp E. apply app_inj_tail in E as [-> ->].
        split; [exact Hnz0|]. fold blk. rewrite Hins.
        rewrite uint_at_set_eq by (apply Hj || exact Hj4).
        apply to_uint_small. pose proof (ok_size _ _ Hok) as Hs.
        unfold size_ok in Hs. pose proof BPB_pos. lia.
      - intros j'. rewrite Hother by (lia || congruence).
        rewrite Hzero. apply uint_at_zero_block. }
    destruct (alloc_step_ok st st' ip (p0 ++ [j]) r Hok Hpj
                ltac:(rewrite Eold; exact Ez) Hslots Hdata Hfree Hframe)
      as [Hok' Hext].
    + apply (ok_addrs _ _ Hok).
    + assert (Hbo : blocks_ok (set_block st1 blk (set_uint (block_data st1 blk) j r))).
      { apply blocks_ok_set; [exact Hblocks | rewrite length_set_uint; exact Hlen1]. }
      exact Hbo.
    + intros x Hx Hu. unfold in_use.
      change (sb st') with (sb st).
      destruct (bitmap_block_meta st ip x Hok Hx) as [_ Hxb].
      rewrite Hother by (unfold is_data in Hblk_data; lia).
      apply Hmono; assumption.
    + unfold in_use. change (sb st') with (sb st).
      destruct (bitmap_block_meta st ip r Hok Hr) as [_ Hxb].
      rewrite Hother by (unfold is_data in Hblk_data; lia).
      exact Hused.
    + intros q Hq Hnz.
      pose proof (slot_path_data q Hq) as Hq'.
      destruct (ok_slots _ _ Hok q Hq' Hnz) as [Hqd Hqu].
      assert (Hqb : slot_val st ip q <> blk).
      { intros E. assert (q = p0) by (apply (ok_inj _ _ Hok); assumption). subst q.
        exact (data_path_leaf p0 j Hq Hpj). }
      rewrite Hother by (unfold is_data in Hqd; lia || assumption).
      apply Hkeep; [exact Hqd|].
      apply (slot_not_free st ip q r Hok Hq' Hnz Hfree).
    + intros _. rewrite Hother by (lia || congruence). exact Hzero.
    + split; [exact Hok'|]. split; [exact Hext|]. split.
      * rewrite (Hslots _ Hpj). rewrite decide_True by reflexivity. reflexivity.
      * unfold is_data in Hdata. lia.
  - apply Z.eqb_neq in Ez. unfold bind at 1, ret at 1.
    rewrite (bind_Ret _ _ _ _ _
               (brelse_head (with_held st (blk :: held st)) blk (held st) eq_refl)).
    intros [= <- <-]. rewrite with_held_id_2.
    split; [exact Hok|]. split; [apply extends_refl|].
    split; [exact Eold | exact Ez].
Qed.

(** [bmap] in a well-formed file system: the file system stays well formed,
    the file only grows, and the result is the address now mapped at [bn]. *)
Lemma bmap_ok st ip bn a st' :
  fs_ok st ip -> 0 <= bn < 2 ^ 32 ->
  bmap ip bn st = Ret a st' ->
  fs_ok st' ip /\ extends st st' ip
  /\ lookup_addr st' (inode_of st' ip) bn = a /\ a <> 0 /\ bn < MAXFILE.
Proof.
  intros Hok Hbn. rewrite bmap_translate by exact Hbn.
  rewrite lookup_addr_slot. unfold translate, data_path_of.
  destruct (bn <? NDIRECT) eqn:H1.
  { apply Z.ltb_lt in H1. intros Hret.
    apply table_entry_ok in Hret as (Hok' & Hext & Hv & Hnz);
      [|exact Hok | apply sp_direct; lia].
    split; [exact Hok'|]. split; [exact Hext|]. split; [exact Hv|].
    split; [exact Hnz|]. rewrite NDIRECT_val in H1. rewrite MAXFILE_val. lia. }
  apply Z.ltb_ge in H1.
  destruct (bn <? NDIRECT + NINDIRECT) eqn:H2.
  { apply Z.ltb_lt in H2. intros Hret.
    apply bind_Ret_inv in Hret as (single & st1 & Ht & Hi).
    apply table_entry_ok in Ht as (Hok1 & Hext1 & Hv1 & Hnz1);
      [|exact Hok | apply sp_single].
    rewrite <- Hv1 in Hi, Hnz1.
    assert (Hj : entry_ok (bn - NDIRECT)) by (unfold entry_ok; lia).
    apply (index_entry_ok st1 ip [NDIRECT]) in Hi as (Hok' & Hext & Hv & Hnz);
      [|exact Hok1 | apply sp_single_entry; exact Hj | apply sp_single | exact Hnz1].
    split; [exact Hok'|]. split; [eapply extends_trans; eassumption|].
    split; [exact Hv|]. split; [exact Hnz|].
    rewrite NDIRECT_val, NINDIRECT_val in H2. rewrite MAXFILE_val. lia. }
  apply Z.ltb_ge in H2.
  destruct (bn <? MAXFILE) eqn:H3; [|discriminate].
  apply Z.ltb_lt in H3. cbv zeta. intros Hret.
  set (r := bn - NDIRECT - NINDIRECT) in *.
  assert (Hr : 0 <= r < NINDIRECT * NINDIRECT) by (unfold r, MAXFILE in *; lia).
  assert (Ho : entry_ok (r / NINDIRECT)).
  { unfold entry_ok. rewrite NINDIRECT_val in *.
    split; [apply Z.div_pos; lia | apply Z.div_lt_upper_bound; lia]. }
  assert (Hj : entry_ok (r mod NINDIRECT)).
  { unfold entry_ok. apply Z.mod_pos_bound. rewrite NINDIRECT_val. lia. }
  apply bind_Ret_inv in Hret as (outer & st1 & Ht & Hret).
  apply bind_Ret_inv in Hret as (inner & st2 & Hi1 & Hi2).
  apply table_entry_ok in Ht as (Hok1 & Hext1 & Hv1 & Hnz1);
    [|exact Hok | apply sp_double].
  rewrite <- Hv1 in Hi1, Hnz1.
  apply (index_entry_ok st1 ip [NDIRECT + 1]) in Hi1 as (Hok2 & Hext2 & Hv2 & Hnz2);
    [|exact Hok1 | apply sp_outer; exact Ho | apply sp_double | exact Hnz1].
  rewrite <- Hv2 in Hi2, Hnz2.
  apply (index_entry_ok st2 ip ([NDIRECT + 1] ++ [r / NINDIRECT])) in Hi2
    as (Hok' & Hext & Hv & Hnz);
    [|exact Hok2 | apply sp_inner; assumption | apply sp_outer; exact Ho | exact Hnz2].
  split; [exact Hok'|].
  split; [eapply extends_trans; [exact Hext1|]; eapply extends_trans; eassumption|].
  split; [exact Hv|]. split; [exact Hnz | exact H3].
Qed.

(** The content of the file is what it was before [bmap]. *)
Lemma extends_file_byte st st' ip p :
  fs_ok st ip -> extends st st' ip -> 0 <= p < MAXFILE * BSIZE ->
  file_byte st' ip p = file_byte st ip p.
Proof.
  intros Hok [_ Hs Hd Hn] Hp. unfold file_byte. cbv zeta.
  rewrite !lookup_addr_slot.
  assert (Hbn : 0 <= p / BSIZE < MAXFILE).
  { split; [apply Z.div_pos; [lia | apply BSIZE_pos]|].
    apply Z.div_lt_upper_bound; [apply BSIZE_pos | lia]. }
  pose proof (data_path_of_ok _ Hbn) as Hq.
  set (q := data_path_of (p / BSIZE)) in *.
  destruct (Z.eq_dec (slot_val st ip q) 0) as [Hz|Hnz].
  - rewrite Hz. simpl. destruct (Hn q Hq Hz) as [Hz'|Hzero].
    + rewrite Hz'. reflexivity.
    + rewrite Hzero, byte_at_zero_block.
      destruct (slot_val st' ip q =? 0); reflexivity.
  - rewrite (Hs q (slot_path_data q Hq) Hnz). rewrite (Hd q Hq Hnz). reflexivity.
Qed.

(** ** The content that [readi] copies *)

Lemma length_sub_bytes d pos m : length (sub_bytes d pos m) = Z.to_nat m.
Proof. unfold sub_bytes. rewrite length_fmap. apply length_seq. Qed.

Lemma length_file_bytes st ip off n : length (file_bytes st ip off n) = Z.to_nat n.
Proof. unfold file_bytes. rewrite length_fmap. apply length_seq. Qed.

(** [memmove] into the middle of a buffer. *)
Lemma put_bytes_splice (d : list Z) pos src :
  0 <= pos -> (Z.to_nat pos + length src <= length d)%nat ->
  put_bytes d pos src
  = take (Z.to_nat pos) d ++ src ++ drop (Z.to_nat pos + length src) d.
Proof.
  intros Hpos Hlen. unfold put_bytes.
  set (k := Z.to_nat pos) in *.
  rewrite <- (take_drop k d) at 1.
  assert (Hk : length (take k d) = k) by (rewrite length_take; lia).
  rewrite <- (Nat.add_0_r k) at 1. rewrite <- Hk at 1.
  rewrite list_inserts_app_r. f_equal.
  rewrite <- (take_drop (length src) (drop k d)) at 1.
  rewrite list_inserts_0_r.
  - rewrite drop_drop. reflexivity.
  - rewrite length_take, length_drop. lia.
Qed.

Lemma splice_take (d c k : list Z) t :
  (t <= length d)%nat -> take (t + length c) (take t d ++ c ++ k) = take t d ++ c.
Proof.
  intros Ht. rewrite app_assoc. apply take_app_length'.
  rewrite length_app, length_take. lia.
Qed.

Lemma splice_drop (d c : list Z) t n :
  (t + length c <= n)%nat -> (n <= length d)%nat ->
  drop n (take t d ++ c ++ drop (t + length c) d) = drop n d.
Proof.
  intros Ht Hn. rewrite app_assoc.
  rewrite drop_app_ge by (rewrite length_app, length_take; lia).
  rewrite length_app, length_take, drop_drop. f_equal. lia.
Qed.

Lemma file_bytes_ext st st' ip off n :
  (forall p, off <= p < off + n -> file_byte st' ip p = file_byte st ip p) ->
  file_bytes st' ip off n = file_bytes st ip off n.
Proof.
  intros Hp. unfold file_bytes. apply list_fmap_ext.
  intros i x Hx. apply lookup_seq in Hx as [-> Hi]. apply Hp. lia.
Qed.

Lemma file_bytes_split st ip off a b :
  0 <= a -> 0 <= b ->
  file_bytes st ip off (a + b) = file_bytes st ip off a ++ file_bytes st ip (off + a) b.
Proof.
  intros Ha Hb. unfold file_bytes.
  rewrite Z2Nat.inj_add by assumption. rewrite seq_app, fmap_app. f_equal.
  replace (seq (0 + Z.to_nat a) (Z.to_nat b))
    with (Nat.add (Z.to_nat a) <$> seq 0 (Z.to_nat b))
    by (rewrite fmap_add_seq; f_equal; lia).
  rewrite <- list_fmap_compose.
  apply list_fmap_ext. intros i x _. simpl. f_equal. lia.
Qed.

(** The bytes of one block that a chunk covers are bytes of the file. *)
Lemma sub_bytes_file st ip off m :
  0 <= off -> m <= BSIZE - off mod BSIZE ->
  lookup_addr st (inode_of st ip) (off / BSIZE) <> 0 ->
  sub_bytes (block_data st (lookup_addr st (inode_of st ip) (off / BSIZE)))
            (off mod BSIZE) m
  = file_bytes st ip off m.
Proof.
  intros Hoff Hm Hnz. unfold sub_bytes, file_bytes. apply list_fmap_ext.
  intros i x Hx. apply lookup_seq in Hx as [-> Hi]. simpl.
  unfold file_byte. cbv zeta.
  pose proof BSIZE_pos as HB.
  pose proof (Z.mod_pos_bound off BSIZE HB) as Hmod.
  assert (Hdiv : (off + Z.of_nat i) / BSIZE = off / BSIZE).
  { symmetry. apply (Z.div_unique _ _ _ (off mod BSIZE + Z.of_nat i)); [lia|].
    pose proof (Z.div_mod off BSIZE ltac:(lia)). lia. }
  assert (Hrem : (off + Z.of_nat i) mod BSIZE = off mod BSIZE + Z.of_nat i).
  { symmetry. apply (Z.mod_unique _ _ (off / BSIZE)); [lia|].
    pose proof (Z.div_mod off BSIZE ltac:(lia)). lia. }
  rewrite Hdiv, Hrem. apply Z.eqb_neq in Hnz. rewrite Hnz. reflexivity.
Qed.

Lemma readi_loop_content ip n : forall fuel tot off dst st dst' st',
  fs_ok st ip ->
  0 <= tot <= n -> n < 2 ^ 32 -> 0 <= off -> off + (n - tot) < 2 ^ 32 ->
  n <= Z.of_nat (length dst) ->
  readi_loop ip n fuel tot off dst st = Ret dst' st' ->
  fs_ok st' ip /\ extends st st' ip
  /\ dst' = take (Z.to_nat tot) dst ++ file_bytes st ip off (n - tot)
            ++ drop (Z.to_nat n) dst.
Proof.
  induction fuel as [|fuel IH];
    intros tot off dst st dst' st' Hok Ht Hn Hoff Hno Hdst Hret; [discriminate|].
  pose proof (readi_loop_Ret _ _ _ _ _ _ _ _ _ Ht Hn Hoff Hno Hret) as (_ & _ & Hmaxf).
  simpl in Hret. destruct (tot <? n) eqn:Hlt.
  - apply Z.ltb_lt in Hlt. specialize (Hmaxf Hlt).
    unfold bind at 1, iread at 1, gets in Hret.
    apply bind_Ret_inv in Hret as (a & st1 & Hb & Hret).
    pose proof BSIZE_pos as HB.
    assert (Hbn : 0 <= off / BSIZE < 2 ^ 32).
    { split; [apply Z.div_pos; lia|]. apply Z.div_lt_upper_bound; lia. }
    apply (bmap_ok _ _ _ _ _ Hok Hbn) in Hb as (Hok1 & Hext1 & Ha & Hnz & Hmax).
    apply bind_Ret_inv in Hret as (bp & st2 & Hbread & Hret).
    apply bread_Ret_inv in Hbread as (-> & -> & Hrd).
    destruct (chunk_bounds n tot off ltac:(lia) Hn Hoff) as (Hm1 & Hm2 & Hm3).
    set (m := Z.min (to_uint (n - tot)) (to_uint (BSIZE - off mod BSIZE))) in *.
    unfold bind at 1, buf_data, gets in Hret. unfold bind at 1 in Hret.
    rewrite (brelse_head _ a (held st1)) in Hret by reflexivity.
    rewrite with_held_id_2 in Hret.
    rewrite !to_uint_small in Hret by lia.
    change (block_data (with_held st1 (a :: held st1)) a)
      with (block_data st1 a) in Hret.
    apply IH in Hret; try lia; [|exact Hok1 | rewrite length_put_bytes; exact Hdst].
    destruct Hret as (Hok' & Hext2 & ->).
    split; [exact Hok'|]. split; [eapply extends_trans; eassumption|].
    assert (Hsame : forall p, off <= p < off + (n - tot) ->
                    file_byte st1 ip p = file_byte st ip p).
    { intros p Hp. apply extends_file_byte; [exact Hok | exact Hext1 | lia]. }
    assert (Hchunk : sub_bytes (block_data st1 a) (off mod BSIZE) m
                     = file_bytes st ip off m).
    { rewrite <- Ha. rewrite sub_bytes_file; [| exact Hoff | exact Hm3 | congruence].
      apply file_bytes_ext. intros p Hp. apply Hsame. lia. }
    rewrite Hchunk.
    rewrite put_bytes_splice
      by (rewrite ?length_file_bytes; lia).
    rewrite length_file_bytes.
    rewrite (file_bytes_ext st st1 ip (off + m)) by (intros p Hp; apply Hsame; lia).
    assert (Esplit : file_bytes st ip off (n - tot)
                     = file_bytes st ip off m
                       ++ file_bytes st ip (off + m) (n - (tot + m))).
    { rewrite <- file_bytes_split by lia. f_equal. lia. }
    rewrite Esplit.
    assert (Elen : Z.to_nat m = length (file_bytes st ip off m))
      by (rewrite length_file_bytes; reflexivity).
    rewrite Z2Nat.inj_add by lia. rewrite Elen.
    rewrite splice_take by lia.
    rewrite splice_drop by lia.
    rewrite <- !app_assoc. reflexivity.
  - apply Z.ltb_ge in Hlt. injection Hret as <- <-.
    split; [exact Hok|]. split; [apply extends_refl|].
    replace (n - tot) with 0 by lia.
    replace tot with n by lia.
    change (file_bytes st ip off 0) with (@nil Z). simpl.
    symmetry. apply take_drop.
Qed.

(** ** Calls that complete *)

Lemma completes_bind {A B} (m : M A) (k : A -> M B) st :
  completes (m st) ->
  (forall a st1, m st = Ret a st1 -> completes (k a st1)) ->
  completes (bind m k st).
Proof.
  unfold bind. destruct (m st) as [a st1|msg|]; simpl; intros Hm Hk.
  - apply Hk. reflexivity.
  - exact Hm.
  - exact Hm.
Qed.

Lemma completes_Ret {A} (o : outcome A) a st : o = Ret a st -> completes o.
Proof. intros ->. exact I. Qed.

(** The lowest free block among the first [n], if there is one. *)
Lemma first_free st : forall n : nat,
  (exists r, 0 <= r < Z.of_nat n /\ in_use st r = false
             /\ forall x, 0 <= x < r -> in_use st x = true)
  \/ (forall x, 0 <= x < Z.of_nat n -> in_use st x = true).
Proof.
  induction n as [|n [(r & Hr & Hf & Hu)|IH]].
  - right. intros x Hx. lia.
  - left. exists r. split; [lia|]. split; assumption.
  - destruct (in_use st (Z.of_nat n)) eqn:E.
    + right. intros x Hx. destruct (Z.eq_dec x (Z.of_nat n)) as [->|]; [exact E|].
      apply IH. lia.
    + left. exists (Z.of_nat n). split; [lia|]. split; [exact E|].
      intros x Hx. apply IH. lia.
Qed.

Lemma disk_ok_readable st b :
  disk_ok st -> 0 <= b < sb_size (sb st) -> b ∉ held st -> readable st b.
Proof.
  intros Hd Hb Hh. split; [exact Hh|]. apply lookup_lt_is_Some.
  unfold disk_ok in Hd. lia.
Qed.

Lemma held_ok_bitmap st ip x :
  fs_ok st ip -> held_ok st -> 0 <= x < sb_size (sb st) ->
  BBLOCK x (sb st) ∉ held st.
Proof.
  intros Hok Hh Hx Hin. destruct (Hh _ Hin) as [Hdata _].
  exact (is_data_not_bitmap st ip _ x Hok Hdata Hx eq_refl).
Qed.

Lemma balloc_completes st ip dev :
  fs_ok st ip -> disk_ok st -> held_ok st -> completes (balloc dev st).
Proof.
  intros Hok Hd Hh.
  pose proof (ok_size _ _ Hok) as Hsz. assert (Hsz' := Hsz). unfold size_ok in Hsz'.
  pose proof BPB_pos as HB.
  pose proof (data_start_pos _ Hsz (ok_bmapstart _ _ Hok)) as Hds.
  pose proof (ok_data _ _ Hok) as Hdata.
  assert (Hbm : forall x, 0 <= x < sb_size (sb st) -> readable st (BBLOCK x (sb st))).
  { intros x Hx. destruct (bitmap_block_meta st ip x Hok Hx) as [_ Hb].
    apply disk_ok_readable; [exact Hd | lia |].
    apply (held_ok_bitmap st ip); assumption. }
  destruct (first_free st (Z.to_nat (sb_size (sb st)))) as [(r & Hr & Hf & Hu)|Hall].
  - rewrite Z2Nat.id in Hr by lia.
    assert (Hrd : readable st r).
    { apply disk_ok_readable; [exact Hd | exact Hr |].
      intros Hin. destruct (Hh _ Hin) as [_ E]. congruence. }
    apply (completes_Ret _ r (alloc_state st r)).
    unfold balloc, bind, gets.
    apply (balloc_blocks_alloc dev st r Hsz Hr Hf Hrd).
    + lia.
    + reflexivity.
    + intros x Hx. apply Hu. lia.
    + intros x Hx. apply Hbm. lia.
    + assert (0 <= sb_size (sb st) / BPB) by (apply Z.div_pos; lia).
      rewrite Z2Nat.id, Z.sub_0_r by lia.
      assert (r / BPB <= sb_size (sb st) / BPB) by (apply Z.div_le_mono; lia).
      lia.
  - rewrite Z2Nat.id in Hall by lia.
    assert (E : balloc dev st = Panic "balloc: out of blocks").
    { unfold balloc, bind, gets.
      apply (balloc_blocks_full dev st Hsz Hall).
      + intros x Hx. apply (held_ok_bitmap st ip); assumption.
      + lia.
      + reflexivity.
      + assert (0 <= sb_size (sb st) / BPB) by (apply Z.div_pos; lia).
        rewrite Z2Nat.id, Z.sub_0_r by lia.
        apply Z.div_lt_upper_bound; [lia|].
        pose proof (Z.mul_div_le (sb_size (sb st)) BPB HB).
        pose proof (Z.mod_pos_bound (sb_size (sb st)) BPB HB).
        pose proof (Z.div_mod (sb_size (sb st)) BPB ltac:(lia)).
        lia. }
    rewrite E. reflexivity.
Qed.

Lemma table_entry_completes st ip k :
  fs_ok st ip -> disk_ok st -> held_ok st -> completes (table_entry ip k st).
Proof.
  intros Hok Hd Hh. unfold table_entry.
  unfold bind at 1, iread at 1, gets.
  destruct (addr_at (inode_of st ip) k =? 0); [|exact I].
  unfold bind at 1, iread at 1, gets.
  apply completes_bind; [apply (balloc_completes st ip); assumption|].
  intros a st1 _. unfold_prims. exact I.
Qed.

Lemma index_entry_completes st ip blk j :
  fs_ok st ip -> disk_ok st -> held st = [] ->
  is_data (sb st) blk -> in_use st blk = true ->
  completes (index_entry ip blk j st).
Proof.
  intros Hok Hd Hh Hdata Hused. unfold index_entry.
  pose proof (data_start_pos _ (ok_size _ _ Hok) (ok_bmapstart _ _ Hok)) as Hds.
  assert (Hrd : readable st blk).
  { apply disk_ok_readable; [exact Hd | unfold is_data in Hdata; lia |].
    rewrite Hh. apply not_elem_of_nil. }
  unfold bind at 1, iread at 1, gets.
  rewrite (bind_Ret _ _ _ _ _ (bread_readable st _ blk Hrd)).
  unfold bind at 1, buf_data, gets.
  set (sth := with_held st (blk :: held st)).
  destruct (uint_at (block_data sth blk) j =? 0).
  - rewrite bind_assoc. unfold bind at 1, iread at 1, gets.
    rewrite bind_assoc.
    apply completes_bind.
    + apply (balloc_completes sth ip).
      * apply fs_ok_with_held. exact Hok.
      * exact Hd.
      * intros b Hb. unfold sth in Hb. simpl in Hb. rewrite Hh in Hb.
        apply list_elem_of_singleton in Hb as ->. split; assumption.
    + intros r st1 Hb.
      apply (balloc_Ret_inv _ sth _ _ (ok_size _ _ Hok)) in Hb
        as (_ & _ & _ & _ & _ & ->).
      unfold_prims.
      rewrite (brelse_head _ blk (held st)); [exact I|]. reflexivity.
  - unfold bind at 1, ret at 1.
    rewrite (bind_Ret _ _ _ _ _ (brelse_head sth blk (held st) eq_refl)).
    exact I.
Qed.

Lemma frame_disk_ok st st' : frame st st' -> disk_ok st -> disk_ok st'.
Proof.
  intros (Hsb & _ & _ & Hlen & _) Hd. unfold disk_ok. rewrite Hsb, Hlen. exact Hd.
Qed.

Lemma frame_held st st' : frame st st' -> held st' = held st.
Proof. intros (_ & Hh & _). exact Hh. Qed.

Lemma held_ok_nil st : held st = [] -> held_ok st.
Proof. intros Hh b Hb. rewrite Hh in Hb. inversion Hb. Qed.

Lemma bmap_completes st ip bn :
  fs_ok st ip -> disk_ok st -> held st = [] -> 0 <= bn < MAXFILE ->
  completes (bmap ip bn st).
Proof.
  intros Hok Hd Hh Hbn.
  rewrite bmap_translate by (rewrite MAXFILE_val in Hbn; lia).
  unfold translate.
  assert (Hidx : forall st1 p j, fs_ok st1 ip -> disk_ok st1 -> held st1 = [] ->
            slot_path p -> slot_val st1 ip p <> 0 ->
            completes (index_entry ip (slot_val st1 ip p) j st1)).
  { intros st1 p j Hok1 Hd1 Hh1 Hp Hnz.
    destruct (ok_slots _ _ Hok1 p Hp Hnz) as [Hdata Hused].
    apply index_entry_completes; assumption. }
  assert (Htab : forall k a st1, slot_path [k] -> table_entry ip k st = Ret a st1 ->
            fs_ok st1 ip /\ disk_ok st1 /\ held st1 = []
            /\ a = slot_val st1 ip [k] /\ slot_val st1 ip [k] <> 0).
  { intros k a st1 Hk Ht.
    destruct (table_entry_ok _ _ _ _ _ Hok Hk Ht) as (Hok1 & Hext & Hv & Hnz).
    pose proof (ext_frame _ _ _ Hext) as Hf.
    split; [exact Hok1|]. split; [exact (frame_disk_ok _ _ Hf Hd)|].
    split; [rewrite (frame_held _ _ Hf); exact Hh|].
    split; [symmetry; exact Hv | congruence]. }
  destruct (bn <? NDIRECT) eqn:E1.
  { apply table_entry_completes; [exact Hok | exact Hd | apply held_ok_nil; exact Hh]. }
  apply Z.ltb_ge in E1.
  destruct (bn <? NDIRECT + NINDIRECT) eqn:E2.
  { apply Z.ltb_lt in E2. apply completes_bind.
    - apply table_entry_completes; [exact Hok | exact Hd | apply held_ok_nil; exact Hh].
    - intros a st1 Ht.
      destruct (Htab _ _ _ sp_single Ht) as (Hok1 & Hd1 & Hh1 & -> & Hnz).
      apply Hidx; [assumption .. | apply sp_single | exact Hnz]. }
  apply Z.ltb_ge in E2.
  destruct (bn <? MAXFILE) eqn:E3; [|apply Z.ltb_ge in E3; lia].
  cbv zeta. set (r := bn - NDIRECT - NINDIRECT).
  assert (Hr : 0 <= r < NINDIRECT * NINDIRECT).
  { unfold r. rewrite MAXFILE_val in Hbn. rewrite NDIRECT_val, NINDIRECT_val in *. lia. }
  assert (Ho : entry_ok (r / NINDIRECT)).
  { unfold entry_ok. rewrite NINDIRECT_val in *.
    split; [apply Z.div_pos; lia | apply Z.div_lt_upper_bound; lia]. }
  apply completes_bind.
  - apply table_entry_completes; [exact Hok | exact Hd | apply held_ok_nil; exact Hh].
  - intros a st1 Ht.
    destruct (Htab _ _ _ sp_double Ht) as (Hok1 & Hd1 & Hh1 & -> & Hnz).
    apply completes_bind.
    + apply Hidx; [assumption .. | apply sp_double | exact Hnz].
    + intros a2 st2 Hi.
      destruct (index_entry_ok st1 ip [NDIRECT + 1] (r / NINDIRECT) a2 st2 Hok1
                  (sp_outer _ Ho) sp_double Hnz Hi) as (Hok2 & Hext2 & Hv2 & Hnz2).
      pose proof (ext_frame _ _ _ Hext2) as Hf2.
      simpl app in Hv2. rewrite <- Hv2.
      apply Hidx.
      * exact Hok2.
      * exact (frame_disk_ok _ _ Hf2 Hd1).
      * rewrite (frame_held _ _ Hf2). exact Hh1.
      * apply sp_outer. exact Ho.
      * rewrite Hv2. exact Hnz2.
Qed.

(** ** The loops of [readi] and [writei] end *)

(** The tests of [tot<n] that remain. *)
Lemma fuel_start off n :
  0 <= off -> 0 <= n ->
  (0 < io_fuel n)%nat
  /\ (off mod BSIZE + n + BSIZE - 1) / BSIZE < Z.of_nat (io_fuel n).
Proof.
  intros Hoff Hn. unfold io_fuel. rewrite BSIZE_val.
  assert (0 <= n / 512) by (apply Z.div_pos; lia).
  split; [lia|]. rewrite Z2Nat.id by lia.
  pose proof (Z.mod_pos_bound off 512 ltac:(lia)).
  apply Z.div_lt_upper_bound; [lia|].
  pose proof (Z.div_mod n 512 ltac:(lia)).
  pose proof (Z.mod_pos_bound n 512 ltac:(lia)). lia.
Qed.

Lemma fuel_step n tot off fuel :
  0 <= tot < n -> n < 2 ^ 32 -> 0 <= off ->
  (off mod BSIZE + (n - tot) + BSIZE - 1) / BSIZE < Z.of_nat (S fuel) ->
  let m := Z.min (to_uint (n - tot)) (to_uint (BSIZE - off mod BSIZE)) in
  (0 < fuel)%nat
  /\ (tot + m < n ->
      ((off + m) mod BSIZE + (n - (tot + m)) + BSIZE - 1) / BSIZE < Z.of_nat fuel).
Proof.
  intros Ht Hn Hoff Hfuel.
  destruct (chunk_bounds n tot off Ht Hn Hoff) as (Hm1 & Hm2 & Hm3).
  cbv zeta. set (m := Z.min _ _) in *.
  pose proof (Z.mod_pos_bound off BSIZE BSIZE_pos) as Hmod.
  rewrite BSIZE_val in *.
  assert (H1 : 1 <= (off mod 512 + (n - tot) + 512 - 1) / 512).
  { apply Z.div_le_lower_bound; lia. }
  split; [lia|]. intros Hmore.
  assert (Em : m = 512 - off mod 512).
  { assert (Em' : m = Z.min (n - tot) (512 - off mod 512))
      by (unfold m; rewrite BSIZE_val; rewrite !to_uint_small by lia; reflexivity).
    lia. }
  assert (E0 : (off + m) mod 512 = 0).
  { rewrite Em. replace (off + (512 - off mod 512))
      with (off mod 512 + 512 * (off / 512 + 1) - off mod 512)
      by (pose proof (Z.div_mod off 512 ltac:(lia)); lia).
    replace (off mod 512 + 512 * (off / 512 + 1) - off mod 512)
      with ((off / 512 + 1) * 512) by lia.
    apply Z.mod_mul. lia. }
  rewrite E0.
  assert (E1 : (off mod 512 + (n - tot) + 512 - 1) / 512
               = (0 + (n - (tot + m)) + 512 - 1) / 512 + 1).
  { replace (off mod 512 + (n - tot) + 512 - 1)
      with ((0 + (n - (tot + m)) + 512 - 1) + 1 * 512) by lia.
    apply Z.div_add. lia. }
  lia.
Qed.

Lemma MAXFILE_bytes : MAXFILE * BSIZE = 8459776.
Proof. reflexivity. Qed.

Lemma block_in_file off :
  0 <= off < MAXFILE * BSIZE -> 0 <= off / BSIZE < MAXFILE.
Proof.
  intros Hoff. pose proof BSIZE_pos.
  split; [apply Z.div_pos; lia | apply Z.div_lt_upper_bound; lia].
Qed.

(** The block that [bmap] returned can be read. *)
Lemma mapped_readable st ip bn :
  fs_ok st ip -> disk_ok st -> held st = [] -> 0 <= bn < MAXFILE ->
  lookup_addr st (inode_of st ip) bn <> 0 ->
  readable st (lookup_addr st (inode_of st ip) bn).
Proof.
  intros Hok Hd Hh Hbn Hnz. rewrite lookup_addr_slot in *.
  pose proof (slot_path_data _ (data_path_of_ok bn Hbn)) as Hp.
  destruct (ok_slots _ _ Hok _ Hp Hnz) as [Hdata _].
  pose proof (data_start_pos _ (ok_size _ _ Hok) (ok_bmapstart _ _ Hok)).
  apply disk_ok_readable; [exact Hd | unfold is_data in Hdata; lia |].
  rewrite Hh. apply not_elem_of_nil.
Qed.

Lemma readi_loop_completes ip n : forall fuel tot off dst st,
  fs_ok st ip -> disk_ok st -> held st = [] ->
  0 <= tot <= n -> n < 2 ^ 32 -> 0 <= off ->
  off + (n - tot) <= MAXFILE * BSIZE ->
  (0 < fuel)%nat ->
  (tot < n -> (off mod BSIZE + (n - tot) + BSIZE - 1) / BSIZE < Z.of_nat fuel) ->
  completes (readi_loop ip n fuel tot off dst st).
Proof.
  induction fuel as [|fuel IH];
    intros tot off dst st Hok Hd Hh Ht Hn Hoff Hmax Hpos Hfuel; [lia|].
  simpl. destruct (tot <? n) eqn:Hlt; [|exact I].
  apply Z.ltb_lt in Hlt. specialize (Hfuel Hlt).
  pose proof MAXFILE_bytes as HM.
  unfold bind at 1, iread at 1, gets.
  assert (Hbn : 0 <= off / BSIZE < MAXFILE) by (apply block_in_file; lia).
  apply completes_bind; [apply bmap_completes; assumption|].
  intros a st1 Hb.
  apply (bmap_ok _ _ _ _ _ Hok) in Hb as (Hok1 & Hext1 & Ha & Hnz & _);
    [|rewrite MAXFILE_val in Hbn; lia].
  pose proof (ext_frame _ _ _ Hext1) as Hf.
  pose proof (frame_disk_ok _ _ Hf Hd) as Hd1.
  assert (Hh1 : held st1 = []) by (rewrite (frame_held _ _ Hf); exact Hh).
  assert (Hrd : readable st1 a).
  { rewrite <- Ha. apply mapped_readable; try assumption. congruence. }
  rewrite (bind_Ret _ _ _ _ _ (bread_readable st1 _ a Hrd)).
  destruct (chunk_bounds n tot off ltac:(lia) Hn Hoff) as (Hm1 & Hm2 & Hm3).
  destruct (fuel_step n tot off fuel ltac:(lia) Hn Hoff Hfuel) as (Hpos' & Hfuel').
  set (m := Z.min (to_uint (n - tot)) (to_uint (BSIZE - off mod BSIZE))) in *.
  unfold bind at 1, buf_data, gets. unfold bind at 1.
  rewrite (brelse_head _ a (held st1)) by reflexivity.
  rewrite with_held_id_2.
  rewrite !to_uint_small by lia.
  apply IH; try assumption; try lia.
Qed.

(** ** Reading where every block is mapped *)

Lemma index_lookup_eq st blk j :
  blk <> 0 -> index_lookup st blk j = uint_at (block_data st blk) j.
Proof. intros Hnz. unfold index_lookup. apply Z.eqb_neq in Hnz. rewrite Hnz. reflexivity. Qed.

Lemma bmap_mapped st ip bn :
  fs_ok st ip -> disk_ok st -> held st = [] -> 0 <= bn < MAXFILE ->
  lookup_addr st (inode_of st ip) bn <> 0 ->
  bmap ip bn st = Ret (lookup_addr st (inode_of st ip) bn) st.
Proof.
  intros Hok Hd Hh Hbn Hnz.
  rewrite bmap_translate by (rewrite MAXFILE_val in Hbn; lia).
  pose proof (data_start_pos _ (ok_size _ _ Hok) (ok_bmapstart _ _ Hok)) as Hds.
  assert (Hrd : forall p, slot_path p -> slot_val st ip p <> 0 ->
                readable st (slot_val st ip p)).
  { intros p Hp Hpz. destruct (ok_slots _ _ Hok _ Hp Hpz) as [Hdata _].
    apply disk_ok_readable; [exact Hd | unfold is_data in Hdata; lia |].
    rewrite Hh. apply not_elem_of_nil. }
  revert Hnz. unfold translate, lookup_addr.
  destruct (bn <? NDIRECT) eqn:E1.
  { intros Hnz. apply table_entry_mapped. exact Hnz. }
  destruct (bn <? NDIRECT + NINDIRECT) eqn:E2.
  { intros Hnz. pose proof (proj1 (index_lookup_nonzero _ _ _ Hnz)) as Hs.
    rewrite (bind_Ret _ _ _ _ _ (table_entry_mapped ip NDIRECT st Hs)).
    revert Hnz. unfold index_lookup. apply Z.eqb_neq in Hs. rewrite Hs.
    apply Z.eqb_neq in Hs. intros Hnz.
    apply index_entry_mapped; [|exact Hnz].
    apply (Hrd [NDIRECT]); [apply sp_single | exact Hs]. }
  destruct (bn <? MAXFILE) eqn:E3; [|apply Z.ltb_ge in E3; lia].
  apply Z.ltb_ge in E1, E2. cbv zeta. set (r := bn - NDIRECT - NINDIRECT).
  assert (Hr : 0 <= r < NINDIRECT * NINDIRECT).
  { unfold r. rewrite MAXFILE_val in Hbn. rewrite NDIRECT_val, NINDIRECT_val in *. lia. }
  assert (Ho : entry_ok (r / NINDIRECT)).
  { unfold entry_ok. rewrite NINDIRECT_val in *.
    split; [apply Z.div_pos; lia | apply Z.div_lt_upper_bound; lia]. }
  intros Hnz. pose proof (proj1 (index_lookup_nonzero _ _ _ Hnz)) as Hi.
  pose proof (proj1 (index_lookup_nonzero _ _ _ Hi)) as Hs.
  rewrite (bind_Ret _ _ _ _ _ (table_entry_mapped ip (NDIRECT + 1) st Hs)).
  assert (Ei : index_lookup st (addr_at (inode_of st ip) (NDIRECT + 1)) (r / NINDIRECT)
               = uint_at (block_data st (addr_at (inode_of st ip) (NDIRECT + 1)))
                         (r / NINDIRECT)).
  { unfold index_lookup. apply Z.eqb_neq in Hs. rewrite Hs. reflexivity. }
  assert (Hi' := Hi). rewrite Ei in Hi'.
  pose proof (Hrd [NDIRECT + 1] sp_double Hs) as Hrd2.
  change (slot_val st ip [NDIRECT + 1])
    with (addr_at (inode_of st ip) (NDIRECT + 1)) in Hrd2.
  rewrite (bind_Ret _ _ _ _ _
             (index_entry_mapped ip _ (r / NINDIRECT) st Hrd2 Hi')).
  rewrite <- Ei.
  rewrite (index_lookup_eq st _ (r mod NINDIRECT) Hi) in Hnz |- *.
  apply index_entry_mapped; [|exact Hnz].
  apply (Hrd [NDIRECT + 1; r / NINDIRECT]); [apply sp_outer; exact Ho | exact Hi].
Qed.

Lemma readi_loop_mapped ip n : forall fuel tot off dst st,
  fs_ok st ip -> disk_ok st -> held st = [] ->
  0 <= tot <= n -> n < 2 ^ 32 -> 0 <= off ->
  off + (n - tot) <= MAXFILE * BSIZE ->
  (0 < fuel)%nat ->
  (tot < n -> (off mod BSIZE + (n - tot) + BSIZE - 1) / BSIZE < Z.of_nat fuel) ->
  (forall p, off <= p < off + (n - tot) ->
             lookup_addr st (inode_of st ip) (p / BSIZE) <> 0) ->
  exists dst', readi_loop ip n fuel tot off dst st = Ret dst' st.
Proof.
  induction fuel as [|fuel IH];
    intros tot off dst st Hok Hd Hh Ht Hn Hoff Hmax Hpos Hfuel Hmapped; [lia|].
  simpl. destruct (tot <? n) eqn:Hlt; [|eexists; reflexivity].
  apply Z.ltb_lt in Hlt. specialize (Hfuel Hlt).
  pose proof MAXFILE_bytes as HM.
  unfold bind at 1, iread at 1, gets.
  assert (Hbn : 0 <= off / BSIZE < MAXFILE) by (apply block_in_file; lia).
  assert (Hnz : lookup_addr st (inode_of st ip) (off / BSIZE) <> 0)
    by (apply Hmapped; lia).
  rewrite (bind_Ret _ _ _ _ _ (bmap_mapped st ip _ Hok Hd Hh Hbn Hnz)).
  set (a := lookup_addr st (inode_of st ip) (off / BSIZE)) in *.
  assert (Hrd : readable st a) by (apply mapped_readable; assumption).
  rewrite (bind_Ret _ _ _ _ _ (bread_readable st _ a Hrd)).
  destruct (chunk_bounds n tot off ltac:(lia) Hn Hoff) as (Hm1 & Hm2 & Hm3).
  destruct (fuel_step n tot off fuel ltac:(lia) Hn Hoff Hfuel) as (Hpos' & Hfuel').
  set (m := Z.min (to_uint (n - tot)) (to_uint (BSIZE - off mod BSIZE))) in *.
  unfold bind at 1, buf_data, gets. unfold bind at 1.
  rewrite (brelse_head _ a (held st)) by reflexivity.
  rewrite with_held_id_2.
  rewrite !to_uint_small by lia.
  apply IH; try assumption; try lia.
  intros p Hp. apply Hmapped. lia.
Qed.

(** ** [readi] *)

Section READ.
Context `{Params}.

(** The clamped length. *)
Lemma readi_clamp size off n :
  off <= size -> 0 <= off -> 0 <= n -> off + n < 2 ^ 32 ->
  (if size <? to_uint (off + n) then to_uint (size - off) else n)
  = Z.min n (size - off).
Proof.
  intros Hle Hoff Hn Hsum. rewrite to_uint_small by lia.
  destruct (size <? off + n) eqn:E.
  - apply Z.ltb_lt in E. rewrite to_uint_small by lia. lia.
  - apply Z.ltb_ge in E. lia.
Qed.

Lemma readi_accepts st ip dst off n :
  i_type (inode_of st ip) <> T_DEV ->
  0 <= off < 2 ^ 32 -> 0 <= n < 2 ^ 32 ->
  off <= i_size (inode_of st ip) -> off + n < 2 ^ 32 ->
  readi ip dst off n st
  = (let r := Z.min n (i_size (inode_of st ip) - off) in
     let* dst' := readi_loop ip r (io_fuel r) 0 off dst in
     ret (to_int r, dst')) st.
Proof.
  intros Hty Hoff Hn Hle Hsum. rewrite (readi_unfold st ip dst off n Hty).
  assert (Hc : (i_size (inode_of st ip) <? off) || (to_uint (off + n) <? off) = false).
  { apply orb_false_iff. split; apply Z.ltb_ge; [lia|].
    rewrite to_uint_small by lia. lia. }
  rewrite Hc. cbv zeta. rewrite readi_clamp by lia. reflexivity.
Qed.

(** C5.  On an inode that is not a device, in a well-formed file system and
    with room for [n] bytes at the destination: [readi] fails when [off]
    exceeds the size or [off + n] overflows; otherwise the clamped length
    [r = min(n, size - off)] keeps [off + r] within the size, and whenever
    [readi] returns it returns [r] with the [r] bytes of the content at [off]
    at the start of the destination, the content and the size as they were.
    With every block on the disk and no buffer locked it does return, unless
    a hole had to be filled and no block was free; where the blocks of the
    range are mapped it returns in the state it started from. *)
Theorem readi_copies (st : state) (ip : nat) (dst : list Z) (off n : Z) :
  fs_ok st ip ->
  i_type (inode_of st ip) <> T_DEV ->
  0 <= off < 2 ^ 32 -> 0 <= n < 2 ^ 32 ->
  0 <= i_size (inode_of st ip) < 2 ^ 32 ->
  n <= Z.of_nat (length dst) ->
  let size := i_size (inode_of st ip) in
  let r := Z.min n (size - off) in
  (size < off \/ 2 ^ 32 <= off + n -> readi ip dst off n st = Ret (-1, dst) st)
  /\ (off <= size -> off + n < 2 ^ 32 ->
      off + r <= size
      /\ (forall res dst' st',
            readi ip dst off n st = Ret (res, dst') st' ->
            res = r
            /\ dst' = file_bytes st ip off r ++ drop (Z.to_nat r) dst
            /\ fs_ok st' ip
            /\ i_size (inode_of st' ip) = size
            /\ (forall p, 0 <= p < MAXFILE * BSIZE ->
                          file_byte st' ip p = file_byte st ip p))
      /\ (disk_ok st -> held st = [] -> size <= MAXFILE * BSIZE ->
          completes (readi ip dst off n st)
          /\ ((forall p, off <= p < off + r ->
                         lookup_addr st (inode_of st ip) (p / BSIZE) <> 0) ->
              readi ip dst off n st
              = Ret (r, file_bytes st ip off r ++ drop (Z.to_nat r) dst) st))).
Proof.
  intros Hok Hty Hoff Hn Hsz Hdst size r. split.
  - intros Hbad. rewrite (readi_unfold st ip dst off n Hty).
    assert (Hc : (i_size (inode_of st ip) <? off) || (to_uint (off + n) <? off) = true).
    { apply orb_true_iff. destruct Hbad as [Hb|Hb].
      - left. apply Z.ltb_lt. exact Hb.
      - right. apply overflow; assumption. }
    rewrite Hc. reflexivity.
  - intros Hle Hsum. fold size in Hle.
    assert (Hr : 0 <= r <= n) by (unfold r; lia).
    pose proof MAXFILE_bytes as HM.
    rewrite (readi_accepts st ip dst off n Hty Hoff Hn Hle Hsum). cbv zeta.
    fold size. fold r.
    split; [unfold r; lia|]. split.
    + intros res dst' st' Hret.
      apply bind_Ret_inv in Hret as (d & st1 & Hloop & Hret).
      injection Hret as <- <- <-.
      pose proof Hloop as Hbound.
      apply readi_loop_Ret in Hbound as (_ & _ & Hbound); try lia.
      apply readi_loop_content in Hloop as (Hok' & Hext & ->); try lia;
        [|exact Hok].
      split; [apply to_int_small; lia|].
      split; [rewrite Z.sub_0_r; reflexivity|].
      split; [exact Hok'|].
      split; [apply frame_size; apply (ext_frame _ _ _ Hext)|].
      intros p Hp. apply extends_file_byte; assumption.
    + intros Hd Hh Hmax. fold size in Hmax.
      destruct (fuel_start off r ltac:(lia) ltac:(lia)) as (Hpos & Hfuel).
      split.
      * apply completes_bind; [|intros; exact I].
        apply readi_loop_completes; try assumption; try lia.
        intros _. rewrite Z.sub_0_r. exact Hfuel.
      * intros Hmapped.
        destruct (readi_loop_mapped ip r (io_fuel r) 0 off dst st Hok Hd Hh)
          as (d & Hloop); try lia.
        { intros _. rewrite Z.sub_0_r. exact Hfuel. }
        { intros p Hp. apply Hmapped. lia. }
        rewrite (bind_Ret _ _ _ _ _ Hloop). unfold ret.
        apply readi_loop_content in Hloop as (_ & _ & ->); try lia; [|exact Hok].
        rewrite Z.sub_0_r. rewrite to_int_small by lia. reflexivity.
Qed.

End READ.

(** ** Writes to the blocks of a file *)

Lemma byte_at_put_bytes d pos c i :
  0 <= pos -> 0 <= i -> (Z.to_nat pos + length c <= length d)%nat ->
  byte_at (put_bytes d pos c) i
  = if (pos <=? i) && (i <? pos + Z.of_nat (length c)) then byte_at c (i - pos)
    else byte_at d i.
Proof.
  intros Hpos Hi Hlen. unfold byte_at, put_bytes.
  destruct (pos <=? i) eqn:E1; simpl.
  - apply Z.leb_le in E1. destruct (i <? pos + Z.of_nat (length c)) eqn:E2.
    + apply Z.ltb_lt in E2. rewrite list_lookup_inserts by lia.
      rewrite Z2Nat.inj_sub by lia. reflexivity.
    + apply Z.ltb_ge in E2. rewrite list_lookup_inserts_ge by lia. reflexivity.
  - apply Z.leb_gt in E1. rewrite list_lookup_inserts_lt by lia. reflexivity.
Qed.

Lemma byte_at_sub_bytes d pos m i :
  0 <= i < m -> byte_at (sub_bytes d pos m) i = byte_at d (pos + i).
Proof.
  intros Hi. unfold sub_bytes. unfold byte_at at 1.
  rewrite list_lookup_fmap, lookup_seq_lt by lia. simpl.
  rewrite Z2Nat.id by lia. apply to_uchar_idem.
Qed.

(** A store to a block that is neither a bitmap block nor an index block of
    the file leaves the file system well formed and the slots as they are. *)
Lemma fs_ok_set_block st ip b d :
  fs_ok st ip -> 0 <= b -> length d = Z.to_nat BSIZE ->
  (forall x, 0 <= x < sb_size (sb st) -> BBLOCK x (sb st) <> b) ->
  (forall p j, slot_path (p ++ [j]) -> slot_path p -> slot_val st ip p <> 0 ->
               slot_val st ip p <> b) ->
  fs_ok (set_block st b d) ip
  /\ (forall q, slot_path q -> slot_val (set_block st b d) ip q = slot_val st ip q).
Proof.
  intros Hok Hb Hlen Hbm Hidx.
  pose proof (data_start_pos _ (ok_size _ _ Hok) (ok_bmapstart _ _ Hok)) as Hds.
  assert (Hslots : forall q, slot_path q ->
            slot_val (set_block st b d) ip q = slot_val st ip q).
  { apply slot_val_same; [reflexivity|].
    intros p j Hpj Hp Hnz.
    destruct (ok_slots _ _ Hok p Hp Hnz) as [Hdata _].
    rewrite block_data_set_ne;
      [reflexivity | exact Hb | unfold is_data in Hdata; lia |].
    intros E. exact (Hidx p j Hpj Hp Hnz (eq_sym E)). }
  assert (Huse : forall x, 0 <= x < sb_size (sb st) ->
            in_use (set_block st b d) x = in_use st x).
  { intros x Hx. unfold in_use. change (sb (set_block st b d)) with (sb st).
    destruct (bitmap_block_meta st ip x Hok Hx) as [_ Hxb].
    rewrite block_data_set_ne; [reflexivity | exact Hb | lia |].
    intros E. exact (Hbm x Hx (eq_sym E)). }
  split; [|exact Hslots].
  destruct Hok as [H1 H2 H3 H4 H5 H6 H7 H8 H9 H10].
  constructor; try assumption.
  - apply blocks_ok_set; assumption.
  - intros x Hx. rewrite Huse by (change (sb (set_block st b d)) with (sb st) in Hx; lia).
    apply H5. exact Hx.
  - intros p Hp. rewrite (Hslots p Hp). intros Hnz.
    destruct (H9 p Hp Hnz) as [Hdata Hused].
    split; [exact Hdata|]. rewrite Huse by (unfold is_data in Hdata; lia). exact Hused.
  - intros p q Hp Hq. rewrite (Hslots p Hp), (Hslots q Hq). apply H10; assumption.
Qed.

(** A data block of the file is neither. *)
Lemma data_block_plain st ip q :
  fs_ok st ip -> data_path q -> slot_val st ip q <> 0 ->
  0 <= slot_val st ip q
  /\ (forall x, 0 <= x < sb_size (sb st) -> BBLOCK x (sb st) <> slot_val st ip q)
  /\ (forall p j, slot_path (p ++ [j]) -> slot_path p -> slot_val st ip p <> 0 ->
                  slot_val st ip p <> slot_val st ip q).
Proof.
  intros Hok Hq Hnz.
  pose proof (data_start_pos _ (ok_size _ _ Hok) (ok_bmapstart _ _ Hok)) as Hds.
  destruct (ok_slots _ _ Hok q (slot_path_data q Hq) Hnz) as [Hdata _].
  split; [unfold is_data in Hdata; lia|]. split.
  - intros x Hx E. exact (is_data_not_bitmap st ip _ x Hok Hdata Hx (eq_sym E)).
  - intros p j Hpj Hp Hpz E.
    assert (p = q) by (apply (ok_inj _ _ Hok); (assumption || apply slot_path_data; assumption)).
    subst p. exact (data_path_leaf q j Hq Hpj).
Qed.

(** The state after [buf_update], [log_write] and [brelse] of a block that
    was fetched in [st]. *)
Lemma write_chunk_state st b d h l :
  with_held (with_logged (set_block (with_held st h) b d) l) (held st)
  = with_logged (set_block st b d) l.
Proof. destruct st; reflexivity. Qed.

Lemma file_byte_with_logged st ip l p :
  file_byte (with_logged st l) ip p = file_byte st ip p.
Proof. reflexivity. Qed.

(** The content after a store to the block of logical block [bn]. *)
Lemma file_byte_write st ip bn d p :
  fs_ok st ip -> 0 <= bn < MAXFILE ->
  lookup_addr st (inode_of st ip) bn <> 0 ->
  readable st (lookup_addr st (inode_of st ip) bn) ->
  length d = Z.to_nat BSIZE ->
  0 <= p < MAXFILE * BSIZE ->
  file_byte (set_block st (lookup_addr st (inode_of st ip) bn) d) ip p
  = if p / BSIZE =? bn then byte_at d (p mod BSIZE) else file_byte st ip p.
Proof.
  intros Hok Hbn Hnz Hrd Hlen Hp.
  pose proof (block_in_file p Hp) as Hpb.
  set (a := lookup_addr st (inode_of st ip) bn) in *.
  assert (Ea : a = slot_val st ip (data_path_of bn)) by apply lookup_addr_slot.
  pose proof (data_path_of_ok bn Hbn) as Hq.
  rewrite Ea in Hnz.
  destruct (data_block_plain st ip _ Hok Hq Hnz) as (Ha0 & Hbm & Hidx).
  rewrite <- Ea in Ha0, Hbm, Hidx, Hnz.
  destruct (fs_ok_set_block st ip a d Hok Ha0 Hlen Hbm Hidx) as [Hok' Hslots].
  unfold file_byte. cbv zeta. rewrite !lookup_addr_slot.
  pose proof (data_path_of_ok _ Hpb) as Hq'.
  rewrite (Hslots _ (slot_path_data _ Hq')).
  destruct (p / BSIZE =? bn) eqn:E.
  - apply Z.eqb_eq in E. rewrite E, <- Ea.
    apply Z.eqb_neq in Hnz. rewrite Hnz.
    rewrite block_data_set_eq; [reflexivity | exact Ha0 | apply readable_lt; exact Hrd].
  - apply Z.eqb_neq in E.
    destruct (slot_val st ip (data_path_of (p / BSIZE)) =? 0) eqn:Ez; [reflexivity|].
    apply Z.eqb_neq in Ez.
    destruct (ok_slots _ _ Hok _ (slot_path_data _ Hq') Ez) as [Hdata _].
    pose proof (data_start_pos _ (ok_size _ _ Hok) (ok_bmapstart _ _ Hok)) as Hds.
    rewrite block_data_set_ne;
      [reflexivity | exact Ha0 | unfold is_data in Hdata; lia |].
    rewrite Ea. intros E'.
    apply (ok_inj _ _ Hok) in E';
      [| apply slot_path_data; exact Hq | apply slot_path_data; exact Hq'
       | rewrite <- Ea; exact Hnz ].
    apply data_path_of_inj in E'; [lia | exact Hbn | exact Hpb].
Qed.

(** The content after one iteration of the loop of [writei]. *)
Lemma file_byte_chunk st ip src tot off m p :
  fs_ok st ip -> 0 <= off -> 0 <= off / BSIZE < MAXFILE ->
  0 <= m <= BSIZE - off mod BSIZE ->
  lookup_addr st (inode_of st ip) (off / BSIZE) <> 0 ->
  readable st (lookup_addr st (inode_of st ip) (off / BSIZE)) ->
  0 <= p < MAXFILE * BSIZE ->
  file_byte
    (set_block st (lookup_addr st (inode_of st ip) (off / BSIZE))
       (put_bytes (block_data st (lookup_addr st (inode_of st ip) (off / BSIZE)))
                  (off mod BSIZE) (sub_bytes src tot m))) ip p
  = if (off <=? p) && (p <? off + m) then byte_at src (tot + (p - off))
    else file_byte st ip p.
Proof.
  intros Hok Hoff Hbn Hm Hnz Hrd Hp.
  set (a := lookup_addr st (inode_of st ip) (off / BSIZE)) in *.
  pose proof BSIZE_pos as HB.
  pose proof (Z.mod_pos_bound off BSIZE HB) as Hmo.
  pose proof (Z.mod_pos_bound p BSIZE HB) as Hmp.
  pose proof (Z.div_mod off BSIZE ltac:(lia)) as Eo.
  pose proof (Z.div_mod p BSIZE ltac:(lia)) as Ep.
  assert (Hlen : length (block_data st a) = Z.to_nat BSIZE).
  { apply blocks_ok_length; [apply Hok | apply Hrd]. }
  unfold a. rewrite file_byte_write;
    [| exact Hok | exact Hbn | exact Hnz | exact Hrd
     | rewrite length_put_bytes; exact Hlen | exact Hp].
  fold a.
  destruct (p / BSIZE =? off / BSIZE) eqn:E.
  - apply Z.eqb_eq in E.
    rewrite byte_at_put_bytes by (rewrite ?length_sub_bytes; lia).
    rewrite length_sub_bytes, Z2Nat.id by lia.
    assert (Esame : ((off mod BSIZE <=? p mod BSIZE)
                     && (p mod BSIZE <? off mod BSIZE + m))
                    = ((off <=? p) && (p <? off + m))).
    { rewrite E in Ep.
      destruct (off <=? p) eqn:E1, (p <? off + m) eqn:E2;
        [apply Z.leb_le in E1 | apply Z.leb_le in E1
         | apply Z.leb_gt in E1 | apply Z.leb_gt in E1];
        [apply Z.ltb_lt in E2 | apply Z.ltb_ge in E2
         | apply Z.ltb_lt in E2 | apply Z.ltb_ge in E2];
        simpl; rewrite ?andb_true_iff, ?andb_false_iff,
                 ?Z.leb_le, ?Z.ltb_lt, ?Z.leb_gt, ?Z.ltb_ge; lia. }
    rewrite Esame.
    destruct ((off <=? p) && (p <? off + m)) eqn:Ein.
    + apply andb_true_iff in Ein as [E1 E2].
      apply Z.leb_le in E1. apply Z.ltb_lt in E2.
      rewrite byte_at_sub_bytes by (rewrite E in Ep; lia).
      f_equal. rewrite E in Ep. lia.
    + unfold file_byte. cbv zeta. rewrite E. fold a.
      apply Z.eqb_neq in Hnz. rewrite Hnz. reflexivity.
  - apply Z.eqb_neq in E.
    assert (Eout : (off <=? p) && (p <? off + m) = false).
    { apply andb_false_iff.
      destruct (Z_lt_dec p off) as [Hl|Hg]; [left; apply Z.leb_gt; exact Hl|].
      right. apply Z.ltb_ge.
      destruct (Z_lt_dec p (off + m)) as [Hin|]; [|lia].
      exfalso. apply E. symmetry.
      apply (Z.div_unique p BSIZE (off / BSIZE) (p - BSIZE * (off / BSIZE))); lia. }
    rewrite Eout. reflexivity.
Qed.

Lemma writei_loop_content ip src n : forall fuel tot off st off' st',
  fs_ok st ip ->
  0 <= tot <= n -> n < 2 ^ 32 -> 0 <= off -> off + (n - tot) < 2 ^ 32 ->
  writei_loop ip src n fuel tot off st = Ret off' st' ->
  fs_ok st' ip
  /\ (forall p, 0 <= p < MAXFILE * BSIZE ->
        file_byte st' ip p
        = if (off <=? p) && (p <? off + (n - tot)) then byte_at src (tot + (p - off))
          else file_byte st ip p).
Proof.
  induction fuel as [|fuel IH];
    intros tot off st off' st' Hok Ht Hn Hoff Hno Hret; [discriminate|].
  pose proof (writei_loop_Ret _ _ _ _ _ _ _ _ _ Ht Hn Hoff Hno Hret) as (_ & _ & Hmaxf).
  simpl in Hret. destruct (tot <? n) eqn:Hlt.
  - apply Z.ltb_lt in Hlt. specialize (Hmaxf Hlt).
    unfold bind at 1, iread at 1, gets in Hret.
    apply bind_Ret_inv in Hret as (a & st1 & Hb & Hret).
    pose proof BSIZE_pos as HB.
    assert (Hbn : 0 <= off / BSIZE < 2 ^ 32).
    { split; [apply Z.div_pos; lia|]. apply Z.div_lt_upper_bound; lia. }
    apply (bmap_ok _ _ _ _ _ Hok Hbn) in Hb as (Hok1 & Hext1 & Ha & Hnz & Hmax).
    apply bind_Ret_inv in Hret as (bp & st2 & Hbread & Hret).
    apply bread_Ret_inv in Hbread as (-> & -> & Hrd).
    destruct (chunk_bounds n tot off ltac:(lia) Hn Hoff) as (Hm1 & Hm2 & Hm3).
    set (m := Z.min (to_uint (n - tot)) (to_uint (BSIZE - off mod BSIZE))) in *.
    rewrite <- !bind_assoc in Hret.
    apply bind_Ret_inv in Hret as (u & st3 & Hw & Hret).
    rewrite !bind_assoc in Hw.
    rewrite (write_chunk a _ _ (held st1)) in Hw by reflexivity.
    injection Hw as _ <-.
    rewrite write_chunk_state in Hret.
    change (block_data (with_held st1 (a :: held st1)) a)
      with (block_data st1 a) in Hret.
    rewrite !to_uint_small in Hret by lia.
    subst a.
    set (a := lookup_addr st1 (inode_of st1 ip) (off / BSIZE)) in *.
    set (d := put_bytes (block_data st1 a) (off mod BSIZE) (sub_bytes src tot m)) in *.
    assert (Hbn' : 0 <= off / BSIZE < MAXFILE) by lia.
    assert (Hlen : length d = Z.to_nat BSIZE).
    { unfold d. rewrite length_put_bytes.
      apply blocks_ok_length; [apply Hok1 | apply Hrd]. }
    assert (Hok2 : fs_ok (with_logged (set_block st1 a d)
                            (a :: logged (with_held st1 (a :: held st1)))) ip).
    { apply fs_ok_with_logged.
      assert (Ea : a = slot_val st1 ip (data_path_of (off / BSIZE)))
        by apply lookup_addr_slot.
      pose proof (data_path_of_ok _ Hbn') as Hq.
      assert (Hnz' := Hnz). rewrite Ea in Hnz'.
      destruct (data_block_plain st1 ip _ Hok1 Hq Hnz') as (Ha0 & Hbm & Hidx).
      rewrite <- Ea in Ha0, Hbm, Hidx.
      apply (fs_ok_set_block st1 ip a d Hok1 Ha0 Hlen Hbm Hidx). }
    apply (IH _ _ _ _ _ Hok2) in Hret; try lia.
    destruct Hret as (Hok' & Hbytes).
    split; [exact Hok'|].
    intros p Hp. rewrite (Hbytes p Hp).
    rewrite file_byte_with_logged.
    unfold d, a. rewrite file_byte_chunk; try assumption; try lia.
    rewrite (extends_file_byte st st1 ip p Hok Hext1 Hp).
    destruct (off <=? p) eqn:E1, (p <? off + m) eqn:E2,
             (off + m <=? p) eqn:E3, (p <? off + m + (n - (tot + m))) eqn:E4,
             (p <? off + (n - tot)) eqn:E5; simpl;
      try reflexivity;
      rewrite ?Z.leb_le, ?Z.ltb_lt, ?Z.leb_gt, ?Z.ltb_ge in *;
      try lia.
    f_equal. lia.
  - apply Z.ltb_ge in Hlt. injection Hret as <- <-.
    split; [exact Hok|]. intros p Hp.
    assert (E : (off <=? p) && (p <? off + (n - tot)) = false).
    { apply andb_false_iff.
      destruct (Z_lt_dec p off); [left; apply Z.leb_gt | right; apply Z.ltb_ge]; lia. }
    rewrite E. reflexivity.
Qed.

(** ** The inode on disk *)

Lemma DINODE_SIZE_val : DINODE_SIZE = 64.
Proof. reflexivity. Qed.

Lemma IPB_val : IPB = 8.
Proof. reflexivity. Qed.

Lemma length_set_ushort d pos v : length (set_ushort d pos v) = length d.
Proof. unfold set_ushort. rewrite !length_set_byte. reflexivity. Qed.

Lemma length_put_addrs l : forall d pos, length (put_addrs d pos l) = length d.
Proof.
  induction l as [|a l IH]; intros d pos; simpl; [reflexivity|].
  rewrite IH. apply length_set_uint_pos.
Qed.

Lemma length_put_dinode d pos i : length (put_dinode d pos i) = length d.
Proof.
  unfold put_dinode. cbv zeta.
  rewrite length_put_addrs, length_set_uint_pos, !length_set_ushort. reflexivity.
Qed.

Lemma uint_at_pos_put_addrs l : forall d pos pos',
  0 <= pos' -> pos' + 4 <= pos ->
  uint_at_pos (put_addrs d pos l) pos' = uint_at_pos d pos'.
Proof.
  induction l as [|a l IH]; intros d pos pos' Hpos' Hlt; simpl; [reflexivity|].
  rewrite IH by lia. apply uint_at_pos_set_ne; lia.
Qed.

(** [dip->size = ip->size] *)
Lemma dinode_size_put_dinode d pos i :
  0 <= pos -> (Z.to_nat (pos + 11) < length d)%nat ->
  dinode_size (put_dinode d pos i) pos = to_uint (i_size i).
Proof.
  intros Hpos Hlen. unfold dinode_size, put_dinode. cbv zeta.
  rewrite uint_at_pos_put_addrs by lia.
  apply uint_at_pos_set_eq; [lia|].
  rewrite !length_set_ushort. lia.
Qed.

Lemma dinode_pos_bound inum : 0 <= dinode_pos inum /\ dinode_pos inum + 64 <= BSIZE.
Proof.
  unfold dinode_pos. rewrite DINODE_SIZE_val, IPB_val, BSIZE_val.
  pose proof (Z.mod_pos_bound inum 8 ltac:(lia)). lia.
Qed.

(** The block of the inode lies before the bitmap. *)
Lemma IBLOCK_meta st ip :
  fs_ok st ip ->
  let b := IBLOCK (i_inum (inode_of st ip)) (sb st) in
  0 <= b < sb_bmapstart (sb st)
  /\ (forall x, 0 <= x < sb_size (sb st) -> BBLOCK x (sb st) <> b)
  /\ (forall p, slot_path p -> slot_val st ip p <> 0 -> slot_val st ip p <> b).
Proof.
  intros Hok. cbv zeta.
  pose proof (ok_size _ _ Hok) as Hsz. assert (Hsz' := Hsz). unfold size_ok in Hsz'.
  pose proof (data_start_pos _ Hsz (ok_bmapstart _ _ Hok)) as Hds.
  pose proof (ok_data _ _ Hok) as Hdata.
  destruct (ok_inum _ _ Hok) as (Hi & Hs & Hlt).
  pose proof BPB_pos as HB.
  assert (Hq : 0 <= i_inum (inode_of st ip) / IPB).
  { apply Z.div_pos; [exact Hi | rewrite IPB_val; lia]. }
  assert (Hdq : 0 <= sb_size (sb st) / BPB) by (apply Z.div_pos; lia).
  unfold data_start in *.
  assert (E : IBLOCK (i_inum (inode_of st ip)) (sb st)
              = i_inum (inode_of st ip) / IPB + sb_inodestart (sb st)).
  { unfold IBLOCK. apply to_uint_small. lia. }
  rewrite E. split; [lia|]. split.
  - intros x Hx. destruct (bitmap_block_meta st ip x Hok Hx) as [Eb _].
    rewrite Eb. assert (0 <= x / BPB) by (apply Z.div_pos; lia). lia.
  - intros p Hp Hnz. destruct (ok_slots _ _ Hok p Hp Hnz) as [Hd _].
    unfold is_data, data_start in Hd. lia.
Qed.

(** Setting the size of the inode. *)
Lemma fs_ok_set_size st ip s :
  fs_ok st ip ->
  let st' := set_inode st ip (with_size (inode_of st ip) s) in
  fs_ok st' ip
  /\ (forall p, file_byte st' ip p = file_byte st ip p)
  /\ i_size (inode_of st' ip) = s
  /\ i_inum (inode_of st' ip) = i_inum (inode_of st ip).
Proof.
  intros Hok st'.
  assert (Ei : inode_of st' ip = with_size (inode_of st ip) s).
  { unfold st'. apply inode_of_set_eq. apply (ok_handle _ _ Hok). }
  assert (Hslots : forall q, slot_path q -> slot_val st' ip q = slot_val st ip q).
  { apply slot_val_same; [rewrite Ei; reflexivity | reflexivity]. }
  split; [|split; [|rewrite Ei; split; reflexivity]].
  - destruct Hok as [H1 H2 H3 H4 H5 H6 H7 H8 H9 H10].
    constructor; try assumption.
    + unfold st'. rewrite length_icache_set. exact H6.
    + rewrite Ei. exact H7.
    + rewrite Ei. exact H8.
    + intros p Hp. rewrite (Hslots p Hp). apply H9. exact Hp.
    + intros p q Hp Hq. rewrite (Hslots p Hp), (Hslots q Hq). apply H10; assumption.
  - intros p. unfold file_byte. cbv zeta. unfold lookup_addr.
    rewrite Ei. reflexivity.
Qed.

Lemma iupdate_ok st ip st' :
  fs_ok st ip -> iupdate ip st = Ret tt st' ->
  let b := IBLOCK (i_inum (inode_of st ip)) (sb st) in
  fs_ok st' ip
  /\ icache st' = icache st
  /\ (forall p, 0 <= p < MAXFILE * BSIZE -> file_byte st' ip p = file_byte st ip p)
  /\ logged st' = b :: logged st
  /\ dinode_size (block_data st' b) (dinode_pos (i_inum (inode_of st ip)))
     = to_uint (i_size (inode_of st ip)).
Proof.
  intros Hok Hret. cbv zeta.
  destruct (IBLOCK_meta st ip Hok) as (Hb & Hbm & Hsl).
  set (b := IBLOCK (i_inum (inode_of st ip)) (sb st)) in *.
  revert Hret. unfold iupdate. unfold bind at 1, iread at 1, gets.
  unfold bind at 1, gets. unfold id. fold b. intros Hret.
  apply bind_Ret_inv in Hret as (bp & st1 & Hbread & Hret).
  apply bread_Ret_inv in Hbread as (-> & -> & Hrd).
  revert Hret. unfold bind at 1, iread at 1, gets.
  rewrite write_chunk with (h := held st) by reflexivity.
  rewrite write_chunk_state.
  change (block_data (with_held st (b :: held st)) b) with (block_data st b).
  change (inode_of (with_held st (b :: held st)) ip) with (inode_of st ip).
  change (logged (with_held st (b :: held st))) with (logged st).
  intros [= <-].
  set (d := put_dinode (block_data st b) (dinode_pos (i_inum (inode_of st ip)))
                       (inode_of st ip)).
  assert (Hlen0 : length (block_data st b) = Z.to_nat BSIZE).
  { apply blocks_ok_length; [apply Hok | apply Hrd]. }
  assert (Hlen : length d = Z.to_nat BSIZE).
  { unfold d. rewrite length_put_dinode. exact Hlen0. }
  destruct (fs_ok_set_block st ip b d Hok ltac:(lia) Hlen Hbm) as [Hok' Hslots].
  { intros p j _ Hp Hnz. apply Hsl; assumption. }
  split; [apply fs_ok_with_logged; exact Hok'|].
  split; [reflexivity|]. split; [|split; [reflexivity|]].
  - intros p Hp. rewrite file_byte_with_logged.
    unfold file_byte. cbv zeta. rewrite !lookup_addr_slot.
    pose proof (data_path_of_ok _ (block_in_file p Hp)) as Hq.
    rewrite (Hslots _ (slot_path_data _ Hq)).
    destruct (slot_val st ip (data_path_of (p / BSIZE)) =? 0) eqn:Ez; [reflexivity|].
    apply Z.eqb_neq in Ez.
    destruct (ok_slots _ _ Hok _ (slot_path_data _ Hq) Ez) as [Hdata _].
    pose proof (data_start_pos _ (ok_size _ _ Hok) (ok_bmapstart _ _ Hok)) as Hds.
    rewrite block_data_set_ne;
      [reflexivity | lia | unfold is_data in Hdata; lia |].
    intros E. exact (Hsl _ (slot_path_data _ Hq) Ez (eq_sym E)).
  - change (block_data (with_logged (set_block st b d) (b :: logged st)) b)
      with (block_data (set_block st b d) b).
    rewrite block_data_set_eq; [| lia | apply readable_lt; exact Hrd].
    unfold d. pose proof (dinode_pos_bound (i_inum (inode_of st ip))) as Hpos.
    apply dinode_size_put_dinode; [lia|].
    rewrite Hlen0. rewrite BSIZE_val in *. lia.
Qed.

Lemma iupdate_completes st ip :
  fs_ok st ip -> disk_ok st -> held st = [] -> completes (iupdate ip st).
Proof.
  intros Hok Hd Hh.
  destruct (IBLOCK_meta st ip Hok) as (Hb & _ & _).
  set (b := IBLOCK (i_inum (inode_of st ip)) (sb st)) in *.
  pose proof (ok_size _ _ Hok) as Hsz. assert (Hsz' := Hsz). unfold size_ok in Hsz'.
  pose proof (data_start_pos _ Hsz (ok_bmapstart _ _ Hok)) as Hds.
  pose proof (ok_data _ _ Hok) as Hdata.
  assert (Hdq : 0 <= sb_size (sb st) / BPB)
    by (apply Z.div_pos; [lia | apply BPB_pos]).
  unfold data_start in Hdata.
  assert (Hrd : readable st b).
  { apply disk_ok_readable; [exact Hd | lia | rewrite Hh; apply not_elem_of_nil]. }
  unfold iupdate. unfold bind at 1, iread at 1, gets.
  unfold bind at 1, gets. unfold id. fold b.
  rewrite (bind_Ret _ _ _ _ _ (bread_readable st _ b Hrd)).
  unfold bind at 1, iread at 1, gets.
  rewrite write_chunk with (h := held st) by reflexivity.
  exact I.
Qed.

Lemma writei_loop_completes ip src n : forall fuel tot off st,
  fs_ok st ip -> disk_ok st -> held st = [] ->
  0 <= tot <= n -> n < 2 ^ 32 -> 0 <= off ->
  off + (n - tot) <= MAXFILE * BSIZE ->
  (0 < fuel)%nat ->
  (tot < n -> (off mod BSIZE + (n - tot) + BSIZE - 1) / BSIZE < Z.of_nat fuel) ->
  completes (writei_loop ip src n fuel tot off st).
Proof.
  induction fuel as [|fuel IH];
    intros tot off st Hok Hd Hh Ht Hn Hoff Hmax Hpos Hfuel; [lia|].
  simpl. destruct (tot <? n) eqn:Hlt; [|exact I].
  apply Z.ltb_lt in Hlt. specialize (Hfuel Hlt).
  pose proof MAXFILE_bytes as HM.
  unfold bind at 1, iread at 1, gets.
  assert (Hbn : 0 <= off / BSIZE < MAXFILE) by (apply block_in_file; lia).
  apply completes_bind; [apply bmap_completes; assumption|].
  intros a st1 Hb.
  apply (bmap_ok _ _ _ _ _ Hok) in Hb as (Hok1 & Hext1 & Ha & Hnz & _);
    [|rewrite MAXFILE_val in Hbn; lia].
  pose proof (ext_frame _ _ _ Hext1) as Hf.
  pose proof (frame_disk_ok _ _ Hf Hd) as Hd1.
  assert (Hh1 : held st1 = []) by (rewrite (frame_held _ _ Hf); exact Hh).
  assert (Hrd : readable st1 a).
  { rewrite <- Ha. apply mapped_readable; try assumption. congruence. }
  rewrite (bind_Ret _ _ _ _ _ (bread_readable st1 _ a Hrd)).
  destruct (chunk_bounds n tot off ltac:(lia) Hn Hoff) as (Hm1 & Hm2 & Hm3).
  destruct (fuel_step n tot off fuel ltac:(lia) Hn Hoff Hfuel) as (Hpos' & Hfuel').
  set (m := Z.min (to_uint (n - tot)) (to_uint (BSIZE - off mod BSIZE))) in *.
  rewrite <- !bind_assoc.
  apply completes_bind.
  { rewrite !bind_assoc.
    rewrite (write_chunk a _ _ (held st1)) by reflexivity. exact I. }
  intros u st3 Hw. rewrite !bind_assoc in Hw.
  rewrite (write_chunk a _ _ (held st1)) in Hw by reflexivity.
  injection Hw as _ <-.
  rewrite write_chunk_state.
  change (block_data (with_held st1 (a :: held st1)) a) with (block_data st1 a).
  rewrite !to_uint_small by lia.
  subst a.
  set (a := lookup_addr st1 (inode_of st1 ip) (off / BSIZE)) in *.
  set (d := put_bytes (block_data st1 a) (off mod BSIZE) (sub_bytes src tot m)).
  assert (Hlen : length d = Z.to_nat BSIZE).
  { unfold d. rewrite length_put_bytes.
    apply blocks_ok_length; [apply Hok1 | apply Hrd]. }
  apply IH; try assumption; try lia.
  - apply fs_ok_with_logged.
    assert (Ea : a = slot_val st1 ip (data_path_of (off / BSIZE)))
      by apply lookup_addr_slot.
    pose proof (data_path_of_ok _ Hbn) as Hq.
    assert (Hnz' := Hnz). rewrite Ea in Hnz'.
    destruct (data_block_plain st1 ip _ Hok1 Hq Hnz') as (Ha0 & Hbm & Hidx).
    rewrite <- Ea in Ha0, Hbm, Hidx.
    apply (fs_ok_set_block st1 ip a d Hok1 Ha0 Hlen Hbm Hidx).
  - unfold disk_ok in *. simpl. rewrite length_insert. exact Hd1.
Qed.

(** ** What [iupdate] stores *)

Lemma iupdate_state st ip st' :
  iupdate ip st = Ret tt st' ->
  let b := IBLOCK (i_inum (inode_of st ip)) (sb st) in
  readable st b
  /\ st' = with_logged
             (set_block st b
                (put_dinode (block_data st b) (dinode_pos (i_inum (inode_of st ip)))
                            (inode_of st ip)))
             (b :: logged st).
Proof.
  cbv zeta. set (b := IBLOCK (i_inum (inode_of st ip)) (sb st)).
  unfold iupdate. unfold bind at 1, iread at 1, gets.
  unfold bind at 1, gets. unfold id. fold b. intros Hret.
  apply bind_Ret_inv in Hret as (bp & st1 & Hbread & Hret).
  apply bread_Ret_inv in Hbread as (-> & -> & Hrd).
  revert Hret. unfold bind at 1, iread at 1, gets.
  rewrite write_chunk with (h := held st) by reflexivity.
  rewrite write_chunk_state.
  intros [= <-]. split; [exact Hrd | reflexivity].
Qed.

Lemma iupdate_returns st ip :
  fs_ok st ip -> disk_ok st -> held st = [] -> exists st', iupdate ip st = Ret tt st'.
Proof.
  intros Hok Hd Hh.
  destruct (IBLOCK_meta st ip Hok) as (Hb & _ & _).
  set (b := IBLOCK (i_inum (inode_of st ip)) (sb st)) in *.
  pose proof (ok_size _ _ Hok) as Hsz. assert (Hsz' := Hsz). unfold size_ok in Hsz'.
  pose proof (ok_data _ _ Hok) as Hdata.
  assert (Hdq : 0 <= sb_size (sb st) / BPB)
    by (apply Z.div_pos; [lia | apply BPB_pos]).
  unfold data_start in Hdata.
  assert (Hrd : readable st b).
  { apply disk_ok_readable; [exact Hd | lia | rewrite Hh; apply not_elem_of_nil]. }
  unfold iupdate. unfold bind at 1, iread at 1, gets.
  unfold bind at 1, gets. unfold id. fold b.
  rewrite (bind_Ret _ _ _ _ _ (bread_readable st _ b Hrd)).
  unfold bind at 1, iread at 1, gets.
  rewrite write_chunk with (h := held st) by reflexivity.
  eexists. reflexivity.
Qed.

(** A store to a block that is not a bitmap block leaves the bitmap as it
    is. *)
Lemma in_use_set_block st ip b d x :
  fs_ok st ip -> 0 <= b -> 0 <= x < sb_size (sb st) ->
  (b < sb_bmapstart (sb st) \/ data_start (sb st) <= b) ->
  in_use (set_block st b d) x = in_use st x.
Proof.
  intros Hok Hb Hx Hout. unfold in_use.
  change (sb (set_block st b d)) with (sb st).
  destruct (bitmap_block_meta st ip x Hok Hx) as [E Hxb].
  assert (0 <= x / BPB) by (apply Z.div_pos; [lia | apply BPB_pos]).
  rewrite block_data_set_ne; [reflexivity | exact Hb | lia | lia].
Qed.

(** ** Free blocks *)

Lemma filter_none (f : Z -> bool) l :
  (forall x, x ∈ l -> f x = false) -> List.filter f l = [].
Proof.
  induction l as [|x l IH]; intros Hf; [reflexivity|]. simpl.
  rewrite (Hf x) by apply list_elem_of_here.
  apply IH. intros y Hy. apply Hf. apply list_elem_of_further. exact Hy.
Qed.

Lemma filter_length_same (f g : Z -> bool) l :
  (forall x, x ∈ l -> g x = f x) ->
  length (List.filter g l) = length (List.filter f l).
Proof.
  induction l as [|x l IH]; intros Hf; [reflexivity|]. simpl.
  rewrite (Hf x) by apply list_elem_of_here.
  assert (E : length (List.filter g l) = length (List.filter f l)).
  { apply IH. intros y Hy. apply Hf. apply list_elem_of_further. exact Hy. }
  destruct (f x); simpl; rewrite E; reflexivity.
Qed.

(** Where two tests differ on one element at most, one passes at most one
    element more than the other. *)
Lemma filter_length_but_one (f g : Z -> bool) r l :
  NoDup l -> (forall x, x ∈ l -> x <> r -> g x = f x) ->
  (length (List.filter f l) <= length (List.filter g l) + 1)%nat.
Proof.
  induction l as [|x l IH]; intros Hnd Hf; [simpl; lia|].
  apply NoDup_cons in Hnd as [Hx Hnd]. simpl.
  destruct (Z.eq_dec x r) as [->|Hne].
  - assert (E : length (List.filter g l) = length (List.filter f l)).
    { apply filter_length_same. intros y Hy. apply Hf.
      - apply list_elem_of_further. exact Hy.
      - intros ->. exact (Hx Hy). }
    destruct (f r), (g r); simpl; lia.
  - rewrite (Hf x) by (apply list_elem_of_here || exact Hne).
    assert (E : (length (List.filter f l) <= length (List.filter g l) + 1)%nat).
    { apply IH; [exact Hnd|]. intros y Hy. apply Hf. apply list_elem_of_further. exact Hy. }
    destruct (f x); simpl; lia.
Qed.

Lemma free_count_same st st' :
  sb st' = sb st ->
  (forall x, 0 <= x < sb_size (sb st) -> in_use st' x = in_use st x) ->
  free_count st' = free_count st.
Proof.
  intros Hsb Hu. unfold free_count. rewrite Hsb. apply filter_length_same.
  intros x Hx. apply elem_of_seqZ in Hx. rewrite Hu by lia. reflexivity.
Qed.

Lemma free_count_but_one st st' r :
  sb st' = sb st ->
  (forall x, 0 <= x < sb_size (sb st) -> x <> r -> in_use st' x = in_use st x) ->
  (free_count st <= free_count st' + 1)%nat.
Proof.
  intros Hsb Hu. unfold free_count. rewrite Hsb.
  apply (filter_length_but_one _ _ r); [apply NoDup_seqZ|].
  intros x Hx Hne. apply elem_of_seqZ in Hx. rewrite Hu by (lia || exact Hne).
  reflexivity.
Qed.

Lemma free_count_full st :
  (forall x, 0 <= x < sb_size (sb st) -> in_use st x = true) -> free_count st = 0%nat.
Proof.
  intros Hu. unfold free_count. rewrite filter_none; [reflexivity|].
  intros x Hx. apply elem_of_seqZ in Hx. rewrite Hu by lia. reflexivity.
Qed.

(** An allocation sets the bit of the block it takes and no other. *)
Lemma in_use_alloc_other st ip r x :
  fs_ok st ip -> 0 <= r < sb_size (sb st) -> in_use st r = false ->
  readable st (BBLOCK r (sb st)) ->
  0 <= x < sb_size (sb st) -> x <> r ->
  in_use (alloc_state st r) x = in_use st x.
Proof.
  intros Hok Hr Hfree Hrbb Hx Hne.
  pose proof (ok_size _ _ Hok) as Hsz. pose proof (ok_bmapstart _ _ Hok) as Hbm.
  pose proof (data_start_pos _ Hsz Hbm) as Hds. pose proof BPB_pos as HB.
  destruct (bitmap_block_meta st ip r Hok Hr) as [Ebb Hbb].
  destruct (bitmap_block_meta st ip x Hok Hx) as [Exb Hxb].
  assert (Hdata : data_start (sb st) <= r).
  { destruct (Z_lt_dec r (data_start (sb st))) as [Hlt|]; [|lia].
    rewrite (ok_meta _ _ Hok r) in Hfree by lia. discriminate. }
  unfold in_use. rewrite sb_alloc_state.
  destruct (Z.eq_dec (BBLOCK x (sb st)) (BBLOCK r (sb st))) as [E|E].
  - rewrite E, block_data_alloc_bitmap by (assumption || lia).
    rewrite bit_at_set_ne; try (apply Z.mod_pos_bound; lia).
    + rewrite <- E. reflexivity.
    + intros Em. apply Hne.
      assert (Eq : x / BPB = r / BPB) by lia.
      rewrite (Z.div_mod x BPB), (Z.div_mod r BPB) by lia. rewrite Eq, Em. reflexivity.
  - rewrite block_data_alloc_other by lia. reflexivity.
Qed.

Lemma free_count_alloc st ip r :
  fs_ok st ip -> 0 <= r < sb_size (sb st) -> in_use st r = false ->
  readable st (BBLOCK r (sb st)) ->
  (free_count st <= free_count (alloc_state st r) + 1)%nat.
Proof.
  intros Hok Hr Hfree Hrbb. apply (free_count_but_one _ _ r); [reflexivity|].
  intros x Hx Hne. apply (in_use_alloc_other st ip); assumption.
Qed.

(** A store to a block that is not a bitmap block leaves the count. *)
Lemma free_count_set_block st0 ip st b d :
  fs_ok st0 ip -> sb st = sb st0 -> 0 <= b ->
  (b < sb_bmapstart (sb st0) \/ data_start (sb st0) <= b) ->
  free_count (set_block st b d) = free_count st.
Proof.
  intros Hok Hsb Hb Hout. apply free_count_same; [reflexivity|].
  intros x Hx. rewrite Hsb in Hx. unfold in_use.
  change (sb (set_block st b d)) with (sb st). rewrite Hsb.
  destruct (bitmap_block_meta st0 ip x Hok Hx) as [E Hxb].
  assert (0 <= x / BPB) by (apply Z.div_pos; [lia | apply BPB_pos]).
  rewrite block_data_set_ne; [reflexivity | exact Hb | lia | lia].
Qed.

(** ** Calls that return *)

(** With a block free, [balloc] returns. *)
Lemma balloc_returns st ip dev :
  fs_ok st ip -> disk_ok st -> held_ok st -> (0 < free_count st)%nat ->
  exists r, balloc dev st = Ret r (alloc_state st r)
            /\ (free_count st <= free_count (alloc_state st r) + 1)%nat.
Proof.
  intros Hok Hd Hh Hfc.
  pose proof (ok_size _ _ Hok) as Hsz. assert (Hsz' := Hsz). unfold size_ok in Hsz'.
  pose proof BPB_pos as HB.
  pose proof (data_start_pos _ Hsz (ok_bmapstart _ _ Hok)) as Hds.
  pose proof (ok_data _ _ Hok) as Hdata.
  assert (Hbm : forall x, 0 <= x < sb_size (sb st) -> readable st (BBLOCK x (sb st))).
  { intros x Hx. destruct (bitmap_block_meta st ip x Hok Hx) as [_ Hb].
    apply disk_ok_readable; [exact Hd | lia |].
    apply (held_ok_bitmap st ip); assumption. }
  destruct (first_free st (Z.to_nat (sb_size (sb st)))) as [(r & Hr & Hf & Hu)|Hall].
  - rewrite Z2Nat.id in Hr by lia.
    assert (Hrd : readable st r).
    { apply disk_ok_readable; [exact Hd | exact Hr |].
      intros Hin. destruct (Hh _ Hin) as [_ E]. congruence. }
    exists r. split.
    + unfold balloc, bind, gets.
      apply (balloc_blocks_alloc dev st r Hsz Hr Hf Hrd).
      * lia.
      * reflexivity.
      * intros x Hx. apply Hu. lia.
      * intros x Hx. apply Hbm. lia.
      * assert (0 <= sb_size (sb st) / BPB) by (apply Z.div_pos; lia).
        rewrite Z2Nat.id, Z.sub_0_r by lia.
        assert (r / BPB <= sb_size (sb st) / BPB) by (apply Z.div_le_mono; lia).
        lia.
    + apply (free_count_alloc st ip); [exact Hok | exact Hr | exact Hf | apply Hbm; exact Hr].
  - rewrite Z2Nat.id in Hall by lia.
    rewrite (free_count_full st Hall) in Hfc. lia.
Qed.

Lemma table_entry_returns st ip k :
  fs_ok st ip -> disk_ok st -> held_ok st -> (0 < free_count st)%nat ->
  exists a st', table_entry ip k st = Ret a st'
                /\ (free_count st <= free_count st' + 1)%nat.
Proof.
  intros Hok Hd Hh Hfc. unfold table_entry.
  unfold bind at 1, iread at 1, gets.
  destruct (addr_at (inode_of st ip) k =? 0).
  - unfold bind at 1, iread at 1, gets.
    destruct (balloc_returns st ip (i_dev (inode_of st ip)) Hok Hd Hh Hfc)
      as (r & Hb & Hc).
    rewrite (bind_Ret _ _ _ _ _ Hb). unfold_prims.
    eexists; eexists. split; [reflexivity | exact Hc].
  - eexists; eexists. split; [reflexivity | lia].
Qed.

Lemma index_entry_returns st ip blk j :
  fs_ok st ip -> disk_ok st -> held st = [] ->
  is_data (sb st) blk -> in_use st blk = true -> (0 < free_count st)%nat ->
  exists a st', index_entry ip blk j st = Ret a st'
                /\ (free_count st <= free_count st' + 1)%nat.
Proof.
  intros Hok Hd Hh Hdata Hused Hfc. unfold index_entry.
  pose proof (data_start_pos _ (ok_size _ _ Hok) (ok_bmapstart _ _ Hok)) as Hds.
  assert (Hrd : readable st blk).
  { apply disk_ok_readable; [exact Hd | unfold is_data in Hdata; lia |].
    rewrite Hh. apply not_elem_of_nil. }
  unfold bind at 1, iread at 1, gets.
  rewrite (bind_Ret _ _ _ _ _ (bread_readable st _ blk Hrd)).
  unfold bind at 1, buf_data, gets.
  set (sth := with_held st (blk :: held st)).
  destruct (uint_at (block_data sth blk) j =? 0).
  - rewrite bind_assoc. unfold bind at 1, iread at 1, gets.
    rewrite bind_assoc.
    destruct (balloc_returns sth ip (i_dev (inode_of sth ip))) as (r & Hb & Hc).
    + apply fs_ok_with_held. exact Hok.
    + exact Hd.
    + intros b Hb. unfold sth in Hb. simpl in Hb. rewrite Hh in Hb.
      apply list_elem_of_singleton in Hb as ->. split; assumption.
    + exact Hfc.
    + rewrite (bind_Ret _ _ _ _ _ Hb). unfold_prims.
      rewrite (brelse_head _ blk (held st)) by reflexivity.
      eexists; eexists. split; [reflexivity|].
      change (free_count sth) with (free_count st) in Hc.
      match goal with
      | |- (_ <= free_count (with_held (with_logged (set_block ?s ?b ?d) ?l) ?h) + 1)%nat =>
        change (free_count (with_held (with_logged (set_block s b d) l) h))
          with (free_count (set_block s b d));
        rewrite (free_count_set_block st ip s b d)
      end.
      * exact Hc.
      * exact Hok.
      * reflexivity.
      * unfold is_data in Hdata. lia.
      * right. exact (proj1 Hdata).
  - unfold bind at 1, ret at 1.
    rewrite (bind_Ret _ _ _ _ _ (brelse_head sth blk (held st) eq_refl)).
    eexists; eexists. split; [reflexivity|].
    change (free_count (with_held sth (held st))) with (free_count st). lia.
Qed.

(** With three blocks free, [bmap] returns: it allocates at most an outer
    index block, an inner index block and a data block. *)
Lemma bmap_returns st ip bn :
  fs_ok st ip -> disk_ok st -> held st = [] -> 0 <= bn < MAXFILE ->
  (3 <= free_count st)%nat ->
  exists a st', bmap ip bn st = Ret a st'
                /\ (free_count st <= free_count st' + 3)%nat.
Proof.
  intros Hok Hd Hh Hbn Hfc.
  rewrite bmap_translate by (rewrite MAXFILE_val in Hbn; lia).
  unfold translate.
  assert (Hidx : forall st1 p j, fs_ok st1 ip -> disk_ok st1 -> held st1 = [] ->
            slot_path p -> slot_val st1 ip p <> 0 -> (0 < free_count st1)%nat ->
            exists a st', index_entry ip (slot_val st1 ip p) j st1 = Ret a st'
                          /\ (free_count st1 <= free_count st' + 1)%nat).
  { intros st1 p j Hok1 Hd1 Hh1 Hp Hnz Hfc1.
    destruct (ok_slots _ _ Hok1 p Hp Hnz) as [Hdata Hused].
    apply index_entry_returns; assumption. }
  assert (Htab : forall k a st1, slot_path [k] -> table_entry ip k st = Ret a st1 ->
            fs_ok st1 ip /\ disk_ok st1 /\ held st1 = []
            /\ a = slot_val st1 ip [k] /\ slot_val st1 ip [k] <> 0).
  { intros k a st1 Hk Ht.
    destruct (table_entry_ok _ _ _ _ _ Hok Hk Ht) as (Hok1 & Hext & Hv & Hnz).
    pose proof (ext_frame _ _ _ Hext) as Hf.
    split; [exact Hok1|]. split; [exact (frame_disk_ok _ _ Hf Hd)|].
    split; [rewrite (frame_held _ _ Hf); exact Hh|].
    split; [symmetry; exact Hv | congruence]. }
  destruct (bn <? NDIRECT) eqn:E1.
  { destruct (table_entry_returns st ip bn Hok Hd (held_ok_nil _ Hh) ltac:(lia))
      as (a & st' & Ht & Hc).
    exists a, st'. split; [exact Ht | lia]. }
  apply Z.ltb_ge in E1.
  destruct (bn <? NDIRECT + NINDIRECT) eqn:E2.
  { apply Z.ltb_lt in E2.
    destruct (table_entry_returns st ip NDIRECT Hok Hd (held_ok_nil _ Hh) ltac:(lia))
      as (a & st1 & Ht & Hc1).
    destruct (Htab _ _ _ sp_single Ht) as (Hok1 & Hd1 & Hh1 & -> & Hnz).
    destruct (Hidx st1 [NDIRECT] (bn - NDIRECT) Hok1 Hd1 Hh1 sp_single Hnz ltac:(lia))
      as (a2 & st2 & Hi & Hc2).
    exists a2, st2. rewrite (bind_Ret _ _ _ _ _ Ht). split; [exact Hi | lia]. }
  apply Z.ltb_ge in E2.
  destruct (bn <? MAXFILE) eqn:E3; [|apply Z.ltb_ge in E3; lia].
  cbv zeta. set (r := bn - NDIRECT - NINDIRECT).
  assert (Hr : 0 <= r < NINDIRECT * NINDIRECT).
  { unfold r. rewrite MAXFILE_val in Hbn. rewrite NDIRECT_val, NINDIRECT_val in *. lia. }
  assert (Ho : entry_ok (r / NINDIRECT)).
  { unfold entry_ok. rewrite NINDIRECT_val in *.
    split; [apply Z.div_pos; lia | apply Z.div_lt_upper_bound; lia]. }
  destruct (table_entry_returns st ip (NDIRECT + 1) Hok Hd (held_ok_nil _ Hh) ltac:(lia))
    as (a & st1 & Ht & Hc1).
  destruct (Htab _ _ _ sp_double Ht) as (Hok1 & Hd1 & Hh1 & -> & Hnz).
  destruct (Hidx st1 [NDIRECT + 1] (r / NINDIRECT) Hok1 Hd1 Hh1 sp_double Hnz ltac:(lia))
    as (a2 & st2 & Hi & Hc2).
  destruct (index_entry_ok st1 ip [NDIRECT + 1] (r / NINDIRECT) a2 st2 Hok1
              (sp_outer _ Ho) sp_double Hnz Hi) as (Hok2 & Hext2 & Hv2 & Hnz2).
  pose proof (ext_frame _ _ _ Hext2) as Hf2.
  simpl app in Hv2.
  destruct (Hidx st2 [NDIRECT + 1; r / NINDIRECT] (r mod NINDIRECT) Hok2
              (frame_disk_ok _ _ Hf2 Hd1)
              ltac:(rewrite (frame_held _ _ Hf2); exact Hh1)
              (sp_outer _ Ho) ltac:(rewrite Hv2; exact Hnz2) ltac:(lia))
    as (a3 & st3 & Hi3 & Hc3).
  exists a3, st3.
  rewrite (bind_Ret _ _ _ _ _ Ht), (bind_Ret _ _ _ _ _ Hi).
  rewrite Hv2 in Hi3. split; [exact Hi3 | lia].
Qed.

Lemma chunks_step n tot off :
  0 <= tot < n -> n < 2 ^ 32 -> 0 <= off ->
  let m := Z.min (to_uint (n - tot)) (to_uint (BSIZE - off mod BSIZE)) in
  1 <= chunks off (n - tot)
  /\ (tot + m < n -> chunks (off + m) (n - (tot + m)) < chunks off (n - tot)).
Proof.
  intros Ht Hn Hoff. cbv zeta.
  set (K := chunks off (n - tot)).
  assert (HK : 0 <= K).
  { unfold K, chunks. pose proof BSIZE_pos. apply Z.div_pos; [|lia].
    pose proof (Z.mod_pos_bound off BSIZE ltac:(lia)). lia. }
  destruct (fuel_step n tot off (Z.to_nat K) ltac:(lia) Hn Hoff) as (Hpos & Hnext).
  { fold (chunks off (n - tot)). fold K. lia. }
  split; [lia|]. intros Hmore. specialize (Hnext Hmore).
  unfold chunks. lia.
Qed.

(** The loop of [writei] returns when every block of the range is mapped, and
    when three blocks are free for each block of the range. *)
Lemma writei_loop_returns ip src n : forall fuel tot off st,
  fs_ok st ip -> disk_ok st -> held st = [] ->
  0 <= tot <= n -> n < 2 ^ 32 -> 0 <= off ->
  off + (n - tot) <= MAXFILE * BSIZE ->
  (0 < fuel)%nat ->
  (tot < n -> chunks off (n - tot) < Z.of_nat fuel) ->
  (tot < n ->
   (forall q, off <= q < off + (n - tot) ->
              lookup_addr st (inode_of st ip) (q / BSIZE) <> 0)
   \/ 3 * chunks off (n - tot) <= Z.of_nat (free_count st)) ->
  exists off' st', writei_loop ip src n fuel tot off st = Ret off' st'.
Proof.
  induction fuel as [|fuel IH];
    intros tot off st Hok Hd Hh Ht Hn Hoff Hmax Hpos Hfuel Hfree; [lia|].
  simpl. destruct (tot <? n) eqn:Hlt; [|eexists; eexists; reflexivity].
  apply Z.ltb_lt in Hlt. specialize (Hfuel Hlt). specialize (Hfree Hlt).
  pose proof MAXFILE_bytes as HM.
  unfold bind at 1, iread at 1, gets.
  assert (Hbn : 0 <= off / BSIZE < MAXFILE) by (apply block_in_file; lia).
  destruct (chunks_step n tot off ltac:(lia) Hn Hoff) as (Hone & Hless).
  assert (Hbmap : exists a st1,
            bmap ip (off / BSIZE) st = Ret a st1
            /\ ((forall q, off <= q < off + (n - tot) ->
                   lookup_addr st1 (inode_of st1 ip) (q / BSIZE) <> 0)
                \/ 3 * (chunks off (n - tot) - 1) <= Z.of_nat (free_count st1))).
  { destruct Hfree as [Hmapped|Hfree].
    - exists (lookup_addr st (inode_of st ip) (off / BSIZE)), st.
      split; [|left; exact Hmapped].
      apply bmap_mapped; try assumption. apply Hmapped. lia.
    - destruct (bmap_returns st ip (off / BSIZE) Hok Hd Hh Hbn ltac:(lia))
        as (a & st1 & Hb & Hc).
      exists a, st1. split; [exact Hb | right; lia]. }
  destruct Hbmap as (a & st1 & Hb & Hnext).
  rewrite (bind_Ret _ _ _ _ _ Hb).
  apply (bmap_ok _ _ _ _ _ Hok) in Hb as (Hok1 & Hext1 & Ha & Hnz & _);
    [|rewrite MAXFILE_val in Hbn; lia].
  pose proof (ext_frame _ _ _ Hext1) as Hf.
  pose proof (frame_disk_ok _ _ Hf Hd) as Hd1.
  assert (Hh1 : held st1 = []) by (rewrite (frame_held _ _ Hf); exact Hh).
  assert (Hrd : readable st1 a).
  { rewrite <- Ha. apply mapped_readable; try assumption. congruence. }
  rewrite (bind_Ret _ _ _ _ _ (bread_readable st1 _ a Hrd)).
  destruct (chunk_bounds n tot off ltac:(lia) Hn Hoff) as (Hm1 & Hm2 & Hm3).
  destruct (fuel_step n tot off fuel ltac:(lia) Hn Hoff Hfuel) as (Hpos' & Hfuel').
  set (m := Z.min (to_uint (n - tot)) (to_uint (BSIZE - off mod BSIZE))) in *.
  rewrite <- !bind_assoc.
  match goal with
  | |- exists off' st', bind ?c ?k ?s = _ =>
    destruct (c s) as [u st3| |] eqn:Hw;
      [rewrite (bind_Ret _ _ _ _ _ Hw) | exfalso | exfalso];
      rewrite !bind_assoc in Hw;
      rewrite (write_chunk a _ _ (held st1)) in Hw by reflexivity;
      [injection Hw as _ <- | discriminate | discriminate]
  end.
  rewrite write_chunk_state.
  change (block_data (with_held st1 (a :: held st1)) a) with (block_data st1 a).
  rewrite !to_uint_small by lia.
  subst a.
  set (a := lookup_addr st1 (inode_of st1 ip) (off / BSIZE)) in *.
  set (d := put_bytes (block_data st1 a) (off mod BSIZE) (sub_bytes src tot m)).
  assert (Hlen : length d = Z.to_nat BSIZE).
  { unfold d. rewrite length_put_bytes.
    apply blocks_ok_length; [apply Hok1 | apply Hrd]. }
  assert (Ea : a = slot_val st1 ip (data_path_of (off / BSIZE)))
    by apply lookup_addr_slot.
  pose proof (data_path_of_ok _ Hbn) as Hq.
  assert (Hnz' := Hnz). rewrite Ea in Hnz'.
  destruct (data_block_plain st1 ip _ Hok1 Hq Hnz') as (Ha0 & Hbm & Hidx).
  destruct (ok_slots _ _ Hok1 _ (slot_path_data _ Hq) Hnz') as [Hadata _].
  rewrite <- Ea in Ha0, Hbm, Hidx, Hadata.
  destruct (fs_ok_set_block st1 ip a d Hok1 Ha0 Hlen Hbm Hidx) as [Hok2 Hslots2].
  apply IH; try assumption; try lia.
  - apply fs_ok_with_logged. exact Hok2.
  - unfold disk_ok in *. simpl. rewrite length_insert. exact Hd1.
  - intros Hmore. specialize (Hless Hmore).
    destruct Hnext as [Hmapped|Hcount]; [left | right].
    + intros q Hq'.
      assert (Hqb : 0 <= q / BSIZE < MAXFILE) by (apply block_in_file; lia).
      pose proof (Hmapped q ltac:(lia)) as Hmq.
      rewrite lookup_addr_slot in *.
      match goal with
      | |- slot_val (with_logged (set_block ?s ?b ?x) ?l) ip ?p <> 0 =>
        change (slot_val (with_logged (set_block s b x) l) ip p)
          with (slot_val (set_block s b x) ip p)
      end.
      rewrite Hslots2 by (apply slot_path_data, data_path_of_ok; exact Hqb).
      exact Hmq.
    + match goal with
      | |- _ <= Z.of_nat (free_count (with_logged (set_block ?s ?b ?x) ?l)) =>
        change (free_count (with_logged (set_block s b x) l))
          with (free_count (set_block s b x));
        rewrite (free_count_set_block st1 ip s b x Hok1 eq_refl Ha0)
      end.
      * lia.
      * right. exact (proj1 Hadata).
Qed.


(** ** [writei] *)

Section WRITE.
Context `{Params}.

Lemma writei_unfold st ip src off n :
  i_type (inode_of st ip) <> T_DEV ->
  writei ip src off n st
  = if (i_size (inode_of st ip) <? off) || (to_uint (off + n) <? off)
    then Ret (-1) st
    else if to_uint (MAXFILE * BSIZE) <? to_uint (off + n) then Ret (-1) st
    else
      (let* off' := writei_loop ip src n (io_fuel n) 0 off in
       let* sz := iread ip i_size in
       (if (0 <? n) && (sz <? off') then
          iwrite ip (fun x => with_size x off');;
          iupdate ip
        else ret tt);;
       ret (to_int n)) st.
Proof.
  intros Hty. apply Z.eqb_neq in Hty.
  unfold writei. unfold bind at 1, iread at 1, gets, id. rewrite Hty.
  destruct ((i_size (inode_of st ip) <? off) || (to_uint (off + n) <? off));
    [reflexivity|].
  destruct (to_uint (MAXFILE * BSIZE) <? to_uint (off + n)); reflexivity.
Qed.

Lemma writei_accepts st ip src off n :
  i_type (inode_of st ip) <> T_DEV ->
  0 <= off < 2 ^ 32 -> 0 <= n < 2 ^ 32 ->
  off <= i_size (inode_of st ip) -> off + n <= MAXFILE * BSIZE ->
  writei ip src off n st
  = (let* off' := writei_loop ip src n (io_fuel n) 0 off in
     let* sz := iread ip i_size in
     (if (0 <? n) && (sz <? off') then
        iwrite ip (fun x => with_size x off');;
        iupdate ip
      else ret tt);;
     ret (to_int n)) st.
Proof.
  intros Hty Hoff Hn Hle Hmax. rewrite (writei_unfold st ip src off n Hty).
  pose proof MAXFILE_bytes as HM.
  assert (Hc : (i_size (inode_of st ip) <? off) || (to_uint (off + n) <? off) = false).
  { apply orb_false_iff. split; apply Z.ltb_ge; [lia|].
    rewrite to_uint_small by lia. lia. }
  rewrite Hc.
  assert (Hc2 : (to_uint (MAXFILE * BSIZE) <? to_uint (off + n)) = false).
  { apply Z.ltb_ge. rewrite !to_uint_small by lia. lia. }
  rewrite Hc2. reflexivity.
Qed.

(** The result and the state of a write that was accepted. *)
Lemma writei_ok st ip src off n r st' :
  fs_ok st ip -> i_type (inode_of st ip) <> T_DEV ->
  0 <= off < 2 ^ 32 -> 0 <= n < 2 ^ 32 ->
  off <= i_size (inode_of st ip) -> off + n <= MAXFILE * BSIZE ->
  writei ip src off n st = Ret r st' ->
  r = n
  /\ fs_ok st' ip
  /\ (sb st' = sb st /\ held st' = held st
      /\ length (disk st') = length (disk st))
  /\ (forall p, 0 <= p < MAXFILE * BSIZE ->
        file_byte st' ip p
        = if (off <=? p) && (p <? off + n) then byte_at src (p - off)
          else file_byte st ip p)
  /\ i_size (inode_of st' ip) = Z.max (i_size (inode_of st ip)) (off + n)
  /\ (i_size (inode_of st ip) < off + n ->
      let b := IBLOCK (i_inum (inode_of st ip)) (sb st) in
      head (logged st') = Some b
      /\ dinode_size (block_data st' b) (dinode_pos (i_inum (inode_of st ip)))
         = off + n).
Proof.
  intros Hok Hty Hoff Hn Hle Hmax Hret.
  pose proof MAXFILE_bytes as HM.
  rewrite (writei_accepts st ip src off n Hty Hoff Hn Hle Hmax) in Hret.
  apply bind_Ret_inv in Hret as (off' & st1 & Hloop & Hret).
  pose proof Hloop as Hl2.
  apply writei_loop_Ret in Hl2 as (-> & Hf & _); try lia.
  apply writei_loop_content in Hloop as (Hok1 & Hbytes); try lia; [|exact Hok].
  rewrite Z.sub_0_r in *.
  assert (Hbytes' : forall p, 0 <= p < MAXFILE * BSIZE ->
            file_byte st1 ip p
            = if (off <=? p) && (p <? off + n) then byte_at src (p - off)
              else file_byte st ip p).
  { intros p Hp. rewrite (Hbytes p Hp). reflexivity. }
  clear Hbytes.
  pose proof (frame_size _ _ ip Hf) as Hsize.
  revert Hret. unfold bind at 1, iread at 1, gets. rewrite Hsize.
  destruct ((0 <? n) && (i_size (inode_of st ip) <? off + n)) eqn:Hgrow.
  - apply andb_true_iff in Hgrow as [Hn0 Hlt].
    apply Z.ltb_lt in Hn0, Hlt.
    rewrite bind_assoc. unfold bind at 1, iwrite at 1, modify.
    intros Hret. apply bind_Ret_inv in Hret as ([] & st2 & Hupd & Hret).
    injection Hret as <- <-.
    destruct (fs_ok_set_size st1 ip (off + n) Hok1) as (Hok2 & Hb2 & Hs2 & Hi2).
    set (st15 := set_inode st1 ip (with_size (inode_of st1 ip) (off + n))) in *.
    pose proof (iupdate_frame _ _ _ Hupd) as [Hf2 _].
    destruct (iupdate_ok st15 ip st2 Hok2 Hupd) as (Hok' & Hic & Hb3 & Hlog & Hdsz).
    assert (Ei : inode_of st2 ip = inode_of st15 ip).
    { unfold inode_of. rewrite Hic. reflexivity. }
    split; [apply to_int_small; lia|].
    split; [exact Hok'|]. split.
    { destruct Hf as (Hsb & Hh & _ & Hlen & _).
      destruct Hf2 as (Hsb2 & Hh2 & _ & Hlen2 & _).
      change (sb st15) with (sb st1) in Hsb2.
      change (held st15) with (held st1) in Hh2.
      change (disk st15) with (disk st1) in Hlen2.
      split; [congruence|]. split; congruence. }
    split; [intros p Hp; rewrite (Hb3 p Hp), Hb2; apply Hbytes'; exact Hp|].
    split; [rewrite Ei, Hs2; lia|].
    intros _. cbv zeta.
    rewrite Hi2 in Hlog, Hdsz. rewrite (frame_inum _ _ ip Hf) in Hlog, Hdsz.
    change (sb st15) with (sb st1) in Hlog, Hdsz.
    destruct Hf as (Hsb & _). rewrite Hsb in Hlog, Hdsz.
    split; [rewrite Hlog; reflexivity|].
    rewrite Hdsz, Hs2. apply to_uint_small. lia.
  - unfold_prims. intros [= <- <-].
    apply andb_false_iff in Hgrow.
    split; [apply to_int_small; lia|].
    split; [exact Hok1|].
    split; [destruct Hf as (Hsb & Hh & _ & Hlen & _); auto|].
    split; [exact Hbytes'|].
    assert (Hin : off + n <= i_size (inode_of st ip)).
    { destruct Hgrow as [E|E]; [apply Z.ltb_ge in E | apply Z.ltb_ge in E]; lia. }
    split; [rewrite Hsize; lia|].
    intros Hlt. lia.
Qed.

Lemma writei_completes st ip src off n :
  fs_ok st ip -> i_type (inode_of st ip) <> T_DEV ->
  0 <= off < 2 ^ 32 -> 0 <= n < 2 ^ 32 ->
  off <= i_size (inode_of st ip) -> off + n <= MAXFILE * BSIZE ->
  disk_ok st -> held st = [] ->
  completes (writei ip src off n st).
Proof.
  intros Hok Hty Hoff Hn Hle Hmax Hd Hh.
  pose proof MAXFILE_bytes as HM.
  rewrite (writei_accepts st ip src off n Hty Hoff Hn Hle Hmax).
  destruct (fuel_start off n ltac:(lia) ltac:(lia)) as (Hpos & Hfuel).
  apply completes_bind.
  { apply writei_loop_completes; try assumption; try lia.
    intros _. rewrite Z.sub_0_r. exact Hfuel. }
  intros off' st1 Hloop.
  pose proof Hloop as Hl2.
  apply writei_loop_Ret in Hl2 as (-> & Hf & _); try lia.
  apply writei_loop_content in Hloop as (Hok1 & _); try lia; [|exact Hok].
  unfold bind at 1, iread at 1, gets.
  apply completes_bind; [|intros; exact I].
  destruct ((0 <? n) && (i_size (inode_of st1 ip) <? off + (n - 0))); [|exact I].
  unfold bind at 1, iwrite at 1, modify.
  destruct (fs_ok_set_size st1 ip (off + (n - 0)) Hok1) as (Hok2 & _).
  apply iupdate_completes.
  - exact Hok2.
  - apply (frame_disk_ok _ _ Hf) in Hd. exact Hd.
  - change (held st1 = []). rewrite (frame_held _ _ Hf). exact Hh.
Qed.

(** An accepted write returns when every block of its range is mapped, and
    when three blocks are free for each block of its range. *)
Lemma writei_returns st ip src off n :
  fs_ok st ip -> i_type (inode_of st ip) <> T_DEV ->
  0 <= off < 2 ^ 32 -> 0 <= n < 2 ^ 32 ->
  off <= i_size (inode_of st ip) -> off + n <= MAXFILE * BSIZE ->
  disk_ok st -> held st = [] ->
  (forall q, off <= q < off + n -> lookup_addr st (inode_of st ip) (q / BSIZE) <> 0)
  \/ 3 * chunks off n <= Z.of_nat (free_count st) ->
  exists st', writei ip src off n st = Ret n st'.
Proof.
  intros Hok Hty Hoff Hn Hle Hmax Hd Hh Hroom.
  pose proof MAXFILE_bytes as HM.
  rewrite (writei_accepts st ip src off n Hty Hoff Hn Hle Hmax).
  destruct (fuel_start off n ltac:(lia) ltac:(lia)) as (Hpos & Hfuel).
  destruct (writei_loop_returns ip src n (io_fuel n) 0 off st Hok Hd Hh
              ltac:(lia) ltac:(lia) ltac:(lia) ltac:(lia) Hpos)
    as (off' & st1 & Hloop).
  { intros _. rewrite Z.sub_0_r. exact Hfuel. }
  { intros _. rewrite Z.sub_0_r. exact Hroom. }
  rewrite (bind_Ret _ _ _ _ _ Hloop).
  pose proof Hloop as Hl2.
  apply writei_loop_Ret in Hl2 as (-> & Hf & _); try lia.
  apply writei_loop_content in Hloop as (Hok1 & _); try lia; [|exact Hok].
  unfold bind at 1, iread at 1, gets.
  destruct ((0 <? n) && (i_size (inode_of st1 ip) <? off + (n - 0))).
  - rewrite bind_assoc. unfold bind at 1, iwrite at 1, modify.
    destruct (fs_ok_set_size st1 ip (off + (n - 0)) Hok1) as (Hok2 & _).
    destruct (iupdate_returns _ ip Hok2) as (st2 & Hupd).
    + apply (frame_disk_ok _ _ Hf) in Hd. exact Hd.
    + change (held st1 = []). rewrite (frame_held _ _ Hf). exact Hh.
    + rewrite (bind_Ret _ _ _ _ _ Hupd). unfold_prims.
      exists st2. rewrite to_int_small by lia. reflexivity.
  - unfold_prims. exists st1. rewrite to_int_small by lia. reflexivity.
Qed.

(** C4.  On an inode that is not a device, in a well-formed file system: a
    call of [writei] that returns anything but -1 was given an offset within
    the size and an end within the largest file; for such a request, whenever
    [writei] returns it returns [n], the [n] bytes of the source are the
    content at [off] and the rest of the content is as it was, and the size
    is the larger of the previous size and [off + n].  Where the file grew
    the block of the inode is the last block handed to the log and holds the
    new size; a write within the previous size leaves the size as it was.
    With every block on the disk and no buffer locked such a request does
    return [n] when every block of its range is mapped, and when three
    blocks are free for each block of its range ([bmap] allocates at most
    an outer index block, an inner index block and a data block); in any
    case it neither waits nor fails another check than [balloc]'s. *)
Theorem writei_writes (st : state) (ip : nat) (src : list Z) (off n : Z) :
  fs_ok st ip ->
  i_type (inode_of st ip) <> T_DEV ->
  0 <= off < 2 ^ 32 -> 0 <= n < 2 ^ 32 ->
  0 <= i_size (inode_of st ip) < 2 ^ 32 ->
  n <= Z.of_nat (length src) ->
  let size := i_size (inode_of st ip) in
  let inum := i_inum (inode_of st ip) in
  (forall r st',
      writei ip src off n st = Ret r st' ->
      (r <> -1 -> off <= size /\ off + n <= MAXFILE * BSIZE)
      /\ (off <= size -> off + n <= MAXFILE * BSIZE ->
          r = n
          /\ fs_ok st' ip
          /\ (forall k, 0 <= k < n -> file_byte st' ip (off + k) = byte_at src k)
          /\ (forall p, 0 <= p < MAXFILE * BSIZE -> ~ off <= p < off + n ->
                        file_byte st' ip p = file_byte st ip p)
          /\ i_size (inode_of st' ip) = Z.max size (off + n)
          /\ (size < off + n ->
              head (logged st') = Some (IBLOCK inum (sb st))
              /\ dinode_size (block_data st' (IBLOCK inum (sb st))) (dinode_pos inum)
                 = off + n)
          /\ (off + n <= size -> i_size (inode_of st' ip) = size)))
  /\ (off <= size -> off + n <= MAXFILE * BSIZE ->
      disk_ok st -> held st = [] ->
      completes (writei ip src off n st)
      /\ ((forall q, off <= q < off + n ->
             lookup_addr st (inode_of st ip) (q / BSIZE) <> 0)
          \/ 3 * chunks off n <= Z.of_nat (free_count st) ->
          exists st', writei ip src off n st = Ret n st')).
Proof.
  intros Hok Hty Hoff Hn Hsz Hsrc size inum.
  pose proof MAXFILE_bytes as HM.
  split.
  - intros r st' Hret. split.
    + intros Hr. rewrite (writei_unfold st ip src off n Hty) in Hret.
      fold size in Hret.
      destruct ((size <? off) || (to_uint (off + n) <? off)) eqn:Hc;
        [injection Hret as <- _; congruence|].
      apply orb_false_iff in Hc as [Hc1 Hc2].
      apply Z.ltb_ge in Hc1.
      pose proof (no_overflow off n Hoff Hn Hc2) as Hsum.
      destruct (to_uint (MAXFILE * BSIZE) <? to_uint (off + n)) eqn:Hc3;
        [injection Hret as <- _; congruence|].
      apply Z.ltb_ge in Hc3. rewrite !to_uint_small in Hc3 by lia.
      split; assumption.
    + intros Hle Hmax.
      destruct (writei_ok st ip src off n r st' Hok Hty Hoff Hn Hle Hmax Hret)
        as (Hr & Hok' & _ & Hbytes & Hsize & Hlog).
      split; [exact Hr|]. split; [exact Hok'|]. split.
      { intros k Hk. rewrite Hbytes by lia.
        assert (E : (off <=? off + k) && (off + k <? off + n) = true).
        { apply andb_true_iff. split; [apply Z.leb_le | apply Z.ltb_lt]; lia. }
        rewrite E. f_equal. lia. }
      split.
      { intros p Hp Hout. rewrite Hbytes by exact Hp.
        assert (E : (off <=? p) && (p <? off + n) = false).
        { apply andb_false_iff.
          destruct (Z_lt_dec p off); [left; apply Z.leb_gt | right; apply Z.ltb_ge]; lia. }
        rewrite E. reflexivity. }
      split; [exact Hsize|]. split; [exact Hlog|].
      intros Hin. rewrite Hsize. unfold size. lia.
  - intros Hle Hmax Hd Hh. split; [apply writei_completes; assumption|].
    intros Hroom. apply writei_returns; assumption.
Qed.

End WRITE.

(** ** The example image is well formed *)

Lemma slot_val_unmapped st ip p :
  (forall k, addr_at (inode_of st ip) k = 0) -> slot_val st ip p = 0.
Proof.
  intros Hz. destruct p as [|k js]; [reflexivity|]. simpl. rewrite Hz.
  induction js as [|j js IH]; [reflexivity | exact IH].
Qed.

Lemma st0_ok : fs_ok st0 0.
Proof.
  assert (Hz : forall p, slot_val st0 0 p = 0).
  { intros p. apply slot_val_unmapped. intros k. unfold addr_at.
    change (i_addrs (inode_of st0 0)) with (replicate 13 0).
    destruct (replicate 13 0 !! Z.to_nat k) as [x|] eqn:E; [|reflexivity].
    apply lookup_replicate in E as [-> _]. reflexivity. }
  constructor.
  - unfold size_ok. vm_compute. split; congruence.
  - reflexivity.
  - vm_compute. congruence.
  - apply blocks_okb_true. vm_compute. reflexivity.
  - intros b Hb. change (data_start (sb st0)) with 7 in Hb.
    assert (Hc : b = 0 \/ b = 1 \/ b = 2 \/ b = 3 \/ b = 4 \/ b = 5 \/ b = 6) by lia.
    destruct Hc as [->|[->|[->|[->|[->|[->| ->]]]]]]; vm_compute; reflexivity.
  - simpl. lia.
  - reflexivity.
  - vm_compute. repeat split; congruence.
  - intros p _ Hnz. rewrite Hz in Hnz. congruence.
  - intros p q _ _ _ Hnz. rewrite Hz in Hnz. congruence.
Qed.

Lemma st0_disk_ok : disk_ok st0.
Proof. unfold disk_ok. vm_compute. congruence. Qed.

(** [st0] after the write of [st1]. *)
Lemma st0_written :
  exists sa, writei (H:=xv6) 0 (replicate 20 65) 0 20 st0 = Ret 20 sa
             /\ fs_ok sa 0 /\ disk_ok sa /\ held sa = [].
Proof.
  destruct (writei (H:=xv6) 0 (replicate 20 65) 0 20 st0) as [r sa| |] eqn:E.
  - destruct (writei_ok (H:=xv6) st0 0 (replicate 20 65) 0 20 r sa st0_ok)
      as (-> & Hok & (Hsb & Hh & Hlen) & _); try (vm_compute; congruence).
    + vm_compute. split; congruence.
    + vm_compute. split; congruence.
    + exact E.
    + exists sa. split; [reflexivity|]. split; [exact Hok|].
      split; [|rewrite Hh; reflexivity].
      unfold disk_ok. rewrite Hsb, Hlen. exact st0_disk_ok.
  - exfalso. revert E. vm_compute. discriminate.
  - exfalso. revert E. vm_compute. discriminate.
Qed.

Lemma st1_ok : fs_ok st1 0.
Proof.
  assert (E : (writei (H:=xv6) 0 (replicate 20 65) 0 20;;
               bmap 0 (NDIRECT + 5);;
               bmap 0 (NDIRECT + NINDIRECT + 5)) st0 = Ret 12 st1)
    by (vm_compute; reflexivity).
  apply bind_Ret_inv in E as (r & sa & Hw & E).
  apply bind_Ret_inv in E as (a1 & sb1 & Hb1 & Hb2).
  destruct (writei_ok (H:=xv6) st0 0 (replicate 20 65) 0 20 r sa st0_ok)
    as (_ & Hok & _); try (vm_compute; congruence).
  - vm_compute. split; congruence.
  - vm_compute. split; congruence.
  - exact Hw.
  - apply (bmap_ok _ _ _ _ _ Hok) in Hb1 as (Hok1 & _);
      [|vm_compute; split; congruence].
    apply (bmap_ok _ _ _ _ _ Hok1) in Hb2 as (Hok2 & _);
      [|vm_compute; split; congruence].
    exact Hok2.
Qed.

Lemma st1_disk_ok : disk_ok st1.
Proof. unfold disk_ok. vm_compute. congruence. Qed.

Lemma readi_copies_witness :
  readi (H:=xv6) 0 (replicate 8 0) 16 8 st1 = Ret (4, [65; 65; 65; 65; 0; 0; 0; 0]) st1
  /\ readi (H:=xv6) 0 (replicate 8 0) 21 8 st1 = Ret (-1, replicate 8 0) st1.
Proof.
  assert (Hsz : i_size (inode_of st1 0) = 20) by (vm_compute; reflexivity).
  assert (Hty : i_type (inode_of st1 0) <> T_DEV (Params:=xv6))
    by (vm_compute; discriminate).
  split.
  - destruct (readi_copies (H:=xv6) st1 0 (replicate 8 0) 16 8 st1_ok Hty
                ltac:(lia) ltac:(lia) ltac:(rewrite Hsz; lia) ltac:(simpl; lia))
      as (_ & Hread).
    destruct Hread as (_ & _ & Hruns); [rewrite Hsz; lia | lia |].
    destruct (Hruns st1_disk_ok eq_refl ltac:(rewrite Hsz; vm_compute; congruence))
      as (_ & Hmapped).
    rewrite Hmapped.
    + vm_compute. reflexivity.
    + intros p Hp. rewrite Hsz in Hp.
      assert (E : p / BSIZE = 0) by (apply Z.div_small; rewrite BSIZE_val; lia).
      rewrite E. vm_compute. discriminate.
  - destruct (readi_copies (H:=xv6) st1 0 (replicate 8 0) 21 8 st1_ok Hty
                ltac:(lia) ltac:(lia) ltac:(rewrite Hsz; lia) ltac:(simpl; lia))
      as (Hfail & _).
    apply Hfail. left. rewrite Hsz. lia.
Defined.

Lemma writei_writes_witness :
  (exists st',
     writei (H:=xv6) 0 (replicate 20 65) 0 20 st0 = Ret 20 st'
     /\ i_size (inode_of st' 0) = 20
     /\ file_byte st' 0 19 = 65
     /\ head (logged st') = Some 4)
  /\ (exists st',
        writei (H:=xv6) 0 [66; 66] 3 2 st1 = Ret 2 st'
        /\ i_size (inode_of st' 0) = 20
        /\ file_byte st' 0 4 = 66 /\ file_byte st' 0 5 = 65).
Proof.
  split.
  2:{ assert (Hsz : i_size (inode_of st1 0) = 20) by (vm_compute; reflexivity).
      assert (Hty : i_type (inode_of st1 0) <> T_DEV (Params:=xv6))
        by (vm_compute; discriminate).
      destruct (writei_writes (H:=xv6) st1 0 [66; 66] 3 2 st1_ok Hty
                  ltac:(lia) ltac:(lia) ltac:(rewrite Hsz; lia) ltac:(simpl; lia))
        as (Hret & Hruns).
      destruct Hruns as (_ & Hreturns);
        [rewrite Hsz; lia | vm_compute; congruence | exact st1_disk_ok
         | vm_compute; reflexivity |].
      destruct Hreturns as (st' & E).
      { left. intros q Hq.
        assert (Eq : q / BSIZE = 0) by (apply Z.div_small; rewrite BSIZE_val; lia).
        rewrite Eq. vm_compute. discriminate. }
      exists st'. split; [exact E|].
      destruct (Hret 2 st' E) as (_ & Hacc).
      destruct Hacc as (_ & _ & Hbytes & Hrest & _ & _ & Hin);
        [rewrite Hsz; lia | vm_compute; congruence |].
      split; [rewrite Hin, Hsz; [reflexivity | lia]|].
      split; [apply (Hbytes 1); lia|].
      rewrite Hrest; [vm_compute; reflexivity | vm_compute; split; congruence | lia]. }
  assert (Hsz : i_size (inode_of st0 0) = 0) by reflexivity.
  assert (Hty : i_type (inode_of st0 0) <> T_DEV (Params:=xv6))
    by (vm_compute; discriminate).
  destruct (writei_writes (H:=xv6) st0 0 (replicate 20 65) 0 20 st0_ok Hty
              ltac:(lia) ltac:(lia) ltac:(rewrite Hsz; lia) ltac:(simpl; lia))
    as (Hret & Hruns).
  destruct Hruns as (_ & Hreturns);
    [rewrite Hsz; lia | vm_compute; congruence | exact st0_disk_ok | reflexivity |].
  destruct Hreturns as (st' & E); [right; vm_compute; congruence|].
  exists st'. split; [exact E|].
  destruct (Hret 20 st' E) as (_ & Hacc).
  destruct Hacc as (_ & _ & Hbytes & _ & Hsize & Hlog & _);
    [rewrite Hsz; lia | vm_compute; congruence |].
  split; [rewrite Hsize, Hsz; reflexivity|].
  split; [apply (Hbytes 19); lia|].
  destruct Hlog as [Hl _]; [rewrite Hsz; lia|]. exact Hl.
Defined.

(** ** [bfree] *)

Lemma with_sb_id st : with_sb st (sb st) = st.
Proof. destruct st; reflexivity. Qed.

Lemma readsb_run st dev :
  sb st = decode_sb (block_data st 1) -> readable st 1 -> readsb dev st = Ret tt st.
Proof.
  intros Hsb Hr1. unfold readsb.
  rewrite (bind_Ret _ _ _ _ _ (bread_readable st _ 1 Hr1)).
  unfold_prims.
  change (block_data (with_held st (1 :: held st)) 1) with (block_data st 1).
  rewrite <- Hsb.
  rewrite (brelse_head _ 1 (held st)) by reflexivity.
  destruct st; reflexivity.
Qed.

Lemma bfree_run st dev b :
  sb st = decode_sb (block_data st 1) ->
  readable st 1 -> readable st (BBLOCK b (sb st)) -> in_use st b = true ->
  bfree dev b st = Ret tt (free_state st b).
Proof.
  intros Hsb Hr1 Hrb Hused.
  pose proof BPB_pos as HB.
  pose proof (Z.mod_pos_bound b BPB HB) as Hbi.
  assert (Hm8 : 0 <= (b mod BPB) mod 8) by (apply Z.mod_pos_bound; lia).
  unfold bfree, free_state. cbv zeta. rewrite <- Hsb.
  rewrite (bind_Ret _ _ _ _ _ (readsb_run st dev Hsb Hr1)).
  unfold bind at 1, gets. cbv beta iota.
  rewrite (bind_Ret _ _ _ _ _ (bread_readable st _ _ Hrb)).
  rewrite to_int_small by (pose proof BPB_val; lia).
  unfold bind at 1, buf_data, gets. cbv beta iota.
  set (bb := BBLOCK b (sb st)) in *.
  change (block_data (with_held st (bb :: held st)) bb) with (block_data st bb).
  rewrite bit_test by exact Hm8.
  unfold in_use in Hused. fold bb in Hused. unfold bit_at in Hused.
  rewrite Hused. change (negb true) with false. cbv beta iota.
  rewrite write_chunk with (h := held st) by reflexivity.
  rewrite write_chunk_state.
  change (block_data (with_held st (bb :: held st)) bb) with (block_data st bb).
  rewrite with_sb_id. reflexivity.
Qed.

(** ** The order of truncation *)

Lemma rank_direct k : 0 <= k < NDIRECT -> rank [k] = k.
Proof.
  intros [_ Hk]. unfold rank. apply Z.ltb_lt in Hk. rewrite Hk. reflexivity.
Qed.

Lemma rank_single : rank [NDIRECT] = 139.
Proof. reflexivity. Qed.

Lemma rank_single_entry j : rank [NDIRECT; j] = 11 + j.
Proof. reflexivity. Qed.

Lemma rank_double : rank [NDIRECT + 1] = 16652.
Proof. reflexivity. Qed.

Lemma rank_outer o : rank [NDIRECT + 1; o] = 140 + o * 129 + 128.
Proof. reflexivity. Qed.

Lemma rank_inner o j : rank [NDIRECT + 1; o; j] = 140 + o * 129 + j.
Proof. reflexivity. Qed.

Lemma slots_val : slots = 16653.
Proof. reflexivity. Qed.

Lemma rank_range p : slot_path p -> 0 <= rank p < slots.
Proof.
  rewrite slots_val.
  intros [k Hk| |j Hj| |o Ho|o j Ho Hj]; unfold entry_ok in *;
    rewrite ?rank_single, ?rank_single_entry, ?rank_double, ?rank_outer, ?rank_inner;
    rewrite ?(rank_direct k) by assumption;
    rewrite ?NDIRECT_val, ?NINDIRECT_val in *;
    lia.
Qed.

Lemma rank_inj p q : slot_path p -> slot_path q -> rank p = rank q -> p = q.
Proof.
  intros [k Hk| |j Hj| |o Ho|o j Ho Hj] [k' Hk'| |j' Hj'| |o' Ho'|o' j' Ho' Hj'];
    unfold entry_ok in *;
    rewrite ?rank_single, ?rank_single_entry, ?rank_double, ?rank_outer, ?rank_inner;
    rewrite ?(rank_direct k) by assumption;
    rewrite ?(rank_direct k') by assumption;
    rewrite ?NDIRECT_val, ?NINDIRECT_val in *;
    intros E; try reflexivity; try lia.
  - f_equal. lia.
  - f_equal. f_equal. lia.
  - f_equal. f_equal. lia.
  - assert (o = o') by lia. subst o'. f_equal. f_equal. f_equal. lia.
Qed.

(** ** The invariant of truncation *)

Lemma slot_path_table k : 0 <= k < NDIRECT + 2 -> slot_path [k].
Proof.
  intros Hk. destruct (Z_lt_dec k NDIRECT) as [Hlt|Hge]; [apply sp_direct; lia|].
  destruct (Z.eq_dec k NDIRECT) as [->|Hne]; [apply sp_single|].
  replace k with (NDIRECT + 1) by lia. apply sp_double.
Qed.

Lemma length_clear_bit d bi : length (clear_bit d bi) = length d.
Proof. unfold clear_bit. apply length_set_byte. Qed.

Lemma free_state_eq s v :
  sb s = decode_sb (block_data s 1) ->
  free_state s v
  = with_logged
      (set_block s (BBLOCK v (sb s))
         (clear_bit (block_data s (BBLOCK v (sb s))) (v mod BPB)))
      (BBLOCK v (sb s) :: logged s).
Proof.
  intros Hsb. unfold free_state. cbv zeta. rewrite <- Hsb, with_sb_id. reflexivity.
Qed.

Section TRUNC.
Variables (s0 : state) (ip : nat).
Hypothesis Hok0 : fs_ok s0 ip.
Hypothesis Hd0 : disk_ok s0.
Hypothesis Hsb0 : sb s0 = decode_sb (block_data s0 1).

Lemma layout0 :
  1 < sb_bmapstart (sb s0)
  /\ sb_bmapstart (sb s0) < data_start (sb s0)
  /\ data_start (sb s0) <= sb_size (sb s0)
  /\ sb_size (sb s0) <= Z.of_nat (length (disk s0))
  /\ sb_size (sb s0) <= 2 ^ 31 - BPB.
Proof.
  pose proof (ok_size _ _ Hok0) as Hsz. unfold size_ok in Hsz.
  pose proof BPB_pos as HB.
  assert (0 <= sb_size (sb s0) / BPB) by (apply Z.div_pos; lia).
  split; [apply Hok0|]. split; [unfold data_start; lia|].
  split; [apply Hok0|]. split; [exact Hd0 | lia].
Qed.

Lemma bblock0 x :
  0 <= x < sb_size (sb s0) ->
  BBLOCK x (sb s0) = x / BPB + sb_bmapstart (sb s0)
  /\ sb_bmapstart (sb s0) <= BBLOCK x (sb s0) < data_start (sb s0).
Proof.
  intros Hx. destruct (bitmap_block_meta s0 ip x Hok0 Hx) as [E Hb].
  split; [exact E|]. split; [|lia]. rewrite E.
  assert (0 <= x / BPB) by (apply Z.div_pos; [lia | apply BPB_pos]). lia.
Qed.

Lemma slot_block0 p :
  slot_path p -> slot_val s0 ip p <> 0 ->
  data_start (sb s0) <= slot_val s0 ip p < sb_size (sb s0)
  /\ in_use s0 (slot_val s0 ip p) = true.
Proof. intros Hp Hnz. apply (ok_slots _ _ Hok0 p Hp Hnz). Qed.

Lemma trunc_inv_start : trunc_inv s0 ip 0 0 s0.
Proof.
  constructor; try reflexivity.
  - apply Hok0.
  - apply Hok0.
  - intros p Hp Hnz. destruct (slot_block0 p Hp Hnz) as [_ ->].
    pose proof (rank_range p Hp) as Hr.
    assert (E : (rank p <? 0) = false) by (apply Z.ltb_ge; lia).
    rewrite E. reflexivity.
  - apply Hok0.
  - intros k Hk. pose proof (rank_range [k] (slot_path_table k Hk)) as Hr.
    assert (E : (rank [k] <? 0) = false) by (apply Z.ltb_ge; lia).
    rewrite E. reflexivity.
Qed.

Lemma trunc_sb_disk n m s :
  trunc_inv s0 ip n m s -> sb s = decode_sb (block_data s 1).
Proof.
  intros Hi. destruct layout0 as (Hb & _).
  rewrite (ti_sb _ _ _ _ _ Hi), (ti_data _ _ _ _ _ Hi 1) by lia. exact Hsb0.
Qed.

Lemma trunc_on_disk n m s b :
  trunc_inv s0 ip n m s -> 0 <= b < sb_size (sb s0) -> b ∉ held s -> readable s b.
Proof.
  intros Hi Hb Hh. destruct layout0 as (_ & _ & _ & Hlen & _).
  split; [exact Hh|]. apply lookup_lt_is_Some.
  rewrite (ti_length _ _ _ _ _ Hi). lia.
Qed.

Lemma trunc_readable n m s b :
  trunc_inv s0 ip n m s -> held_data s0 s -> 0 <= b < data_start (sb s0) ->
  readable s b.
Proof.
  intros Hi Hh Hb. destruct layout0 as (_ & _ & Hds & _).
  apply (trunc_on_disk n m); [exact Hi | lia |].
  intros Hin. specialize (Hh _ Hin). lia.
Qed.

Lemma trunc_with_held n m s h :
  trunc_inv s0 ip n m s -> trunc_inv s0 ip n m (with_held s h).
Proof. intros [H1 H2 H3 H4 Hm5 H5 H6 H7 H8 H9]. constructor; assumption. Qed.

Lemma trunc_skip n m n' m' s :
  trunc_inv s0 ip n m s -> n <= n' -> m <= m' ->
  (forall p, slot_path p -> n <= rank p < n' -> slot_val s0 ip p = 0) ->
  (forall k, 0 <= k < NDIRECT + 2 -> m <= rank [k] < m' ->
             addr_at (inode_of s0 ip) k = 0) ->
  trunc_inv s0 ip n' m' s.
Proof.
  intros [H1 H2 H3 H4 Hm5 H5 H6 H7 H8 H9] Hn Hm Hp Hk. constructor; try assumption.
  - intros p Hsp Hnz. rewrite (H5 p Hsp Hnz). f_equal.
    destruct (rank p <? n) eqn:E1, (rank p <? n') eqn:E2; try reflexivity;
      rewrite ?Z.ltb_lt, ?Z.ltb_ge in *; try lia.
    exfalso. apply Hnz. apply Hp; [exact Hsp | lia].
  - intros k Hkr. rewrite (H9 k Hkr).
    destruct (rank [k] <? m) eqn:E1, (rank [k] <? m') eqn:E2; try reflexivity;
      rewrite ?Z.ltb_lt, ?Z.ltb_ge in *; try lia.
    apply Hk; [exact Hkr | lia].
Qed.

(** [ip->addrs[k] = 0] *)
Lemma trunc_clear n m s k :
  trunc_inv s0 ip n m s -> 0 <= k < NDIRECT + 2 -> rank [k] = m ->
  trunc_inv s0 ip n (m + 1) (set_inode s ip (with_addr (inode_of s ip) k 0)).
Proof.
  intros [H1 H2 H3 H4 Hm5 H5 H6 H7 H8 H9] Hk Hr.
  assert (Ei : inode_of (set_inode s ip (with_addr (inode_of s ip) k 0)) ip
               = with_addr (inode_of s ip) k 0).
  { apply inode_of_set_eq. rewrite H6. apply Hok0. }
  constructor; try assumption.
  - rewrite length_icache_set. exact H6.
  - rewrite Ei. exact H7.
  - rewrite Ei. simpl. rewrite length_insert. exact H8.
  - intros k' Hk'. rewrite Ei.
    destruct (Z.eq_dec k' k) as [->|Hne].
    + rewrite addr_at_with_addr_eq by (rewrite ?H8; lia).
      assert (E : (rank [k] <? m + 1) = true) by (apply Z.ltb_lt; lia).
      rewrite E. reflexivity.
    + rewrite addr_at_with_addr_ne by lia. rewrite (H9 k' Hk').
      assert (Hrk : rank [k'] <> m).
      { intros E. apply Hne.
        assert (E' : [k'] = [k])
          by (apply rank_inj; [apply slot_path_table .. | ]; (assumption || lia)).
        congruence. }
      destruct (rank [k'] <? m) eqn:E1, (rank [k'] <? m + 1) eqn:E2; try reflexivity;
        rewrite ?Z.ltb_lt, ?Z.ltb_ge in *; lia.
Qed.

(** The entries of an index block are what they were. *)
Lemma trunc_entry n m s p j :
  trunc_inv s0 ip n m s -> slot_path p -> slot_val s0 ip p <> 0 ->
  uint_at (block_data s (slot_val s0 ip p)) j = slot_val s0 ip (p ++ [j]).
Proof.
  intros Hi Hp Hnz. destruct (slot_block0 p Hp Hnz) as [Hd _].
  destruct layout0 as (Hb & Hbd & _).
  rewrite (ti_data _ _ _ _ _ Hi) by lia.
  rewrite slot_val_snoc by (apply slot_path_nonempty; exact Hp).
  symmetry. apply index_lookup_eq. exact Hnz.
Qed.

(** [bfree] of the block of the slot at position [n]. *)
Lemma trunc_free n m s p dev :
  trunc_inv s0 ip n m s -> held_data s0 s ->
  slot_path p -> rank p = n -> slot_val s0 ip p <> 0 ->
  bfree dev (slot_val s0 ip p) s = Ret tt (free_state s (slot_val s0 ip p))
  /\ trunc_inv s0 ip (n + 1) m (free_state s (slot_val s0 ip p)).
Proof.
  intros Hi Hh Hp Hr Hnz.
  pose proof (trunc_sb_disk _ _ _ Hi) as Hsb.
  destruct (slot_block0 p Hp Hnz) as [Hd Hu0].
  destruct layout0 as (Hb & Hbd & Hds & Hlen & Hsz).
  set (v := slot_val s0 ip p) in *.
  assert (Hv : 0 <= v < sb_size (sb s0)) by lia.
  destruct (bblock0 v Hv) as [Ebb Hbb].
  assert (Hrd : readable s (BBLOCK v (sb s))).
  { rewrite (ti_sb _ _ _ _ _ Hi). apply (trunc_readable n m); [assumption .. | lia]. }
  assert (Hused : in_use s v = true).
  { unfold v. rewrite (ti_used _ _ _ _ _ Hi p Hp Hnz), Hr.
    rewrite Z.ltb_irrefl. reflexivity. }
  split.
  { apply bfree_run; [exact Hsb | | exact Hrd | exact Hused].
    apply (trunc_readable n m); [assumption .. | lia]. }
  rewrite (free_state_eq s v Hsb).
  pose proof (ti_sb _ _ _ _ _ Hi) as Esb.
  set (bb := BBLOCK v (sb s)) in *.
  assert (Ebb' : bb = BBLOCK v (sb s0)) by (unfold bb; rewrite Esb; reflexivity).
  set (d := clear_bit (block_data s bb) (v mod BPB)).
  assert (Hlen_d : length d = Z.to_nat BSIZE).
  { unfold d. rewrite length_clear_bit.
    apply blocks_ok_length; [apply Hi | apply Hrd]. }
  pose proof BPB_pos as HB.
  pose proof (Z.mod_pos_bound v BPB HB) as Hvm.
  destruct Hi as [H1 H2 H3 H4 Hm5 H5 H6 H7 H8 H9].
  assert (Hkeep : forall x, 0 <= x < sb_size (sb s0) -> x <> v ->
            in_use (with_logged (set_block s bb d) (bb :: logged s)) x = in_use s x).
  { intros x Hx Hxv. destruct (bblock0 x Hx) as [Exb Hxb].
    unfold in_use.
    change (sb (with_logged (set_block s bb d) (bb :: logged s))) with (sb s).
    change (block_data (with_logged (set_block s bb d) (bb :: logged s))
              (BBLOCK x (sb s)))
      with (block_data (set_block s bb d) (BBLOCK x (sb s))).
    destruct (Z.eq_dec (BBLOCK x (sb s)) bb) as [Eb|Eb].
    - rewrite Eb. rewrite block_data_set_eq by (lia || (apply readable_lt; exact Hrd)).
      unfold d. apply bit_at_clear_ne; [lia | apply Z.mod_pos_bound; lia |].
      intros Em. apply Hxv.
      rewrite H1 in Eb. rewrite Ebb', Exb, Ebb in Eb.
      pose proof (Z.div_mod x BPB ltac:(lia)).
      pose proof (Z.div_mod v BPB ltac:(lia)).
      assert (x / BPB = v / BPB) by lia. congruence.
    - rewrite block_data_set_ne; [reflexivity | lia | | congruence].
      rewrite H1. lia. }
  constructor; try assumption.
  - intros b Hb0 Hout.
    change (block_data (with_logged (set_block s bb d) (bb :: logged s)) b)
      with (block_data (set_block s bb d) b).
    rewrite block_data_set_ne by lia. apply H2; assumption.
  - simpl. rewrite length_insert. exact H3.
  - apply (blocks_ok_set s bb d H4 Hlen_d).
  - intros b Hb0. rewrite Hkeep by lia. apply Hm5. exact Hb0.
  - intros q Hq Hqz.
    destruct (slot_block0 q Hq Hqz) as [Hqd _].
    set (x := slot_val s0 ip q) in *.
    assert (Hx : 0 <= x < sb_size (sb s0)) by lia.
    destruct (Z.eq_dec x v) as [Exv|Hxv].
    + assert (q = p) by (apply (ok_inj _ _ Hok0); assumption). subst q.
      rewrite Hr. assert (E : (n <? n + 1) = true) by (apply Z.ltb_lt; lia).
      rewrite E. simpl. rewrite Exv. unfold in_use.
      change (sb (with_logged (set_block s bb d) (bb :: logged s))) with (sb s).
      fold bb.
      change (block_data (with_logged (set_block s bb d) (bb :: logged s)) bb)
        with (block_data (set_block s bb d) bb).
      rewrite block_data_set_eq by (lia || (apply readable_lt; exact Hrd)).
      unfold d. apply bit_at_clear_eq; [lia|].
      apply bit_index_bound; assumption.
    + assert (Hrq : rank q <> n).
      { intros E. apply Hxv. rewrite <- Hr in E.
        apply rank_inj in E; [|assumption..]. subst q. reflexivity. }
      assert (Ekeep : (rank q <? n + 1) = (rank q <? n)).
      { destruct (rank q <? n) eqn:E1, (rank q <? n + 1) eqn:E2; try reflexivity;
          rewrite ?Z.ltb_lt, ?Z.ltb_ge in *; lia. }
      rewrite Ekeep, <- (H5 q Hq Hqz). fold x. apply Hkeep; assumption.
Qed.


(** One entry of an index block: [if(a[j]) bfree(ip->dev, a[j])]. *)
Lemma trunc_free_entry p0 j n m s :
  slot_path p0 -> slot_val s0 ip p0 <> 0 ->
  slot_path (p0 ++ [j]) -> rank (p0 ++ [j]) = n ->
  trunc_inv s0 ip n m s -> held_data s0 s ->
  exists s', free_entry ip (slot_val s0 ip p0) j s = Ret tt s'
             /\ trunc_inv s0 ip (n + 1) m s' /\ held s' = held s.
Proof.
  intros Hp0 Hnz Hpj Hr Hi Hh. unfold free_entry.
  unfold bind at 1, buf_data, gets.
  rewrite (trunc_entry n m s p0 j Hi Hp0 Hnz).
  destruct (slot_val s0 ip (p0 ++ [j]) =? 0) eqn:Ez.
  - apply Z.eqb_eq in Ez. exists s. split; [reflexivity|]. split; [|reflexivity].
    apply (trunc_skip n m); [exact Hi | lia | lia | | intros k _ Hk; lia].
    intros p Hp Hrp. assert (p = p0 ++ [j]) by (apply rank_inj; (assumption || lia)).
    subst p. exact Ez.
  - apply Z.eqb_neq in Ez. unfold bind at 1, iread at 1, gets.
    destruct (trunc_free n m s (p0 ++ [j]) (i_dev (inode_of s ip)) Hi Hh Hpj Hr Ez)
      as [Hrun Hi'].
    eexists. split; [exact Hrun|]. split; [exact Hi' | reflexivity].
Qed.

(** The loop over the entries of an index block. *)
Lemma trunc_entries p0 base m :
  slot_path p0 -> slot_val s0 ip p0 <> 0 ->
  (forall j, entry_ok j -> slot_path (p0 ++ [j]) /\ rank (p0 ++ [j]) = base + j) ->
  forall cnt j0 s,
    Z.of_nat cnt + j0 = NINDIRECT -> 0 <= j0 ->
    trunc_inv s0 ip (base + j0) m s -> held_data s0 s ->
    exists s', for_range cnt j0 (free_entry ip (slot_val s0 ip p0)) s = Ret tt s'
               /\ trunc_inv s0 ip (base + NINDIRECT) m s' /\ held s' = held s.
Proof.
  intros Hp0 Hnz Hpaths.
  induction cnt as [|cnt IH]; intros j0 s Hcnt Hj0 Hi Hh.
  - exists s. split; [reflexivity|]. split; [|reflexivity].
    replace NINDIRECT with j0 by lia. exact Hi.
  - simpl for_range.
    assert (Hj : entry_ok j0) by (unfold entry_ok; lia).
    destruct (Hpaths j0 Hj) as [Hpj Hr].
    destruct (trunc_free_entry p0 j0 (base + j0) m s Hp0 Hnz Hpj Hr Hi Hh)
      as (s1 & Hrun & Hi1 & Hh1).
    rewrite (bind_Ret _ _ _ _ _ Hrun).
    destruct (IH (j0 + 1) s1) as (s' & Hrun' & Hi' & Hh').
    + lia.
    + lia.
    + replace (base + (j0 + 1)) with (base + j0 + 1) by lia. exact Hi1.
    + intros b Hb. rewrite Hh1 in Hb. apply Hh. exact Hb.
    + exists s'. split; [exact Hrun'|]. split; [exact Hi'|]. congruence.
Qed.

(** The loop over the direct blocks. *)
Lemma trunc_direct : forall cnt k0 s,
  Z.of_nat cnt + k0 = NDIRECT -> 0 <= k0 ->
  trunc_inv s0 ip k0 k0 s -> held_data s0 s ->
  exists s',
    for_range cnt k0 (fun i =>
      let* addr := iread ip (fun x => addr_at x i) in
      if addr =? 0 then ret tt
      else
        let* dev := iread ip i_dev in
        bfree dev addr;;
        iwrite ip (fun x => with_addr x i 0)) s = Ret tt s'
    /\ trunc_inv s0 ip NDIRECT NDIRECT s' /\ held s' = held s.
Proof.
  induction cnt as [|cnt IH]; intros k0 s Hcnt Hk0 Hi Hh.
  - exists s. split; [reflexivity|]. split; [|reflexivity].
    replace NDIRECT with k0 by lia. exact Hi.
  - simpl for_range.
    assert (Hk : 0 <= k0 < NDIRECT) by lia.
    pose proof (rank_direct k0 Hk) as Hr.
    assert (Hk2 : 0 <= k0 < NDIRECT + 2) by lia.
    assert (Ea : addr_at (inode_of s ip) k0 = slot_val s0 ip [k0]).
    { rewrite (ti_addrs _ _ _ _ _ Hi k0 Hk2), Hr, Z.ltb_irrefl. reflexivity. }
    assert (Hstep : exists s1,
      (let* addr := iread ip (fun x => addr_at x k0) in
       if addr =? 0 then ret tt
       else
         let* dev := iread ip i_dev in
         bfree dev addr;;
         iwrite ip (fun x => with_addr x k0 0)) s = Ret tt s1
      /\ trunc_inv s0 ip (k0 + 1) (k0 + 1) s1 /\ held s1 = held s).
    { unfold bind at 1, iread at 1, gets. rewrite Ea.
      destruct (slot_val s0 ip [k0] =? 0) eqn:Ez.
      - apply Z.eqb_eq in Ez. exists s. split; [reflexivity|]. split; [|reflexivity].
        apply (trunc_skip k0 k0); [exact Hi | lia | lia | |].
        + intros p Hp Hrp.
          assert (p = [k0]) by (apply rank_inj; [exact Hp | apply sp_direct; exact Hk | lia]).
          subst p. exact Ez.
        + intros k Hkr Hrk.
          assert (E : [k] = [k0])
            by (apply rank_inj; [apply slot_path_table; exact Hkr
                                | apply sp_direct; exact Hk | lia]).
          injection E as ->. exact Ez.
      - apply Z.eqb_neq in Ez. unfold bind at 1, iread at 1, gets.
        destruct (trunc_free k0 k0 s [k0] (i_dev (inode_of s ip)) Hi Hh
                    (sp_direct k0 Hk) Hr Ez) as [Hrun Hi1].
        rewrite (bind_Ret _ _ _ _ _ Hrun).
        unfold iwrite, modify. eexists. split; [reflexivity|].
        split; [|reflexivity].
        apply trunc_clear; [exact Hi1 | exact Hk2 | exact Hr]. }
    destruct Hstep as (s1 & Hrun & Hi1 & Hh1).
    rewrite (bind_Ret _ _ _ _ _ Hrun).
    destruct (IH (k0 + 1) s1) as (s' & Hrun' & Hi' & Hh').
    + lia.
    + lia.
    + exact Hi1.
    + intros b Hb. rewrite Hh1 in Hb. apply Hh. exact Hb.
    + exists s'. split; [exact Hrun'|]. split; [exact Hi'|]. congruence.
Qed.

Lemma slot_val_child_zero p j :
  p <> [] -> slot_val s0 ip p = 0 -> slot_val s0 ip (p ++ [j]) = 0.
Proof. intros Hne Hz. rewrite slot_val_snoc by exact Hne. rewrite Hz. reflexivity. Qed.

Lemma rank_single_cases p :
  slot_path p -> 11 <= rank p < 140 ->
  p = [NDIRECT] \/ exists j, p = [NDIRECT; j].
Proof.
  intros [k Hk| |j Hj| |o Ho|o j Ho Hj]; unfold entry_ok in *;
    rewrite ?rank_single, ?rank_single_entry, ?rank_double, ?rank_outer, ?rank_inner;
    rewrite ?(rank_direct k) by assumption;
    rewrite ?NDIRECT_val, ?NINDIRECT_val in *;
    intros Hr; try lia; eauto.
Qed.

Lemma rank_outer_cases o p :
  entry_ok o -> slot_path p -> 140 + o * 129 <= rank p < 140 + (o + 1) * 129 ->
  p = [NDIRECT + 1; o] \/ exists j, p = [NDIRECT + 1; o; j].
Proof.
  intros Ho [k Hk| |j Hj| |o' Ho'|o' j Ho' Hj]; unfold entry_ok in *;
    rewrite ?rank_single, ?rank_single_entry, ?rank_double, ?rank_outer, ?rank_inner;
    rewrite ?(rank_direct k) by assumption;
    rewrite ?NDIRECT_val, ?NINDIRECT_val in *;
    intros Hr; try lia.
  - assert (o' = o) by lia. subst o'. left. reflexivity.
  - assert (o' = o) by lia. subst o'. right. eauto.
Qed.

Lemma rank_double_cases p :
  slot_path p -> 140 <= rank p ->
  p = [NDIRECT + 1] \/ (exists o, p = [NDIRECT + 1; o])
  \/ exists o j, p = [NDIRECT + 1; o; j].
Proof.
  intros [k Hk| |j Hj| |o Ho|o j Ho Hj]; unfold entry_ok in *;
    rewrite ?rank_single, ?rank_single_entry, ?rank_double, ?rank_outer, ?rank_inner;
    rewrite ?(rank_direct k) by assumption;
    rewrite ?NDIRECT_val, ?NINDIRECT_val in *;
    intros Hr; try lia; eauto.
Qed.

Lemma rank_table k :
  0 <= k < NDIRECT + 2 ->
  (k < NDIRECT /\ rank [k] = k) \/ (k = NDIRECT /\ rank [k] = 139)
  \/ (k = NDIRECT + 1 /\ rank [k] = 16652).
Proof.
  intros Hk. destruct (Z_lt_dec k NDIRECT) as [Hlt|Hge].
  - left. split; [exact Hlt | apply rank_direct; lia].
  - destruct (Z.eq_dec k NDIRECT) as [->|Hne]; [right; left; split; reflexivity|].
    right. right. replace k with (NDIRECT + 1) by lia. split; reflexivity.
Qed.

(** The single-indirect block and its entries. *)
Lemma trunc_single s :
  trunc_inv s0 ip NDIRECT NDIRECT s -> held s = [] ->
  exists s',
    (if addr_at (inode_of s ip) NDIRECT =? 0 then ret tt
     else
       let* dev := iread ip i_dev in
       let* bp := bread dev (addr_at (inode_of s ip) NDIRECT) in
       for_range (Z.to_nat NINDIRECT) 0 (free_entry ip bp);;
       brelse bp;;
       let* dev := iread ip i_dev in
       let* addr := iread ip (fun x => addr_at x NDIRECT) in
       bfree dev addr;;
       iwrite ip (fun x => with_addr x NDIRECT 0)) s = Ret tt s'
    /\ trunc_inv s0 ip 140 140 s' /\ held s' = [].
Proof.
  intros Hi Hh.
  assert (Hk : 0 <= NDIRECT < NDIRECT + 2) by (rewrite NDIRECT_val; lia).
  assert (Ea : forall m s1, trunc_inv s0 ip m NDIRECT s1 ->
            addr_at (inode_of s1 ip) NDIRECT = slot_val s0 ip [NDIRECT]).
  { intros m s1 Hi1. rewrite (ti_addrs _ _ _ _ _ Hi1 NDIRECT Hk). reflexivity. }
  rewrite (Ea _ _ Hi).
  destruct (slot_val s0 ip [NDIRECT] =? 0) eqn:Ez.
  - apply Z.eqb_eq in Ez. exists s. split; [reflexivity|]. split; [|exact Hh].
    apply (trunc_skip NDIRECT NDIRECT); [exact Hi | rewrite NDIRECT_val; lia ..| |].
    + intros p Hp Hr. rewrite NDIRECT_val in Hr.
      destruct (rank_single_cases p Hp Hr) as [->|(j & ->)]; [exact Ez|].
      apply (slot_val_child_zero [NDIRECT] j); [discriminate | exact Ez].
    + intros k Hkr Hr. rewrite NDIRECT_val in Hr.
      destruct (rank_table k Hkr) as [[H1 H2]|[[H1 H2]|[H1 H2]]];
        rewrite ?NDIRECT_val in *; try lia.
      subst k. exact Ez.
  - apply Z.eqb_neq in Ez.
    set (v := slot_val s0 ip [NDIRECT]) in *.
    destruct (slot_block0 [NDIRECT] sp_single Ez) as [Hvd _]. fold v in Hvd.
    destruct layout0 as (Hb & Hbd & Hds & Hlen & Hsz).
    unfold bind at 1, iread at 1, gets.
    assert (Hrd : readable s v).
    { apply (trunc_on_disk NDIRECT NDIRECT); [exact Hi | lia |].
      rewrite Hh. apply not_elem_of_nil. }
    rewrite (bind_Ret _ _ _ _ _ (bread_readable s _ v Hrd)).
    set (sh := with_held s (v :: held s)).
    assert (Hih : trunc_inv s0 ip (11 + 0) NDIRECT sh)
      by (apply trunc_with_held; exact Hi).
    assert (Hhh : held_data s0 sh).
    { intros b Hb0. unfold sh in Hb0. simpl in Hb0. rewrite Hh in Hb0.
      apply list_elem_of_singleton in Hb0 as ->. lia. }
    destruct (trunc_entries [NDIRECT] 11 NDIRECT sp_single Ez
                ltac:(intros j Hj; split; [apply sp_single_entry; exact Hj | reflexivity])
                (Z.to_nat NINDIRECT) 0 sh
                ltac:(rewrite NINDIRECT_val; lia) ltac:(lia) Hih Hhh)
      as (s1 & Hrun & Hi1 & Hh1).
    fold v in Hrun. rewrite (bind_Ret _ _ _ _ _ Hrun).
    rewrite (bind_Ret _ _ _ _ _ (brelse_head s1 v (held s) Hh1)).
    set (s2 := with_held s1 (held s)).
    assert (Hi2 : trunc_inv s0 ip 139 NDIRECT s2)
      by (apply trunc_with_held; exact Hi1).
    assert (Hh2 : held_data s0 s2).
    { intros b Hb0. unfold s2 in Hb0. simpl in Hb0. rewrite Hh in Hb0. inversion Hb0. }
    unfold bind at 1, iread at 1, gets.
    unfold bind at 1, iread at 1, gets.
    rewrite (Ea _ _ Hi2). fold v.
    destruct (trunc_free 139 NDIRECT s2 [NDIRECT] (i_dev (inode_of s2 ip)) Hi2 Hh2
                sp_single rank_single Ez) as [Hfree Hi3].
    fold v in Hfree, Hi3.
    rewrite (bind_Ret _ _ _ _ _ Hfree).
    unfold iwrite, modify. eexists. split; [reflexivity|].
    split; [|simpl; exact Hh].
    apply (trunc_clear 140 139); [|exact Hk | reflexivity].
    apply (trunc_skip (139 + 1) NDIRECT); [exact Hi3 | lia | rewrite NDIRECT_val; lia | |].
    + intros p _ Hr. lia.
    + intros k Hkr Hr. rewrite NDIRECT_val in Hr.
      destruct (rank_table k Hkr) as [[H1 H2]|[[H1 H2]|[H1 H2]]];
        rewrite ?NDIRECT_val in *; lia.
Qed.

(** The loop over the entries of the outer double-indirect block. *)
Lemma trunc_outer m :
  slot_val s0 ip [NDIRECT + 1] <> 0 ->
  forall cnt o0 s,
    Z.of_nat cnt + o0 = NINDIRECT -> 0 <= o0 ->
    trunc_inv s0 ip (140 + o0 * 129) m s ->
    held s = [slot_val s0 ip [NDIRECT + 1]] ->
    exists s',
      for_range cnt o0 (fun i =>
        let* a := buf_data (slot_val s0 ip [NDIRECT + 1]) in
        if uint_at a i =? 0 then ret tt
        else
          let* dev := iread ip i_dev in
          let* bp2 := bread dev (uint_at a i) in
          for_range (Z.to_nat NINDIRECT) 0 (free_entry ip bp2);;
          let* dev := iread ip i_dev in
          let* a := buf_data (slot_val s0 ip [NDIRECT + 1]) in
          bfree dev (uint_at a i);;
          brelse bp2) s = Ret tt s'
      /\ trunc_inv s0 ip (140 + NINDIRECT * 129) m s'
      /\ held s' = [slot_val s0 ip [NDIRECT + 1]].
Proof.
  intros Hnz.
  set (bp := slot_val s0 ip [NDIRECT + 1]) in *.
  destruct (slot_block0 [NDIRECT + 1] sp_double Hnz) as [Hbpd _]. fold bp in Hbpd.
  destruct layout0 as (Hb & Hbd & Hds & Hlen & Hsz).
  induction cnt as [|cnt IH]; intros o0 s Hcnt Ho0 Hi Hh.
  - exists s. split; [reflexivity|]. split; [|exact Hh].
    replace NINDIRECT with o0 by lia. exact Hi.
  - simpl for_range.
    assert (Ho : entry_ok o0) by (unfold entry_ok; lia).
    assert (Hhd : held_data s0 s).
    { intros b Hb0. rewrite Hh in Hb0. apply list_elem_of_singleton in Hb0 as ->. lia. }
    assert (Hstep : exists s1,
      (let* a := buf_data bp in
       if uint_at a o0 =? 0 then ret tt
       else
         let* dev := iread ip i_dev in
         let* bp2 := bread dev (uint_at a o0) in
         for_range (Z.to_nat NINDIRECT) 0 (free_entry ip bp2);;
         let* dev := iread ip i_dev in
         let* a := buf_data bp in
         bfree dev (uint_at a o0);;
         brelse bp2) s = Ret tt s1
      /\ trunc_inv s0 ip (140 + (o0 + 1) * 129) m s1 /\ held s1 = [bp]).
    { assert (Ev : forall n' s1, trunc_inv s0 ip n' m s1 ->
                uint_at (block_data s1 bp) o0 = slot_val s0 ip [NDIRECT + 1; o0]).
      { intros n' s1 Hi1.
        apply (trunc_entry n' m s1 [NDIRECT + 1] o0 Hi1 sp_double Hnz). }
      unfold bind at 1, buf_data at 1, gets. cbv beta.
      rewrite !(Ev _ _ Hi).
      destruct (slot_val s0 ip [NDIRECT + 1; o0] =? 0) eqn:Ez.
      - apply Z.eqb_eq in Ez. exists s. split; [reflexivity|]. split; [|exact Hh].
        apply (trunc_skip (140 + o0 * 129) m); [exact Hi | lia | lia | | intros; lia].
        intros p Hp Hr.
        destruct (rank_outer_cases o0 p Ho Hp Hr) as [->|(j & ->)]; [exact Ez|].
        apply (slot_val_child_zero [NDIRECT + 1; o0] j); [discriminate | exact Ez].
      - apply Z.eqb_neq in Ez.
        set (v := slot_val s0 ip [NDIRECT + 1; o0]) in *.
        destruct (slot_block0 [NDIRECT + 1; o0] (sp_outer o0 Ho) Ez) as [Hvd _].
        fold v in Hvd.
        assert (Hvbp : v <> bp).
        { intros E.
          assert (E' : [NDIRECT + 1; o0] = [NDIRECT + 1]).
          { apply (ok_inj _ _ Hok0);
              [apply sp_outer; exact Ho | apply sp_double | exact E | exact Ez]. }
          discriminate E'. }
        unfold bind at 1, iread at 1, gets.
        assert (Hrd : readable s v).
        { apply (trunc_on_disk (140 + o0 * 129) m); [exact Hi | lia |].
          rewrite Hh. intros Hin. apply list_elem_of_singleton in Hin. contradiction. }
        rewrite (bind_Ret _ _ _ _ _ (bread_readable s _ v Hrd)).
        set (sh := with_held s (v :: held s)).
        assert (Hih : trunc_inv s0 ip (140 + o0 * 129 + 0) m sh).
        { apply trunc_with_held. rewrite Z.add_0_r. exact Hi. }
        assert (Hhh : held_data s0 sh).
        { intros b Hb0. unfold sh in Hb0. simpl in Hb0. rewrite Hh in Hb0.
          apply elem_of_cons in Hb0 as [->|Hb0]; [lia|].
          apply list_elem_of_singleton in Hb0 as ->. lia. }
        destruct (trunc_entries [NDIRECT + 1; o0] (140 + o0 * 129) m
                    (sp_outer o0 Ho) Ez
                    ltac:(intros j Hj; split;
                          [apply sp_inner; assumption | apply rank_inner])
                    (Z.to_nat NINDIRECT) 0 sh
                    ltac:(rewrite NINDIRECT_val; lia) ltac:(lia) Hih Hhh)
          as (s1 & Hrun & Hi1 & Hh1).
        fold v in Hrun. rewrite (bind_Ret _ _ _ _ _ Hrun).
        unfold bind at 1, iread at 1, gets.
        unfold bind at 1, buf_data at 1, gets. cbv beta.
        rewrite !(Ev _ _ Hi1). fold v.
        assert (Hh1d : held_data s0 s1).
        { intros b Hb0. rewrite Hh1 in Hb0. apply Hhh. exact Hb0. }
        destruct (trunc_free _ m s1 [NDIRECT + 1; o0] (i_dev (inode_of s1 ip)) Hi1 Hh1d
                    (sp_outer o0 Ho)) as [Hfree Hi2].
        { rewrite rank_outer, NINDIRECT_val. lia. }
        { exact Ez. }
        fold v in Hfree, Hi2.
        rewrite (bind_Ret _ _ _ _ _ Hfree).
        assert (Hh2 : held (free_state s1 v) = v :: held s) by exact Hh1.
        rewrite (brelse_head _ v (held s) Hh2).
        eexists. split; [reflexivity|]. split; [|simpl; exact Hh].
        apply trunc_with_held.
        replace (140 + (o0 + 1) * 129) with (140 + o0 * 129 + NINDIRECT + 1)
          by (rewrite NINDIRECT_val; lia).
        exact Hi2. }
    destruct Hstep as (s1 & Hrun & Hi1 & Hh1).
    rewrite (bind_Ret _ _ _ _ _ Hrun).
    destruct (IH (o0 + 1) s1) as (s' & Hrun' & Hi' & Hh').
    + lia.
    + lia.
    + exact Hi1.
    + exact Hh1.
    + exists s'. split; [exact Hrun'|]. split; [exact Hi' | exact Hh'].
Qed.

(** The double-indirect block, its inner blocks and their entries. *)
Lemma trunc_double s :
  trunc_inv s0 ip 140 140 s -> held s = [] ->
  exists s',
    (if addr_at (inode_of s ip) (NDIRECT + 1) =? 0 then ret tt
     else
       let* dev := iread ip i_dev in
       let* bp := bread dev (addr_at (inode_of s ip) (NDIRECT + 1)) in
       for_range (Z.to_nat NINDIRECT) 0 (fun i =>
         let* a := buf_data bp in
         if uint_at a i =? 0 then ret tt
         else
           let* dev := iread ip i_dev in
           let* bp2 := bread dev (uint_at a i) in
           for_range (Z.to_nat NINDIRECT) 0 (free_entry ip bp2);;
           let* dev := iread ip i_dev in
           let* a := buf_data bp in
           bfree dev (uint_at a i);;
           brelse bp2);;
       brelse bp;;
       let* dev := iread ip i_dev in
       let* addr := iread ip (fun x => addr_at x (NDIRECT + 1)) in
       bfree dev addr;;
       iwrite ip (fun x => with_addr x (NDIRECT + 1) 0)) s = Ret tt s'
    /\ trunc_inv s0 ip slots slots s' /\ held s' = [].
Proof.
  intros Hi Hh.
  assert (Hk : 0 <= NDIRECT + 1 < NDIRECT + 2) by (rewrite NDIRECT_val; lia).
  assert (Ea : forall n s1, trunc_inv s0 ip n 140 s1 ->
            addr_at (inode_of s1 ip) (NDIRECT + 1) = slot_val s0 ip [NDIRECT + 1]).
  { intros n s1 Hi1. rewrite (ti_addrs _ _ _ _ _ Hi1 (NDIRECT + 1) Hk). reflexivity. }
  rewrite (Ea _ _ Hi). rewrite slots_val.
  destruct (slot_val s0 ip [NDIRECT + 1] =? 0) eqn:Ez.
  - apply Z.eqb_eq in Ez. exists s. split; [reflexivity|]. split; [|exact Hh].
    apply (trunc_skip 140 140); [exact Hi | lia | lia | |].
    + intros p Hp Hr.
      destruct (rank_double_cases p Hp ltac:(lia)) as [->|[(o & ->)|(o & j & ->)]].
      * exact Ez.
      * apply (slot_val_child_zero [NDIRECT + 1] o); [discriminate | exact Ez].
      * apply (slot_val_child_zero [NDIRECT + 1; o] j); [discriminate|].
        apply (slot_val_child_zero [NDIRECT + 1] o); [discriminate | exact Ez].
    + intros k Hkr Hr.
      destruct (rank_table k Hkr) as [[H1 H2]|[[H1 H2]|[H1 H2]]];
        rewrite ?NDIRECT_val in *; try lia.
      subst k. exact Ez.
  - apply Z.eqb_neq in Ez.
    set (v := slot_val s0 ip [NDIRECT + 1]) in *.
    destruct (slot_block0 [NDIRECT + 1] sp_double Ez) as [Hvd _]. fold v in Hvd.
    destruct layout0 as (Hb & Hbd & Hds & Hlen & Hsz).
    unfold bind at 1, iread at 1, gets.
    assert (Hrd : readable s v).
    { apply (trunc_on_disk 140 140); [exact Hi | lia |].
      rewrite Hh. apply not_elem_of_nil. }
    rewrite (bind_Ret _ _ _ _ _ (bread_readable s _ v Hrd)).
    set (sh := with_held s (v :: held s)).
    assert (Hih : trunc_inv s0 ip (140 + 0 * 129) 140 sh)
      by (apply trunc_with_held; exact Hi).
    assert (Hhh : held sh = [v]) by (unfold sh; simpl; rewrite Hh; reflexivity).
    destruct (trunc_outer 140 Ez (Z.to_nat NINDIRECT) 0 sh
                ltac:(rewrite NINDIRECT_val; lia) ltac:(lia) Hih Hhh)
      as (s1 & Hrun & Hi1 & Hh1).
    fold v in Hrun, Hh1. rewrite (bind_Ret _ _ _ _ _ Hrun).
    rewrite (bind_Ret _ _ _ _ _ (brelse_head s1 v [] Hh1)).
    set (s2 := with_held s1 []).
    assert (Hi2 : trunc_inv s0 ip 16652 140 s2)
      by (apply trunc_with_held; exact Hi1).
    assert (Hh2 : held_data s0 s2).
    { intros b Hb0. unfold s2 in Hb0. simpl in Hb0. inversion Hb0. }
    unfold bind at 1, iread at 1, gets.
    unfold bind at 1, iread at 1, gets.
    rewrite (Ea _ _ Hi2). fold v.
    destruct (trunc_free 16652 140 s2 [NDIRECT + 1] (i_dev (inode_of s2 ip)) Hi2 Hh2
                sp_double rank_double Ez) as [Hfree Hi3].
    fold v in Hfree, Hi3.
    rewrite (bind_Ret _ _ _ _ _ Hfree).
    unfold iwrite, modify. eexists. split; [reflexivity|].
    split; [|reflexivity].
    apply (trunc_clear 16653 16652); [|exact Hk | reflexivity].
    apply (trunc_skip (16652 + 1) 140); [exact Hi3 | lia | lia | |].
    + intros p _ Hr. lia.
    + intros k Hkr Hr.
      destruct (rank_table k Hkr) as [[H1 H2]|[[H1 H2]|[H1 H2]]];
        rewrite ?NDIRECT_val in *; lia.
Qed.

(** When every slot is done the inode is an empty file. *)
Lemma trunc_done s :
  trunc_inv s0 ip slots slots s ->
  fs_ok s ip /\ disk_ok s
  /\ (forall k, addr_at (inode_of s ip) k = 0)
  /\ (forall p, slot_path p -> slot_val s0 ip p <> 0 ->
                in_use s (slot_val s0 ip p) = false).
Proof.
  intros Hi.
  assert (Hz : forall k, addr_at (inode_of s ip) k = 0).
  { intros k. destruct (Z_lt_dec k 0) as [Hneg|Hpos].
    - unfold addr_at. replace (Z.to_nat k) with (Z.to_nat 0) by lia.
      change (addr_at (inode_of s ip) 0 = 0).
      rewrite (ti_addrs _ _ _ _ _ Hi 0) by (rewrite NDIRECT_val; lia).
      reflexivity.
    - destruct (Z_lt_dec k (NDIRECT + 2)) as [Hlt|Hge].
      + rewrite (ti_addrs _ _ _ _ _ Hi k) by lia.
        destruct (rank_range [k] (slot_path_table k ltac:(lia))) as [_ Hr].
        apply Z.ltb_lt in Hr. rewrite Hr. reflexivity.
      + unfold addr_at. rewrite lookup_ge_None_2; [reflexivity|].
        rewrite (ti_addrs_length _ _ _ _ _ Hi). lia. }
  assert (Hs : forall p, slot_val s ip p = 0)
    by (intros p; apply slot_val_unmapped; exact Hz).
  destruct layout0 as (Hb & Hbd & Hds & Hlen & Hsz).
  pose proof (ti_sb _ _ _ _ _ Hi) as Esb.
  assert (Einum : i_inum (inode_of s ip) = i_inum (inode_of s0 ip)).
  { pose proof (f_equal i_inum (ti_inode _ _ _ _ _ Hi)) as E. exact E. }
  split; [|split; [|split; [exact Hz|]]].
  - constructor.
    + rewrite Esb. apply Hok0.
    + rewrite Esb. exact Hb.
    + rewrite Esb. exact Hds.
    + apply Hi.
    + rewrite Esb. apply Hi.
    + rewrite (ti_handle _ _ _ _ _ Hi). apply Hok0.
    + apply Hi.
    + rewrite Esb, Einum. apply Hok0.
    + intros p _ Hnz. rewrite Hs in Hnz. congruence.
    + intros p q _ _ _ Hnz. rewrite Hs in Hnz. congruence.
  - unfold disk_ok. rewrite Esb, (ti_length _ _ _ _ _ Hi). exact Hlen.
  - intros p Hp Hnz. rewrite (ti_used _ _ _ _ _ Hi p Hp Hnz).
    destruct (rank_range p Hp) as [_ Hr].
    apply Z.ltb_lt in Hr. rewrite Hr. reflexivity.
Qed.

End TRUNC.

(** ** [itrunc] *)

Lemma uint_at_pos_put_addrs_at l : forall d pos k a,
  0 <= pos -> l !! k = Some a ->
  (Z.to_nat (pos + 4 * Z.of_nat (length l)) <= length d)%nat ->
  uint_at_pos (put_addrs d pos l) (pos + 4 * Z.of_nat k) = to_uint a.
Proof.
  induction l as [|a0 l IH]; intros d pos k a Hpos Hk Hlen; [discriminate|].
  simpl put_addrs. simpl length in Hlen. destruct k as [|k].
  - injection Hk as ->. rewrite Z.mul_0_r, Z.add_0_r.
    rewrite uint_at_pos_put_addrs by lia.
    apply uint_at_pos_set_eq; [exact Hpos | lia].
  - simpl in Hk.
    replace (pos + 4 * Z.of_nat (S k)) with (pos + 4 + 4 * Z.of_nat k) by lia.
    apply IH; [lia | exact Hk |]. rewrite length_set_uint_pos. lia.
Qed.

(** [dip->addrs[k] = ip->addrs[k]] *)
Lemma dinode_addr_put_dinode d pos i k :
  0 <= pos -> (Z.to_nat (pos + 64) <= length d)%nat ->
  length (i_addrs i) = Z.to_nat (NDIRECT + 2) -> 0 <= k < NDIRECT + 2 ->
  uint_at_pos (put_dinode d pos i) (pos + 12 + 4 * k) = to_uint (addr_at i k).
Proof.
  intros Hpos Hlen Hla Hk. unfold put_dinode. cbv zeta.
  rewrite take_ge by lia.
  destruct (lookup_lt_is_Some_2 (i_addrs i) (Z.to_nat k)) as [a Ha]; [lia|].
  unfold addr_at. rewrite Ha. simpl.
  rewrite <- (Z2Nat.id k) at 1 by lia.
  apply uint_at_pos_put_addrs_at; [lia | exact Ha |].
  rewrite length_set_uint_pos, !length_set_ushort, Hla.
  rewrite NDIRECT_val in *. lia.
Qed.

(** C2.  In a well-formed file system whose superblock is the one on the
    disk, with every block on the disk and no buffer locked, [itrunc]
    returns, and afterwards the size is 0, every entry of the address table
    is 0, the block of every logical block that was mapped is free in the
    bitmap, and so is the block of every slot of the inode (the slots are
    the direct entries, the single-indirect entry and the entries of its
    block, the double-indirect entry, the entries of the outer block and
    those of its inner blocks), and the block of the inode is the last block
    handed to the log and holds the size 0 and 13 zero addresses. *)
Theorem itrunc_frees (st : state) (ip : nat) :
  fs_ok st ip -> disk_ok st -> held st = [] ->
  sb st = decode_sb (block_data st 1) ->
  let b := IBLOCK (i_inum (inode_of st ip)) (sb st) in
  let pos := dinode_pos (i_inum (inode_of st ip)) in
  exists st',
    itrunc ip st = Ret tt st'
    /\ i_size (inode_of st' ip) = 0
    /\ (forall k, 0 <= k < NDIRECT + 2 -> addr_at (inode_of st' ip) k = 0)
    /\ (forall bn, 0 <= bn < MAXFILE ->
          lookup_addr st (inode_of st ip) bn <> 0 ->
          in_use st' (lookup_addr st (inode_of st ip) bn) = false)
    /\ (forall p, slot_path p -> slot_val st ip p <> 0 ->
          in_use st' (slot_val st ip p) = false)
    /\ head (logged st') = Some b
    /\ dinode_size (block_data st' b) pos = 0
    /\ (forall k, 0 <= k < NDIRECT + 2 ->
          uint_at_pos (block_data st' b) (pos + 12 + 4 * k) = 0)
    /\ fs_ok st' ip.
Proof.
  intros Hok Hd Hh Hsb b pos.
  assert (Hhd : held_data st st).
  { intros x Hx. rewrite Hh in Hx. inversion Hx. }
  unfold itrunc.
  destruct (trunc_direct st ip Hok Hd Hsb (Z.to_nat NDIRECT) 0 st
              ltac:(rewrite NDIRECT_val; lia) ltac:(lia)
              (trunc_inv_start st ip Hok) Hhd)
    as (sA & HrunA & HiA & HhA).
  rewrite (bind_Ret _ _ _ _ _ HrunA). rewrite Hh in HhA.
  unfold bind at 1, iread at 1, gets.
  destruct (trunc_single st ip Hok Hd Hsb sA HiA HhA) as (sB & HrunB & HiB & HhB).
  rewrite (bind_Ret _ _ _ _ _ HrunB).
  unfold bind at 1, iread at 1, gets.
  destruct (trunc_double st ip Hok Hd Hsb sB HiB HhB) as (sC & HrunC & HiC & HhC).
  rewrite (bind_Ret _ _ _ _ _ HrunC).
  unfold bind at 1, iwrite at 1, modify.
  destruct (trunc_done st ip Hok Hd sC HiC) as (HokC & HdC & Hz & Hfreed).
  destruct (fs_ok_set_size sC ip 0 HokC) as (HokD & _ & HsD & HiD).
  set (sD := set_inode sC ip (with_size (inode_of sC ip) 0)) in *.
  assert (EiD : inode_of sD ip = with_size (inode_of sC ip) 0).
  { unfold sD. apply inode_of_set_eq. apply HokC. }
  destruct (iupdate_returns sD ip HokD HdC HhC) as (st' & Hupd).
  exists st'. split; [exact Hupd|].
  destruct (iupdate_ok sD ip st' HokD Hupd) as (Hok' & Hic & _ & Hlog & Hdsz).
  destruct (iupdate_state sD ip st' Hupd) as (Hrd & Est).
  destruct (IBLOCK_meta sD ip HokD) as (Hbm & _ & _).
  assert (Einum : i_inum (inode_of sD ip) = i_inum (inode_of st ip)).
  { rewrite HiD. exact (f_equal i_inum (ti_inode _ _ _ _ _ HiC)). }
  assert (Esb : sb sD = sb st) by apply (ti_sb _ _ _ _ _ HiC).
  rewrite Einum, Esb in Hlog, Hdsz, Est, Hrd, Hbm. fold b in Hlog, Hdsz, Est, Hrd, Hbm.
  fold pos in Hdsz, Est.
  assert (Ei : inode_of st' ip = inode_of sD ip).
  { unfold inode_of. rewrite Hic. reflexivity. }
  assert (Hfree' : forall p, slot_path p -> slot_val st ip p <> 0 ->
            in_use st' (slot_val st ip p) = false).
  { intros p Hp Hnz. rewrite Est.
    change (in_use (set_block sD b (put_dinode (block_data sD b) pos (inode_of sD ip)))
              (slot_val st ip p) = false).
    destruct (ok_slots _ _ Hok p Hp Hnz) as [Hdata _].
    pose proof (data_start_pos _ (ok_size _ _ Hok) (ok_bmapstart _ _ Hok)) as Hds.
    rewrite (in_use_set_block sD ip) ;
      [ apply Hfreed; assumption | exact HokD | lia
      | rewrite Esb; unfold is_data in Hdata; lia | left; rewrite Esb; lia ]. }
  split; [rewrite Ei; exact HsD|].
  split; [intros k _; rewrite Ei, EiD; apply Hz|].
  split.
  { intros bn Hbn Hnz. rewrite lookup_addr_slot in *.
    apply Hfree'; [apply slot_path_data; apply data_path_of_ok; exact Hbn | exact Hnz]. }
  split; [exact Hfree'|].
  split; [rewrite Hlog; reflexivity|].
  split; [rewrite Hdsz, HsD; reflexivity|].
  split; [|exact Hok'].
  intros k Hk. rewrite Est.
  change (block_data (with_logged (set_block sD b (put_dinode (block_data sD b) pos
                                                  (inode_of sD ip)))
                        (b :: logged sD)) b)
    with (block_data (set_block sD b (put_dinode (block_data sD b) pos (inode_of sD ip))) b).
  rewrite block_data_set_eq by (lia || (apply readable_lt; exact Hrd)).
  pose proof (dinode_pos_bound (i_inum (inode_of st ip))) as Hpos. fold pos in Hpos.
  assert (Hlen : length (block_data sD b) = Z.to_nat BSIZE).
  { apply blocks_ok_length; [apply HokD | apply Hrd]. }
  rewrite dinode_addr_put_dinode;
    [| lia | rewrite Hlen; rewrite BSIZE_val in *; lia | apply HokD | exact Hk].
  rewrite EiD. change (addr_at (with_size (inode_of sC ip) 0) k)
    with (addr_at (inode_of sC ip) k).
  rewrite Hz. reflexivity.
Qed.

Lemma itrunc_frees_witness :
  exists st', itrunc 0 st1 = Ret tt st'
    /\ i_size (inode_of st' 0) = 0
    /\ addr_at (inode_of st' 0) (NDIRECT + 1) = 0
    /\ in_use st1 12 = true /\ in_use st' 12 = false.
Proof.
  destruct (itrunc_frees st1 0 st1_ok st1_disk_ok eq_refl
              ltac:(vm_compute; reflexivity))
    as (st' & Hrun & Hsize & Haddrs & Hdata & _).
  exists st'. split; [exact Hrun|]. split; [exact Hsize|].
  split; [apply Haddrs; vm_compute; split; congruence|].
  split; [vm_compute; reflexivity|].
  apply (Hdata (NDIRECT + NINDIRECT + 5)); vm_compute; (split || idtac); congruence.
Defined.

(** ** Reading the records of a directory *)

Section DIR.
Context `{Params}.
Hypothesis Hdirdev : T_DIR <> T_DEV.

Lemma readi_mapped st ip dst off n :
  fs_ok st ip -> i_type (inode_of st ip) <> T_DEV ->
  0 <= off -> 0 <= n -> off + n <= i_size (inode_of st ip) ->
  i_size (inode_of st ip) <= MAXFILE * BSIZE ->
  n <= Z.of_nat (length dst) ->
  disk_ok st -> held st = [] ->
  (forall p, off <= p < off + n -> lookup_addr st (inode_of st ip) (p / BSIZE) <> 0) ->
  readi ip dst off n st
  = Ret (n, file_bytes st ip off n ++ drop (Z.to_nat n) dst) st.
Proof.
  intros Hok Hty Hoff Hn Hin Hmax Hdst Hd Hh Hmapped.
  pose proof MAXFILE_bytes as HM.
  rewrite (readi_accepts st ip dst off n Hty) by lia. cbv zeta.
  replace (Z.min n (i_size (inode_of st ip) - off)) with n by lia.
  destruct (fuel_start off n ltac:(lia) ltac:(lia)) as (Hpos & Hfuel).
  destruct (readi_loop_mapped ip n (io_fuel n) 0 off dst st Hok Hd Hh)
    as (d & Hloop); try lia.
  { intros _. rewrite Z.sub_0_r. exact Hfuel. }
  { intros p Hp. apply Hmapped. lia. }
  rewrite (bind_Ret _ _ _ _ _ Hloop). unfold ret.
  apply readi_loop_content in Hloop as (_ & _ & ->); try lia; [|exact Hok].
  rewrite Z.sub_0_r. rewrite to_int_small by lia. reflexivity.
Qed.

Lemma DIRENT_SIZE_val : DIRENT_SIZE = 16.
Proof. reflexivity. Qed.

Lemma dir_type_dev st dp : dir_ok st dp -> i_type (inode_of st dp) <> T_DEV.
Proof. intros Hdir. rewrite (dir_type _ _ Hdir). exact Hdirdev. Qed.

(** The records lie within the size. *)
Lemma record_bounds st dp k :
  dir_ok st dp -> 0 <= k -> DIRENT_SIZE * k < i_size (inode_of st dp) ->
  DIRENT_SIZE * k + DIRENT_SIZE <= i_size (inode_of st dp).
Proof.
  intros Hdir Hk Hlt. pose proof (dir_whole _ _ Hdir) as Hw.
  rewrite DIRENT_SIZE_val in *.
  pose proof (Z.div_mod (i_size (inode_of st dp)) 16 ltac:(lia)). lia.
Qed.

Lemma read_record st dp k de :
  dir_ok st dp -> 0 <= k -> DIRENT_SIZE * k < i_size (inode_of st dp) ->
  length de = Z.to_nat DIRENT_SIZE ->
  readi dp de (DIRENT_SIZE * k) DIRENT_SIZE st
  = Ret (DIRENT_SIZE, dir_record st dp k) st.
Proof.
  intros Hdir Hk Hlt Hlen.
  pose proof (record_bounds st dp k Hdir Hk Hlt) as Hb.
  pose proof (dir_size _ _ Hdir) as Hsz.
  assert (HD : 0 < DIRENT_SIZE) by reflexivity.
  rewrite readi_mapped.
  - rewrite drop_ge by lia. rewrite app_nil_r. reflexivity.
  - exact (dir_fs _ _ Hdir).
  - apply dir_type_dev. exact Hdir.
  - lia.
  - lia.
  - exact Hb.
  - lia.
  - lia.
  - exact (dir_disk _ _ Hdir).
  - exact (dir_held _ _ Hdir).
  - intros p Hp. apply (dir_mapped _ _ Hdir). lia.
Qed.

Lemma length_dir_record st dp k : length (dir_record st dp k) = Z.to_nat DIRENT_SIZE.
Proof. apply length_file_bytes. Qed.

(** The records that are left at record [k]. *)
Lemma records_left st dp k :
  dir_ok st dp -> 0 <= k ->
  (DIRENT_SIZE * k <? i_size (inode_of st dp))
  = (k <? i_size (inode_of st dp) / DIRENT_SIZE).
Proof.
  intros Hdir Hk. pose proof (dir_whole _ _ Hdir) as Hw.
  rewrite DIRENT_SIZE_val in *.
  pose proof (Z.div_mod (i_size (inode_of st dp)) 16 ltac:(lia)).
  destruct (16 * k <? i_size (inode_of st dp)) eqn:E1,
           (k <? i_size (inode_of st dp) / 16) eqn:E2; try reflexivity;
    rewrite ?Z.ltb_lt, ?Z.ltb_ge in *; lia.
Qed.

(** The loop of [dirlookup] is the search for the first record that has an
    inode number and the name. *)
Lemma dirlookup_loop_scan st dp name :
  dir_ok st dp ->
  forall fuel k de,
    0 <= k -> length de = Z.to_nat DIRENT_SIZE ->
    k <= i_size (inode_of st dp) / DIRENT_SIZE ->
    i_size (inode_of st dp) / DIRENT_SIZE - k < Z.of_nat fuel ->
    dirlookup_loop dp name fuel (DIRENT_SIZE * k) de st
    = match first_record (rec_matches name) st dp
              (Z.to_nat (i_size (inode_of st dp) / DIRENT_SIZE - k)) k with
      | None => Ret None st
      | Some k' =>
        (let* ip := iget (i_dev (inode_of st dp)) (de_inum (dir_record st dp k')) in
         ret (Some (ip, DIRENT_SIZE * k'))) st
      end.
Proof.
  intros Hdir. pose proof (dir_size _ _ Hdir) as Hsz.
  pose proof MAXFILE_bytes as HM.
  induction fuel as [|fuel IH]; intros k de Hk Hlen Hkn Hfuel.
  - exfalso. lia.
  - simpl dirlookup_loop. unfold bind at 1, iread at 1, gets.
    rewrite (records_left st dp k Hdir Hk).
    destruct (k <? i_size (inode_of st dp) / DIRENT_SIZE) eqn:Elt.
    + apply Z.ltb_lt in Elt.
      assert (Hin : DIRENT_SIZE * k < i_size (inode_of st dp)).
      { apply Z.ltb_lt. rewrite (records_left st dp k Hdir Hk). apply Z.ltb_lt. exact Elt. }
      rewrite (bind_Ret _ _ _ _ _ (read_record st dp k de Hdir Hk Hin Hlen)).
      cbv zeta. cbn [fst snd]. rewrite Z.eqb_refl. cbn [negb].
      replace (Z.to_nat (i_size (inode_of st dp) / DIRENT_SIZE - k))
        with (S (Z.to_nat (i_size (inode_of st dp) / DIRENT_SIZE - (k + 1)))) by lia.
      cbn [first_record]. unfold rec_matches at 1.
      pose proof (record_bounds st dp k Hdir Hk Hin) as Hb.
      assert (Enext : to_uint (DIRENT_SIZE * k + DIRENT_SIZE) = DIRENT_SIZE * (k + 1)).
      { rewrite DIRENT_SIZE_val in *. rewrite to_uint_small by lia. lia. }
      destruct (de_inum (dir_record st dp k) =? 0) eqn:Ez; cbn [negb andb].
      * rewrite Enext.
        apply IH; [lia | apply length_dir_record | lia | lia].
      * destruct (namecmp name (de_name (dir_record st dp k)) =? 0) eqn:En.
        -- reflexivity.
        -- rewrite Enext. apply IH; [lia | apply length_dir_record | lia | lia].
    + apply Z.ltb_ge in Elt.
      replace (Z.to_nat (i_size (inode_of st dp) / DIRENT_SIZE - k)) with O by lia.
      reflexivity.
Qed.

Lemma dirlookup_scan st dp name :
  dir_ok st dp ->
  dirlookup dp name st
  = match dir_find st dp name with
    | None => Ret None st
    | Some k =>
      (let* ip := iget (i_dev (inode_of st dp)) (de_inum (dir_record st dp k)) in
       ret (Some (ip, DIRENT_SIZE * k))) st
    end.
Proof.
  intros Hdir. unfold dirlookup. unfold bind at 1, iread at 1, gets.
  rewrite (dir_type _ _ Hdir), Z.eqb_refl. cbn [negb].
  unfold bind at 1, iread at 1, gets.
  pose proof (dir_size _ _ Hdir) as Hsz.
  assert (Hq : 0 <= i_size (inode_of st dp) / DIRENT_SIZE)
    by (apply Z.div_pos; [lia | reflexivity]).
  change 0 with (DIRENT_SIZE * 0) at 1.
  rewrite dirlookup_loop_scan; [| exact Hdir | lia | apply length_replicate | lia |].
  - unfold dir_find, dir_records. rewrite Z.sub_0_r. reflexivity.
  - unfold dir_fuel. lia.
Qed.

(** The loop of [dirlink] ends at the first record without an inode number,
    or at the size. *)
Lemma dirlink_loop_scan st dp :
  dir_ok st dp ->
  forall fuel k de,
    0 <= k -> length de = Z.to_nat DIRENT_SIZE ->
    k <= i_size (inode_of st dp) / DIRENT_SIZE ->
    i_size (inode_of st dp) / DIRENT_SIZE - k < Z.of_nat fuel ->
    exists de',
      dirlink_loop dp fuel (DIRENT_SIZE * k) de st
      = Ret (match first_record rec_empty st dp
                     (Z.to_nat (i_size (inode_of st dp) / DIRENT_SIZE - k)) k with
             | Some k' => DIRENT_SIZE * k'
             | None => i_size (inode_of st dp)
             end, de') st
      /\ length de' = Z.to_nat DIRENT_SIZE.
Proof.
  intros Hdir. pose proof (dir_size _ _ Hdir) as Hsz.
  pose proof MAXFILE_bytes as HM.
  pose proof (dir_whole _ _ Hdir) as Hw.
  assert (Esz : i_size (inode_of st dp) = DIRENT_SIZE * (i_size (inode_of st dp) / DIRENT_SIZE)).
  { rewrite DIRENT_SIZE_val in *.
    pose proof (Z.div_mod (i_size (inode_of st dp)) 16 ltac:(lia)). lia. }
  induction fuel as [|fuel IH]; intros k de Hk Hlen Hkn Hfuel.
  - exfalso. lia.
  - simpl dirlink_loop. unfold bind at 1, iread at 1, gets.
    assert (Hoff : 0 <= DIRENT_SIZE * k <= i_size (inode_of st dp)).
    { rewrite DIRENT_SIZE_val in *. lia. }
    rewrite (to_uint_small (DIRENT_SIZE * k)) by lia.
    rewrite (records_left st dp k Hdir Hk).
    destruct (k <? i_size (inode_of st dp) / DIRENT_SIZE) eqn:Elt.
    + apply Z.ltb_lt in Elt.
      assert (Hin : DIRENT_SIZE * k < i_size (inode_of st dp)).
      { apply Z.ltb_lt. rewrite (records_left st dp k Hdir Hk). apply Z.ltb_lt. exact Elt. }
      rewrite (bind_Ret _ _ _ _ _ (read_record st dp k de Hdir Hk Hin Hlen)).
      cbv zeta. cbn [fst snd]. rewrite Z.eqb_refl. cbn [negb].
      replace (Z.to_nat (i_size (inode_of st dp) / DIRENT_SIZE - k))
        with (S (Z.to_nat (i_size (inode_of st dp) / DIRENT_SIZE - (k + 1)))) by lia.
      cbn [first_record]. unfold rec_empty at 1.
      pose proof (record_bounds st dp k Hdir Hk Hin) as Hb.
      destruct (de_inum (dir_record st dp k) =? 0) eqn:Ez.
      * eexists. split; [reflexivity | apply length_dir_record].
      * assert (Enext : to_int (DIRENT_SIZE * k + DIRENT_SIZE) = DIRENT_SIZE * (k + 1)).
        { rewrite DIRENT_SIZE_val in *. rewrite to_int_small by lia. lia. }
        rewrite Enext.
        apply IH; [lia | apply length_dir_record | lia | lia].
    + apply Z.ltb_ge in Elt.
      replace (Z.to_nat (i_size (inode_of st dp) / DIRENT_SIZE - k)) with O by lia.
      cbn [first_record].
      assert (Ek : DIRENT_SIZE * k = i_size (inode_of st dp)).
      { assert (k = i_size (inode_of st dp) / DIRENT_SIZE) by lia. congruence. }
      rewrite Ek. eexists. split; [reflexivity | exact Hlen].
Qed.

End DIR.

(** ** What a write keeps mapped *)

Lemma writei_loop_mapped ip src n : forall fuel tot off st off' st',
  fs_ok st ip ->
  0 <= tot <= n -> n < 2 ^ 32 -> 0 <= off -> off + (n - tot) < 2 ^ 32 ->
  writei_loop ip src n fuel tot off st = Ret off' st' ->
  (forall p, slot_path p -> slot_val st ip p <> 0 ->
             slot_val st' ip p = slot_val st ip p)
  /\ (forall q, off <= q < off + (n - tot) ->
                lookup_addr st' (inode_of st' ip) (q / BSIZE) <> 0).
Proof.
  induction fuel as [|fuel IH];
    intros tot off st off' st' Hok Ht Hn Hoff Hno Hret; [discriminate|].
  pose proof (writei_loop_Ret _ _ _ _ _ _ _ _ _ Ht Hn Hoff Hno Hret) as (_ & _ & Hmaxf).
  simpl in Hret. destruct (tot <? n) eqn:Hlt.
  - apply Z.ltb_lt in Hlt. specialize (Hmaxf Hlt).
    unfold bind at 1, iread at 1, gets in Hret.
    apply bind_Ret_inv in Hret as (a & st1 & Hb & Hret).
    pose proof BSIZE_pos as HB.
    assert (Hbn : 0 <= off / BSIZE < 2 ^ 32).
    { split; [apply Z.div_pos; lia|]. apply Z.div_lt_upper_bound; lia. }
    apply (bmap_ok _ _ _ _ _ Hok Hbn) in Hb as (Hok1 & Hext1 & Ha & Hnz & Hmax).
    apply bind_Ret_inv in Hret as (bp & st2 & Hbread & Hret).
    apply bread_Ret_inv in Hbread as (-> & -> & Hrd).
    destruct (chunk_bounds n tot off ltac:(lia) Hn Hoff) as (Hm1 & Hm2 & Hm3).
    set (m := Z.min (to_uint (n - tot)) (to_uint (BSIZE - off mod BSIZE))) in *.
    rewrite <- !bind_assoc in Hret.
    apply bind_Ret_inv in Hret as (u & st3 & Hw & Hret).
    rewrite !bind_assoc in Hw.
    rewrite (write_chunk a _ _ (held st1)) in Hw by reflexivity.
    injection Hw as _ <-.
    rewrite write_chunk_state in Hret.
    change (block_data (with_held st1 (a :: held st1)) a)
      with (block_data st1 a) in Hret.
    rewrite !to_uint_small in Hret by lia.
    subst a.
    set (a := lookup_addr st1 (inode_of st1 ip) (off / BSIZE)) in *.
    set (d := put_bytes (block_data st1 a) (off mod BSIZE) (sub_bytes src tot m)) in *.
    assert (Hbn' : 0 <= off / BSIZE < MAXFILE) by lia.
    assert (Hlen : length d = Z.to_nat BSIZE).
    { unfold d. rewrite length_put_bytes.
      apply blocks_ok_length; [apply Hok1 | apply Hrd]. }
    assert (Ea : a = slot_val st1 ip (data_path_of (off / BSIZE)))
      by apply lookup_addr_slot.
    pose proof (data_path_of_ok _ Hbn') as Hq.
    assert (Hnz' := Hnz). rewrite Ea in Hnz'.
    destruct (data_block_plain st1 ip _ Hok1 Hq Hnz') as (Ha0 & Hbm & Hidx).
    rewrite <- Ea in Ha0, Hbm, Hidx.
    destruct (fs_ok_set_block st1 ip a d Hok1 Ha0 Hlen Hbm Hidx) as [Hok2 Hslots2].
    set (st2 := with_logged (set_block st1 a d)
                  (a :: logged (with_held st1 (a :: held st1)))) in *.
    assert (Hslots2' : forall q, slot_path q -> slot_val st2 ip q = slot_val st1 ip q)
      by exact Hslots2.
    apply (IH _ _ _ _ _ (fs_ok_with_logged _ _ _ Hok2)) in Hret; try lia.
    destruct Hret as (Hmono & Hrange).
    assert (Hmono1 : forall p, slot_path p -> slot_val st1 ip p <> 0 ->
              slot_val st' ip p = slot_val st1 ip p).
    { intros p Hp Hpz. rewrite Hmono by (rewrite ?Hslots2'; assumption).
      apply Hslots2'. exact Hp. }
    split.
    + intros p Hp Hpz.
      pose proof (ext_slots _ _ _ Hext1 p Hp Hpz) as E1.
      rewrite Hmono1 by (rewrite ?E1; assumption). exact E1.
    + intros q Hq'. destruct (Z_lt_dec q (off + m)) as [Hin|Hout].
      * assert (Eq : q / BSIZE = off / BSIZE).
        { pose proof (Z.mod_pos_bound off BSIZE HB).
          pose proof (Z.div_mod off BSIZE ltac:(lia)).
          symmetry. apply (Z.div_unique q BSIZE (off / BSIZE) (q - BSIZE * (off / BSIZE))); lia. }
        rewrite Eq, lookup_addr_slot.
        rewrite Hmono1; [rewrite <- Ea; exact Hnz | apply slot_path_data; exact Hq
                        | rewrite <- Ea; exact Hnz].
      * apply Hrange. lia.
  - apply Z.ltb_ge in Hlt. injection Hret as <- <-.
    split; [intros; reflexivity | intros q Hq; lia].
Qed.

Lemma slot_val_set_size st ip s q :
  fs_ok st ip -> slot_path q ->
  slot_val (set_inode st ip (with_size (inode_of st ip) s)) ip q = slot_val st ip q.
Proof.
  intros Hok Hq. revert q Hq. apply slot_val_same; [|reflexivity].
  intros k. rewrite inode_of_set_eq by apply Hok. reflexivity.
Qed.

Lemma iupdate_slots st ip st' :
  fs_ok st ip -> iupdate ip st = Ret tt st' ->
  forall q, slot_path q -> slot_val st' ip q = slot_val st ip q.
Proof.
  intros Hok Hupd.
  destruct (iupdate_state st ip st' Hupd) as (Hrd & ->).
  destruct (IBLOCK_meta st ip Hok) as (Hb & Hbm & Hsl).
  set (b := IBLOCK (i_inum (inode_of st ip)) (sb st)) in *.
  set (d := put_dinode _ _ _).
  assert (Hlen : length d = Z.to_nat BSIZE).
  { unfold d. rewrite length_put_dinode.
    apply blocks_ok_length; [apply Hok | apply Hrd]. }
  destruct (fs_ok_set_block st ip b d Hok ltac:(lia) Hlen Hbm) as [_ Hslots].
  { intros p j _ Hp Hnz. apply Hsl; assumption. }
  exact Hslots.
Qed.

Section KEEP.
Context `{Params}.

Lemma writei_keeps st ip src off n r st' :
  fs_ok st ip -> i_type (inode_of st ip) <> T_DEV ->
  0 <= off < 2 ^ 32 -> 0 <= n < 2 ^ 32 ->
  off <= i_size (inode_of st ip) -> off + n <= MAXFILE * BSIZE ->
  writei ip src off n st = Ret r st' ->
  i_type (inode_of st' ip) = i_type (inode_of st ip)
  /\ i_dev (inode_of st' ip) = i_dev (inode_of st ip)
  /\ (forall p, slot_path p -> slot_val st ip p <> 0 ->
                slot_val st' ip p = slot_val st ip p)
  /\ (forall q, off <= q < off + n ->
                lookup_addr st' (inode_of st' ip) (q / BSIZE) <> 0).
Proof.
  intros Hok Hty Hoff Hn Hle Hmax Hret.
  pose proof MAXFILE_bytes as HM.
  rewrite (writei_accepts st ip src off n Hty Hoff Hn Hle Hmax) in Hret.
  apply bind_Ret_inv in Hret as (off' & st1 & Hloop & Hret).
  pose proof Hloop as Hl2. pose proof Hloop as Hl3.
  apply writei_loop_Ret in Hl2 as (-> & Hf & _); try lia.
  apply writei_loop_content in Hl3 as (Hok1 & _); try lia; [|exact Hok].
  apply writei_loop_mapped in Hloop as (Hmono & Hrange); try lia; [|exact Hok].
  rewrite Z.sub_0_r in *.
  pose proof (frame_inode _ _ ip Hf) as Hfi.
  assert (Ety : i_type (inode_of st1 ip) = i_type (inode_of st ip))
    by (apply frame_type; exact Hf).
  assert (Edev : i_dev (inode_of st1 ip) = i_dev (inode_of st ip))
    by exact (f_equal i_dev Hfi).
  revert Hret. unfold bind at 1, iread at 1, gets.
  destruct ((0 <? n) && (i_size (inode_of st1 ip) <? off + n)) eqn:Hgrow.
  - rewrite bind_assoc. unfold bind at 1, iwrite at 1, modify.
    intros Hret. apply bind_Ret_inv in Hret as ([] & st2 & Hupd & Hret).
    injection Hret as _ <-.
    destruct (fs_ok_set_size st1 ip (off + n) Hok1) as (Hok2 & _).
    set (st15 := set_inode st1 ip (with_size (inode_of st1 ip) (off + n))) in *.
    destruct (iupdate_ok st15 ip st2 Hok2 Hupd) as (_ & Hic & _).
    assert (Ei : inode_of st2 ip = inode_of st15 ip).
    { unfold inode_of. rewrite Hic. reflexivity. }
    assert (Ei15 : inode_of st15 ip = with_size (inode_of st1 ip) (off + n)).
    { unfold st15. apply inode_of_set_eq. apply Hok1. }
    assert (Hs2 : forall q, slot_path q -> slot_val st2 ip q = slot_val st1 ip q).
    { intros q Hq. rewrite (iupdate_slots st15 ip st2 Hok2 Hupd q Hq).
      apply slot_val_set_size; assumption. }
    split; [rewrite Ei, Ei15; exact Ety|].
    split; [rewrite Ei, Ei15; exact Edev|].
    split.
    + intros p Hp Hpz. rewrite (Hs2 p Hp). apply Hmono; assumption.
    + intros q Hq. rewrite lookup_addr_slot.
      assert (Hqb : 0 <= q / BSIZE < MAXFILE) by (apply block_in_file; lia).
      rewrite Hs2 by (apply slot_path_data; apply data_path_of_ok; exact Hqb).
      rewrite <- lookup_addr_slot. apply Hrange. exact Hq.
  - unfold_prims. intros [= _ <-].
    split; [exact Ety|]. split; [exact Edev|]. split; [exact Hmono | exact Hrange].
Qed.

End KEEP.

(** ** Directory records *)

Lemma strncpy_S t n i :
  strncpy t (S n) i
  = if byte_at t i =? 0 then replicate (S n) 0
    else byte_at t i :: strncpy t n (i + 1).
Proof. reflexivity. Qed.

Lemma strncmp_S p q n i :
  strncmp p q (S n) i
  = if (byte_at p i =? 0) || negb (byte_at p i =? byte_at q i)
    then byte_at p i - byte_at q i
    else strncmp p q n (i + 1).
Proof. reflexivity. Qed.

Lemma length_strncpy t : forall n i, length (strncpy t n i) = n.
Proof.
  induction n as [|n IH]; intros i; [reflexivity|].
  rewrite strncpy_S. destruct (byte_at t i =? 0).
  - apply length_replicate.
  - simpl. rewrite IH. reflexivity.
Qed.

Lemma byte_at_tail x l j : 0 <= j -> byte_at (x :: l) (j + 1) = byte_at l j.
Proof.
  intros Hj. unfold byte_at. replace (Z.to_nat (j + 1)) with (S (Z.to_nat j)) by lia.
  reflexivity.
Qed.

Lemma byte_at_head x l : byte_at (x :: l) 0 = to_uchar x.
Proof. reflexivity. Qed.

Lemma byte_at_replicate_zero n i : byte_at (replicate n 0) i = 0.
Proof.
  unfold byte_at. destruct (replicate n 0 !! Z.to_nat i) as [x|] eqn:E; [|reflexivity].
  apply lookup_replicate in E as [-> _]. reflexivity.
Qed.

Lemma byte_at_idem d i : to_uchar (byte_at d i) = byte_at d i.
Proof. unfold byte_at. apply to_uchar_idem. Qed.

(** A name compares equal to its copy of [n] characters. *)
Lemma strncmp_strncpy p q : forall n i,
  0 <= i ->
  (forall j, 0 <= j < Z.of_nat n -> byte_at q (i + j) = byte_at (strncpy p n i) j) ->
  strncmp p q n i = 0.
Proof.
  induction n as [|n IH]; intros i Hi Hq; [reflexivity|].
  rewrite strncmp_S. pose proof (Hq 0 ltac:(lia)) as H0.
  rewrite Z.add_0_r in H0.
  assert (Hq' : forall j, 0 <= j < Z.of_nat (S n) ->
            byte_at q (i + j)
            = byte_at (if byte_at p i =? 0 then replicate (S n) 0
                       else byte_at p i :: strncpy p n (i + 1)) j).
  { intros j Hj. rewrite <- strncpy_S. apply Hq. exact Hj. }
  rewrite strncpy_S in H0. clear Hq.
  destruct (byte_at p i =? 0) eqn:Ez.
  - cbn [orb]. apply Z.eqb_eq in Ez.
    rewrite byte_at_replicate_zero in H0. lia.
  - rewrite byte_at_head, byte_at_idem in H0. rewrite H0, Z.eqb_refl.
    cbn [orb negb]. apply IH; [lia|].
    intros j Hj. specialize (Hq' (j + 1) ltac:(lia)).
    rewrite byte_at_tail in Hq' by lia.
    rewrite <- Hq'. f_equal. lia.
Qed.

(** [de] after [strncpy(de.name, name, DIRSIZ); de.inum = inum]. *)
Lemma make_dirent_bytes de name inum :
  length de = Z.to_nat DIRENT_SIZE -> make_dirent de name inum = dirent_bytes name inum.
Proof.
  intros Hlen. destruct de as [|d0 [|d1 rest]]; try discriminate Hlen.
  assert (Hrest : length rest = Z.to_nat DIRSIZ).
  { change (Z.to_nat DIRENT_SIZE) with 16%nat in Hlen.
    change (Z.to_nat DIRSIZ) with 14%nat. simpl length in Hlen. lia. }
  unfold make_dirent, put_bytes, dirent_bytes.
  change (Z.to_nat 2) with 2%nat.
  rewrite !list_inserts_cons.
  rewrite <- (app_nil_r rest).
  rewrite list_inserts_0_r by (rewrite length_strncpy; symmetry; exact Hrest).
  rewrite app_nil_r. reflexivity.
Qed.

Lemma file_byte_idem st ip p : to_uchar (file_byte st ip p) = file_byte st ip p.
Proof.
  unfold file_byte. cbv zeta.
  destruct (lookup_addr st (inode_of st ip) (p / BSIZE) =? 0);
    [reflexivity | apply byte_at_idem].
Qed.

Lemma byte_at_file_bytes st ip off n i :
  0 <= i < n -> byte_at (file_bytes st ip off n) i = file_byte st ip (off + i).
Proof.
  intros Hi. unfold file_bytes, byte_at.
  rewrite list_lookup_fmap, lookup_seq_lt by lia. simpl.
  rewrite Z2Nat.id by lia. apply file_byte_idem.
Qed.

Lemma to_ushort_bytes x :
  to_uchar x + 2 ^ 8 * to_uchar (x / 2 ^ 8) = x mod 2 ^ 16.
Proof.
  unfold to_uchar. change (2 ^ 8) with 256. change (2 ^ 16) with 65536.
  Z.to_euclidean_division_equations. lia.
Qed.

Lemma dirent_byte0 name inum : byte_at (dirent_bytes name inum) 0 = to_uchar inum.
Proof. unfold dirent_bytes. cbn [app]. rewrite byte_at_head. apply to_uchar_idem. Qed.

Lemma dirent_byte1 name inum :
  byte_at (dirent_bytes name inum) 1 = to_uchar (inum / 2 ^ 8).
Proof.
  unfold dirent_bytes. cbn [app]. change 1 with (0 + 1).
  rewrite byte_at_tail by lia. rewrite byte_at_head. apply to_uchar_idem.
Qed.

Lemma dirent_name_byte name inum j :
  0 <= j ->
  byte_at (dirent_bytes name inum) (2 + j) = byte_at (strncpy name (Z.to_nat DIRSIZ) 0) j.
Proof.
  intros Hj. unfold dirent_bytes. cbn [app].
  replace (2 + j) with (j + 1 + 1) by lia.
  rewrite !byte_at_tail by lia. reflexivity.
Qed.

(** A record that holds the bytes of (inum, name). *)
Lemma record_fields rec name inum :
  (forall i, 0 <= i < DIRENT_SIZE -> byte_at rec i = byte_at (dirent_bytes name inum) i) ->
  de_inum rec = inum mod 2 ^ 16 /\ namecmp name (de_name rec) = 0.
Proof.
  intros Hrec. rewrite DIRENT_SIZE_val in Hrec. split.
  - unfold de_inum, ushort_at. change (0 + 1) with 1.
    rewrite (Hrec 0), (Hrec 1) by lia.
    rewrite dirent_byte0, dirent_byte1. apply to_ushort_bytes.
  - unfold namecmp. apply strncmp_strncpy; [lia|].
    intros j Hj. change (Z.of_nat (Z.to_nat DIRSIZ)) with 14 in Hj.
    rewrite Z.add_0_l. unfold de_name.
    rewrite byte_at_sub_bytes by (change DIRSIZ with 14; lia).
    rewrite (Hrec (2 + j)) by lia.
    apply dirent_name_byte. lia.
Qed.

(** ** The first record that passes a test *)

Lemma first_record_Some test st dp : forall n k k',
  first_record test st dp n k = Some k' ->
  k <= k' < k + Z.of_nat n /\ test (dir_record st dp k') = true
  /\ forall j, k <= j < k' -> test (dir_record st dp j) = false.
Proof.
  induction n as [|n IH]; intros k k' Hf; [discriminate|].
  simpl in Hf. destruct (test (dir_record st dp k)) eqn:E.
  - injection Hf as <-. split; [lia|]. split; [exact E | intros j Hj; lia].
  - apply IH in Hf as (Hk & Ht & Hbefore).
    split; [lia|]. split; [exact Ht|].
    intros j Hj. destruct (Z.eq_dec j k) as [->|]; [exact E | apply Hbefore; lia].
Qed.

Lemma first_record_None test st dp : forall n k,
  first_record test st dp n k = None ->
  forall j, k <= j < k + Z.of_nat n -> test (dir_record st dp j) = false.
Proof.
  induction n as [|n IH]; intros k Hf j Hj; [lia|].
  simpl in Hf. destruct (test (dir_record st dp k)) eqn:E; [discriminate|].
  destruct (Z.eq_dec j k) as [->|]; [exact E | apply (IH (k + 1) Hf); lia].
Qed.

Lemma first_record_intro test st dp : forall n k k',
  k <= k' < k + Z.of_nat n -> test (dir_record st dp k') = true ->
  (forall j, k <= j < k' -> test (dir_record st dp j) = false) ->
  first_record test st dp n k = Some k'.
Proof.
  induction n as [|n IH]; intros k k' Hk Ht Hbefore; [lia|].
  simpl. destruct (Z.eq_dec k k') as [->|Hne].
  - rewrite Ht. reflexivity.
  - rewrite (Hbefore k) by lia. apply IH; [lia | exact Ht |].
    intros j Hj. apply Hbefore. lia.
Qed.

Lemma first_record_none_intro test st dp : forall n k,
  (forall j, k <= j < k + Z.of_nat n -> test (dir_record st dp j) = false) ->
  first_record test st dp n k = None.
Proof.
  induction n as [|n IH]; intros k Hall; [reflexivity|].
  simpl. rewrite (Hall k) by lia. apply IH. intros j Hj. apply Hall. lia.
Qed.

(** ** What [iget] returns *)

Lemma iget_scan_inv dev inum l : forall ip0 e,
  match iget_scan dev inum l ip0 e with
  | inl ip => exists i, l !! (ip - ip0)%nat = Some i /\ (ip0 <= ip)%nat
                        /\ cached dev inum i
  | inr (Some ip) =>
    e = Some ip
    \/ (e = None /\ exists i, l !! (ip - ip0)%nat = Some i /\ (ip0 <= ip)%nat
                              /\ i_ref i = 0)
  | inr None => True
  end.
Proof.
  induction l as [|x l IH]; intros ip0 e.
  - simpl. destruct e; [left; reflexivity | exact I].
  - simpl. fold (cachedb dev inum x). destruct (cachedb dev inum x) eqn:Ec.
    + exists x. rewrite Nat.sub_diag. split; [reflexivity|]. split; [lia|].
      apply cachedb_true. exact Ec.
    + specialize (IH (S ip0)
        (match e with
         | None => if i_ref x =? 0 then Some ip0 else None
         | Some e0 => Some e0
         end)).
      destruct (iget_scan dev inum l (S ip0) _) as [ip|[ip|]] eqn:Es.
      * destruct IH as (i & Hl & Hle & Hc). exists i.
        replace (ip - ip0)%nat with (S (ip - S ip0)) by lia.
        split; [exact Hl|]. split; [lia | exact Hc].
      * destruct e as [e0|].
        -- destruct IH as [E|[E _]]; [left; exact E | discriminate].
        -- right. split; [reflexivity|].
           destruct (i_ref x =? 0) eqn:Er.
           ++ destruct IH as [E|[E _]]; [|discriminate].
              injection E as <-. exists x. rewrite Nat.sub_diag.
              split; [reflexivity|]. split; [lia | apply Z.eqb_eq; exact Er].
           ++ destruct IH as [E|[_ (i & Hl & Hle & Hr)]]; [discriminate|].
              exists i. replace (ip - ip0)%nat with (S (ip - S ip0)) by lia.
              split; [exact Hl|]. split; [lia | exact Hr].
      * exact I.
Qed.

Lemma iget_Ret_inv st dev inum ip st1 :
  iget dev inum st = Ret ip st1 ->
  exists i, icache st !! ip = Some i
    /\ ((cached dev inum i
         /\ st1 = set_inode st ip (with_ref i (to_int (i_ref i + 1))))
        \/ (i_ref i = 0 /\ st1 = set_inode st ip (claim_slot dev inum i))).
Proof.
  unfold iget. unfold bind at 1, gets.
  pose proof (iget_scan_inv dev inum (icache st) 0 None) as Hinv.
  destruct (iget_scan dev inum (icache st) 0 None) as [ip'|[ip'|]].
  - destruct Hinv as (i & Hl & _ & Hc). rewrite Nat.sub_0_r in Hl.
    unfold_prims. intros [= <- <-]. exists i. split; [exact Hl|]. left.
    split; [exact Hc|]. rewrite (inode_of_lookup _ _ _ Hl). reflexivity.
  - destruct Hinv as [E|[_ (i & Hl & _ & Hr)]]; [discriminate|].
    rewrite Nat.sub_0_r in Hl.
    unfold_prims. intros [= <- <-]. exists i. split; [exact Hl|]. right.
    split; [exact Hr|]. rewrite (inode_of_lookup _ _ _ Hl). reflexivity.
  - discriminate.
Qed.

(** A handle that [iget] returned keeps the content of every file. *)
Lemma file_byte_same st st' ip p :
  disk st' = disk st -> i_addrs (inode_of st' ip) = i_addrs (inode_of st ip) ->
  file_byte st' ip p = file_byte st ip p.
Proof.
  intros Hd Ha. unfold file_byte, lookup_addr, index_lookup, addr_at, block_data.
  rewrite Hd, Ha. reflexivity.
Qed.

Lemma set_inode_keeps st ip x jp :
  i_addrs x = i_addrs (inode_of st ip) -> i_size x = i_size (inode_of st ip) ->
  i_addrs (inode_of (set_inode st ip x) jp) = i_addrs (inode_of st jp)
  /\ i_size (inode_of (set_inode st ip x) jp) = i_size (inode_of st jp).
Proof.
  intros Ha Hs. destruct (decide (ip = jp)) as [->|Hne].
  - destruct (decide (jp < length (icache st))%nat) as [Hlt|Hge].
    + rewrite inode_of_set_eq by exact Hlt. auto.
    + unfold set_inode, inode_of. simpl.
      rewrite list_insert_ge by lia. auto.
  - rewrite inode_of_set_ne by exact Hne. auto.
Qed.

Lemma bind_Hang {A B} (m : M A) (k : A -> M B) st : m st = Hang -> bind m k st = Hang.
Proof. unfold bind. intros ->. reflexivity. Qed.

Lemma iput_locked st ip : i_locked (inode_of st ip) = true -> iput ip st = Hang.
Proof.
  intros Hl. unfold iput. apply bind_Hang. unfold acquiresleep.
  unfold bind at 1, iread at 1, gets. rewrite Hl. reflexivity.
Qed.

(** ** [dirlink] *)

Section LINK.
Context `{Params}.
Hypothesis Hdirdev : T_DIR <> T_DEV.

Lemma dir_whole_size st dp :
  dir_ok st dp ->
  i_size (inode_of st dp) = DIRENT_SIZE * (i_size (inode_of st dp) / DIRENT_SIZE)
  /\ 0 <= i_size (inode_of st dp) / DIRENT_SIZE.
Proof.
  intros Hdir. pose proof (dir_whole _ _ Hdir) as Hw.
  pose proof (dir_size _ _ Hdir) as Hsz. rewrite DIRENT_SIZE_val in *.
  pose proof (Z.div_mod (i_size (inode_of st dp)) 16 ltac:(lia)).
  split; [lia | apply Z.div_pos; lia].
Qed.

(** Where [dirlink] writes. *)
Lemma dir_hole_record st dp :
  dir_ok st dp ->
  exists k0,
    dir_hole st dp = DIRENT_SIZE * k0
    /\ 0 <= k0 <= i_size (inode_of st dp) / DIRENT_SIZE
    /\ (forall j, 0 <= j < k0 -> rec_empty (dir_record st dp j) = false)
    /\ (k0 < i_size (inode_of st dp) / DIRENT_SIZE ->
        rec_empty (dir_record st dp k0) = true).
Proof.
  intros Hdir. destruct (dir_whole_size st dp Hdir) as [Esz Hq].
  unfold dir_hole, dir_records.
  destruct (first_record rec_empty st dp _ 0) as [k|] eqn:Ef.
  - apply first_record_Some in Ef as (Hk & Ht & Hbefore).
    exists k. split; [reflexivity|]. split; [lia|]. split; [exact Hbefore|].
    intros _. exact Ht.
  - exists (i_size (inode_of st dp) / DIRENT_SIZE).
    split; [exact Esz|]. split; [lia|]. split; [|lia].
    intros j Hj. apply (first_record_None _ _ _ _ _ Ef). lia.
Qed.

Lemma dirlink_absent st dp name inum :
  dir_ok st dp -> dir_find st dp name = None ->
  dirlink dp name inum st
  = (let* w := writei dp (dirent_bytes name inum) (dir_hole st dp) DIRENT_SIZE in
     if negb (w =? DIRENT_SIZE) then panic "dirlink" else ret 0) st.
Proof.
  intros Hdir Hfind.
  destruct (dir_whole_size st dp Hdir) as [Esz Hq].
  pose proof (dir_size _ _ Hdir) as Hsz. pose proof MAXFILE_bytes as HM.
  assert (Hlook : dirlookup dp name st = Ret None st).
  { rewrite (dirlookup_scan Hdirdev st dp name Hdir), Hfind. reflexivity. }
  unfold dirlink. rewrite (bind_Ret _ _ _ _ _ Hlook). cbv beta iota.
  unfold bind at 1, iread at 1, gets.
  destruct (dirlink_loop_scan Hdirdev st dp Hdir (dir_fuel (i_size (inode_of st dp))) 0
              (replicate (Z.to_nat DIRENT_SIZE) 0))
    as (de' & Hloop & Hlen);
    [lia | apply length_replicate | lia | unfold dir_fuel; lia |].
  change (DIRENT_SIZE * 0) with 0 in Hloop. rewrite Z.sub_0_r in Hloop.
  rewrite (bind_Ret _ _ _ _ _ Hloop). cbv zeta. cbn [fst snd].
  rewrite (make_dirent_bytes de' name inum Hlen).
  fold (dir_records st dp). fold (dir_hole st dp).
  destruct (dir_hole_record st dp Hdir) as (k0 & E0 & Hk0 & _).
  rewrite to_uint_small; [reflexivity|].
  rewrite E0. rewrite DIRENT_SIZE_val in *. lia.
Qed.

Lemma dirlink_written st dp name inum r st' :
  dir_ok st dp -> dir_find st dp name = None ->
  dirlink dp name inum st = Ret r st' ->
  r = 0 /\ dir_hole st dp + DIRENT_SIZE <= MAXFILE * BSIZE
  /\ writei dp (dirent_bytes name inum) (dir_hole st dp) DIRENT_SIZE st
     = Ret DIRENT_SIZE st'.
Proof.
  intros Hdir Hfind Hret.
  rewrite (dirlink_absent st dp name inum Hdir Hfind) in Hret.
  apply bind_Ret_inv in Hret as (w & s1 & Hw & Hret).
  destruct (w =? DIRENT_SIZE) eqn:Ew; [|discriminate].
  apply Z.eqb_eq in Ew. subst w. injection Hret as <- <-.
  split; [reflexivity|]. split; [|exact Hw].
  destruct (dir_hole_record st dp Hdir) as (k0 & E0 & Hk0 & _).
  destruct (dir_whole_size st dp Hdir) as [Esz Hq].
  pose proof (dir_size _ _ Hdir) as Hsz. pose proof MAXFILE_bytes as HM.
  rewrite (writei_unfold st dp _ _ _ (dir_type_dev Hdirdev st dp Hdir)) in Hw.
  destruct ((i_size (inode_of st dp) <? dir_hole st dp)
            || (to_uint (dir_hole st dp + DIRENT_SIZE) <? dir_hole st dp));
    [discriminate|].
  destruct (to_uint (MAXFILE * BSIZE) <? to_uint (dir_hole st dp + DIRENT_SIZE)) eqn:Ec;
    [discriminate|].
  apply Z.ltb_ge in Ec. rewrite E0 in *. rewrite DIRENT_SIZE_val in *.
  rewrite !to_uint_small in Ec by lia. exact Ec.
Qed.

(** The state after the record was written. *)
Lemma dirlink_state st dp name inum st' :
  dir_ok st dp ->
  dir_hole st dp + DIRENT_SIZE <= MAXFILE * BSIZE ->
  writei dp (dirent_bytes name inum) (dir_hole st dp) DIRENT_SIZE st
  = Ret DIRENT_SIZE st' ->
  (forall i, 0 <= i < DIRENT_SIZE ->
     file_byte st' dp (dir_hole st dp + i) = byte_at (dirent_bytes name inum) i)
  /\ (forall p, 0 <= p < MAXFILE * BSIZE ->
        ~ dir_hole st dp <= p < dir_hole st dp + DIRENT_SIZE ->
        file_byte st' dp p = file_byte st dp p)
  /\ i_size (inode_of st' dp)
     = Z.max (i_size (inode_of st dp)) (dir_hole st dp + DIRENT_SIZE)
  /\ i_dev (inode_of st' dp) = i_dev (inode_of st dp)
  /\ dir_ok st' dp.
Proof.
  intros Hdir Hmax Hw.
  destruct (dir_hole_record st dp Hdir) as (k0 & E0 & Hk0 & _).
  destruct (dir_whole_size st dp Hdir) as [Esz Hq].
  pose proof (dir_size _ _ Hdir) as Hsz. pose proof MAXFILE_bytes as HM.
  pose proof (dir_type_dev Hdirdev st dp Hdir) as Hty.
  assert (Hoff : 0 <= dir_hole st dp <= i_size (inode_of st dp)).
  { rewrite E0. rewrite DIRENT_SIZE_val in *. lia. }
  assert (H16 : DIRENT_SIZE = 16) by reflexivity.
  destruct (writei_ok st dp (dirent_bytes name inum) (dir_hole st dp) DIRENT_SIZE
              DIRENT_SIZE st' (dir_fs _ _ Hdir) Hty
              ltac:(lia) ltac:(lia) ltac:(lia) Hmax Hw)
    as (_ & Hok' & (Hsb & Hh & Hlen) & Hbytes & Hsize & _).
  destruct (writei_keeps st dp (dirent_bytes name inum) (dir_hole st dp) DIRENT_SIZE
              DIRENT_SIZE st' (dir_fs _ _ Hdir) Hty
              ltac:(lia) ltac:(lia) ltac:(lia) Hmax Hw)
    as (Ety & Edev & Hmono & Hrange).
  split; [|split; [|split; [exact Hsize | split; [exact Edev|]]]].
  - intros i Hi. rewrite Hbytes by lia.
    assert (E : (dir_hole st dp <=? dir_hole st dp + i)
                && (dir_hole st dp + i <? dir_hole st dp + DIRENT_SIZE) = true).
    { apply andb_true_iff. split; [apply Z.leb_le | apply Z.ltb_lt]; lia. }
    rewrite E. f_equal. lia.
  - intros p Hp Hout. rewrite Hbytes by exact Hp.
    assert (E : (dir_hole st dp <=? p) && (p <? dir_hole st dp + DIRENT_SIZE) = false).
    { apply andb_false_iff.
      destruct (Z_lt_dec p (dir_hole st dp));
        [left; apply Z.leb_gt | right; apply Z.ltb_ge]; lia. }
    rewrite E. reflexivity.
  - constructor.
    + exact Hok'.
    + unfold disk_ok. rewrite Hsb, Hlen. apply (dir_disk _ _ Hdir).
    + rewrite Hh. apply (dir_held _ _ Hdir).
    + rewrite Ety. apply (dir_type _ _ Hdir).
    + rewrite Hsize. lia.
    + rewrite Hsize. pose proof (dir_whole _ _ Hdir) as Hw16.
      destruct (Z.max_spec (i_size (inode_of st dp)) (dir_hole st dp + DIRENT_SIZE))
        as [[_ ->]|[_ ->]]; [|exact Hw16].
      rewrite E0. rewrite H16.
      replace (16 * k0 + 16) with ((k0 + 1) * 16) by lia. apply Z.mod_mul. lia.
    + intros p Hp. rewrite Hsize in Hp.
      destruct (Z_lt_dec p (i_size (inode_of st dp))) as [Hold|Hnew].
      * pose proof (dir_mapped _ _ Hdir p ltac:(lia)) as Hm.
        rewrite lookup_addr_slot in *.
        assert (Hpb : 0 <= p / BSIZE < MAXFILE) by (apply block_in_file; lia).
        rewrite Hmono;
          [exact Hm | apply slot_path_data; apply data_path_of_ok; exact Hpb | exact Hm].
      * apply Hrange. lia.
Qed.

(** The records of the new state. *)
Lemma dirlink_records st dp name inum st' :
  dir_ok st dp -> dir_find st dp name = None ->
  dir_hole st dp + DIRENT_SIZE <= MAXFILE * BSIZE ->
  writei dp (dirent_bytes name inum) (dir_hole st dp) DIRENT_SIZE st
  = Ret DIRENT_SIZE st' ->
  exists k0,
    dir_hole st dp = DIRENT_SIZE * k0 /\ 0 <= k0
    /\ k0 < i_size (inode_of st' dp) / DIRENT_SIZE
    /\ de_inum (dir_record st' dp k0) = inum mod 2 ^ 16
    /\ namecmp name (de_name (dir_record st' dp k0)) = 0
    /\ forall j, 0 <= j < i_size (inode_of st' dp) / DIRENT_SIZE -> j <> k0 ->
                 rec_matches name (dir_record st' dp j) = false.
Proof.
  intros Hdir Hfind Hmax Hw.
  destruct (dir_hole_record st dp Hdir) as (k0 & E0 & Hk0 & _).
  destruct (dir_whole_size st dp Hdir) as [Esz Hq].
  pose proof (dir_size _ _ Hdir) as Hsz. pose proof MAXFILE_bytes as HM.
  destruct (dirlink_state st dp name inum st' Hdir Hmax Hw)
    as (Hnew & Hold & Hsize & _ & Hdir').
  assert (H16 : DIRENT_SIZE = 16) by reflexivity.
  assert (Hrec : forall i, 0 <= i < DIRENT_SIZE ->
            byte_at (dir_record st' dp k0) i = byte_at (dirent_bytes name inum) i).
  { intros i Hi. unfold dir_record. rewrite byte_at_file_bytes by exact Hi.
    rewrite <- E0. apply Hnew. exact Hi. }
  destruct (record_fields _ name inum Hrec) as [Hinum Hname].
  assert (Hn' : i_size (inode_of st' dp) / DIRENT_SIZE
                = Z.max (i_size (inode_of st dp) / DIRENT_SIZE) (k0 + 1)).
  { rewrite Hsize, E0. rewrite H16 in *.
    destruct (Z_le_dec (16 * k0 + 16) (i_size (inode_of st dp))) as [Hin|Hout].
    - rewrite Z.max_l by lia.
      assert (k0 + 1 <= i_size (inode_of st dp) / 16)
        by (apply Z.div_le_lower_bound; lia).
      lia.
    - rewrite Z.max_r by lia.
      replace (16 * k0 + 16) with ((k0 + 1) * 16) by lia.
      rewrite Z.div_mul by lia. lia. }
  exists k0. split; [exact E0|]. split; [lia|]. split; [lia|].
  split; [exact Hinum|]. split; [exact Hname|].
  intros j Hj Hne.
  assert (Hjn : j < i_size (inode_of st dp) / DIRENT_SIZE) by lia.
  assert (Esame : dir_record st' dp j = dir_record st dp j).
  { unfold dir_record. apply file_bytes_ext. intros p Hp.
    apply Hold; rewrite H16 in *; lia. }
  rewrite Esame. unfold dir_find, dir_records in Hfind.
  apply (first_record_None _ _ _ _ _ Hfind). lia.
Qed.

End LINK.

(** ** [dirlink] returns *)

Lemma record_in_block k : (16 * k) mod 512 = 16 * (k mod 32).
Proof. change 512 with (16 * 32). apply Z.mul_mod_distr_l; lia. Qed.

Section LINK_RETURNS.
Context `{Params}.
Hypothesis Hdirdev : T_DIR <> T_DEV.

(** The record that [dirlink] writes lies in one block, which is mapped
    unless the record starts a new block at the end of the directory. *)
Lemma dir_hole_mapped st dp :
  dir_ok st dp ->
  dir_hole st dp mod BSIZE <> 0 \/ dir_hole st dp < i_size (inode_of st dp) ->
  forall q, dir_hole st dp <= q < dir_hole st dp + DIRENT_SIZE ->
            lookup_addr st (inode_of st dp) (q / BSIZE) <> 0.
Proof.
  intros Hdir Hin q Hq.
  destruct (dir_hole_record st dp Hdir) as (k0 & E0 & Hk0 & _).
  destruct (dir_whole_size st dp Hdir) as [Esz Hsq].
  set (hole := dir_hole st dp) in *. set (size := i_size (inode_of st dp)) in *.
  assert (H16 : DIRENT_SIZE = 16) by reflexivity. rewrite H16 in *.
  rewrite BSIZE_val in *.
  assert (Hblock : q / 512 = hole / 512).
  { pose proof (Z.div_mod hole 512 ltac:(lia)) as Hdm.
    pose proof (Z.mod_pos_bound hole 512 ltac:(lia)) as Hmb.
    pose proof (record_in_block k0) as Hrb. rewrite <- E0 in Hrb.
    pose proof (Z.mod_pos_bound k0 32 ltac:(lia)) as Hk32.
    symmetry. apply (Z.div_unique q 512 (hole / 512) (q - 512 * (hole / 512))); lia. }
  rewrite Hblock.
  destruct (Z_lt_dec hole size) as [Hlt|Hge].
  - apply (dir_mapped _ _ Hdir hole). fold size. lia.
  - destruct Hin as [Hmod|Hlt]; [|lia].
    assert (Ehs : hole = size) by lia.
    assert (Hpos : 0 < hole).
    { destruct (Z.eq_dec hole 0) as [Ez|]; [|lia]. rewrite Ez in Hmod.
      exfalso. apply Hmod. reflexivity. }
    assert (Eprev : (hole - 1) / 512 = hole / 512).
    { pose proof (Z.div_mod hole 512 ltac:(lia)) as Hdm.
      pose proof (Z.mod_pos_bound hole 512 ltac:(lia)) as Hmb.
      symmetry.
      apply (Z.div_unique (hole - 1) 512 (hole / 512) (hole mod 512 - 1)); lia. }
    rewrite <- Eprev. apply (dir_mapped _ _ Hdir (hole - 1)). fold size. lia.
Qed.

Lemma chunks_record st dp : dir_ok st dp -> chunks (dir_hole st dp) DIRENT_SIZE = 1.
Proof.
  intros Hdir.
  destruct (dir_hole_record st dp Hdir) as (k0 & E0 & Hk0 & _).
  set (hole := dir_hole st dp) in *.
  assert (H16 : DIRENT_SIZE = 16) by reflexivity. rewrite H16 in *.
  unfold chunks. rewrite BSIZE_val.
  pose proof (Z.mod_pos_bound hole 512 ltac:(lia)) as Hmb.
  pose proof (record_in_block k0) as Hrb. rewrite <- E0 in Hrb.
  pose proof (Z.mod_pos_bound k0 32 ltac:(lia)) as Hk32.
  symmetry. apply (Z.div_unique _ 512 1 (hole mod 512 + 16 + 512 - 1 - 512)); lia.
Qed.

(** [dirlink] of a name that is not in the directory returns 0 when the
    record fits and its block is mapped or three blocks are free; in a
    directory of the largest size it panics. *)
Lemma dirlink_returns st dp name inum :
  dir_ok st dp -> dir_find st dp name = None ->
  (MAXFILE * BSIZE < dir_hole st dp + DIRENT_SIZE ->
   dirlink dp name inum st = Panic "dirlink")
  /\ (dir_hole st dp + DIRENT_SIZE <= MAXFILE * BSIZE ->
      dir_hole st dp mod BSIZE <> 0 \/ dir_hole st dp < i_size (inode_of st dp)
      \/ (3 <= free_count st)%nat ->
      exists st', dirlink dp name inum st = Ret 0 st').
Proof.
  intros Hdir Hfind.
  pose proof (dir_type_dev Hdirdev st dp Hdir) as Hty.
  pose proof (dir_size _ _ Hdir) as Hsz. pose proof MAXFILE_bytes as HM.
  destruct (dir_hole_record st dp Hdir) as (k0 & E0 & Hk0 & _).
  destruct (dir_whole_size st dp Hdir) as [Esz Hq].
  assert (H16 : DIRENT_SIZE = 16) by reflexivity.
  assert (Hoff : 0 <= dir_hole st dp <= i_size (inode_of st dp)).
  { rewrite E0. rewrite H16 in *. lia. }
  rewrite (dirlink_absent Hdirdev st dp name inum Hdir Hfind).
  split.
  - intros Hfull.
    assert (Hw : writei dp (dirent_bytes name inum) (dir_hole st dp) DIRENT_SIZE st
                 = Ret (-1) st).
    { rewrite (writei_unfold st dp _ _ _ Hty).
      assert (Hc : (i_size (inode_of st dp) <? dir_hole st dp)
                   || (to_uint (dir_hole st dp + DIRENT_SIZE) <? dir_hole st dp) = false).
      { apply orb_false_iff. split; apply Z.ltb_ge; [lia|].
        rewrite to_uint_small by (rewrite H16; lia). lia. }
      rewrite Hc.
      assert (Hc2 : (to_uint (MAXFILE * BSIZE) <? to_uint (dir_hole st dp + DIRENT_SIZE))
                    = true).
      { apply Z.ltb_lt. rewrite !to_uint_small by (rewrite ?H16; lia). lia. }
      rewrite Hc2. reflexivity. }
    rewrite (bind_Ret _ _ _ _ _ Hw). reflexivity.
  - intros Hmax Hroom.
    destruct (writei_returns st dp (dirent_bytes name inum) (dir_hole st dp) DIRENT_SIZE
                (dir_fs _ _ Hdir) Hty ltac:(lia) ltac:(rewrite H16; lia) ltac:(lia) Hmax
                (dir_disk _ _ Hdir) (dir_held _ _ Hdir)) as (st' & Hw).
    + destruct Hroom as [Hm|[Hl|Hf]].
      * left. apply dir_hole_mapped; [exact Hdir | left; exact Hm].
      * left. apply dir_hole_mapped; [exact Hdir | right; exact Hl].
      * right. rewrite (chunks_record st dp Hdir). lia.
    + exists st'. rewrite (bind_Ret _ _ _ _ _ Hw). rewrite Z.eqb_refl. reflexivity.
Qed.

End LINK_RETURNS.

(** A positive [int] reference count plus one is not one. *)
Lemma next_ref_held (r : Z) : 0 < r < 2 ^ 31 -> to_int (r + 1) <> 1.
Proof.
  intros Hr.   destruct (Z.eq_dec r (2 ^ 31 - 1)) as [->|Hne].
  - vm_compute. discriminate.
  - rewrite to_int_small by lia. lia.
Qed.

Section LINKED.
Context `{Params}.

(** Where [dirlookup] finds the name in a handle that is locked (the
    directory itself under its own name, which the caller holds locked),
    [dirlink] never returns: [iput] waits for the lock. *)
Lemma dirlink_found_locked (st : state) (dp : nat) (name : list Z) (inum : Z)
      (k : Z) (ip : nat) (st1 : state) :
  T_DIR <> T_DEV -> dir_ok st dp ->
  dir_find st dp name = Some k ->
  iget (i_dev (inode_of st dp)) (de_inum (dir_record st dp k)) st = Ret ip st1 ->
  i_locked (inode_of st1 ip) = true ->
  dirlink dp name inum st = Hang.
Proof.
  intros Hdd Hdir Hfind Hget Hl.
  assert (Hlook : dirlookup dp name st = Ret (Some (ip, DIRENT_SIZE * k)) st1).
  { rewrite (dirlookup_scan Hdd st dp name Hdir), Hfind.
    rewrite (bind_Ret _ _ _ _ _ Hget). reflexivity. }
  unfold dirlink. rewrite (bind_Ret _ _ _ _ _ Hlook). cbv beta iota.
  apply bind_Hang. apply iput_locked. exact Hl.
Qed.

(** C8, as amended.  For a well-formed directory (a directory inode that is
    not a device, whole records within the largest file, every block below
    the size mapped, every block on the disk, no buffer locked):

    - where [dirlookup] finds the name in a handle that is not locked (and
      whose reference count is an [int]), [dirlink] drops the handle that
      [iget] returned for the record and returns -1 with the size and the
      content of the directory as they were;
    - where [dirlookup] finds nothing, the record goes to the offset of the
      first record whose inode number is zero, or to the size when there is
      none.  In a directory of the largest size with no such record
      [dirlink] panics.  Otherwise it returns 0 when the block of the record
      is mapped (the record does not start a new block at the end of the
      directory) and when three blocks are free, and it never waits nor
      fails another check than [balloc]'s.  Whenever it returns it returns
      0, the bytes of the record ([inum] cut to 16 bits, then the name in 14
      characters) are the content at that offset, the rest of the content
      is as it was, and the size is the larger of the previous size and the
      end of the record;
    - a lookup of the name in the new state is [iget] of the low 16 bits of
      [inum] and reports the offset of the record: it returns a handle for
      that inode number when the cache holds the inode or a free slot, and
      panics in [iget] otherwise; so it resolves to [inum] when
      [0 < inum < 65536].  When the low 16 bits are zero it finds
      nothing. *)
Theorem dirlink_links (st : state) (dp : nat) (name : list Z) (inum : Z) :
  T_DIR <> T_DEV -> dir_ok st dp -> 0 <= inum < 2 ^ 32 ->
  let dev := i_dev (inode_of st dp) in
  let hole := dir_hole st dp in
  (forall k ip st1,
      dir_find st dp name = Some k ->
      iget dev (de_inum (dir_record st dp k)) st = Ret ip st1 ->
      i_locked (inode_of st ip) = false -> i_ref (inode_of st ip) < 2 ^ 31 ->
      exists st',
        dirlink dp name inum st = Ret (-1) st'
        /\ i_size (inode_of st' dp) = i_size (inode_of st dp)
        /\ forall p, file_byte st' dp p = file_byte st dp p)
  /\ (dir_find st dp name = None ->
      (MAXFILE * BSIZE < hole + DIRENT_SIZE ->
       dirlink dp name inum st = Panic "dirlink")
      /\ (hole + DIRENT_SIZE <= MAXFILE * BSIZE ->
          completes (dirlink dp name inum st)
          /\ (hole mod BSIZE <> 0 \/ hole < i_size (inode_of st dp)
              \/ (3 <= free_count st)%nat ->
              exists st', dirlink dp name inum st = Ret 0 st'))
      /\ forall r st',
           dirlink dp name inum st = Ret r st' ->
           r = 0
           /\ (forall i, 0 <= i < DIRENT_SIZE ->
                 file_byte st' dp (hole + i) = byte_at (dirent_bytes name inum) i)
           /\ (forall p, 0 <= p < MAXFILE * BSIZE -> ~ hole <= p < hole + DIRENT_SIZE ->
                 file_byte st' dp p = file_byte st dp p)
           /\ i_size (inode_of st' dp)
              = Z.max (i_size (inode_of st dp)) (hole + DIRENT_SIZE)
           /\ (inum mod 2 ^ 16 <> 0 ->
               dirlookup dp name st'
               = (let* ip := iget dev (inum mod 2 ^ 16) in ret (Some (ip, hole))) st'
               /\ (has_slot st' dev (inum mod 2 ^ 16) ->
                   exists ip st'',
                     dirlookup dp name st' = Ret (Some (ip, hole)) st''
                     /\ i_inum (inode_of st'' ip) = inum mod 2 ^ 16)
               /\ (~ has_slot st' dev (inum mod 2 ^ 16) ->
                   dirlookup dp name st' = Panic "iget: no inodes"))
           /\ (inum mod 2 ^ 16 = 0 -> dirlookup dp name st' = Ret None st')).
Proof.
  intros Hdd Hdir Hinum dev hole. split.
  - intros k ip st1 Hfind Hget Hl Hr.
    assert (Hlook : dirlookup dp name st = Ret (Some (ip, DIRENT_SIZE * k)) st1).
    { rewrite (dirlookup_scan Hdd st dp name Hdir), Hfind.
      fold dev. rewrite (bind_Ret _ _ _ _ _ Hget). reflexivity. }
    unfold dirlink. rewrite (bind_Ret _ _ _ _ _ Hlook). cbv beta iota.
    apply iget_Ret_inv in Hget as (i & Hi & Hcase).
    assert (Hlt : (ip < length (icache st))%nat) by (eapply lookup_lt_Some; exact Hi).
    rewrite (inode_of_lookup _ _ _ Hi) in Hl, Hr.
    assert (Hshape : exists x, st1 = set_inode st ip x
              /\ i_addrs x = i_addrs i /\ i_size x = i_size i
              /\ i_locked x = false
              /\ (i_valid x = 0 \/ i_nlink x <> 0 \/ i_ref x <> 1)).
    { destruct Hcase as [[(Hpos & _) ->]|[_ ->]]; eexists; (split; [reflexivity|]);
        (split; [reflexivity|]); (split; [reflexivity|]); (split; [exact Hl|]).
      - right. right. apply next_ref_held; lia.
      - left. reflexivity. }
    destruct Hshape as (x & -> & Hxa & Hxs & Hlx' & Hkeep).
    assert (Hlx : icache (set_inode st ip x) !! ip = Some x).
    { unfold set_inode. simpl. apply list_lookup_insert_eq. exact Hlt. }
    rewrite (bind_Ret _ _ _ _ _ (iput_drop _ ip x Hlx Hlx' Hkeep)).
    eexists. split; [reflexivity|].
    rewrite set_inode_twice.
    rewrite <- (inode_of_lookup _ _ _ Hi) in Hxa, Hxs.
    destruct (set_inode_keeps st ip (with_ref x (to_int (i_ref x - 1))) dp Hxa Hxs)
      as [Ha Hs].
    split; [exact Hs|]. intros p. apply file_byte_same; [reflexivity | exact Ha].
  - intros Hfind.
    pose proof (dir_type_dev Hdd st dp Hdir) as Hty.
    pose proof (dir_size _ _ Hdir) as Hsz. pose proof MAXFILE_bytes as HM.
    destruct (dir_hole_record st dp Hdir) as (k0 & E0 & Hk0 & _).
    destruct (dir_whole_size st dp Hdir) as [Esz Hq].
    assert (H16 : DIRENT_SIZE = 16) by reflexivity.
    assert (Hoff : 0 <= dir_hole st dp <= i_size (inode_of st dp)).
    { rewrite E0. rewrite H16 in *. lia. }
    destruct (dirlink_returns Hdd st dp name inum Hdir Hfind) as [Hfull Hreturns].
    split; [exact Hfull|]. split.
    + intros Hmax. split; [|exact (Hreturns Hmax)].
      rewrite (dirlink_absent Hdd st dp name inum Hdir Hfind).
      apply completes_bind.
      * apply writei_completes;
          [exact (dir_fs _ _ Hdir) | exact Hty | lia | lia | lia | exact Hmax
           | exact (dir_disk _ _ Hdir) | exact (dir_held _ _ Hdir)].
      * intros w s1 Hw.
        destruct (writei_ok st dp (dirent_bytes name inum) (dir_hole st dp) DIRENT_SIZE
                    w s1 (dir_fs _ _ Hdir) Hty ltac:(lia) ltac:(lia) ltac:(lia) Hmax Hw)
          as (-> & _).
        rewrite Z.eqb_refl. exact I.
    + intros r st' Hret.
      destruct (dirlink_written Hdd st dp name inum r st' Hdir Hfind Hret)
        as (-> & Hmax & Hw).
      destruct (dirlink_state Hdd st dp name inum st' Hdir Hmax Hw)
        as (Hnew & Hold & Hsize & Edev & Hdir').
      destruct (dirlink_records Hdd st dp name inum st' Hdir Hfind Hmax Hw)
        as (k1 & E1 & Hk1 & Hk1n & Hrinum & Hrname & Hothers).
      split; [reflexivity|]. split; [exact Hnew|]. split; [exact Hold|].
      split; [exact Hsize|].
      assert (Hn' : Z.of_nat (dir_records st' dp)
                    = i_size (inode_of st' dp) / DIRENT_SIZE).
      { unfold dir_records. apply Z2Nat.id. lia. }
      split.
      * intros Hnz.
        assert (Hfind' : dir_find st' dp name = Some k1).
        { unfold dir_find. apply first_record_intro.
          - rewrite Hn'. lia.
          - unfold rec_matches. rewrite Hrinum, Hrname.
            apply Z.eqb_neq in Hnz. rewrite Hnz. reflexivity.
          - intros j Hj. apply Hothers; lia. }
        assert (Elook : dirlookup dp name st'
                        = (let* ip := iget dev (inum mod 2 ^ 16) in
                           ret (Some (ip, hole))) st').
        { rewrite (dirlookup_scan Hdd st' dp name Hdir'), Hfind', Edev, Hrinum.
          unfold hole. rewrite E1. reflexivity. }
        split; [exact Elook|].
        destruct (iget_total st' dev (inum mod 2 ^ 16)) as [Hsome Hnone].
        split.
        -- intros Hslot. destruct (Hsome Hslot) as (ip & s2 & Hget).
           exists ip, s2. rewrite Elook, (bind_Ret _ _ _ _ _ Hget).
           split; [reflexivity|].
           apply iget_Ret_inv in Hget as (i & Hi & Hcase).
           assert (Hlt : (ip < length (icache st'))%nat)
             by (eapply lookup_lt_Some; exact Hi).
           destruct Hcase as [[(_ & _ & Hc) ->]|[_ ->]];
             rewrite inode_of_set_eq by exact Hlt; [exact Hc | reflexivity].
        -- intros Hslot. rewrite Elook. apply bind_Panic. exact (Hnone Hslot).
      * intros Hz.
        rewrite (dirlookup_scan Hdd st' dp name Hdir').
        assert (Hfind' : dir_find st' dp name = None).
        { unfold dir_find. apply first_record_none_intro.
          intros j Hj. rewrite Hn' in Hj.
          destruct (Z.eq_dec j k1) as [->|Hne].
          - unfold rec_matches. rewrite Hrinum, Hz. reflexivity.
          - apply Hothers; lia. }
        rewrite Hfind'. reflexivity.
Qed.

End LINKED.

(** ** The example directories *)

Lemma xv6_dir_dev : T_DIR (Params:=xv6) <> T_DEV (Params:=xv6).
Proof. discriminate. Qed.

Lemma st0_dir_ok : dir_ok (H:=xv6) st0 0.
Proof.
  constructor.
  - exact st0_ok.
  - exact st0_disk_ok.
  - reflexivity.
  - reflexivity.
  - vm_compute. split; congruence.
  - reflexivity.
  - intros p Hp. change (i_size (inode_of st0 0)) with 0 in Hp. lia.
Qed.

Lemma st_dot_ok : dir_ok (H:=xv6) st_dot 0.
Proof.
  assert (E : dirlink (H:=xv6) 0 [46] 1 st0 = Ret 0 st_dot) by (vm_compute; reflexivity).
  destruct (dirlink_written xv6_dir_dev st0 0 [46] 1 0 st_dot st0_dir_ok eq_refl E)
    as (_ & Hmax & Hw).
  apply (dirlink_state xv6_dir_dev st0 0 [46] 1 st_dot st0_dir_ok Hmax Hw).
Qed.

(** [dirlink] of a name that resolves to the directory itself, which the
    caller holds locked, never returns; and after [dirlink] of an inode
    number whose low 16 bits are zero the name is not found. *)
Lemma dirlink_self_or_wide :
  (returned (dirlookup (H:=xv6) 0 [46] st_dot_locked) = Some (Some (0%nat, 0))
   /\ dirlink (H:=xv6) 0 [46] 2 st_dot_locked = Hang)
  /\ (dirlink (H:=xv6) 0 [97] 65536 st0 = Ret 0 st_wide
      /\ dirlookup (H:=xv6) 0 [97] st_wide = Ret None st_wide).
Proof.
  split; split; vm_compute; reflexivity.
Qed.

Lemma dirlink_links_witness :
  (dirlink (H:=xv6) 0 [97] 2 st0 = Ret 0 st_a
   /\ i_size (inode_of st_a 0) = 16
   /\ file_byte st_a 0 0 = 2 /\ file_byte st_a 0 2 = 97
   /\ exists st'', dirlookup (H:=xv6) 0 [97] st_a = Ret (Some (1%nat, 0)) st''
                   /\ i_inum (inode_of st'' 1) = 2)
  /\ exists st', dirlink (H:=xv6) 0 [46] 2 st_dot = Ret (-1) st'
                 /\ i_size (inode_of st' 0) = 16.
Proof.
  destruct (dirlink_links (H:=xv6) st0 0 [97] 2 xv6_dir_dev st0_dir_ok ltac:(lia))
    as (_ & Habsent).
  destruct (Habsent eq_refl) as (_ & Hruns & Hret).
  split.
  - destruct Hruns as (_ & Hreturns); [vm_compute; congruence|].
    destruct Hreturns as (st' & E); [right; right; vm_compute; lia|].
    assert (Ea : st' = st_a).
    { assert (E2 : final_state (dirlink (H:=xv6) 0 [97] 2 st0) = Some st') by (rewrite E; reflexivity).
      unfold st_a. rewrite E2. reflexivity. }
    subst st'.
    destruct (Hret 0 st_a E) as (_ & Hnew & _ & Hsize & Hlook & _).
    split; [exact E|]. split; [rewrite Hsize; reflexivity|].
    split; [apply (Hnew 0); vm_compute; split; congruence|].
    split; [apply (Hnew 2); vm_compute; split; congruence|].
    destruct Hlook as (Eq & Hsome & _); [vm_compute; congruence|].
    destruct Hsome as (ip & st'' & Hl & Hi).
    { exists 1%nat, blank_inode. split; [vm_compute; reflexivity | right; reflexivity]. }
    assert (Eip : ip = 1%nat).
    { assert (E3 : returned (dirlookup (H:=xv6) 0 [97] st_a) = Some (Some (1%nat, 0)))
        by (vm_compute; reflexivity).
      rewrite Hl in E3. simpl in E3. congruence. }
    subst ip. exists st''. split; [exact Hl | exact Hi].
  - destruct (dirlink_links (H:=xv6) st_dot 0 [46] 2 xv6_dir_dev st_dot_ok ltac:(lia))
      as (Hfound & _).
    assert (Eget : exists st1,
               iget 1 (de_inum (dir_record st_dot 0 0)) st_dot = Ret 0%nat st1).
    { eexists. vm_compute. reflexivity. }
    destruct Eget as (st1 & Eget).
    destruct (Hfound 0 0%nat st1 ltac:(vm_compute; reflexivity) Eget
                ltac:(vm_compute; reflexivity) ltac:(vm_compute; reflexivity))
      as (st' & Hrun & Hsize & _).
    exists st'. split; [exact Hrun|]. rewrite Hsize. vm_compute. reflexivity.
Defined.

(** * Further properties of the routines *)

(** ** [bfree] *)

Lemma readsb_any st dev :
  readable st 1 ->
  readsb dev st = Ret tt (with_sb st (decode_sb (block_data st 1))).
Proof.
  intros Hr1. unfold readsb.
  rewrite (bind_Ret _ _ _ _ _ (bread_readable st _ 1 Hr1)).
  unfold_prims.
  change (block_data (with_held st (1 :: held st)) 1) with (block_data st 1).
  rewrite (brelse_head _ 1 (held st)) by reflexivity.
  destruct st; reflexivity.
Qed.

(** [bfree] begins by reading the superblock, so it runs as in the state
    whose [sb] is the superblock of the disk. *)
Lemma bfree_reads_sb st dev b :
  readable st 1 ->
  bfree dev b st = bfree dev b (with_sb st (decode_sb (block_data st 1))).
Proof.
  intros Hr1. unfold bfree.
  rewrite (bind_Ret _ _ _ _ _ (readsb_any st dev Hr1)).
  set (st2 := with_sb st (decode_sb (block_data st 1))).
  assert (Hr2 : readable st2 1) by exact Hr1.
  rewrite (bind_Ret _ _ _ _ _ (readsb_any st2 dev Hr2)).
  reflexivity.
Qed.

Lemma bfree_free st dev b :
  sb st = decode_sb (block_data st 1) ->
  readable st 1 -> readable st (BBLOCK b (sb st)) -> in_use st b = false ->
  bfree dev b st = Panic "freeing free block".
Proof.
  intros Hsb Hr1 Hrb Hfree.
  pose proof BPB_pos as HB.
  pose proof (Z.mod_pos_bound b BPB HB) as Hbi.
  assert (Hm8 : 0 <= (b mod BPB) mod 8) by (apply Z.mod_pos_bound; lia).
  unfold bfree.
  rewrite (bind_Ret _ _ _ _ _ (readsb_run st dev Hsb Hr1)).
  unfold bind at 1, gets. cbv beta iota.
  rewrite (bind_Ret _ _ _ _ _ (bread_readable st _ _ Hrb)).
  rewrite to_int_small by (pose proof BPB_val; lia).
  unfold bind at 1, buf_data, gets. cbv beta iota.
  set (bb := BBLOCK b (sb st)) in *.
  change (block_data (with_held st (bb :: held st)) bb) with (block_data st bb).
  rewrite bit_test by exact Hm8.
  unfold in_use in Hfree. fold bb in Hfree. unfold bit_at in Hfree.
  rewrite Hfree. reflexivity.
Qed.

(** X1.  [bfree] takes the layout from the superblock of block 1, not from
    the global [sb] it was called with.  Freeing a block whose bit is clear
    is a panic.  Freeing a block whose bit is set clears that bit and no
    other, hands the bitmap block to the log, and leaves every other block,
    the locked buffers and the inode cache as they were. *)
Theorem bfree_clears (st : state) (dev b : Z) :
  let s := decode_sb (block_data st 1) in
  let bb := BBLOCK b s in
  readable st 1 -> readable st bb ->
  length (block_data st bb) = Z.to_nat BSIZE ->
  (bit_at (block_data st bb) (b mod BPB) = false ->
   bfree dev b st = Panic "freeing free block")
  /\ (bit_at (block_data st bb) (b mod BPB) = true ->
      exists st',
        bfree dev b st = Ret tt st'
        /\ sb st' = s
        /\ bit_at (block_data st' bb) (b mod BPB) = false
        /\ (forall bj, 0 <= bj -> bj <> b mod BPB ->
              bit_at (block_data st' bb) bj = bit_at (block_data st bb) bj)
        /\ (forall x, 0 <= x -> x <> bb -> block_data st' x = block_data st x)
        /\ logged st' = bb :: logged st
        /\ held st' = held st /\ icache st' = icache st).
Proof.
  intros s bb Hr1 Hrb Hlen.
  pose proof BPB_pos as HB.
  pose proof (Z.mod_pos_bound b BPB HB) as Hbi.
  set (st2 := with_sb st s).
  assert (Hsb2 : sb st2 = decode_sb (block_data st2 1)) by reflexivity.
  assert (Hr2 : readable st2 1) by exact Hr1.
  assert (Hrb2 : readable st2 (BBLOCK b (sb st2))) by exact Hrb.
  assert (Hbb : 0 <= bb) by apply to_uint_range.
  assert (Hidx : (Z.to_nat (b mod BPB / 8) < length (block_data st bb))%nat).
  { rewrite Hlen.
    assert (0 <= b mod BPB / 8 < 512); [|rewrite BSIZE_val; lia].
    split; [apply Z.div_pos; lia|].
    apply Z.div_lt_upper_bound; [lia|]. rewrite BPB_val in *. lia. }
  rewrite (bfree_reads_sb st dev b Hr1). fold s st2.
  split.
  - intros Hbit. apply bfree_free; assumption.
  - intros Hbit. eexists. split; [apply bfree_run; assumption|].
    rewrite (free_state_eq st2 b Hsb2).
    change (sb st2) with s. fold bb.
    change (block_data st2 bb) with (block_data st bb).
    split; [reflexivity|].
    rewrite block_data_with_logged.
    rewrite block_data_set_eq by (try exact Hbb; apply readable_lt; exact Hrb).
    split; [apply bit_at_clear_eq; [lia | exact Hidx]|].
    split; [intros bj Hbj Hne; apply bit_at_clear_ne; (lia || congruence)|].
    split; [|repeat split].
    intros x Hx Hne. rewrite block_data_with_logged.
    rewrite block_data_set_ne by (lia || congruence). reflexivity.
Qed.

Lemma st0_readable b : 0 <= b < 64 -> readable st0 b.
Proof.
  intros Hb. split.
  - change (held st0) with (@nil Z). apply not_elem_of_nil.
  - apply lookup_lt_is_Some_2. change (length (disk st0)) with 64%nat. lia.
Qed.

Lemma bfree_clears_witness :
  bfree 1 9 st0 = Panic "freeing free block"
  /\ exists st', bfree 1 3 st0 = Ret tt st' /\ bit_at (block_data st' 6) 3 = false
                 /\ bit_at (block_data st' 6) 2 = true.
Proof.
  split.
  - apply (bfree_clears st0 1 9); try (apply st0_readable; vm_compute; split; congruence);
      reflexivity.
  - destruct (bfree_clears st0 1 3) as [_ Hset];
      try (apply st0_readable; vm_compute; split; congruence); try reflexivity.
    destruct (Hset eq_refl) as (st' & E & _ & Hc & Ho & _).
    exists st'. split; [exact E|]. split; [exact Hc|].
    exact (eq_trans (Ho 2 ltac:(lia) ltac:(vm_compute; congruence)) eq_refl).
Defined.

(** ** [balloc] and [bfree] together *)

Lemma layout_bitmap st x :
  layout_ok st -> 0 <= x < sb_size (sb st) ->
  BBLOCK x (sb st) = x / BPB + sb_bmapstart (sb st)
  /\ 1 < BBLOCK x (sb st) < data_start (sb st).
Proof.
  intros Hok Hx. pose proof BPB_pos as HB.
  pose proof (lo_size _ Hok) as Hsz. pose proof (lo_bmapstart _ Hok) as Hbm.
  pose proof (lo_data _ Hok) as Hd.
  unfold size_ok in Hsz. unfold data_start in *.
  assert (0 <= x / BPB <= sb_size (sb st) / BPB).
  { split; [apply Z.div_pos; lia | apply Z.div_le_mono; lia]. }
  unfold BBLOCK. rewrite Z.quot_div_nonneg by lia.
  rewrite to_uint_small by lia. lia.
Qed.

Lemma layout_readable st b :
  layout_ok st -> held st = [] -> 0 <= b < sb_size (sb st) -> readable st b.
Proof.
  intros Hok Hh Hb. split.
  - rewrite Hh. apply not_elem_of_nil.
  - apply lookup_lt_is_Some_2. pose proof (lo_disk _ Hok) as Hd.
    unfold disk_ok in Hd. lia.
Qed.

(** A block and the bit that stands for it: two blocks below [sb.size] with
    the same bitmap block and the same bit are the same block. *)
Lemma bitmap_bit_inj st x y :
  layout_ok st -> 0 <= x < sb_size (sb st) -> 0 <= y < sb_size (sb st) ->
  BBLOCK x (sb st) = BBLOCK y (sb st) -> x mod BPB = y mod BPB -> x = y.
Proof.
  intros Hok Hx Hy Eb Em. pose proof BPB_pos as HB.
  destruct (layout_bitmap st x Hok Hx) as [Ex _].
  destruct (layout_bitmap st y Hok Hy) as [Ey _].
  rewrite (Z.div_mod x BPB), (Z.div_mod y BPB) by lia.
  rewrite Em. f_equal. f_equal. lia.
Qed.

(** X2.  In a well-formed layout with no buffer locked, the block that
    [balloc] returned can be given back: [bfree] of it returns, the bitmap
    is then as it was before the allocation, and the next [balloc] returns
    the same block again. *)
Theorem balloc_bfree_reuse (st : state) (dev r : Z) (st1 : state) :
  layout_ok st -> held st = [] ->
  balloc dev st = Ret r st1 ->
  exists st2,
    bfree dev r st1 = Ret tt st2
    /\ sb st2 = sb st
    /\ (forall x, 0 <= x < sb_size (sb st) -> in_use st2 x = in_use st x)
    /\ exists st3, balloc dev st2 = Ret r st3 /\ in_use st3 r = true.
Proof.
  intros Hok Hh Hret. pose proof BPB_pos as HB.
  pose proof (lo_size _ Hok) as Hsz. pose proof (lo_bmapstart _ Hok) as Hbm.
  pose proof (lo_blocks _ Hok) as Hblocks.
  assert (Hsz' := Hsz). unfold size_ok in Hsz'.
  pose proof (data_start_pos _ Hsz Hbm) as Hds.
  apply (balloc_Ret_inv dev st r st1 Hsz) in Hret.
  destruct Hret as (Hr & Hfree & Hlow & Hrd & Hrbb & ->).
  destruct (layout_bitmap st r Hok Hr) as [Ebb Hbb].
  assert (Hdata : data_start (sb st) <= r).
  { destruct (Z_lt_dec r (data_start (sb st))) as [Hlt|]; [|lia].
    rewrite (lo_meta _ Hok r) in Hfree by lia. discriminate. }
  set (bb := BBLOCK r (sb st)) in *.
  set (st1 := alloc_state st r).
  assert (Hrm : 0 <= r mod BPB < BPB) by (apply Z.mod_pos_bound; lia).
  assert (Hidx : (Z.to_nat (r mod BPB / 8) < length (block_data st bb))%nat)
    by (apply bit_index_bound; assumption).
  assert (Hb1 : block_data st1 1 = block_data st 1)
    by (apply block_data_alloc_other; fold bb; lia).
  assert (Hbm1 : block_data st1 bb = set_bit (block_data st bb) (r mod BPB))
    by (apply block_data_alloc_bitmap; fold bb; (assumption || lia)).
  assert (Hsb1 : sb st1 = decode_sb (block_data st1 1))
    by (rewrite Hb1; exact (lo_sb _ Hok)).
  assert (Hrd1 : forall b, readable st b -> readable st1 b).
  { intros b [Hhb Hdb]. split; [exact Hhb|].
    apply lookup_lt_is_Some_2. unfold st1. rewrite length_disk_alloc_state.
    apply lookup_lt_is_Some_1. exact Hdb. }
  assert (Hu1 : in_use st1 r = true).
  { unfold in_use. change (sb st1) with (sb st). fold bb. rewrite Hbm1.
    apply bit_at_set_eq; [lia | exact Hidx]. }
  eexists. split.
  { apply bfree_run; [exact Hsb1 | | | exact Hu1].
    - apply Hrd1, layout_readable; (assumption || lia).
    - apply Hrd1. exact Hrbb. }
  rewrite (free_state_eq st1 r Hsb1).
  change (sb st1) with (sb st). fold bb. rewrite Hbm1.
  set (st2 := with_logged _ _).
  assert (Hbm2 : block_data st2 bb
                 = clear_bit (set_bit (block_data st bb) (r mod BPB)) (r mod BPB)).
  { unfold st2. rewrite block_data_with_logged.
    apply block_data_set_eq; [lia|]. apply readable_lt, Hrd1. exact Hrbb. }
  assert (Hoth2 : forall x, 0 <= x -> x <> bb -> x <> r ->
                            block_data st2 x = block_data st x).
  { intros x Hx Hne Hner. unfold st2. rewrite block_data_with_logged.
    rewrite block_data_set_ne by (lia || congruence).
    apply block_data_alloc_other; fold bb; (lia || congruence). }
  assert (Huse : forall x, 0 <= x < sb_size (sb st) -> in_use st2 x = in_use st x).
  { intros x Hx. unfold in_use. change (sb st2) with (sb st).
    destruct (layout_bitmap st x Hok Hx) as [Exb Hxb].
    assert (Hxm : 0 <= x mod BPB < BPB) by (apply Z.mod_pos_bound; lia).
    destruct (Z.eq_dec (BBLOCK x (sb st)) bb) as [E|E].
    - rewrite E, Hbm2.
      destruct (Z.eq_dec (x mod BPB) (r mod BPB)) as [Em|Em].
      + assert (x = r) by (apply (bitmap_bit_inj st); assumption). subst x.
        rewrite bit_at_clear_eq by (rewrite ?length_set_bit; (lia || assumption)).
        unfold in_use in Hfree. fold bb in Hfree. symmetry. exact Hfree.
      + rewrite bit_at_clear_ne, bit_at_set_ne by (lia || congruence). reflexivity.
    - rewrite Hoth2 by (lia || congruence). reflexivity. }
  split; [reflexivity|]. split; [exact Huse|].
  assert (Hrd2 : forall b, readable st b -> readable st2 b).
  { intros b Hb. destruct (Hrd1 b Hb) as [Hhb Hdb]. split; [exact Hhb|].
    apply lookup_lt_is_Some_2. unfold st2. simpl. rewrite length_insert.
    apply lookup_lt_is_Some_1. exact Hdb. }
  assert (Hfree2 : in_use st2 r = false) by (rewrite Huse by lia; exact Hfree).
  exists (alloc_state st2 r). split.
  - unfold balloc, bind, gets. change (sb st2) with (sb st).
    apply (balloc_blocks_alloc dev st2 r Hsz Hr Hfree2 (Hrd2 _ Hrd)).
    + lia.
    + reflexivity.
    + intros x Hx. rewrite Huse by lia. apply Hlow. lia.
    + intros x Hx. apply Hrd2. apply layout_readable; try assumption.
      change (sb st2) with (sb st).
      destruct (layout_bitmap st x Hok ltac:(lia)) as [_ Hxb].
      pose proof (lo_data _ Hok) as Hd. lia.
    + assert (0 <= sb_size (sb st) / BPB) by (apply Z.div_pos; lia).
      rewrite Z2Nat.id, Z.sub_0_r by lia.
      assert (r / BPB <= sb_size (sb st) / BPB) by (apply Z.div_le_mono; lia).
      lia.
  - unfold in_use. rewrite sb_alloc_state.
    rewrite block_data_alloc_bitmap
      by (change (sb st2) with (sb st); fold bb; try lia; apply Hrd2; exact Hrbb).
    change (BBLOCK r (sb st2)) with bb.
    apply bit_at_set_eq; [lia|].
    rewrite Hbm2, length_clear_bit, length_set_bit. exact Hidx.
Qed.

Lemma st0_layout : layout_ok st0.
Proof.
  constructor.
  - exact (ok_size _ _ st0_ok).
  - exact (ok_bmapstart _ _ st0_ok).
  - exact (ok_data _ _ st0_ok).
  - exact (ok_blocks _ _ st0_ok).
  - exact (ok_meta _ _ st0_ok).
  - exact st0_disk_ok.
  - vm_compute. reflexivity.
Qed.

Lemma balloc_bfree_reuse_witness :
  exists st2,
    bfree 1 7 (alloc_state st0 7) = Ret tt st2
    /\ sb st2 = sb st0
    /\ (forall x, 0 <= x < sb_size (sb st0) -> in_use st2 x = in_use st0 x)
    /\ exists st3, balloc 1 st2 = Ret 7 st3 /\ in_use st3 7 = true.
Proof.
  apply (balloc_bfree_reuse st0 1 7 (alloc_state st0 7) st0_layout eq_refl).
  vm_compute. reflexivity.
Defined.

(** ** The inode on disk: [iupdate] and [ilock] *)

Lemma byte_at_set_ushort_ne d pos v p :
  0 <= pos -> 0 <= p -> (p < pos \/ pos + 2 <= p) ->
  byte_at (set_ushort d pos v) p = byte_at d p.
Proof.
  intros Hpos Hp Hout. unfold set_ushort.
  rewrite !byte_at_set_ne by lia. reflexivity.
Qed.

Lemma byte_at_put_addrs_ne l : forall d pos p,
  0 <= pos -> 0 <= p -> (p < pos \/ pos + 4 * Z.of_nat (length l) <= p) ->
  byte_at (put_addrs d pos l) p = byte_at d p.
Proof.
  induction l as [|a l IH]; intros d pos p Hpos Hp Hout; simpl; [reflexivity|].
  simpl length in Hout.
  rewrite IH by lia. apply byte_at_set_uint_pos_ne; lia.
Qed.

(** [iupdate] stores into the [sizeof(struct dinode)] bytes of its inode
    only. *)
Lemma byte_at_put_dinode_ne d pos i p :
  0 <= pos -> 0 <= p -> (p < pos \/ pos + DINODE_SIZE <= p) ->
  byte_at (put_dinode d pos i) p = byte_at d p.
Proof.
  intros Hpos Hp Hout. rewrite DINODE_SIZE_val in Hout.
  unfold put_dinode. cbv zeta.
  assert (Hl : Z.of_nat (length (take (Z.to_nat (NDIRECT + 2)) (i_addrs i))) <= 13).
  { rewrite length_take. change (Z.to_nat (NDIRECT + 2)) with 13%nat. lia. }
  rewrite byte_at_put_addrs_ne by lia.
  rewrite byte_at_set_uint_pos_ne by lia.
  rewrite !byte_at_set_ushort_ne by lia. reflexivity.
Qed.

Lemma ushort_at_set_eq d pos v :
  0 <= pos -> (Z.to_nat (pos + 1) < length d)%nat ->
  ushort_at (set_ushort d pos v) pos = to_ushort v.
Proof.
  intros Hpos Hlen. unfold ushort_at, set_ushort.
  rewrite (byte_at_set_eq _ (pos + 1)) by (rewrite ?length_set_byte; lia).
  rewrite (byte_at_set_ne _ (pos + 1) pos) by lia.
  rewrite (byte_at_set_eq _ pos) by lia.
  unfold to_uchar, to_ushort. change (2 ^ 8) with 256. change (2 ^ 16) with 65536.
  Z.to_euclidean_division_equations. lia.
Qed.

Lemma ushort_at_ext d d' pos :
  byte_at d' pos = byte_at d pos -> byte_at d' (pos + 1) = byte_at d (pos + 1) ->
  ushort_at d' pos = ushort_at d pos.
Proof. unfold ushort_at. intros -> ->. reflexivity. Qed.

Lemma to_short_to_ushort v : - 2 ^ 15 <= v < 2 ^ 15 -> to_short (to_ushort v) = v.
Proof.
  intros Hv. unfold to_short, to_ushort.
  change (2 ^ 15) with 32768 in *. change (2 ^ 16) with 65536.
  Z.to_euclidean_division_equations. lia.
Qed.

(** The [short] fields that [iupdate] stored are the ones [ilock] loads. *)
Lemma dinode_shorts_put_dinode d pos i :
  0 <= pos -> (Z.to_nat (pos + 64) <= length d)%nat ->
  ushort_at (put_dinode d pos i) pos = to_ushort (i_type i)
  /\ ushort_at (put_dinode d pos i) (pos + 2) = to_ushort (i_major i)
  /\ ushort_at (put_dinode d pos i) (pos + 4) = to_ushort (i_minor i)
  /\ ushort_at (put_dinode d pos i) (pos + 6) = to_ushort (i_nlink i).
Proof.
  intros Hpos Hlen. unfold put_dinode. cbv zeta.
  set (d1 := set_ushort d pos (i_type i)).
  set (d2 := set_ushort d1 (pos + 2) (i_major i)).
  set (d3 := set_ushort d2 (pos + 4) (i_minor i)).
  set (d4 := set_ushort d3 (pos + 6) (i_nlink i)).
  set (d5 := set_uint_pos d4 (pos + 8) (i_size i)).
  set (l := take (Z.to_nat (NDIRECT + 2)) (i_addrs i)).
  assert (Hrest : forall p, 0 <= p < pos + 8 ->
                            byte_at (put_addrs d5 (pos + 12) l) p = byte_at d4 p).
  { intros p Hp. rewrite byte_at_put_addrs_ne by lia.
    unfold d5. apply byte_at_set_uint_pos_ne; lia. }
  assert (L1 : length d1 = length d) by apply length_set_ushort.
  assert (L2 : length d2 = length d) by (unfold d2; rewrite length_set_ushort; exact L1).
  assert (L3 : length d3 = length d) by (unfold d3; rewrite length_set_ushort; exact L2).
  repeat split.
  - rewrite (ushort_at_ext d4) by (apply Hrest; lia).
    unfold d4, d3, d2.
    rewrite !(ushort_at_ext (set_ushort _ _ _) _ pos)
      by (apply byte_at_set_ushort_ne; lia).
    apply ushort_at_set_eq; lia.
  - rewrite (ushort_at_ext d4) by (rewrite ?Hrest by lia; try reflexivity; apply Hrest; lia).
    unfold d4, d3.
    rewrite !(ushort_at_ext (set_ushort _ _ _) _ (pos + 2))
      by (apply byte_at_set_ushort_ne; lia).
    apply ushort_at_set_eq; lia.
  - rewrite (ushort_at_ext d4) by (apply Hrest; lia).
    unfold d4.
    rewrite !(ushort_at_ext (set_ushort _ _ _) _ (pos + 4))
      by (apply byte_at_set_ushort_ne; lia).
    apply ushort_at_set_eq; lia.
  - rewrite (ushort_at_ext d4) by (apply Hrest; lia).
    apply ushort_at_set_eq; lia.
Qed.

Lemma dinode_addrs_put_dinode d pos i :
  0 <= pos -> (Z.to_nat (pos + 64) <= length d)%nat -> typed_inode i ->
  dinode_addrs (put_dinode d pos i) pos = i_addrs i.
Proof.
  intros Hpos Hlen Hty. pose proof (ty_length _ Hty) as Hla.
  apply list_eq. intros k. unfold dinode_addrs.
  rewrite list_lookup_fmap.
  destruct (decide (k < Z.to_nat (NDIRECT + 2))%nat) as [Hk|Hk].
  - rewrite lookup_seq_lt by exact Hk. simpl.
    destruct (lookup_lt_is_Some_2 (i_addrs i) k) as [a Ha]; [lia|].
    rewrite Ha. f_equal.
    rewrite dinode_addr_put_dinode by (try assumption; lia).
    unfold addr_at. rewrite Nat2Z.id, Ha. simpl.
    apply to_uint_small. apply (ty_addrs _ Hty). eapply list_elem_of_lookup_2. exact Ha.
  - rewrite lookup_seq_ge by lia. simpl. symmetry. apply lookup_ge_None. lia.
Qed.

(** What [iupdate] stores for a typed inode is what [ilock] loads. *)
Lemma load_put_dinode d pos i j :
  0 <= pos -> (Z.to_nat (pos + 64) <= length d)%nat -> typed_inode i ->
  disk_fields (load_dinode (put_dinode d pos i) pos j) = disk_fields i.
Proof.
  intros Hpos Hlen Hty.
  destruct (dinode_shorts_put_dinode d pos i Hpos Hlen) as (E1 & E2 & E3 & E4).
  unfold disk_fields, load_dinode. simpl.
  unfold dinode_type, dinode_major, dinode_minor, dinode_nlink.
  rewrite E1, E2, E3, E4.
  rewrite !to_short_to_ushort
    by (apply Hty).
  rewrite dinode_size_put_dinode by lia.
  rewrite to_uint_small by (apply Hty).
  rewrite dinode_addrs_put_dinode by assumption.
  reflexivity.
Qed.

(** [ilock] on an unlocked handle that is not valid reads the inode from the
    disk. *)
Lemma ilock_load st jp j :
  icache st !! jp = Some j -> 1 <= i_ref j -> i_locked j = false -> i_valid j = 0 ->
  readable st (IBLOCK (i_inum j) (sb st)) ->
  let d := block_data st (IBLOCK (i_inum j) (sb st)) in
  let j' := with_valid (load_dinode d (dinode_pos (i_inum j)) (with_locked j true)) 1 in
  ilock jp st
  = if i_type j' =? 0 then Panic "ilock: no type" else Ret tt (set_inode st jp j').
Proof.
  intros Hl Hr Hlock Hv Hrd. cbv zeta.
  assert (Hlt : (jp < length (icache st))%nat) by (eapply lookup_lt_Some; exact Hl).
  unfold ilock. unfold bind at 1, iread at 1, gets.
  rewrite (inode_of_lookup _ _ _ Hl).
  assert (Hr' : (i_ref j <? 1) = false) by (apply Z.ltb_ge; lia).
  rewrite Hr'.
  rewrite (bind_Ret _ _ _ _ _ (acquiresleep_free st jp j Hl Hlock)).
  set (st1 := set_inode st jp (with_locked j true)).
  assert (E1 : inode_of st1 jp = with_locked j true)
    by (apply inode_of_set_eq; exact Hlt).
  unfold bind at 1, iread at 1, gets, id. rewrite E1.
  change (i_valid (with_locked j true)) with (i_valid j). rewrite Hv.
  change (0 =? 0) with true. cbv beta iota.
  unfold bind at 1, gets.
  change (sb st1) with (sb st).
  change (i_dev (with_locked j true)) with (i_dev j).
  change (i_inum (with_locked j true)) with (i_inum j).
  set (b := IBLOCK (i_inum j) (sb st)) in *.
  assert (Hrd1 : readable st1 b) by exact Hrd.
  rewrite (bind_Ret _ _ _ _ _ (bread_readable st1 _ b Hrd1)).
  unfold bind at 1, buf_data, gets.
  unfold bind at 1, iwrite at 1, modify.
  unfold bind at 1.
  rewrite (brelse_head _ b (held st)) by reflexivity.
  unfold bind at 1, iwrite at 1, modify.
  unfold bind at 1, iread at 1, gets.
  st_simpl.
  change (block_data st1 b) with (block_data st b).
  rewrite !inode_of_set_eq
    by (simpl; rewrite ?length_insert; exact Hlt).
  change (inode_of (with_held st1 (b :: held st)) jp) with (inode_of st1 jp).
  rewrite E1.
  set (j' := with_valid (load_dinode (block_data st b) (dinode_pos (i_inum j))
                                     (with_locked j true)) 1).
  change (i_type (with_valid (load_dinode (block_data st b) (dinode_pos (i_inum j))
                                          (with_locked j true)) 1))
    with (i_type j').
  destruct (i_type j' =? 0); [reflexivity|].
  unfold ret. f_equal. unfold st1, set_inode, with_icache, with_held. simpl.
  rewrite !list_insert_insert_eq. destruct st; reflexivity.
Qed.

(** X3.  What [iupdate] writes, [ilock] reads back.  After [iupdate] of a
    handle whose fields hold values of their C types, [ilock] of an unlocked
    handle of the same inode that is not valid yet loads exactly the type,
    device numbers, link count, size and addresses that were written, marks
    the handle valid and locked, and leaves the disk as it is; when the type
    written was 0 it panics instead. *)
Theorem iupdate_ilock (st : state) (ip jp : nat) (st1 : state) (j : inode) :
  blocks_ok st -> held st = [] ->
  typed_inode (inode_of st ip) ->
  iupdate ip st = Ret tt st1 ->
  icache st1 !! jp = Some j ->
  i_inum j = i_inum (inode_of st ip) ->
  1 <= i_ref j -> i_locked j = false -> i_valid j = 0 ->
  (i_type (inode_of st ip) = 0 -> ilock jp st1 = Panic "ilock: no type")
  /\ (i_type (inode_of st ip) <> 0 ->
      exists st2,
        ilock jp st1 = Ret tt st2
        /\ disk_fields (inode_of st2 jp) = disk_fields (inode_of st ip)
        /\ i_valid (inode_of st2 jp) = 1 /\ i_locked (inode_of st2 jp) = true
        /\ i_ref (inode_of st2 jp) = i_ref j
        /\ disk st2 = disk st1 /\ held st2 = held st1).
Proof.
  intros Hblocks Hh Hty Hup Hj Hinum Hr Hlock Hv.
  apply iupdate_state in Hup. cbv zeta in Hup. destruct Hup as [Hrd ->].
  set (i := inode_of st ip) in *.
  set (b := IBLOCK (i_inum i) (sb st)) in *.
  set (pos := dinode_pos (i_inum i)).
  set (st1 := with_logged (set_block st b (put_dinode (block_data st b) pos i))
                          (b :: logged st)) in *.
  assert (Hlt : (jp < length (icache st1))%nat) by (eapply lookup_lt_Some; exact Hj).
  assert (Hb : 0 <= b) by apply to_uint_range.
  assert (Hlen : length (block_data st b) = Z.to_nat BSIZE).
  { apply blocks_ok_length; [exact Hblocks | apply Hrd]. }
  pose proof (dinode_pos_bound (i_inum i)) as Hpos. fold pos in Hpos.
  assert (Hlen' : (Z.to_nat (pos + 64) <= length (block_data st b))%nat)
    by (rewrite Hlen; lia).
  assert (Hd1 : block_data st1 b = put_dinode (block_data st b) pos i).
  { unfold st1. rewrite block_data_with_logged.
    apply block_data_set_eq; [exact Hb | apply readable_lt; exact Hrd]. }
  assert (Hrd1 : readable st1 (IBLOCK (i_inum j) (sb st1))).
  { rewrite Hinum. change (sb st1) with (sb st). fold b.
    destruct Hrd as [Hhb Hdb]. split; [exact Hhb|].
    apply lookup_lt_is_Some_2. unfold st1. simpl. rewrite length_insert.
    apply lookup_lt_is_Some_1. exact Hdb. }
  pose proof (ilock_load st1 jp j Hj Hr Hlock Hv Hrd1) as Hrun. cbv zeta in Hrun.
  rewrite Hinum in Hrun. change (sb st1) with (sb st) in Hrun.
  fold b pos in Hrun. rewrite Hd1 in Hrun.
  set (j' := with_valid (load_dinode (put_dinode (block_data st b) pos i) pos
                                     (with_locked j true)) 1) in *.
  assert (Hf : disk_fields j' = disk_fields i).
  { apply (load_put_dinode _ pos i (with_locked j true)); [lia | exact Hlen' | exact Hty]. }
  assert (Et : i_type j' = i_type i) by (injection Hf; auto).
  rewrite Et in Hrun. split.
  - intros Ez. rewrite Hrun, Ez. reflexivity.
  - intros Hnz. apply Z.eqb_neq in Hnz. rewrite Hnz in Hrun.
    eexists. split; [exact Hrun|].
    rewrite inode_of_set_eq by exact Hlt.
    repeat split. exact Hf.
Qed.


Lemma root0_typed : typed_inode root0.
Proof.
  constructor; try (simpl; lia).
  - reflexivity.
  - intros a Ha. change (i_addrs root0) with (replicate 13 0) in Ha.
    apply elem_of_replicate in Ha as [-> _]. lia.
Qed.

Lemma typed_inode_fields i j :
  disk_fields i = disk_fields j -> typed_inode i -> typed_inode j.
Proof.
  unfold disk_fields. intros [= E1 E2 E3 E4 E5 E6] [? ? ? ? ? ? ?].
  constructor; rewrite <- ?E1, <- ?E2, <- ?E3, <- ?E4, <- ?E5, <- ?E6; assumption.
Qed.

Lemma iupdate_ilock_witness :
  exists st1 st2,
    iupdate 0 (set_inode st0 0 (with_valid root0 0)) = Ret tt st1
    /\ ilock 0 st1 = Ret tt st2
    /\ disk_fields (inode_of st2 0) = disk_fields root0
    /\ i_valid (inode_of st2 0) = 1.
Proof.
  set (s := set_inode st0 0 (with_valid root0 0)).
  assert (Hup : iupdate 0 s = Ret tt (default s (final_state (iupdate 0 s))))
    by (vm_compute; reflexivity).
  set (st1 := default s (final_state (iupdate 0 s))) in *.
  assert (Hj : icache st1 !! 0%nat = Some (with_valid root0 0))
    by (vm_compute; reflexivity).
  destruct (iupdate_ilock s 0 0 st1 (with_valid root0 0)
              (ok_blocks _ _ st0_ok) eq_refl
              (typed_inode_fields root0 (inode_of s 0) eq_refl root0_typed) Hup Hj
              eq_refl ltac:(vm_compute; congruence) eq_refl eq_refl) as [_ Hload].
  destruct (Hload ltac:(vm_compute; congruence)) as (st2 & Hrun & Hf & Hv & _).
  exists st1, st2. repeat split; assumption.
Defined.

(** ** What [iupdate] leaves alone *)

Lemma uint_at_pos_ext d d' pos :
  (forall p, pos <= p < pos + 4 -> byte_at d' p = byte_at d p) ->
  uint_at_pos d' pos = uint_at_pos d pos.
Proof.
  intros Hb. unfold uint_at_pos. rewrite !Hb by lia. reflexivity.
Qed.

(** [ilock] loads from the [sizeof(struct dinode)] bytes of the inode only. *)
Lemma load_dinode_ext d d' pos j :
  0 <= pos ->
  (forall p, pos <= p < pos + DINODE_SIZE -> byte_at d' p = byte_at d p) ->
  load_dinode d' pos j = load_dinode d pos j.
Proof.
  intros Hpos Hb. rewrite DINODE_SIZE_val in Hb.
  unfold load_dinode, dinode_type, dinode_major, dinode_minor, dinode_nlink,
    dinode_size, dinode_addrs.
  rewrite !(ushort_at_ext d d') by (apply Hb; lia).
  rewrite (uint_at_pos_ext d d' (pos + 8)) by (intros p Hp; apply Hb; lia).
  f_equal. apply list_fmap_ext. intros k x Hx.
  apply lookup_seq in Hx as [-> Hk]. simpl.
  change (Z.to_nat (NDIRECT + 2)) with 13%nat in Hk.
  apply uint_at_pos_ext. intros p Hp. apply Hb. lia.
Qed.

(** X4.  [iupdate] stores into the [sizeof(struct dinode)] bytes of its own
    inode and nowhere else: every other byte of the disk is as it was, so
    the on-disk copy of every other inode, also of those that share the
    block, reads as before.  The block of the inode is the one handed to
    the log, and the inode cache is not touched. *)
Theorem iupdate_keeps_others (st : state) (ip : nat) (st1 : state) :
  let inum := i_inum (inode_of st ip) in
  let b := IBLOCK inum (sb st) in
  iupdate ip st = Ret tt st1 ->
  0 <= inum -> 0 <= sb_inodestart (sb st) ->
  inum / IPB + sb_inodestart (sb st) < 2 ^ 32 ->
  (forall b' p, 0 <= b' -> 0 <= p ->
      b' <> b \/ p < dinode_pos inum \/ dinode_pos inum + DINODE_SIZE <= p ->
      byte_at (block_data st1 b') p = byte_at (block_data st b') p)
  /\ (forall inum' j,
      0 <= inum' -> inum' <> inum -> inum' / IPB + sb_inodestart (sb st) < 2 ^ 32 ->
      load_dinode (block_data st1 (IBLOCK inum' (sb st1))) (dinode_pos inum') j
      = load_dinode (block_data st (IBLOCK inum' (sb st))) (dinode_pos inum') j)
  /\ logged st1 = b :: logged st
  /\ icache st1 = icache st /\ sb st1 = sb st /\ held st1 = held st.
Proof.
  intros inum b Hup Hinum Hstart Hfit.
  apply iupdate_state in Hup. cbv zeta in Hup. fold inum b in Hup.
  destruct Hup as [Hrd ->].
  pose proof (dinode_pos_bound inum) as Hpos.
  assert (Hb : 0 <= b) by apply to_uint_range.
  assert (Hbytes : forall b' p, 0 <= b' -> 0 <= p ->
      b' <> b \/ p < dinode_pos inum \/ dinode_pos inum + DINODE_SIZE <= p ->
      byte_at (block_data (with_logged
                 (set_block st b (put_dinode (block_data st b) (dinode_pos inum)
                                             (inode_of st ip))) (b :: logged st)) b') p
      = byte_at (block_data st b') p).
  { intros b' p Hb' Hp Hout. rewrite block_data_with_logged.
    destruct (Z.eq_dec b' b) as [->|Hne].
    - rewrite block_data_set_eq by (try exact Hb; apply readable_lt; exact Hrd).
      apply byte_at_put_dinode_ne; lia.
    - rewrite block_data_set_ne by (lia || congruence). reflexivity. }
  split; [exact Hbytes|]. split; [|repeat split].
  intros inum' j Hinum' Hne Hfit'.
  change (sb (with_logged _ _)) with (sb st).
  pose proof (dinode_pos_bound inum') as Hpos'.
  apply load_dinode_ext; [lia|]. intros p Hp.
  apply Hbytes; [apply to_uint_range | lia |].
  destruct (Z.eq_dec (IBLOCK inum' (sb st)) b) as [E|E]; [right | left; exact E].
  unfold b, IBLOCK in E.
  assert (Hq : 0 <= inum / IPB /\ 0 <= inum' / IPB)
    by (split; apply Z.div_pos; rewrite ?IPB_val; lia).
  rewrite !to_uint_small in E by lia.
  assert (Hm : inum' mod IPB <> inum mod IPB).
  { intros Em. apply Hne.
    rewrite (Z.div_mod inum' IPB), (Z.div_mod inum IPB) by (rewrite IPB_val; lia).
    rewrite Em. f_equal. f_equal. lia. }
  unfold dinode_pos in *. rewrite DINODE_SIZE_val in *. rewrite IPB_val in *.
  pose proof (Z.mod_pos_bound inum 8 ltac:(lia)).
  pose proof (Z.mod_pos_bound inum' 8 ltac:(lia)).
  lia.
Qed.

Lemma iupdate_keeps_others_witness :
  exists st1,
    iupdate 0 st0 = Ret tt st1
    /\ load_dinode (block_data st1 (IBLOCK 2 (sb st1))) (dinode_pos 2) blank_inode
       = load_dinode (block_data st0 (IBLOCK 2 (sb st0))) (dinode_pos 2) blank_inode.
Proof.
  assert (Hup : iupdate 0 st0 = Ret tt (default st0 (final_state (iupdate 0 st0))))
    by (vm_compute; reflexivity).
  exists (default st0 (final_state (iupdate 0 st0))). split; [exact Hup|].
  destruct (iupdate_keeps_others st0 0 _ Hup ltac:(vm_compute; congruence)
              ltac:(vm_compute; congruence) ltac:(vm_compute; reflexivity))
    as (_ & Hothers & _).
  apply Hothers; vm_compute; congruence.
Defined.

(** ** Locking and references *)

Lemma iunlock_held st ip i :
  icache st !! ip = Some i -> i_locked i = true -> 1 <= i_ref i ->
  iunlock ip st = Ret tt (set_inode st ip (with_locked i false)).
Proof.
  intros Hl Hlock Hr. unfold iunlock. unfold bind, iread, gets, id.
  rewrite (inode_of_lookup _ _ _ Hl), Hlock.
  assert (Hr' : (i_ref i <? 1) = false) by (apply Z.ltb_ge; lia).
  rewrite Hr'. simpl. unfold releasesleep, iwrite, modify.
  rewrite (inode_of_lookup _ _ _ Hl). reflexivity.
Qed.

(** X5.  [ilock] and [iunlock] check their handle: without a reference both
    panic, [iunlock] of a handle that is not locked panics, and [ilock] of a
    handle that is locked already never returns.  On a referenced, unlocked
    and valid handle [ilock] followed by [iunlock] returns and leaves the
    whole state as it was: nothing is read from the disk. *)
Theorem ilock_iunlock (st : state) (ip : nat) (i : inode) :
  icache st !! ip = Some i ->
  (i_ref i < 1 -> ilock ip st = Panic "ilock" /\ iunlock ip st = Panic "iunlock")
  /\ (i_locked i = false -> iunlock ip st = Panic "iunlock")
  /\ (1 <= i_ref i -> i_locked i = true -> ilock ip st = Hang)
  /\ (1 <= i_ref i -> i_locked i = false -> i_valid i <> 0 ->
      ilock ip st = Ret tt (set_inode st ip (with_locked i true))
      /\ (ilock ip;; iunlock ip) st = Ret tt st).
Proof.
  intros Hl.
  assert (Hlt : (ip < length (icache st))%nat) by (eapply lookup_lt_Some; exact Hl).
  split; [|split; [|split]].
  - intros Hr. apply Z.ltb_lt in Hr. split.
    + unfold ilock. unfold bind at 1, iread at 1, gets.
      rewrite (inode_of_lookup _ _ _ Hl), Hr. reflexivity.
    + unfold iunlock. unfold bind, iread, gets, id.
      rewrite (inode_of_lookup _ _ _ Hl), Hr, orb_true_r. reflexivity.
  - intros Hlock. unfold iunlock. unfold bind, iread, gets, id.
    rewrite (inode_of_lookup _ _ _ Hl), Hlock. reflexivity.
  - intros Hr Hlock. apply Z.ltb_ge in Hr.
    unfold ilock. unfold bind at 1, iread at 1, gets.
    rewrite (inode_of_lookup _ _ _ Hl), Hr.
    apply bind_Hang. unfold acquiresleep. unfold bind, iread, gets.
    rewrite (inode_of_lookup _ _ _ Hl), Hlock. reflexivity.
  - intros Hr Hlock Hv.
    assert (Hrun : ilock ip st = Ret tt (set_inode st ip (with_locked i true))).
    { unfold ilock. unfold bind at 1, iread at 1, gets.
      rewrite (inode_of_lookup _ _ _ Hl).
      assert (Hr' : (i_ref i <? 1) = false) by (apply Z.ltb_ge; lia).
      rewrite Hr'.
      rewrite (bind_Ret _ _ _ _ _ (acquiresleep_free st ip i Hl Hlock)).
      unfold bind at 1, iread at 1, gets, id.
      rewrite inode_of_set_eq by exact Hlt.
      change (i_valid (with_locked i true)) with (i_valid i).
      apply Z.eqb_neq in Hv. rewrite Hv. reflexivity. }
    split; [exact Hrun|].
    rewrite (bind_Ret _ _ _ _ _ Hrun).
    rewrite (iunlock_held _ ip (with_locked i true)).
    + rewrite set_inode_twice. f_equal.
      transitivity (set_inode st ip i);
        [f_equal; destruct i; simpl in *; subst; reflexivity
        | apply set_inode_id; exact Hl].
    + unfold set_inode. simpl. apply list_lookup_insert_eq. exact Hlt.
    + reflexivity.
    + exact Hr.
Qed.

Lemma ilock_iunlock_witness :
  ilock 0 st0 = Ret tt (set_inode st0 0 (with_locked root0 true))
  /\ (ilock 0;; iunlock 0) st0 = Ret tt st0.
Proof.
  destruct (ilock_iunlock st0 0 root0 eq_refl) as (_ & _ & _ & Hrun).
  apply Hrun; vm_compute; congruence.
Defined.

(** X6.  [iput] undoes [iget].  When [iget] returns a handle that is not
    locked, the [iput] that follows it returns, touches neither the disk nor
    the log, and leaves every reference count of the cache as it was before
    the [iget]; when the inode was cached already the whole state is as it
    was. *)
Theorem iget_iput (st : state) (dev inum : Z) (ip : nat) (st1 : state) :
  iget dev inum st = Ret ip st1 ->
  i_locked (inode_of st ip) = false -> i_ref (inode_of st ip) < INT_MAX ->
  exists st2,
    iput ip st1 = Ret tt st2
    /\ i_ref <$> icache st2 = i_ref <$> icache st
    /\ disk st2 = disk st /\ logged st2 = logged st /\ held st2 = held st
    /\ (cached dev inum (inode_of st ip) -> st2 = st).
Proof.
  intros Hget Hlock Hr.
  apply iget_Ret_inv in Hget as (i & Hi & Hcase).
  assert (Hlt : (ip < length (icache st))%nat) by (eapply lookup_lt_Some; exact Hi).
  rewrite (inode_of_lookup _ _ _ Hi) in *.
  unfold INT_MAX in Hr.
  destruct Hcase as [[(Hpos & Hc) ->]|[Hz ->]].
  - set (x := with_ref i (to_int (i_ref i + 1))).
    assert (Hlx : icache (set_inode st ip x) !! ip = Some x).
    { unfold set_inode. simpl. apply list_lookup_insert_eq. exact Hlt. }
    assert (Hkeep : i_valid x = 0 \/ i_nlink x <> 0 \/ i_ref x <> 1).
    { right. right. apply next_ref_held. lia. }
    rewrite (iput_drop _ ip x Hlx Hlock Hkeep).
    assert (Eback : set_inode (set_inode st ip x) ip (with_ref x (to_int (i_ref x - 1)))
                    = st).
    { rewrite set_inode_twice. unfold x. simpl.
      rewrite (to_int_small (i_ref i + 1)) by lia.
      replace (i_ref i + 1 - 1) with (i_ref i) by lia.
      rewrite to_int_small by lia.
      transitivity (set_inode st ip i);
        [f_equal; destruct i; reflexivity | apply set_inode_id; exact Hi]. }
    eexists. split; [reflexivity|]. rewrite Eback. repeat split.
  - set (x := claim_slot dev inum i).
    assert (Hlx : icache (set_inode st ip x) !! ip = Some x).
    { unfold set_inode. simpl. apply list_lookup_insert_eq. exact Hlt. }
    assert (Hkeep : i_valid x = 0 \/ i_nlink x <> 0 \/ i_ref x <> 1)
      by (left; reflexivity).
    rewrite (iput_drop _ ip x Hlx Hlock Hkeep).
    eexists. split; [reflexivity|]. rewrite set_inode_twice.
    split; [|repeat split].
    + unfold set_inode. simpl. rewrite list_fmap_insert. simpl.
      change (to_int (1 - 1)) with 0. rewrite <- Hz.
      apply list_insert_id. rewrite list_lookup_fmap, Hi. reflexivity.
    + intros (Hpos & _). lia.
Qed.

Lemma iget_iput_witness :
  exists st1 st2,
    iget 1 1 st0 = Ret 0%nat st1 /\ iput 0 st1 = Ret tt st2 /\ st2 = st0.
Proof.
  assert (Hget : iget 1 1 st0 = Ret 0%nat (default st0 (final_state (iget 1 1 st0))))
    by (vm_compute; reflexivity).
  destruct (iget_iput st0 1 1 0 _ Hget eq_refl ltac:(vm_compute; reflexivity))
    as (st2 & Hput & _ & _ & _ & _ & Hsame).
  exists (default st0 (final_state (iget 1 1 st0))), st2.
  split; [exact Hget|]. split; [exact Hput|].
  apply Hsame. vm_compute. repeat split; congruence.
Defined.

(** ** [writei] and [readi] together *)

Section READBACK.
Context `{Params}.

(** X7.  What [writei] wrote, [readi] reads back.  In a well-formed file
    system with every block on the disk and no buffer locked, after a write
    of [n] bytes at [off] that was not refused and returned, [readi] of the
    same range returns [n], puts the [n] source bytes (as [uchar]s) at the
    start of the destination and leaves the rest of the destination and the
    whole state as they are. *)
Theorem writei_readi (st : state) (ip : nat) (src dst : list Z) (off n r : Z)
        (st1 : state) :
  fs_ok st ip -> i_type (inode_of st ip) <> T_DEV ->
  0 <= off < 2 ^ 32 -> 0 <= n < 2 ^ 32 ->
  off <= i_size (inode_of st ip) <= MAXFILE * BSIZE -> off + n <= MAXFILE * BSIZE ->
  n <= Z.of_nat (length dst) ->
  disk_ok st -> held st = [] ->
  writei ip src off n st = Ret r st1 ->
  r = n
  /\ readi ip dst off n st1
     = Ret (n, sub_bytes src 0 n ++ drop (Z.to_nat n) dst) st1.
Proof.
  intros Hok Hty Hoff Hn Hsz Hmax Hdst Hd Hh Hw.
  destruct (writei_ok st ip src off n r st1 Hok Hty Hoff Hn ltac:(lia) Hmax Hw)
    as (Hr & Hok1 & (Hsb & Hheld & Hlen) & Hcontent & Hsize & _).
  destruct (writei_keeps st ip src off n r st1 Hok Hty Hoff Hn ltac:(lia) Hmax Hw)
    as (Hty1 & _ & _ & Hmapped).
  split; [exact Hr|].
  assert (Hty1' : i_type (inode_of st1 ip) <> T_DEV) by (rewrite Hty1; exact Hty).
  assert (Hd1 : disk_ok st1) by (unfold disk_ok in *; rewrite Hsb, Hlen; exact Hd).
  assert (Hh1 : held st1 = []) by (rewrite Hheld; exact Hh).
  rewrite (readi_mapped st1 ip dst off n Hok1 Hty1' ltac:(lia) ltac:(lia)
             ltac:(lia) ltac:(lia) Hdst Hd1 Hh1 Hmapped).
  f_equal. f_equal. f_equal. unfold file_bytes, sub_bytes.
  apply list_fmap_ext. intros k x Hx. apply lookup_seq in Hx as [-> Hk]. simpl.
  rewrite Hcontent by lia.
  assert (Hin : (off <=? off + Z.of_nat k) && (off + Z.of_nat k <? off + n) = true).
  { apply andb_true_iff. split; [apply Z.leb_le | apply Z.ltb_lt]; lia. }
  rewrite Hin. f_equal. lia.
Qed.

End READBACK.

Lemma writei_readi_witness :
  exists st1,
    writei (H:=xv6) 0 (replicate 20 65) 0 20 st0 = Ret 20 st1
    /\ readi (H:=xv6) 0 (replicate 24 0) 0 20 st1
       = Ret (20, replicate 20 65 ++ replicate 4 0) st1.
Proof.
  set (o := writei (H:=xv6) 0 (replicate 20 65) 0 20 st0).
  assert (Hw : o = Ret 20 (default st0 (final_state o))) by (vm_compute; reflexivity).
  exists (default st0 (final_state o)). split; [exact Hw|].
  destruct (writei_readi (H:=xv6) st0 0 (replicate 20 65) (replicate 24 0) 0 20 20 _
              st0_ok ltac:(vm_compute; congruence) ltac:(lia) ltac:(lia)
              ltac:(vm_compute; split; congruence) ltac:(vm_compute; congruence)
              ltac:(vm_compute; congruence) st0_disk_ok eq_refl Hw) as [_ Hr].
  exact Hr.
Defined.

(** ** [bmap] once more *)

(** X8.  [bmap] is idempotent.  In a well-formed file system with every
    block on the disk and no buffer locked, the address that [bmap] returned
    for a logical block is a data block marked in use, and a second [bmap]
    of the same logical block returns the same address and changes nothing.
    A logical block that was mapped before is returned without any change of
    the state; one that was a hole is mapped to a zero-filled block. *)
Theorem bmap_again (st : state) (ip : nat) (bn a : Z) (st1 : state) :
  fs_ok st ip -> disk_ok st -> held st = [] -> 0 <= bn < 2 ^ 32 ->
  bmap ip bn st = Ret a st1 ->
  bn < MAXFILE /\ a <> 0
  /\ is_data (sb st) a /\ in_use st1 a = true
  /\ bmap ip bn st1 = Ret a st1
  /\ (lookup_addr st (inode_of st ip) bn <> 0 ->
      a = lookup_addr st (inode_of st ip) bn /\ st1 = st)
  /\ (lookup_addr st (inode_of st ip) bn = 0 -> block_data st1 a = zero_block).
Proof.
  intros Hok Hd Hh Hbn Hret.
  destruct (bmap_ok st ip bn a st1 Hok Hbn Hret) as (Hok1 & Hext & Ha & Hnz & Hmax).
  pose proof (ext_frame _ _ _ Hext) as Hf.
  assert (Hsb : sb st1 = sb st) by apply Hf.
  assert (Hd1 : disk_ok st1) by (eapply frame_disk_ok; eassumption).
  assert (Hh1 : held st1 = []) by (rewrite (frame_held _ _ Hf); exact Hh).
  assert (Hbn' : 0 <= bn < MAXFILE) by lia.
  pose proof (data_path_of_ok bn Hbn') as Hdp.
  pose proof (slot_path_data _ Hdp) as Hsp.
  split; [exact Hmax|]. split; [exact Hnz|].
  assert (Hslot : slot_val st1 ip (data_path_of bn) = a)
    by (rewrite <- lookup_addr_slot; exact Ha).
  destruct (ok_slots _ _ Hok1 _ Hsp ltac:(rewrite Hslot; exact Hnz)) as [Hdata Hused].
  rewrite Hslot, Hsb in *.
  split; [exact Hdata|]. split; [exact Hused|].
  split; [|split].
  - rewrite <- Ha at 1. apply bmap_mapped; try assumption. rewrite Ha. exact Hnz.
  - intros Hm. rewrite (bmap_mapped st ip bn Hok Hd Hh Hbn' Hm) in Hret.
    injection Hret as <- <-. split; reflexivity.
  - intros Hz. rewrite lookup_addr_slot in Hz.
    destruct (ext_new _ _ _ Hext _ Hdp Hz) as [E|E].
    + rewrite Hslot in E. contradiction.
    + rewrite Hslot in E. exact E.
Qed.

Lemma bmap_again_witness :
  exists st1,
    bmap 0 0 st0 = Ret 7 st1 /\ bmap 0 0 st1 = Ret 7 st1
    /\ block_data st1 7 = zero_block.
Proof.
  assert (Hb : bmap 0 0 st0 = Ret 7 (default st0 (final_state (bmap 0 0 st0))))
    by (vm_compute; reflexivity).
  exists (default st0 (final_state (bmap 0 0 st0))). split; [exact Hb|].
  destruct (bmap_again st0 0 0 7 _ st0_ok st0_disk_ok eq_refl ltac:(lia) Hb)
    as (_ & _ & _ & _ & Hagain & _ & Hzero).
  split; [exact Hagain | apply Hzero; vm_compute; reflexivity].
Defined.

(** ** The inode allocator: [ialloc] *)

Lemma ialloc_scan_S dev type fuel inum :
  ialloc_scan dev type (S fuel) inum
  = (let* s := gets sb in
     if to_uint inum <? sb_ninodes s then
       let* bp := bread dev (IBLOCK (to_uint inum) s) in
       let pos := dinode_pos (to_uint inum) in
       let* d := buf_data bp in
       if dinode_type d pos =? 0 then
         buf_update bp (fun d => init_dinode d pos type);;
         log_write bp;;
         brelse bp;;
         iget dev (to_uint inum)
       else brelse bp;; ialloc_scan dev type fuel (to_int (inum + 1))
     else panic "ialloc: no inodes").
Proof. reflexivity. Qed.

(** One test of the loop on an inode whose block is readable. *)
Lemma ialloc_scan_step dev type fuel inum st :
  0 <= inum < 2 ^ 31 - 1 -> inum < sb_ninodes (sb st) ->
  readable st (IBLOCK inum (sb st)) ->
  ialloc_scan dev type (S fuel) inum st
  = if disk_type st inum =? 0 then iget dev inum (ialloc_state st inum type)
    else ialloc_scan dev type fuel (inum + 1) st.
Proof.
  intros Hi Hlt Hrd. rewrite ialloc_scan_S.
  unfold bind at 1, gets. rewrite to_uint_small by lia.
  apply Z.ltb_lt in Hlt. rewrite Hlt.
  rewrite (bind_Ret _ _ _ _ _ (bread_readable st dev _ Hrd)).
  cbv zeta. unfold bind at 1, buf_data, gets.
  set (b := IBLOCK inum (sb st)).
  change (block_data (with_held st (b :: held st)) b) with (block_data st b).
  unfold disk_type. fold b.
  destruct (dinode_type (block_data st b) (dinode_pos inum) =? 0).
  - unfold bind at 1. unfold buf_update at 1, modify.
    unfold bind at 1. unfold log_write at 1, modify.
    unfold bind at 1.
    rewrite (brelse_head _ b (held st)) by reflexivity.
    reflexivity.
  - unfold bind at 1.
    rewrite (brelse_head _ b (held st)) by reflexivity.
    rewrite with_held_id_2. rewrite to_int_small by lia. reflexivity.
Qed.

Lemma ialloc_scan_found dev type st r :
  1 <= r < sb_ninodes (sb st) -> sb_ninodes (sb st) <= 2 ^ 31 - 1 ->
  disk_type st r = 0 ->
  forall fuel inum,
    1 <= inum <= r ->
    (forall x, inum <= x < r -> disk_type st x <> 0) ->
    (forall x, inum <= x <= r -> readable st (IBLOCK x (sb st))) ->
    r - inum < Z.of_nat fuel ->
    ialloc_scan dev type fuel inum st = iget dev r (ialloc_state st r type).
Proof.
  intros Hr Hmax Hfree. induction fuel as [|fuel IH]; intros inum Hi Hused Hrd Hfuel;
    [lia|].
  rewrite ialloc_scan_step by (try apply Hrd; lia).
  destruct (Z.eq_dec inum r) as [->|Hne].
  - rewrite Hfree. reflexivity.
  - assert (Hnz : disk_type st inum <> 0) by (apply Hused; lia).
    apply Z.eqb_neq in Hnz. rewrite Hnz.
    apply IH; try lia.
    + intros x Hx. apply Hused. lia.
    + intros x Hx. apply Hrd. lia.
Qed.

Lemma ialloc_scan_full dev type st :
  0 <= sb_ninodes (sb st) <= 2 ^ 31 - 1 ->
  forall fuel inum,
    1 <= inum <= 2 ^ 31 - 1 ->
    (forall x, inum <= x < sb_ninodes (sb st) -> disk_type st x <> 0) ->
    (forall x, inum <= x < sb_ninodes (sb st) -> readable st (IBLOCK x (sb st))) ->
    (0 < fuel)%nat -> sb_ninodes (sb st) - inum < Z.of_nat fuel ->
    ialloc_scan dev type fuel inum st = Panic "ialloc: no inodes".
Proof.
  intros Hmax. induction fuel as [|fuel IH]; intros inum Hi Hused Hrd Hpos Hfuel;
    [lia|].
  destruct (Z_lt_dec inum (sb_ninodes (sb st))) as [Hlt|Hge].
  - rewrite ialloc_scan_step by (try apply Hrd; lia).
    assert (Hnz : disk_type st inum <> 0) by (apply Hused; lia).
    apply Z.eqb_neq in Hnz. rewrite Hnz.
    apply IH; try lia.
    + intros x Hx. apply Hused. lia.
    + intros x Hx. apply Hrd. lia.
  - rewrite ialloc_scan_S. unfold bind at 1, gets.
    rewrite to_uint_small by lia.
    assert (Hc : (inum <? sb_ninodes (sb st)) = false) by (apply Z.ltb_ge; lia).
    rewrite Hc. reflexivity.
Qed.

Lemma length_init_dinode d pos type : length (init_dinode d pos type) = length d.
Proof. unfold init_dinode. rewrite length_set_ushort. apply length_put_bytes. Qed.

(** The bytes of a block after [ialloc] initialised the inode at [pos]. *)
Lemma byte_at_init_dinode d pos type p :
  0 <= pos -> 0 <= p -> (Z.to_nat (pos + 64) <= length d)%nat ->
  byte_at (init_dinode d pos type) p
  = if p =? pos then to_uchar type
    else if p =? pos + 1 then to_uchar (type / 2 ^ 8)
    else if (pos <=? p) && (p <? pos + DINODE_SIZE) then 0
    else byte_at d p.
Proof.
  intros Hpos Hp Hlen. unfold init_dinode, set_ushort.
  set (z := put_bytes d pos (replicate (Z.to_nat DINODE_SIZE) 0)).
  assert (Lz : length z = length d) by apply length_put_bytes.
  destruct (Z.eqb_spec p pos) as [->|H0].
  - rewrite byte_at_set_ne by lia. apply byte_at_set_eq; [lia|]. rewrite Lz. lia.
  - destruct (Z.eqb_spec p (pos + 1)) as [->|H1].
    + apply byte_at_set_eq; [lia|]. rewrite length_set_byte, Lz. lia.
    + rewrite !byte_at_set_ne by lia. unfold z.
      rewrite byte_at_put_bytes
        by (rewrite ?length_replicate, ?DINODE_SIZE_val; lia).
      rewrite length_replicate, Z2Nat.id by (rewrite DINODE_SIZE_val; lia).
      destruct ((pos <=? p) && (p <? pos + DINODE_SIZE)); [|reflexivity].
      apply byte_at_replicate_zero.
Qed.

(** A freshly allocated inode loads with the type it was given, no links,
    size zero and no blocks. *)
Lemma load_init_dinode d pos type j :
  0 <= pos -> (Z.to_nat (pos + 64) <= length d)%nat -> - 2 ^ 15 <= type < 2 ^ 15 ->
  disk_fields (load_dinode (init_dinode d pos type) pos j)
  = (type, 0, 0, 0, 0, replicate (Z.to_nat (NDIRECT + 2)) 0).
Proof.
  intros Hpos Hlen Hty.
  assert (Hz : forall p, pos + 2 <= p < pos + 64 ->
                         byte_at (init_dinode d pos type) p = 0).
  { intros p Hp. rewrite byte_at_init_dinode by lia.
    destruct (Z.eqb_spec p pos); [lia|]. destruct (Z.eqb_spec p (pos + 1)); [lia|].
    rewrite DINODE_SIZE_val.
    assert (Hin : (pos <=? p) && (p <? pos + 64) = true).
    { apply andb_true_iff. split; [apply Z.leb_le | apply Z.ltb_lt]; lia. }
    rewrite Hin. reflexivity. }
  assert (Hu : forall q, pos + 2 <= q -> q + 2 <= pos + 64 ->
                         ushort_at (init_dinode d pos type) q = 0).
  { intros q H1 H2. unfold ushort_at. rewrite !Hz by lia. reflexivity. }
  assert (Hw : forall q, pos + 2 <= q -> q + 4 <= pos + 64 ->
                         uint_at_pos (init_dinode d pos type) q = 0).
  { intros q H1 H2. unfold uint_at_pos. rewrite !Hz by lia. reflexivity. }
  unfold disk_fields, load_dinode.
  cbn [i_type i_major i_minor i_nlink i_size i_addrs].
  unfold dinode_type, dinode_major, dinode_minor, dinode_nlink, dinode_size, dinode_addrs.
  rewrite (Hu (pos + 2)), (Hu (pos + 4)), (Hu (pos + 6)) by lia.
  rewrite (Hw (pos + 8)) by lia.
  assert (Ht : ushort_at (init_dinode d pos type) pos = to_ushort type).
  { unfold ushort_at. rewrite !byte_at_init_dinode by lia.
    rewrite Z.eqb_refl. destruct (Z.eqb_spec (pos + 1) pos); [lia|].
    rewrite Z.eqb_refl.
    unfold to_uchar, to_ushort. change (2 ^ 8) with 256. change (2 ^ 16) with 65536.
    Z.to_euclidean_division_equations. lia. }
  rewrite Ht, to_short_to_ushort by exact Hty.
  change (to_short 0) with 0.
  f_equal. apply list_eq. intros k. rewrite list_lookup_fmap.
  destruct (decide (k < Z.to_nat (NDIRECT + 2))%nat) as [Hk|Hk].
  - rewrite lookup_seq_lt by exact Hk. rewrite lookup_replicate_2 by exact Hk. simpl.
    change (Z.to_nat (NDIRECT + 2)) with 13%nat in Hk.
    rewrite Hw by lia. reflexivity.
  - rewrite lookup_seq_ge by lia. symmetry. apply lookup_replicate_None. lia.
Qed.

(** X9.  [ialloc] scans the inodes on disk from number 1 on and takes the
    lowest-numbered one whose type is 0: it zeroes that inode on disk, gives
    it the requested type, hands its block to the log and returns the handle
    that [iget] gives for it; inode 0 is never taken.  An inode allocated
    this way loads with that type, no links, size 0 and no blocks, and no
    other byte of the disk has changed.  When every inode from 1 on has a
    nonzero type, [ialloc] panics. *)
Theorem ialloc_lowest_free (st : state) (dev type : Z) :
  0 <= sb_ninodes (sb st) <= 2 ^ 31 - 1 ->
  blocks_ok st ->
  (forall x, 1 <= x < sb_ninodes (sb st) -> readable st (IBLOCK x (sb st))) ->
  (forall r,
      1 <= r < sb_ninodes (sb st) -> disk_type st r = 0 ->
      (forall x, 1 <= x < r -> disk_type st x <> 0) ->
      let b := IBLOCK r (sb st) in
      let st1 := ialloc_state st r type in
      ialloc dev type st = iget dev r st1
      /\ logged st1 = b :: logged st
      /\ (- 2 ^ 15 <= type < 2 ^ 15 ->
          forall j, disk_fields (load_dinode (block_data st1 b) (dinode_pos r) j)
                    = (type, 0, 0, 0, 0, replicate (Z.to_nat (NDIRECT + 2)) 0))
      /\ (forall b' p, 0 <= b' -> 0 <= p ->
            b' <> b \/ p < dinode_pos r \/ dinode_pos r + DINODE_SIZE <= p ->
            byte_at (block_data st1 b') p = byte_at (block_data st b') p)
      /\ (forall ip st2, ialloc dev type st = Ret ip st2 ->
            i_inum (inode_of st2 ip) = r /\ i_dev (inode_of st2 ip) = dev
            /\ disk st2 = disk st1 /\ logged st2 = logged st1))
  /\ ((forall x, 1 <= x < sb_ninodes (sb st) -> disk_type st x <> 0) ->
      ialloc dev type st = Panic "ialloc: no inodes").
Proof.
  intros Hn Hblocks Hrd. split.
  - intros r Hr Hfree Hused b st1.
    assert (Hrun : ialloc dev type st = iget dev r st1).
    { unfold ialloc. unfold bind at 1, gets.
      apply (ialloc_scan_found dev type st r Hr ltac:(lia) Hfree);
        [lia | intros x Hx; apply Hused; lia | intros x Hx; apply Hrd; lia | lia]. }
    assert (Hb : 0 <= b) by apply to_uint_range.
    assert (Hrb : readable st b) by (apply Hrd; lia).
    pose proof (dinode_pos_bound r) as Hpos.
    assert (Hlen : length (block_data st b) = Z.to_nat BSIZE).
    { apply blocks_ok_length; [exact Hblocks | apply Hrb]. }
    assert (Hd1 : block_data st1 b = init_dinode (block_data st b) (dinode_pos r) type).
    { unfold st1, ialloc_state. cbv zeta. fold b. rewrite block_data_with_logged.
      apply block_data_set_eq; [exact Hb | apply readable_lt; exact Hrb]. }
    split; [exact Hrun|]. split; [reflexivity|]. split; [|split].
    + intros Hty j. rewrite Hd1.
      apply load_init_dinode; [lia | rewrite Hlen; lia | exact Hty].
    + intros b' p Hb' Hp Hout.
      destruct (Z.eq_dec b' b) as [->|Hne].
      * rewrite Hd1, byte_at_init_dinode by (rewrite ?Hlen; lia).
        rewrite DINODE_SIZE_val in *.
        destruct (Z.eqb_spec p (dinode_pos r)); [lia|].
        destruct (Z.eqb_spec p (dinode_pos r + 1)); [lia|].
        assert (Hc : (dinode_pos r <=? p) && (p <? dinode_pos r + 64) = false).
        { apply andb_false_iff.
          destruct Hout as [?|[?|?]]; [congruence | left; apply Z.leb_gt; lia
                                      | right; apply Z.ltb_ge; lia]. }
        rewrite Hc. reflexivity.
      * unfold st1, ialloc_state. cbv zeta. fold b. rewrite block_data_with_logged.
        rewrite block_data_set_ne by (lia || congruence). reflexivity.
    + intros ip st2 Hret. rewrite Hrun in Hret.
      apply iget_Ret_inv in Hret as (i & Hi & Hcase).
      assert (Hlt : (ip < length (icache st1))%nat) by (eapply lookup_lt_Some; exact Hi).
      destruct Hcase as [[(Hpos' & Hdev & Hinum) ->]|[_ ->]];
        rewrite inode_of_set_eq by exact Hlt; simpl.
      * repeat split; assumption.
      * repeat split.
  - intros Hused. unfold ialloc. unfold bind at 1, gets.
    apply (ialloc_scan_full dev type st Hn);
      [lia | intros x Hx; apply Hused; lia | intros x Hx; apply Hrd; lia | lia | lia].
Qed.

Lemma st0_inode_blocks x : 1 <= x < 16 -> readable st0 (IBLOCK x (sb st0)).
Proof.
  intros Hx. apply st0_readable.
  unfold IBLOCK. change (sb_inodestart (sb st0)) with 4. rewrite IPB_val.
  assert (0 <= x / 8 < 2).
  { split; [apply Z.div_pos; lia | apply Z.div_lt_upper_bound; lia]. }
  rewrite to_uint_small by lia. lia.
Qed.

Lemma ialloc_lowest_free_witness :
  ialloc 1 2 st0 = iget 1 2 (ialloc_state st0 2 2)
  /\ disk_fields (load_dinode (block_data (ialloc_state st0 2 2) (IBLOCK 2 (sb st0)))
                              (dinode_pos 2) blank_inode)
     = (2, 0, 0, 0, 0, replicate (Z.to_nat (NDIRECT + 2)) 0).
Proof.
  destruct (ialloc_lowest_free st0 1 2 ltac:(vm_compute; split; congruence)
              (ok_blocks _ _ st0_ok) st0_inode_blocks) as [Hfound _].
  destruct (Hfound 2 ltac:(vm_compute; split; congruence) eq_refl)
    as (Hrun & _ & Hfields & _).
  { intros x Hx. assert (x = 1) by lia. subst x. vm_compute. congruence. }
  split; [exact Hrun|]. apply Hfields. lia.
Defined.

(** ** Directory lookup *)

Lemma rec_matches_true name de :
  rec_matches name de = true
  <-> de_inum de <> 0 /\ namecmp name (de_name de) = 0.
Proof.
  unfold rec_matches. rewrite andb_true_iff, negb_true_iff, Z.eqb_neq, Z.eqb_eq.
  reflexivity.
Qed.

Lemma rec_matches_false name de :
  rec_matches name de = false
  <-> ~ (de_inum de <> 0 /\ namecmp name (de_name de) = 0).
Proof.
  rewrite <- rec_matches_true. destruct (rec_matches name de); split; intros E;
    (congruence || (exfalso; apply E; reflexivity) || reflexivity).
Qed.

Section LOOKUP.
Context `{Params}.

(** X10.  [dirlookup] on an inode that is not a directory panics.  On a
    well-formed directory it finds the first record, in the order of the
    byte offsets, whose inode number is not zero and whose name compares
    equal to [name] over [DIRSIZ] characters: it returns what [iget] gives
    for the inode number of that record together with the byte offset of
    the record, and a record with inode number zero is passed over even when
    its name matches.  When no record matches it returns the null pointer
    and leaves the state as it was.  A lookup never changes the disk or the
    content of the directory. *)
Theorem dirlookup_first_match (st : state) (dp : nat) (name : list Z) :
  let n := i_size (inode_of st dp) / DIRENT_SIZE in
  let hit k := de_inum (dir_record st dp k) <> 0
               /\ namecmp name (de_name (dir_record st dp k)) = 0 in
  (i_type (inode_of st dp) <> T_DIR ->
   dirlookup dp name st = Panic "dirlookup not DIR")
  /\ (T_DIR <> T_DEV -> dir_ok st dp ->
      (forall k, 0 <= k < n -> hit k -> (forall j, 0 <= j < k -> ~ hit j) ->
         dirlookup dp name st
         = (let* ip := iget (i_dev (inode_of st dp)) (de_inum (dir_record st dp k)) in
            ret (Some (ip, DIRENT_SIZE * k))) st)
      /\ ((forall k, 0 <= k < n -> ~ hit k) -> dirlookup dp name st = Ret None st)
      /\ (forall r st1, dirlookup dp name st = Ret r st1 ->
            disk st1 = disk st /\ logged st1 = logged st
            /\ (forall p, file_byte st1 dp p = file_byte st dp p)
            /\ match r with
               | None => st1 = st /\ forall k, 0 <= k < n -> ~ hit k
               | Some (ip, off) =>
                 exists k, 0 <= k < n /\ off = DIRENT_SIZE * k /\ hit k
                           /\ (forall j, 0 <= j < k -> ~ hit j)
                           /\ i_inum (inode_of st1 ip) = de_inum (dir_record st dp k)
                           /\ i_dev (inode_of st1 ip) = i_dev (inode_of st dp)
               end)).
Proof.
  intros n hit. split.
  - intros Hty. unfold dirlookup. unfold bind at 1, iread at 1, gets.
    apply Z.eqb_neq in Hty. rewrite Hty. reflexivity.
  - intros Hdd Hdir.
    pose proof (dir_size _ _ Hdir) as Hsz.
    assert (Hn : Z.of_nat (dir_records st dp) = n).
    { unfold dir_records, n. apply Z2Nat.id. apply Z.div_pos; [lia | reflexivity]. }
    pose proof (dirlookup_scan Hdd st dp name Hdir) as Hscan.
    split; [|split].
    + intros k Hk Hhit Hbefore. rewrite Hscan.
      assert (Hfind : dir_find st dp name = Some k).
      { unfold dir_find. apply first_record_intro.
        - rewrite Hn. lia.
        - apply rec_matches_true. exact Hhit.
        - intros j Hj. apply rec_matches_false. apply Hbefore. lia. }
      rewrite Hfind. reflexivity.
    + intros Hnone. rewrite Hscan.
      assert (Hfind : dir_find st dp name = None).
      { unfold dir_find. apply first_record_none_intro.
        intros j Hj. apply rec_matches_false. apply Hnone. rewrite <- Hn. lia. }
      rewrite Hfind. reflexivity.
    + intros r st1 Hret. rewrite Hscan in Hret.
      destruct (dir_find st dp name) as [k|] eqn:Hfind.
      * apply bind_Ret_inv in Hret as (ip & s1 & Hget & Hret).
        injection Hret as <- <-.
        unfold dir_find in Hfind.
        apply first_record_Some in Hfind as (Hk & Hm & Hbefore).
        apply iget_Ret_inv in Hget as (i & Hi & Hcase).
        assert (Hlt : (ip < length (icache st))%nat)
          by (eapply lookup_lt_Some; exact Hi).
        assert (Hshape : exists x, s1 = set_inode st ip x
                  /\ i_addrs x = i_addrs i /\ i_size x = i_size i
                  /\ i_inum x = de_inum (dir_record st dp k)
                  /\ i_dev x = i_dev (inode_of st dp)).
        { destruct Hcase as [[(_ & Hdev & Hinum) ->]|[_ ->]]; eexists;
            (split; [reflexivity|]); repeat split; assumption || reflexivity. }
        destruct Hshape as (x & -> & Hxa & Hxs & Hxi & Hxd).
        rewrite <- (inode_of_lookup _ _ _ Hi) in Hxa, Hxs.
        destruct (set_inode_keeps st ip x dp Hxa Hxs) as [Ha Hs].
        split; [reflexivity|]. split; [reflexivity|].
        split; [intros p; apply file_byte_same; [reflexivity | exact Ha]|].
        exists k. rewrite inode_of_set_eq by exact Hlt.
        split; [lia|]. split; [reflexivity|].
        split; [apply rec_matches_true; exact Hm|].
        split; [intros j Hj; apply rec_matches_false, Hbefore; lia|].
        split; assumption.
      * injection Hret as <- <-.
        split; [reflexivity|]. split; [reflexivity|]. split; [reflexivity|].
        split; [reflexivity|].
        intros k Hk. apply rec_matches_false.
        unfold dir_find in Hfind. apply (first_record_None _ _ _ _ _ Hfind). lia.
Qed.

End LOOKUP.

Lemma dirlookup_first_match_witness :
  dirlookup (H:=xv6) 0 [46] st_dot
  = (let* ip := iget 1 1 in ret (Some (ip, 0))) st_dot
  /\ dirlookup (H:=xv6) 0 [97] st_dot = Ret None st_dot.
Proof.
  destruct (dirlookup_first_match (H:=xv6) st_dot 0 [46]) as [_ Hdir].
  destruct (Hdir xv6_dir_dev st_dot_ok) as (Hfound & _ & _).
  destruct (dirlookup_first_match (H:=xv6) st_dot 0 [97]) as [_ Hdir'].
  destruct (Hdir' xv6_dir_dev st_dot_ok) as (_ & Hnone & _).
  split.
  - apply (Hfound 0); [vm_compute; split; congruence | vm_compute; split; congruence
                      | intros j Hj; lia].
  - apply Hnone. intros k Hk.
    assert (E : i_size (inode_of st_dot 0) / DIRENT_SIZE = 1) by (vm_compute; reflexivity).
    change (0 <= k < i_size (inode_of st_dot 0) / DIRENT_SIZE) in Hk.
    rewrite E in Hk. assert (k = 0) by lia.
    subst k. vm_compute. intros [_ E']. discriminate.
Defined.

(** ** Names are significant to [DIRSIZ] characters *)

Lemma strncmp_ext p p' q : forall n i,
  0 <= i ->
  (forall j, i <= j < i + Z.of_nat n -> byte_at p j = byte_at p' j) ->
  strncmp p q n i = strncmp p' q n i.
Proof.
  induction n as [|n IH]; intros i Hi Hp; [reflexivity|].
  rewrite !strncmp_S. rewrite <- (Hp i) by lia.
  destruct ((byte_at p i =? 0) || negb (byte_at p i =? byte_at q i)); [reflexivity|].
  apply IH; [lia|]. intros j Hj. apply Hp. lia.
Qed.

Lemma strncpy_ext t t' : forall n i,
  0 <= i ->
  (forall j, i <= j < i + Z.of_nat n -> byte_at t j = byte_at t' j) ->
  strncpy t n i = strncpy t' n i.
Proof.
  induction n as [|n IH]; intros i Hi Hp; [reflexivity|].
  rewrite !strncpy_S. rewrite <- (Hp i) by lia.
  destruct (byte_at t i =? 0); [reflexivity|].
  f_equal. apply IH; [lia|]. intros j Hj. apply Hp. lia.
Qed.

Lemma bind_ext_both {A B} (m m' : M A) (k k' : A -> M B) st :
  m st = m' st -> (forall a st', k a st' = k' a st') -> bind m k st = bind m' k' st.
Proof. intros Hm Hk. unfold bind. rewrite Hm. destruct (m' st); auto. Qed.

Section WIDTH.
Context `{Params}.
Variables (name name' : list Z).
Hypothesis Hsame : forall j, 0 <= j < DIRSIZ -> byte_at name j = byte_at name' j.

Lemma namecmp_width q : namecmp name q = namecmp name' q.
Proof.
  unfold namecmp. apply strncmp_ext; [lia|].
  intros j Hj. apply Hsame. rewrite Z2Nat.id in Hj by (unfold DIRSIZ; lia). lia.
Qed.

Lemma dirlookup_loop_width dp : forall fuel off de st,
  dirlookup_loop dp name fuel off de st = dirlookup_loop dp name' fuel off de st.
Proof.
  induction fuel as [|fuel IH]; intros off de st; [reflexivity|].
  simpl. apply bind_ext. intros sz s1.
  destruct (off <? sz); [|reflexivity].
  apply bind_ext. intros r s2.
  destruct (negb (fst r =? DIRENT_SIZE)); [reflexivity|].
  destruct (de_inum (snd r) =? 0); [apply IH|].
  rewrite namecmp_width.
  destruct (namecmp name' (de_name (snd r)) =? 0); [reflexivity | apply IH].
Qed.

(** X11.  Names count to [DIRSIZ] characters and no further: two names
    whose first [DIRSIZ] characters are the same are the same name to
    [dirlookup] and to [dirlink], in every state (the same result, the same
    record written). *)
Theorem names_cut_at_DIRSIZ (st : state) (dp : nat) (inum : Z) :
  dirlookup dp name st = dirlookup dp name' st
  /\ dirlink dp name inum st = dirlink dp name' inum st.
Proof.
  assert (Hlook : forall s, dirlookup dp name s = dirlookup dp name' s).
  { intros s. unfold dirlookup. apply bind_ext. intros t s1.
    destruct (negb (t =? T_DIR)); [reflexivity|].
    apply bind_ext. intros sz s2. apply dirlookup_loop_width. }
  split; [apply Hlook|].
  unfold dirlink. apply bind_ext_both; [apply Hlook|].
  intros [[ip off]|] s1; [reflexivity|].
  apply bind_ext. intros sz s2. apply bind_ext. intros r s3.
  unfold make_dirent.
  rewrite (strncpy_ext name name' (Z.to_nat DIRSIZ) 0); [reflexivity | lia |].
  intros j Hj. apply Hsame. rewrite Z2Nat.id in Hj by (unfold DIRSIZ; lia). lia.
Qed.

End WIDTH.

Lemma names_cut_at_DIRSIZ_witness :
  dirlookup (H:=xv6) 0 (cstr "abcdefghijklmnop") st_dot
  = dirlookup (H:=xv6) 0 (cstr "abcdefghijklmnXY") st_dot
  /\ dirlink (H:=xv6) 0 (cstr "abcdefghijklmnop") 2 st_dot
     = dirlink (H:=xv6) 0 (cstr "abcdefghijklmnXY") 2 st_dot.
Proof.
  apply (names_cut_at_DIRSIZ (H:=xv6)).
  intros j Hj. change DIRSIZ with 14 in Hj.
  assert (Hc : j = 0 \/ j = 1 \/ j = 2 \/ j = 3 \/ j = 4 \/ j = 5 \/ j = 6 \/ j = 7
               \/ j = 8 \/ j = 9 \/ j = 10 \/ j = 11 \/ j = 12 \/ j = 13) by lia.
  repeat (destruct Hc as [->|Hc]; [reflexivity|]). subst j. reflexivity.
Defined.

(** ** Linking a name twice *)

Section TWICE.
Context `{Params}.
Hypothesis Hdd : T_DIR <> T_DEV.

(** Where [dirlookup] finds the name in a handle that is not locked,
    [dirlink] drops the handle and returns -1. *)
Lemma dirlink_found st dp name inum k ip st1 :
  dir_ok st dp -> dir_find st dp name = Some k ->
  iget (i_dev (inode_of st dp)) (de_inum (dir_record st dp k)) st = Ret ip st1 ->
  i_locked (inode_of st ip) = false -> i_ref (inode_of st ip) < 2 ^ 31 ->
  exists st',
    dirlink dp name inum st = Ret (-1) st'
    /\ i_size (inode_of st' dp) = i_size (inode_of st dp)
    /\ forall p, file_byte st' dp p = file_byte st dp p.
Proof.
  intros Hdir Hfind Hget Hl Hr.
  assert (Hlook : dirlookup dp name st = Ret (Some (ip, DIRENT_SIZE * k)) st1).
  { rewrite (dirlookup_scan Hdd st dp name Hdir), Hfind.
    rewrite (bind_Ret _ _ _ _ _ Hget). reflexivity. }
  unfold dirlink. rewrite (bind_Ret _ _ _ _ _ Hlook). cbv beta iota.
  apply iget_Ret_inv in Hget as (i & Hi & Hcase).
  assert (Hlt : (ip < length (icache st))%nat) by (eapply lookup_lt_Some; exact Hi).
  rewrite (inode_of_lookup _ _ _ Hi) in Hl, Hr.
  assert (Hshape : exists x, st1 = set_inode st ip x
            /\ i_addrs x = i_addrs i /\ i_size x = i_size i
            /\ i_locked x = false
            /\ (i_valid x = 0 \/ i_nlink x <> 0 \/ i_ref x <> 1)).
  { destruct Hcase as [[(Hpos & _) ->]|[_ ->]]; eexists; (split; [reflexivity|]);
      (split; [reflexivity|]); (split; [reflexivity|]); (split; [exact Hl|]).
    - right. right. apply next_ref_held; lia.
    - left. reflexivity. }
  destruct Hshape as (x & -> & Hxa & Hxs & Hlx' & Hkeep).
  assert (Hlx : icache (set_inode st ip x) !! ip = Some x).
  { unfold set_inode. simpl. apply list_lookup_insert_eq. exact Hlt. }
  rewrite (bind_Ret _ _ _ _ _ (iput_drop _ ip x Hlx Hlx' Hkeep)).
  eexists. split; [reflexivity|].
  rewrite set_inode_twice.
  rewrite <- (inode_of_lookup _ _ _ Hi) in Hxa, Hxs.
  destruct (set_inode_keeps st ip (with_ref x (to_int (i_ref x - 1))) dp Hxa Hxs)
    as [Ha Hs].
  split; [exact Hs|]. intros p. apply file_byte_same; [reflexivity | exact Ha].
Qed.

(** X12.  A name can be linked once.  After [dirlink] of a name with an
    inode number whose low 16 bits are not zero returned 0 in a well-formed
    directory, a second [dirlink] of the same name, with whatever inode
    number, finds the record of the first: provided the handle of that
    inode is not locked it returns -1 and leaves the size and the content of
    the directory as the first call left them. *)
Theorem dirlink_twice (st : state) (dp : nat) (name : list Z) (inum inum' : Z)
        (st1 : state) :
  dir_ok st dp -> 0 <= inum < 2 ^ 32 -> inum mod 2 ^ 16 <> 0 ->
  dirlink dp name inum st = Ret 0 st1 ->
  forall ip s2,
    iget (i_dev (inode_of st dp)) (inum mod 2 ^ 16) st1 = Ret ip s2 ->
    i_locked (inode_of st1 ip) = false -> i_ref (inode_of st1 ip) < 2 ^ 31 ->
    exists st2,
      dirlink dp name inum' st1 = Ret (-1) st2
      /\ i_size (inode_of st2 dp) = i_size (inode_of st1 dp)
      /\ forall p, file_byte st2 dp p = file_byte st1 dp p.
Proof.
  intros Hdir Hinum Hnz Hlink ip s2 Hget Hl Hr.
  assert (Hfind : dir_find st dp name = None).
  { destruct (dir_find st dp name) as [k|] eqn:E; [exfalso | reflexivity].
    revert Hlink. unfold dirlink. unfold bind at 1.
    rewrite (dirlookup_scan Hdd st dp name Hdir), E.
    unfold bind at 1.
    destruct (iget _ _ st) as [jp s|m|]; [|discriminate..].
    unfold ret at 1. cbv beta iota. unfold bind.
    destruct (iput jp s) as [[] s'|m|]; discriminate. }
  destruct (dirlink_written Hdd st dp name inum 0 st1 Hdir Hfind Hlink)
    as (_ & Hmax & Hw).
  destruct (dirlink_state Hdd st dp name inum st1 Hdir Hmax Hw)
    as (_ & _ & _ & Edev & Hdir1).
  destruct (dirlink_records Hdd st dp name inum st1 Hdir Hfind Hmax Hw)
    as (k1 & E1 & Hk1 & Hk1n & Hrinum & Hrname & Hothers).
  pose proof (dir_size _ _ Hdir1) as Hsz1.
  assert (Hn1 : Z.of_nat (dir_records st1 dp) = i_size (inode_of st1 dp) / DIRENT_SIZE).
  { unfold dir_records. apply Z2Nat.id. lia. }
  assert (Hfind1 : dir_find st1 dp name = Some k1).
  { unfold dir_find. apply first_record_intro.
    - rewrite Hn1. lia.
    - unfold rec_matches. rewrite Hrinum, Hrname.
      apply Z.eqb_neq in Hnz. rewrite Hnz. reflexivity.
    - intros j Hj. apply Hothers; lia. }
  apply (dirlink_found st1 dp name inum' k1 ip s2 Hdir1 Hfind1); try assumption.
  rewrite Edev, Hrinum. exact Hget.
Qed.

End TWICE.

Lemma dirlink_twice_witness :
  exists st1 st2,
    dirlink (H:=xv6) 0 [97] 2 st0 = Ret 0 st1
    /\ dirlink (H:=xv6) 0 [97] 3 st1 = Ret (-1) st2
    /\ i_size (inode_of st2 0) = i_size (inode_of st1 0).
Proof.
  set (o := dirlink (H:=xv6) 0 [97] 2 st0).
  assert (Hl : o = Ret 0 (default st0 (final_state o))) by (vm_compute; reflexivity).
  set (st1 := default st0 (final_state o)) in *.
  set (g := iget (i_dev (inode_of st0 0)) (2 mod 2 ^ 16) st1).
  assert (Hg : g = Ret 1%nat (default st1 (final_state g))) by (vm_compute; reflexivity).
  destruct (dirlink_twice (H:=xv6) xv6_dir_dev st0 0 [97] 2 3 st1 st0_dir_ok
              ltac:(lia) ltac:(vm_compute; congruence) Hl 1%nat _ Hg
              ltac:(vm_compute; reflexivity) ltac:(vm_compute; reflexivity))
    as (st2 & Hrun & Hsize & _).
  exists st1, st2. split; [exact Hl|]. split; [exact Hrun | exact Hsize].
Defined.

(** ** Path elements: [skipelem] *)

Lemma skip_slashes_replicate a l :
  skip_slashes (replicate a SLASH ++ l) = skip_slashes l.
Proof. induction a as [|a IH]; [reflexivity | exact IH]. Qed.

Lemma skip_slashes_done l : byte_at l 0 <> SLASH -> skip_slashes l = l.
Proof.
  destruct l as [|c l]; [reflexivity|]. rewrite byte_at_head. intros Hc. simpl.
  apply Z.eqb_neq in Hc. rewrite Hc. reflexivity.
Qed.

Lemma skip_name_elem elem l :
  Forall elem_char elem -> (byte_at l 0 = SLASH \/ byte_at l 0 = 0) ->
  skip_name (elem ++ l) = l.
Proof.
  intros Hel Hl. induction Hel as [|c elem [Hs Hz] _ IH].
  - destruct l as [|x l]; [reflexivity|]. rewrite byte_at_head in Hl. simpl.
    destruct Hl as [-> | ->]; reflexivity.
  - simpl. apply Z.eqb_neq in Hs, Hz. rewrite Hs, Hz. exact IH.
Qed.

Lemma sub_bytes_prefix (l k : list Z) n :
  (n <= length l)%nat ->
  sub_bytes (l ++ k) 0 (Z.of_nat n) = to_uchar <$> take n l.
Proof.
  intros Hn. unfold sub_bytes. rewrite Nat2Z.id.
  apply list_eq. intros i. rewrite !list_lookup_fmap.
  destruct (decide (i < n)%nat) as [Hi|Hi].
  - rewrite lookup_seq_lt by exact Hi. simpl.
    rewrite lookup_take_lt by exact Hi.
    destruct (lookup_lt_is_Some_2 l i ltac:(lia)) as [x Hx].
    rewrite Hx. simpl. f_equal. unfold byte_at. rewrite Z.add_0_l.
    rewrite Nat2Z.id, lookup_app_l by lia. rewrite Hx. reflexivity.
  - rewrite lookup_seq_ge by lia. rewrite lookup_take_ge by lia. reflexivity.
Qed.

(** X13.  [skipelem] splits off the first element of a path.  For a path
    made of any number of slashes, an element (a nonempty run of characters
    that are neither slash nor terminator), any number of slashes and a rest
    that does not begin with a slash (and that is the end of the path when
    no slash precedes it), [skipelem] returns that rest, and [name], a buffer
    of [DIRSIZ] characters, receives the element: its first [DIRSIZ]
    characters without a terminator when it has [DIRSIZ] or more, otherwise
    all of it followed by a terminator, with the buffer beyond that as it
    was. *)
Theorem skipelem_element (a b : nat) (elem rest name : list Z) :
  elem <> [] -> Forall elem_char elem ->
  byte_at rest 0 <> SLASH -> (b = 0%nat -> byte_at rest 0 = 0) ->
  length name = Z.to_nat DIRSIZ ->
  skipelem (replicate a SLASH ++ elem ++ replicate b SLASH ++ rest) name
  = Some (rest,
          if (Z.to_nat DIRSIZ <=? length elem)%nat
          then to_uchar <$> take (Z.to_nat DIRSIZ) elem
          else (to_uchar <$> elem) ++ 0 :: drop (S (length elem)) name).
Proof.
  intros Hne Hel Hrest Hend Hname.
  change (Z.to_nat DIRSIZ) with 14%nat in *.
  unfold skipelem. rewrite skip_slashes_replicate.
  assert (Hhead : byte_at (elem ++ replicate b SLASH ++ rest) 0 <> SLASH
                  /\ byte_at (elem ++ replicate b SLASH ++ rest) 0 <> 0).
  { destruct elem as [|c elem]; [contradiction|].
    apply Forall_cons in Hel as [[Hs Hz] _]. simpl app. rewrite byte_at_head.
    split; assumption. }
  destruct Hhead as [Hh1 Hh2].
  rewrite (skip_slashes_done _ Hh1).
  apply Z.eqb_neq in Hh2. rewrite Hh2. cbv zeta.
  assert (Hafter : byte_at (replicate b SLASH ++ rest) 0 = SLASH
                   \/ byte_at (replicate b SLASH ++ rest) 0 = 0).
  { destruct b as [|b]; [right; apply Hend; reflexivity | left; reflexivity]. }
  rewrite (skip_name_elem elem _ Hel Hafter).
  rewrite skip_slashes_replicate, (skip_slashes_done _ Hrest).
  f_equal. f_equal.
  rewrite length_app.
  replace (Z.of_nat (length elem + length (replicate b SLASH ++ rest))
           - Z.of_nat (length (replicate b SLASH ++ rest)))
    with (Z.of_nat (length elem)) by lia.
  change DIRSIZ with (Z.of_nat 14).
  destruct (Nat.leb_spec 14 (length elem)) as [Hlong|Hshort].
  - assert (Hc : (Z.of_nat 14 <=? Z.of_nat (length elem)) = true)
      by (apply Z.leb_le; lia).
    rewrite Hc. rewrite sub_bytes_prefix by lia.
    rewrite put_bytes_splice
      by (rewrite ?length_fmap, ?length_take; lia).
    rewrite length_fmap, length_take.
    replace (Z.to_nat 0 + 14 `min` length elem)%nat with 14%nat by lia.
    rewrite drop_ge by lia. rewrite app_nil_r. reflexivity.
  - assert (Hc : (Z.of_nat 14 <=? Z.of_nat (length elem)) = false)
      by (apply Z.leb_gt; lia).
    rewrite Hc. rewrite sub_bytes_prefix by lia.
    rewrite firstn_all.
    rewrite put_bytes_splice by (rewrite ?length_fmap; lia).
    change (Z.to_nat 0) with 0%nat. rewrite take_0, app_nil_l, Nat.add_0_l.
    rewrite length_fmap.
    unfold set_byte. rewrite Nat2Z.id.
    rewrite insert_app_r_alt by (rewrite length_fmap; lia).
    rewrite length_fmap, Nat.sub_diag.
    f_equal.
    destruct (drop (length elem) name) as [|x l] eqn:Ed.
    { exfalso. apply (f_equal length) in Ed. rewrite length_drop in Ed. simpl in Ed. lia. }
    simpl. f_equal.
    replace (S (length elem)) with (length elem + 1)%nat by lia.
    rewrite <- drop_drop, Ed. reflexivity.
Qed.

(** The second example of the comment above [skipelem] in fs.c. *)
Lemma skipelem_element_witness :
  skipelem (cstr "///a//bb") (replicate 14 7)
  = Some (cstr "bb", cstr "a" ++ 0 :: replicate 12 7).
Proof.
  apply (skipelem_element 3 2 (cstr "a") (cstr "bb") (replicate 14 7)).
  - discriminate.
  - repeat constructor; vm_compute; congruence.
  - vm_compute. congruence.
  - discriminate.
  - reflexivity.
Defined.

(** ** Resolving the last element of a path *)

Lemma index_lookup_disk st st' blk j :
  disk st' = disk st -> index_lookup st' blk j = index_lookup st blk j.
Proof. intros Hd. unfold index_lookup, block_data. rewrite Hd. reflexivity. Qed.

Lemma walk_disk st st' js : forall a,
  disk st' = disk st -> walk st' a js = walk st a js.
Proof.
  induction js as [|j js IH]; intros a Hd; [reflexivity|].
  unfold walk in *. simpl. rewrite (index_lookup_disk st st' a j Hd). apply IH. exact Hd.
Qed.

Lemma slot_val_disk st st' ip p :
  disk st' = disk st -> i_addrs (inode_of st' ip) = i_addrs (inode_of st ip) ->
  slot_val st' ip p = slot_val st ip p.
Proof.
  intros Hd Ha. destruct p as [|k js]; [reflexivity|].
  unfold slot_val, addr_at. rewrite Ha. apply walk_disk. exact Hd.
Qed.

Lemma in_use_disk st st' b :
  disk st' = disk st -> sb st' = sb st -> in_use st' b = in_use st b.
Proof. intros Hd Hs. unfold in_use, block_data. rewrite Hd, Hs. reflexivity. Qed.

Lemma first_record_same test st st' dp : forall n k,
  (forall j, dir_record st' dp j = dir_record st dp j) ->
  first_record test st' dp n k = first_record test st dp n k.
Proof.
  induction n as [|n IH]; intros k Hrec; [reflexivity|].
  simpl. rewrite Hrec. destruct (test (dir_record st dp k)); [reflexivity|].
  apply IH. exact Hrec.
Qed.

Section SAME.
Context `{Params}.

(** A directory stays well formed, with the same records, when only the
    bookkeeping of the cache (locks, reference counts, validity) changes. *)
Lemma dir_ok_same st st' dp :
  dir_ok st dp ->
  disk st' = disk st -> sb st' = sb st -> held st' = held st ->
  length (icache st') = length (icache st) ->
  same_file (inode_of st dp) (inode_of st' dp) ->
  dir_ok st' dp
  /\ (forall k, dir_record st' dp k = dir_record st dp k)
  /\ (forall name, dir_find st' dp name = dir_find st dp name).
Proof.
  intros Hdir Hd Hs Hh Hlen (Ha & Hsz & Hty & Hin & Hdev).
  assert (Hslot : forall p, slot_val st' dp p = slot_val st dp p)
    by (intros p; apply slot_val_disk; assumption).
  assert (Hbyte : forall p, file_byte st' dp p = file_byte st dp p)
    by (intros p; apply file_byte_same; assumption).
  assert (Hrec : forall k, dir_record st' dp k = dir_record st dp k).
  { intros k. unfold dir_record. apply file_bytes_ext. intros p _. apply Hbyte. }
  split; [|split; [exact Hrec|]].
  - destruct Hdir as [Hfs Hdisk Hheld Htype Hsize Hwhole Hmapped].
    destruct Hfs as [K1 K2 K3 K4 K5 K6 K7 K8 K9 K10].
    constructor.
    + constructor; rewrite ?Hs, ?Hlen, ?Ha, ?Hin; try assumption.
      * intros b d Hb. rewrite Hd in Hb. eapply K4. exact Hb.
      * intros b Hb. rewrite (in_use_disk st st') by assumption. apply K5. exact Hb.
      * intros p Hp. rewrite Hslot, (in_use_disk st st') by assumption.
        apply K9. exact Hp.
      * intros p q Hp Hq. rewrite !Hslot. apply K10; assumption.
    + unfold disk_ok in *. rewrite Hs, Hd. exact Hdisk.
    + rewrite Hh. exact Hheld.
    + rewrite Hty. exact Htype.
    + rewrite Hsz. exact Hsize.
    + rewrite Hsz. exact Hwhole.
    + intros p Hp. rewrite Hsz in Hp.
      unfold lookup_addr, index_lookup, addr_at, block_data. rewrite Hd, Ha.
      apply (Hmapped p Hp).
  - intros name. unfold dir_find, dir_records. rewrite Hsz.
    apply first_record_same. exact Hrec.
Qed.

End SAME.

Lemma ilock_valid st ip i :
  icache st !! ip = Some i -> 1 <= i_ref i -> i_locked i = false -> i_valid i <> 0 ->
  ilock ip st = Ret tt (set_inode st ip (with_locked i true)).
Proof.
  intros Hl Hr Hlock Hv.
  assert (Hlt : (ip < length (icache st))%nat) by (eapply lookup_lt_Some; exact Hl).
  unfold ilock. unfold bind at 1, iread at 1, gets.
  rewrite (inode_of_lookup _ _ _ Hl).
  assert (Hr' : (i_ref i <? 1) = false) by (apply Z.ltb_ge; lia).
  rewrite Hr'.
  rewrite (bind_Ret _ _ _ _ _ (acquiresleep_free st ip i Hl Hlock)).
  unfold bind at 1, iread at 1, gets, id.
  rewrite inode_of_set_eq by exact Hlt.
  change (i_valid (with_locked i true)) with (i_valid i).
  apply Z.eqb_neq in Hv. rewrite Hv. reflexivity.
Qed.

Lemma unlock_back st ip i :
  icache st !! ip = Some i -> i_locked i = false ->
  set_inode (set_inode st ip (with_locked i true)) ip
            (with_locked (with_locked i true) false) = st.
Proof.
  intros Hl Hlock. rewrite set_inode_twice.
  transitivity (set_inode st ip i);
    [f_equal; destruct i; simpl in *; subst; reflexivity | apply set_inode_id; exact Hl].
Qed.

(** [iunlockput] of a handle that is locked and has another reference. *)
Lemma iunlockput_held st ip y :
  icache st !! ip = Some y -> i_locked y = true -> 2 <= i_ref y < 2 ^ 31 ->
  iunlockput ip st
  = Ret tt (set_inode st ip (with_ref (with_locked y false) (i_ref y - 1))).
Proof.
  intros Hl Hlock Hr.
  assert (Hlt : (ip < length (icache st))%nat) by (eapply lookup_lt_Some; exact Hl).
  unfold iunlockput.
  rewrite (bind_Ret _ _ _ _ _ (iunlock_held st ip y Hl Hlock ltac:(lia))).
  assert (Hl' : icache (set_inode st ip (with_locked y false)) !! ip
                = Some (with_locked y false)).
  { unfold set_inode. simpl. apply list_lookup_insert_eq. exact Hlt. }
  rewrite (iput_drop _ ip _ Hl' eq_refl)
    by (right; right; simpl; lia).
  rewrite set_inode_twice. simpl i_ref. rewrite to_int_small by lia. reflexivity.
Qed.

Lemma skipelem_end rest name : byte_at rest 0 = 0 -> skipelem rest name = None.
Proof.
  intros Hz. unfold skipelem.
  rewrite skip_slashes_done by (rewrite Hz; discriminate).
  rewrite Hz. reflexivity.
Qed.

Section LAST.
Context `{Params}.

Lemma namex_loop_S np fuel ip path name :
  namex_loop np (S fuel) ip path name
  = match skipelem path name with
    | None =>
      if negb (np =? 0) then iput ip;; ret (None, name)
      else ret (Some ip, name)
    | Some (path, name) =>
      ilock ip;;
      let* t := iread ip i_type in
      if negb (t =? T_DIR) then iunlockput ip;; ret (None, name)
      else if negb (np =? 0) && (byte_at path 0 =? 0) then
        iunlock ip;; ret (Some ip, name)
      else
        let* next := dirlookup ip name in
        match next with
        | None => iunlockput ip;; ret (None, name)
        | Some (next, _) => iunlockput ip;; namex_loop np fuel next path name
        end
    end.
Proof. reflexivity. Qed.

Variables (st : state) (ip : nat) (i : inode) (path name rest name' : list Z).
Hypothesis Hs : skipelem path name = Some (rest, name').
Hypothesis Hend : byte_at rest 0 = 0.
Hypothesis Hl : icache st !! ip = Some i.
Hypothesis Hr : 2 <= i_ref i < 2 ^ 31 - 1.
Hypothesis Hlock : i_locked i = false.
Hypothesis Hv : i_valid i <> 0.

Let st_l := set_inode st ip (with_locked i true).
Let back := set_inode st ip (with_ref i (i_ref i - 1)).

Lemma last_lt : (ip < length (icache st))%nat.
Proof. eapply lookup_lt_Some. exact Hl. Qed.

Lemma last_locked : icache st_l !! ip = Some (with_locked i true).
Proof. unfold st_l, set_inode. simpl. apply list_lookup_insert_eq. exact last_lt. Qed.

Lemma last_unlockput : iunlockput ip st_l = Ret tt back.
Proof.
  rewrite (iunlockput_held st_l ip _ last_locked eq_refl) by (simpl; lia).
  unfold st_l, back. rewrite set_inode_twice. f_equal. f_equal.
  destruct i; simpl in *; subst; reflexivity.
Qed.

Lemma last_unlock : iunlock ip st_l = Ret tt st.
Proof.
  rewrite (iunlock_held st_l ip _ last_locked eq_refl) by (simpl; lia).
  f_equal. apply unlock_back; assumption.
Qed.

(** The first step of the loop, up to the test of the type. *)
Lemma last_step np fuel :
  namex_loop np (S fuel) ip path name st
  = (if negb (i_type i =? T_DIR) then iunlockput ip;; ret (None, name')
     else if negb (np =? 0) && (byte_at rest 0 =? 0) then
       iunlock ip;; ret (Some ip, name')
     else
       let* next := dirlookup ip name' in
       match next with
       | None => iunlockput ip;; ret (None, name')
       | Some (next, _) => iunlockput ip;; namex_loop np fuel next rest name'
       end) st_l.
Proof.
  rewrite namex_loop_S, Hs.
  rewrite (bind_Ret _ _ _ _ _ (ilock_valid st ip i Hl ltac:(lia) Hlock Hv)).
  fold st_l. unfold bind at 1, iread at 1, gets.
  rewrite (inode_of_lookup _ _ _ last_locked). reflexivity.
Qed.

Lemma namex_loop_last np fuel :
  (i_type i <> T_DIR ->
   namex_loop np (S (S fuel)) ip path name st = Ret (None, name') back)
  /\ (i_type i = T_DIR -> np <> 0 ->
      namex_loop np (S (S fuel)) ip path name st = Ret (Some ip, name') st)
  /\ (T_DIR <> T_DEV -> dir_ok st ip -> np = 0 ->
      match dir_find st ip name' with
      | None => namex_loop np (S (S fuel)) ip path name st = Ret (None, name') back
      | Some k =>
        (has_slot st (i_dev i) (de_inum (dir_record st ip k)) ->
         exists next st',
           namex_loop np (S (S fuel)) ip path name st = Ret (Some next, name') st'
           /\ i_inum (inode_of st' next) = de_inum (dir_record st ip k)
           /\ i_dev (inode_of st' next) = i_dev i
           /\ disk st' = disk st /\ logged st' = logged st
           /\ i_locked (inode_of st' ip) = false)
        /\ (~ has_slot st (i_dev i) (de_inum (dir_record st ip k)) ->
            namex_loop np (S (S fuel)) ip path name st = Panic "iget: no inodes")
      end).
Proof.
  pose proof last_lt as Hlt.
  split; [|split].
  - intros Hty. rewrite last_step. apply Z.eqb_neq in Hty. rewrite Hty. cbn [negb].
    rewrite (bind_Ret _ _ _ _ _ last_unlockput). reflexivity.
  - intros Hty Hnp. rewrite last_step. rewrite Hty, Z.eqb_refl. cbn [negb].
    apply Z.eqb_neq in Hnp. rewrite Hnp, Hend. cbn [negb andb Z.eqb].
    rewrite (bind_Ret _ _ _ _ _ last_unlock). reflexivity.
  - intros Hdd Hdir ->.
    pose proof (dir_type _ _ Hdir) as Hty. rewrite (inode_of_lookup _ _ _ Hl) in Hty.
    rewrite last_step. rewrite Hty, Z.eqb_refl. cbn [negb andb Z.eqb].
    assert (Hsame : same_file (inode_of st ip) (inode_of st_l ip)).
    { unfold st_l. rewrite inode_of_set_eq by exact Hlt.
      rewrite (inode_of_lookup _ _ _ Hl). repeat split. }
    destruct (dir_ok_same st st_l ip Hdir eq_refl eq_refl eq_refl
                (length_icache_set st ip _) Hsame) as (Hdir_l & Hrec & Hfind).
    pose proof (dirlookup_scan Hdd st_l ip name' Hdir_l) as Hlook.
    rewrite Hfind in Hlook.
    destruct (dir_find st ip name') as [k|].
    + rewrite Hrec in Hlook.
      assert (Edev : i_dev (inode_of st_l ip) = i_dev i).
      { unfold st_l. rewrite inode_of_set_eq by exact Hlt. reflexivity. }
      rewrite Edev in Hlook.
      set (inum := de_inum (dir_record st ip k)) in *.
      destruct (iget_total st_l (i_dev i) inum) as [Hsome Hnone].
      assert (Hslot : has_slot st_l (i_dev i) inum <-> has_slot st (i_dev i) inum).
      { apply (has_slot_set st ip i); [exact Hl | reflexivity | reflexivity | lia |].
        simpl. lia. }
      split; [intros Hhas; destruct (Hsome (proj2 Hslot Hhas)) as (next & s3 & Hget)
             | intros Hnot; pose proof (Hnone (fun h => Hnot (proj1 Hslot h))) as Hp].
      * rewrite (bind_Ret _ _ _ _ _ Hget) in Hlook. unfold ret in Hlook.
        rewrite (bind_Ret _ _ _ _ _ Hlook). cbv beta iota.
        apply iget_Ret_inv in Hget as (i0 & Hi0 & Hcase).
        assert (Hlt0 : (next < length (icache st_l))%nat)
          by (eapply lookup_lt_Some; exact Hi0).
        assert (Hshape : exists x, s3 = set_inode st_l next x
                  /\ i_inum x = inum /\ i_dev x = i_dev i
                  /\ i_locked x = i_locked i0
                  /\ (i_ref x = to_int (i_ref i0 + 1) /\ 0 < i_ref i0
                      \/ i_ref i0 = 0)).
        { destruct Hcase as [[(Hpos & Hdev & Hinum) ->]|[Hz ->]]; eexists;
            (split; [reflexivity|]); repeat split; try assumption.
          - left. split; [reflexivity | exact Hpos].
          - right. exact Hz. }
        destruct Hshape as (x & -> & Hxi & Hxd & Hxl & Hxr).
        set (s3 := set_inode st_l next x).
        assert (Hy : exists y, icache s3 !! ip = Some y /\ i_locked y = true
                               /\ 2 <= i_ref y < 2 ^ 31
                               /\ (next = ip -> i_inum y = inum /\ i_dev y = i_dev i)).
        { destruct (decide (next = ip)) as [->|Hne].
          - exists x. rewrite last_locked in Hi0. injection Hi0 as <-.
            split; [unfold s3, set_inode; simpl; apply list_lookup_insert_eq;
                    exact Hlt0|].
            split; [rewrite Hxl; reflexivity|].
            simpl in Hxr. destruct Hxr as [[Hx _]|Hz]; [|lia].
            rewrite Hx, to_int_small by lia. split; [lia|]. intros _. split; assumption.
          - exists (with_locked i true).
            split; [unfold s3, set_inode; simpl;
                    rewrite list_lookup_insert_ne by exact Hne; exact last_locked|].
            split; [reflexivity|]. split; [simpl; lia|]. intros E. congruence. }
        destruct Hy as (y & Hyl & Hylock & Hyr & Hyself).
        rewrite (bind_Ret _ _ _ _ _ (iunlockput_held s3 ip y Hyl Hylock Hyr)).
        set (s5 := set_inode s3 ip (with_ref (with_locked y false) (i_ref y - 1))).
        rewrite namex_loop_no_element by (apply skipelem_end; exact Hend).
        change (0 =? 0) with true. cbv iota.
        exists next, s5. split; [reflexivity|].
        assert (Hlt3 : (ip < length (icache s3))%nat)
          by (eapply lookup_lt_Some; exact Hyl).
        assert (Eip : inode_of s5 ip = with_ref (with_locked y false) (i_ref y - 1))
          by (apply inode_of_set_eq; exact Hlt3).
        assert (Enext : i_inum (inode_of s5 next) = inum
                        /\ i_dev (inode_of s5 next) = i_dev i).
        { destruct (decide (next = ip)) as [->|Hne].
          - rewrite Eip. simpl. apply Hyself. reflexivity.
          - unfold s5. rewrite inode_of_set_ne by congruence.
            unfold s3. rewrite inode_of_set_eq by exact Hlt0. split; assumption. }
        destruct Enext as [E1 E2].
        split; [exact E1|]. split; [exact E2|].
        split; [reflexivity|]. split; [reflexivity|].
        rewrite Eip. reflexivity.
      * rewrite (bind_Panic _ _ _ _ Hp) in Hlook.
        rewrite (bind_Panic _ _ _ _ Hlook). reflexivity.
    + rewrite (bind_Ret _ _ _ _ _ Hlook). cbv beta iota.
      rewrite (bind_Ret _ _ _ _ _ last_unlockput). reflexivity.
Qed.

End LAST.

Section RESOLVE.
Context `{Params}.

Lemma iget_cached st dev inum ip i :
  first_slot st (cached dev inum) ip i -> i_ref i < 2 ^ 31 - 1 ->
  iget dev inum st = Ret ip (set_inode st ip (with_ref i (i_ref i + 1))).
Proof.
  intros (Hl & Hc & Hfirst) Hmax.
  unfold iget, bind, gets.
  rewrite (iget_scan_found dev inum (icache st) 0 None ip i Hl Hc Hfirst).
  simpl. unfold iwrite, modify, ret. rewrite (inode_of_lookup st ip i Hl).
  destruct Hc as (Hpos & _). rewrite to_int_small; [reflexivity | lia].
Qed.

(** X14.  Resolving a path whose first element is its last.  [namex]
    starts at the cached root inode for a path that begins with a slash and
    at the current directory otherwise, taking one more reference on it.
    With the start handle referenced, unlocked and valid:
    - when the start is not a directory, no handle is returned and the
      reference is dropped again, so the state is as it was;
    - [nameiparent] returns the start directory itself, unlocked, with the
      reference it took, and [name] holds the element;
    - [namei] looks the element up in the start directory: when no record
      matches it returns no handle and the state is as it was; when record
      [k] is the first match and the cache holds the inode of that record
      or a free slot, it returns a handle for the inode number of the
      record, leaves the start directory unlocked and does not touch the
      disk or the log; when the cache holds neither, it panics in
      [iget]. *)
Theorem namex_last_element (st : state) (np : Z) (path name rest name' : list Z)
        (rp : nat) (i : inode) :
  skipelem path name = Some (rest, name') -> byte_at rest 0 = 0 ->
  (byte_at path 0 = SLASH /\ first_slot st (cached ROOTDEV ROOTINO) rp i)
  \/ (byte_at path 0 <> SLASH /\ rp = cwd st /\ icache st !! rp = Some i) ->
  1 <= i_ref i < 2 ^ 31 - 2 -> i_locked i = false -> i_valid i <> 0 ->
  (i_type i <> T_DIR -> namex path np name st = Ret (None, name') st)
  /\ (i_type i = T_DIR -> np <> 0 ->
      namex path np name st
      = Ret (Some rp, name') (set_inode st rp (with_ref i (i_ref i + 1))))
  /\ (T_DIR <> T_DEV -> dir_ok st rp -> np = 0 ->
      match dir_find st rp name' with
      | None => namex path np name st = Ret (None, name') st
      | Some k =>
        (has_slot st (i_dev i) (de_inum (dir_record st rp k)) ->
         exists next st',
           namex path np name st = Ret (Some next, name') st'
           /\ i_inum (inode_of st' next) = de_inum (dir_record st rp k)
           /\ i_dev (inode_of st' next) = i_dev i
           /\ disk st' = disk st /\ logged st' = logged st
           /\ i_locked (inode_of st' rp) = false)
        /\ (~ has_slot st (i_dev i) (de_inum (dir_record st rp k)) ->
            namex path np name st = Panic "iget: no inodes")
      end).
Proof.
  intros Hs Hend Hstart Hr Hlock Hv.
  set (i1 := with_ref i (i_ref i + 1)).
  set (st1 := set_inode st rp i1).
  assert (Hl : icache st !! rp = Some i).
  { destruct Hstart as [(_ & Hl & _)|(_ & _ & Hl)]; exact Hl. }
  assert (Hlt : (rp < length (icache st))%nat) by (eapply lookup_lt_Some; exact Hl).
  assert (Hlen : exists fuel, length path = S fuel).
  { destruct path as [|c p]; [discriminate | eexists; reflexivity]. }
  destruct Hlen as (fuel & Hlen).
  assert (Hrun : namex path np name st
                 = namex_loop np (S (S fuel)) rp path name st1).
  { unfold namex. rewrite Hlen.
    destruct Hstart as [(Hsl & Hfirst)|(Hsl & -> & _)].
    - rewrite Hsl, Z.eqb_refl.
      rewrite (bind_Ret _ _ _ _ _ (iget_cached st _ _ rp i Hfirst ltac:(lia))).
      reflexivity.
    - apply Z.eqb_neq in Hsl. rewrite Hsl.
      rewrite bind_assoc. unfold bind at 1, gets.
      rewrite (bind_Ret _ _ _ _ _
                 (idup_ref st (cwd st) i Hl ltac:(unfold INT_MAX; lia))).
      reflexivity. }
  assert (Hl1 : icache st1 !! rp = Some i1).
  { unfold st1, set_inode. simpl. apply list_lookup_insert_eq. exact Hlt. }
  assert (Hback : set_inode st1 rp (with_ref i1 (i_ref i1 - 1)) = st).
  { unfold st1. rewrite set_inode_twice. unfold i1. simpl.
    replace (i_ref i + 1 - 1) with (i_ref i) by lia.
    transitivity (set_inode st rp i);
      [f_equal; destruct i; reflexivity | apply set_inode_id; exact Hl]. }
  destruct (namex_loop_last st1 rp i1 path name rest name' Hs Hend Hl1
              ltac:(simpl; lia) Hlock Hv np fuel) as (Ha & Hb & Hc).
  rewrite Hrun. rewrite Hback in Ha, Hc.
  split; [exact Ha|]. split; [exact Hb|].
  intros Hdd Hdir Hnp.
  assert (Hsame : same_file (inode_of st rp) (inode_of st1 rp)).
  { rewrite (inode_of_lookup _ _ _ Hl), (inode_of_lookup _ _ _ Hl1). repeat split. }
  destruct (dir_ok_same st st1 rp Hdir eq_refl eq_refl eq_refl
              (length_icache_set st rp _) Hsame) as (Hdir1 & Hrec & Hfind).
  specialize (Hc Hdd Hdir1 Hnp). rewrite Hfind in Hc.
  destruct (dir_find st rp name') as [k|]; [|exact Hc].
  rewrite Hrec in Hc. change (i_dev i1) with (i_dev i) in Hc.
  pose proof (has_slot_set st rp i i1 (i_dev i) (de_inum (dir_record st rp k))
                Hl eq_refl eq_refl ltac:(lia) ltac:(simpl; lia)) as Hslot.
  fold st1 in Hslot. destruct Hc as [Hsome Hnone]. split.
  - intros Hhas. exact (Hsome (proj2 Hslot Hhas)).
  - intros Hnot. exact (Hnone (fun h => Hnot (proj1 Hslot h))).
Qed.

End RESOLVE.

Lemma st_a_ok : dir_ok (H:=xv6) st_a 0.
Proof.
  assert (E : dirlink (H:=xv6) 0 [97] 2 st0 = Ret 0 st_a) by (vm_compute; reflexivity).
  destruct (dirlink_written xv6_dir_dev st0 0 [97] 2 0 st_a st0_dir_ok eq_refl E)
    as (_ & Hmax & Hw).
  apply (dirlink_state xv6_dir_dev st0 0 [97] 2 st_a st0_dir_ok Hmax Hw).
Qed.

Lemma st_busy_ok : dir_ok (H:=xv6) st_busy 0.
Proof.
  apply (dir_ok_same st_a st_busy 0 st_a_ok);
    [reflexivity | reflexivity | reflexivity | vm_compute; reflexivity |].
  unfold st_busy, with_icache, inode_of. simpl. repeat split.
Qed.

(** The cache of [st_busy] holds neither inode 2 nor a free slot. *)
Lemma st_busy_full : ~ has_slot st_busy (i_dev (inode_of st_a 0)) 2.
Proof.
  intros (j & x & Hj & Hx).
  destruct j as [|[|[|[|[|j]]]]]; simpl in Hj; try discriminate;
    injection Hj as <-; destruct Hx as [(_ & _ & Hi)|Hz];
    try (vm_compute in Hi; discriminate); vm_compute in Hz; discriminate.
Qed.

Lemma namex_last_element_witness :
  nameiparent (H:=xv6) (cstr "/a") (replicate 14 0) st_a
  = Ret (Some 0%nat, cstr "a" ++ replicate 13 0)
        (set_inode st_a 0 (with_ref (inode_of st_a 0) 2))
  /\ (exists st',
        namei (H:=xv6) (cstr "/a") st_a = Ret (Some 1%nat) st'
        /\ i_inum (inode_of st' 1) = 2 /\ disk st' = disk st_a)
  /\ namei (H:=xv6) (cstr "/a") st_busy = Panic "iget: no inodes".
Proof.
  assert (Hs : skipelem (cstr "/a") (replicate 14 0)
               = Some ([], cstr "a" ++ replicate 13 0)) by reflexivity.
  assert (Hfirst : first_slot st_a (cached (ROOTDEV (Params:=xv6)) ROOTINO) 0
                              (inode_of st_a 0)).
  { split; [vm_compute; reflexivity|]. split; [vm_compute; repeat split; congruence|].
    intros j i' Hj. lia. }
  assert (Hfirstb : first_slot st_busy (cached (ROOTDEV (Params:=xv6)) ROOTINO) 0
                               (inode_of st_a 0)).
  { split; [reflexivity|]. split; [vm_compute; repeat split; congruence|].
    intros j i' Hj. lia. }
  split; [|split].
  - destruct (namex_last_element (H:=xv6) st_a 1 _ _ _ _ 0 (inode_of st_a 0) Hs eq_refl
                (or_introl (conj eq_refl Hfirst))
                ltac:(vm_compute; split; congruence) eq_refl
                ltac:(vm_compute; congruence)) as (_ & Hparent & _).
    unfold nameiparent.
    exact (Hparent ltac:(vm_compute; reflexivity) ltac:(lia)).
  - destruct (namex_last_element (H:=xv6) st_a 0 _ _ _ _ 0 (inode_of st_a 0) Hs eq_refl
                (or_introl (conj eq_refl Hfirst))
                ltac:(vm_compute; split; congruence) eq_refl
                ltac:(vm_compute; congruence)) as (_ & _ & Hlook).
    specialize (Hlook xv6_dir_dev st_a_ok eq_refl).
    assert (E : dir_find st_a 0 (cstr "a" ++ replicate 13 0) = Some 0)
      by (vm_compute; reflexivity).
    rewrite E in Hlook.
    assert (E2 : de_inum (dir_record st_a 0 0) = 2) by (vm_compute; reflexivity).
    rewrite E2 in Hlook. unfold namei.
    destruct Hlook as [Hsome _].
    destruct Hsome as (next & st' & Hrun & Hin & _ & Hd & _).
    { exists 1%nat, blank_inode. split; [vm_compute; reflexivity | right; reflexivity]. }
    assert (En : next = 1%nat).
    { assert (E3 : returned (namex (H:=xv6) (cstr "/a") 0 (replicate 14 0) st_a)
                   = Some (Some 1%nat, cstr "a" ++ replicate 13 0))
        by (vm_compute; reflexivity).
      rewrite Hrun in E3. simpl in E3. congruence. }
    subst next. exists st'. rewrite (bind_Ret _ _ _ _ _ Hrun).
    split; [reflexivity|]. split; assumption.
  - destruct (namex_last_element (H:=xv6) st_busy 0 _ _ _ _ 0 (inode_of st_a 0) Hs eq_refl
                (or_introl (conj eq_refl Hfirstb))
                ltac:(vm_compute; split; congruence) eq_refl
                ltac:(vm_compute; congruence)) as (_ & _ & Hlook).
    specialize (Hlook xv6_dir_dev st_busy_ok eq_refl).
    assert (E : dir_find st_busy 0 (cstr "a" ++ replicate 13 0) = Some 0)
      by (vm_compute; reflexivity).
    rewrite E in Hlook.
    assert (E2 : de_inum (dir_record st_busy 0 0) = 2) by (vm_compute; reflexivity).
    rewrite E2 in Hlook. unfold namei.
    destruct Hlook as [_ Hnone].
    rewrite (bind_Panic _ _ _ _ (Hnone st_busy_full)). reflexivity.
Defined.

(** ** Dropping the last reference: [iput] *)

(** A file system stays well formed around an inode when only fields of
    cache slots other than the inode number and the addresses change. *)
Lemma fs_ok_same st st' ip :
  fs_ok st ip ->
  disk st' = disk st -> sb st' = sb st ->
  length (icache st') = length (icache st) ->
  i_addrs (inode_of st' ip) = i_addrs (inode_of st ip) ->
  i_inum (inode_of st' ip) = i_inum (inode_of st ip) ->
  fs_ok st' ip.
Proof.
  intros [K1 K2 K3 K4 K5 K6 K7 K8 K9 K10] Hd Hs Hlen Ha Hin.
  assert (Hslot : forall p, slot_val st' ip p = slot_val st ip p)
    by (intros p; apply slot_val_disk; assumption).
  constructor; rewrite ?Hs, ?Hlen, ?Ha, ?Hin; try assumption.
  - intros b d Hb. rewrite Hd in Hb. eapply K4. exact Hb.
  - intros b Hb. rewrite (in_use_disk st st') by assumption. apply K5. exact Hb.
  - intros p Hp. rewrite Hslot, (in_use_disk st st') by assumption. apply K9. exact Hp.
  - intros p q Hp Hq. rewrite !Hslot. apply K10; assumption.
Qed.

(** [itrunc] returns in a well-formed file system, which it leaves well
    formed, with the blocks of the inode freed and an empty file in the
    cache slot. *)
Lemma itrunc_run st ip :
  fs_ok st ip -> disk_ok st -> held st = [] ->
  sb st = decode_sb (block_data st 1) ->
  exists st',
    itrunc ip st = Ret tt st'
    /\ fs_ok st' ip /\ disk_ok st' /\ held st' = [] /\ sb st' = sb st
    /\ length (icache st') = length (icache st)
    /\ strip_addrs (inode_of st' ip) = strip_addrs (with_size (inode_of st ip) 0)
    /\ (forall k, addr_at (inode_of st' ip) k = 0)
    /\ (forall p, slot_path p -> slot_val st ip p <> 0 ->
          in_use st' (slot_val st ip p) = false).
Proof.
  intros Hok Hd Hh Hsb.
  assert (Hhd : held_data st st).
  { intros x Hx. rewrite Hh in Hx. inversion Hx. }
  unfold itrunc.
  destruct (trunc_direct st ip Hok Hd Hsb (Z.to_nat NDIRECT) 0 st
              ltac:(rewrite NDIRECT_val; lia) ltac:(lia)
              (trunc_inv_start st ip Hok) Hhd)
    as (sA & HrunA & HiA & HhA).
  rewrite (bind_Ret _ _ _ _ _ HrunA). rewrite Hh in HhA.
  unfold bind at 1, iread at 1, gets.
  destruct (trunc_single st ip Hok Hd Hsb sA HiA HhA) as (sB & HrunB & HiB & HhB).
  rewrite (bind_Ret _ _ _ _ _ HrunB).
  unfold bind at 1, iread at 1, gets.
  destruct (trunc_double st ip Hok Hd Hsb sB HiB HhB) as (sC & HrunC & HiC & HhC).
  rewrite (bind_Ret _ _ _ _ _ HrunC).
  unfold bind at 1, iwrite at 1, modify.
  destruct (trunc_done st ip Hok Hd sC HiC) as (HokC & HdC & Hz & Hfreed).
  destruct (fs_ok_set_size sC ip 0 HokC) as (HokD & _ & HsD & HiD).
  set (sD := set_inode sC ip (with_size (inode_of sC ip) 0)) in *.
  assert (EiD : inode_of sD ip = with_size (inode_of sC ip) 0).
  { unfold sD. apply inode_of_set_eq. apply HokC. }
  destruct (iupdate_returns sD ip HokD HdC HhC) as (st' & Hupd).
  exists st'. split; [exact Hupd|].
  destruct (iupdate_ok sD ip st' HokD Hupd) as (Hok' & Hic & _ & _ & _).
  destruct (iupdate_state sD ip st' Hupd) as (Hrd & Est).
  destruct (IBLOCK_meta sD ip HokD) as (Hbm & _ & _).
  assert (Esb : sb sD = sb st) by apply (ti_sb _ _ _ _ _ HiC).
  assert (Ei : inode_of st' ip = inode_of sD ip).
  { unfold inode_of. rewrite Hic. reflexivity. }
  split; [exact Hok'|].
  split; [rewrite Est; unfold disk_ok in *; simpl; rewrite length_insert; exact HdC|].
  split; [rewrite Est; exact HhC|].
  split; [rewrite Est; exact Esb|].
  split; [rewrite Hic; unfold sD; rewrite length_icache_set;
          exact (ti_handle _ _ _ _ _ HiC)|].
  split.
  { rewrite Ei, EiD.
    pose proof (ti_inode _ _ _ _ _ HiC) as Hs.
    unfold strip_addrs in *. simpl. injection Hs as E1 E2 E3 E4 E5 E6 E7 E8 E9 E10.
    congruence. }
  split; [intros k; rewrite Ei, EiD; apply Hz|].
  intros p Hp Hnz. rewrite Est.
  change (in_use (set_block sD (IBLOCK (i_inum (inode_of sD ip)) (sb sD))
                    (put_dinode (block_data sD (IBLOCK (i_inum (inode_of sD ip)) (sb sD)))
                                (dinode_pos (i_inum (inode_of sD ip))) (inode_of sD ip)))
            (slot_val st ip p) = false).
  destruct (ok_slots _ _ Hok p Hp Hnz) as [Hdata _].
  pose proof (data_start_pos _ (ok_size _ _ Hok) (ok_bmapstart _ _ Hok)) as Hds.
  rewrite (in_use_set_block sD ip);
    [ apply Hfreed; assumption | exact HokD | lia
    | rewrite Esb; unfold is_data in Hdata; lia | left; lia ].
Qed.

(** X15.  [iput] of the last reference to an inode without links frees the
    inode and its content.  In a well-formed file system with every block on
    the disk and no buffer locked, for a valid, unlocked handle with link
    count 0 and reference count 1, [iput] returns; afterwards the slot is
    free (reference count 0, not valid, unlocked), the inode has type 0 and
    size 0 on the disk, so that [ialloc] can take it again, and every block
    that the inode held, data or index, is free in the bitmap. *)
Theorem iput_last_frees (st : state) (ip : nat) :
  fs_ok st ip -> disk_ok st -> held st = [] ->
  sb st = decode_sb (block_data st 1) ->
  i_locked (inode_of st ip) = false -> i_valid (inode_of st ip) <> 0 ->
  i_nlink (inode_of st ip) = 0 -> i_ref (inode_of st ip) = 1 ->
  exists st',
    iput ip st = Ret tt st'
    /\ i_ref (inode_of st' ip) = 0 /\ i_valid (inode_of st' ip) = 0
    /\ i_locked (inode_of st' ip) = false
    /\ i_type (inode_of st' ip) = 0 /\ i_size (inode_of st' ip) = 0
    /\ (forall k, addr_at (inode_of st' ip) k = 0)
    /\ disk_type st' (i_inum (inode_of st ip)) = 0
    /\ dinode_size (block_data st' (IBLOCK (i_inum (inode_of st ip)) (sb st')))
                   (dinode_pos (i_inum (inode_of st ip))) = 0
    /\ (forall p, slot_path p -> slot_val st ip p <> 0 ->
          in_use st' (slot_val st ip p) = false).
Proof.
  intros Hok Hd Hh Hsb Hlock Hv Hn Hr.
  pose proof (ok_handle _ _ Hok) as Hlt.
  destruct (lookup_lt_is_Some_2 (icache st) ip Hlt) as [i Hl].
  rewrite (inode_of_lookup _ _ _ Hl) in *.
  set (sl := set_inode st ip (with_locked i true)).
  assert (El : inode_of sl ip = with_locked i true)
    by (apply inode_of_set_eq; exact Hlt).
  assert (Hokl : fs_ok sl ip).
  { apply (fs_ok_same st sl ip Hok); try reflexivity.
    - apply length_icache_set.
    - rewrite El, (inode_of_lookup _ _ _ Hl). reflexivity.
    - rewrite El, (inode_of_lookup _ _ _ Hl). reflexivity. }
  assert (Hslots_l : forall p, slot_val sl ip p = slot_val st ip p).
  { intros p. apply slot_val_disk; [reflexivity|].
    rewrite El, (inode_of_lookup _ _ _ Hl). reflexivity. }
  destruct (itrunc_run sl ip Hokl Hd Hh Hsb)
    as (sT & HrunT & HokT & HdT & HhT & HsbT & HlenT & HstripT & HzT & HfreeT).
  set (t := inode_of sT ip) in *.
  assert (HltT : (ip < length (icache sT))%nat) by apply HokT.
  set (sU := set_inode sT ip (with_type t 0)).
  assert (EU : inode_of sU ip = with_type t 0)
    by (apply inode_of_set_eq; exact HltT).
  assert (HokU : fs_ok sU ip).
  { apply (fs_ok_same sT sU ip HokT); try reflexivity.
    - apply length_icache_set.
    - rewrite EU. reflexivity.
    - rewrite EU. reflexivity. }
  destruct (iupdate_returns sU ip HokU HdT HhT) as (sV & HrunV).
  destruct (iupdate_ok sU ip sV HokU HrunV) as (HokV & HicV & _ & _ & HszV).
  destruct (iupdate_state sU ip sV HrunV) as (HrdV & EV).
  destruct (IBLOCK_meta sU ip HokU) as (HbmV & _ & _).
  assert (Einum : i_inum (inode_of sU ip) = i_inum i).
  { rewrite EU. change (i_inum (with_type t 0)) with (i_inum t).
    pose proof (f_equal i_inum HstripT) as E. simpl in E. rewrite El in E. exact E. }
  assert (Efields : i_ref t = 1 /\ i_valid t = i_valid i /\ i_nlink t = 0
                    /\ i_locked t = true /\ i_size t = 0).
  { pose proof HstripT as E. rewrite El in E. unfold strip_addrs in E. simpl in E.
    injection E as E1 E2 E3 E4 E5 E6 E7 E8 E9 E10. repeat split; congruence. }
  destruct Efields as (Et_ref & Et_valid & Et_nlink & Et_lock & Et_size).
  (* the run of [iput] *)
  assert (Hrun : iput ip st
                 = Ret tt (set_inode sV ip
                             (with_ref (with_locked (with_valid (with_type t 0) 0) false) 0))).
  { unfold iput.
    rewrite (bind_Ret _ _ _ _ _ (acquiresleep_free st ip i Hl Hlock)). fold sl.
    unfold bind at 1, iread at 1, gets, id. rewrite El.
    change (i_valid (with_locked i true)) with (i_valid i).
    change (i_nlink (with_locked i true)) with (i_nlink i).
    apply Z.eqb_neq in Hv. rewrite Hv, Hn. cbn [negb andb Z.eqb].
    unfold bind at 1. unfold bind at 1, iread at 1, gets. rewrite El.
    change (i_ref (with_locked i true)) with (i_ref i). rewrite Hr.
    change (1 =? 1) with true. cbv iota.
    unfold bind at 1. rewrite HrunT.
    unfold bind at 1, iwrite at 1, modify. fold t sU.
    unfold bind at 1. rewrite HrunV.
    unfold iwrite at 1, modify.
    unfold bind at 1, releasesleep, iwrite at 1, modify.
    unfold iwrite, modify.
    assert (EV' : inode_of sV ip = with_type t 0).
    { unfold inode_of. rewrite HicV. exact EU. }
    assert (HltV : (ip < length (icache sV))%nat)
      by (rewrite HicV; unfold sU; rewrite length_icache_set; exact HltT).
    rewrite EV'.
    rewrite !inode_of_set_eq by (rewrite ?length_icache_set; exact HltV).
    rewrite !set_inode_twice.
    simpl i_ref. rewrite Et_ref. reflexivity. }
  eexists. split; [exact Hrun|].
  set (sY := set_inode sV ip _).
  assert (HltV : (ip < length (icache sV))%nat)
    by (rewrite HicV; unfold sU; rewrite length_icache_set; exact HltT).
  assert (EY : inode_of sY ip
               = with_ref (with_locked (with_valid (with_type t 0) 0) false) 0)
    by (apply inode_of_set_eq; exact HltV).
  rewrite EY. simpl.
  split; [reflexivity|]. split; [reflexivity|]. split; [reflexivity|].
  split; [reflexivity|]. split; [exact Et_size|].
  split; [exact HzT|].
  assert (HsbV : sb sV = sb st) by (rewrite EV; exact HsbT).
  set (b := IBLOCK (i_inum i) (sb st)).
  set (pos := dinode_pos (i_inum i)).
  assert (EbV : block_data sV b = put_dinode (block_data sU b) pos (with_type t 0)).
  { rewrite EV. rewrite block_data_with_logged.
    rewrite Einum, EU. change (sb sU) with (sb sT). rewrite HsbT. fold b pos.
    apply block_data_set_eq; [apply to_uint_range|].
    apply readable_lt. rewrite Einum in HrdV. change (sb sU) with (sb sT) in HrdV.
    rewrite HsbT in HrdV. exact HrdV. }
  assert (HrdU : readable sU b).
  { rewrite Einum in HrdV. change (sb sU) with (sb sT) in HrdV.
    rewrite HsbT in HrdV. exact HrdV. }
  assert (Hlenb : length (block_data sU b) = Z.to_nat BSIZE).
  { apply blocks_ok_length; [apply HokU | apply HrdU]. }
  pose proof (dinode_pos_bound (i_inum i)) as Hpos. fold pos in Hpos.
  split.
  { unfold disk_type. change (sb sY) with (sb sV). rewrite HsbV. fold b pos.
    change (block_data sY b) with (block_data sV b). rewrite EbV.
    unfold dinode_type.
    destruct (dinode_shorts_put_dinode (block_data sU b) pos (with_type t 0))
      as (E1 & _); [lia | rewrite Hlenb; rewrite BSIZE_val in *; lia |].
    rewrite E1. reflexivity. }
  split.
  { change (sb sY) with (sb sV). rewrite HsbV. fold b pos.
    change (block_data sY b) with (block_data sV b). rewrite EbV.
    rewrite dinode_size_put_dinode by (rewrite ?Hlenb; rewrite ?BSIZE_val in *; lia).
    change (i_size (with_type t 0)) with (i_size t). rewrite Et_size. reflexivity. }
  intros p Hp Hnz.
  change (in_use sY (slot_val st ip p)) with (in_use sV (slot_val st ip p)).
  rewrite EV.
  change (in_use (with_logged ?s ?l) ?x) with (in_use s x).
  destruct (ok_slots _ _ Hok p Hp Hnz) as [Hdata _].
  pose proof (data_start_pos _ (ok_size _ _ Hok) (ok_bmapstart _ _ Hok)) as Hds.
  rewrite (in_use_set_block sU ip);
    [ | exact HokU | apply to_uint_range
      | change (sb sU) with (sb sT); rewrite HsbT; change (sb sl) with (sb st);
        unfold is_data in Hdata; lia
      | left; lia ].
  change (in_use sU (slot_val st ip p)) with (in_use sT (slot_val st ip p)).
  rewrite <- Hslots_l. apply HfreeT; [exact Hp | rewrite Hslots_l; exact Hnz].
Qed.

Lemma st_unlinked_ok : fs_ok st_unlinked 0.
Proof.
  apply (fs_ok_same st1 st_unlinked 0 st1_ok).
  - unfold st_unlinked, set_inode, with_icache. reflexivity.
  - unfold st_unlinked, set_inode, with_icache. reflexivity.
  - vm_compute. reflexivity.
  - vm_compute. reflexivity.
  - vm_compute. reflexivity.
Qed.

Lemma st_unlinked_disk_ok : disk_ok st_unlinked.
Proof. vm_compute. discriminate. Qed.

Lemma iput_last_frees_witness :
  exists st',
    iput 0 st_unlinked = Ret tt st'
    /\ i_ref (inode_of st' 0) = 0 /\ i_valid (inode_of st' 0) = 0
    /\ disk_type st' 1 = 0
    /\ in_use st' (slot_val st_unlinked 0 [0]) = false.
Proof.
  destruct (iput_last_frees st_unlinked 0 st_unlinked_ok st_unlinked_disk_ok
              ltac:(vm_compute; reflexivity) ltac:(vm_compute; reflexivity)
              ltac:(vm_compute; reflexivity) ltac:(vm_compute; congruence)
              ltac:(vm_compute; reflexivity) ltac:(vm_compute; reflexivity))
    as (st' & Hrun & Href & Hvalid & _ & _ & _ & _ & Htype & _ & Hfree).
  exists st'. split; [exact Hrun|]. split; [exact Href|]. split; [exact Hvalid|].
  split; [|apply Hfree; [apply sp_direct; vm_compute; split; congruence
                         | vm_compute; congruence]].
  assert (E : i_inum (inode_of st_unlinked 0) = 1) by (vm_compute; reflexivity).
  rewrite E in Htype. exact Htype.
Defined.

(** ** The inode cache holds an inode once *)




